(* ===== verification/_CoqProject ===== *)
-Q . S2P
Prelude.v
TracerHost.v
CounterTracers.v
CallTracer.v
PrestateTracer.v
EvmdisTracer.v
DashLogs.v
DashContent.v
DashCharts.v
DashView.v
Words.v
WordArray.v
TypedArrays.v
Hasher.v
Sha256.v
Hashes.v
X64.v
Sha512.v
Sha3.v
Utf8.v
Encoders.v
Kdf.v
Digests.v
Cipher.v
CipherBlocks.v
CipherRoundtrip.v
Aes.v
Des.v
Stream.v
StreamCiphers.v
Ciphers.v
BigNumber.v
BigDigits.v
BigMinus.v
Utils.v
Solidity.v
Coder.v
CoderRoundtrip.v
Iban.v
Rpc.v
Json.v
DashApp.v
Ipc.v
Http.v
Formatters.v
Methods.v
Web3Object.v
Contracts.v
Registrars.v
ContractCalls.v
ConsoleScripts.v
NodeScripts.v
Filters.v
EventWatch.v
IntWords.v
