(* ===== verification/Prelude.v ===== *)
(** Verification of the JavaScript parts of Monereum.

    Monereum is a fork of the Go Ethereum node with private transactions.  Four
    groups of JavaScript programs run in it or beside it, and are modelled here:

    - the transaction tracers (src/eth/tracers/internal/tracers), run by the node
      inside its tracing host (src/eth/tracers/tracer.go), once per executed
      opcode of a transaction;
    - the dashboard (src/dashboard/assets), a page that shows the node's metrics
      and logs from messages it receives on a socket;
    - web3 (src/internal/jsre/deps/web3.js, with bignumber.js), the library of the
      node's console: it encodes calls of contracts, signs nothing itself, sends
      requests to the node and reads the answers.  It bundles crypto-js and utf8;
    - the example scripts (src/monereum-examples/examples/7nodes), which use web3 to
      deploy contracts, publicly or to one node, and to look for vulnerable ones.

    * How code is represented

    A JavaScript string is the list of its 16-bit code units ([jsstr]); a thrown
    exception is [None]; 32-bit operators wrap as in the language (file Words);
    objects used as maps are finite maps, or association lists where the order of
    the keys is observable; dynamic values are the type [value] of Utils.  A
    program that waits for answers is a state machine: a state, an event handler
    and a list of effects (requests sent, callbacks called, timers set).  Numbers
    are integers where the code only makes integers; [f64] rounds to the precision
    of a double where counters could pass it.

    * Tracers

    TracerHost has what tracers see of the host: the log of a step, stack, memory,
    database and the conversion builtins.  CounterTracers has the noop, opcount,
    unigram, bigram, trigram and 4byte tracers, each with its state, [step] and
    [result]; the state after a trace is a count over the trace.  CallTracer has
    call_tracer.js: [step], [fault], [result] and [finalize] on an explicit stack,
    refined against a reference that evaluates an execution as a tree of calls,
    under the condition [wf_items] under which the tracer is right; it never
    throws on a trace of the node.  PrestateTracer has prestate_tracer.js: each
    account is recorded as of its first access.  EvmdisTracer has evmdis_tracer.js
    with the store of its shared report objects.

    * Dashboard

    DashLogs: [createChunk] and the [inserter], whose window of log chunks stays
    sorted, bounded and consistent with its flags.  DashContent: [deepUpdate], the
    updaters and the component's transitions; no message of the right shape makes
    the page throw, and an update changes exactly the paths it names.  DashCharts:
    data series and tooltip texts.  DashView: the render methods of all components as
    functions to trees of elements, and what is kept of the last rendering; the screen
    shows the state over every run without a reconnection that loses data of the
    footer.  DashApp: the page as a whole with its updates, scrolling and requests; it
    asks only for log files it does not have, one at a time.

    * Cryptography

    Words and WordArray have the 32-bit operators and crypto-js's byte arrays,
    TypedArrays their construction from typed arrays;
    Hasher the buffered hasher as a class [Algorithm] with laws, for which hashing
    in pieces is hashing the whole.  Sha256, Hashes (SHA-1, MD5, RIPEMD-160), X64
    with Sha512, and Sha3 have the block functions and paddings; SHA-2 and Keccak
    are proved equal to definitions written after the standards, for every
    message.  Kdf and Digests have HMAC, PBKDF2, EvpKDF and web3's [sha3].  Utf8 and
    Encoders have the encodings and their round trips.  Cipher, CipherBlocks and CipherRoundtrip have
    modes and paddings over any block cipher, Aes and Des the block ciphers, Stream
    and StreamCiphers the stream ciphers, Ciphers the whole path from a message and
    a password to a text and back: decryption undoes encryption for every cipher,
    mode and padding, and AES is the cipher of FIPS 197.

    * web3

    BigNumber has numbers by value, with the rounding mode as an argument; BigDigits
    and BigMinus have multiplication, addition, subtraction and comparison on the arrays
    of base 10^14 digits inside a number, in doubles and 32-bit integers as the code
    computes them, proved to compute the product, sum, difference and order of the values
    within the exponent limits.  Utils
    has the conversions and the address checksum.  Solidity, Coder and
    CoderRoundtrip have the types, the coder, and that decoding undoes encoding for
    every list of parameters of elementary types and of arrays the coder supports;
    IntWords has the width of encoded integers, within and outside the range.  Iban
    has account numbers.  Rpc has payloads, batches and the request manager as a
    state machine: polls are answered, each answer goes to its own poll, and the
    timer is always set again.  Json has JSON.parse beside the stringify of Utils, and
    that a text that is cut short cannot be read.  Ipc has the IPC provider as a state
    machine: however the socket cuts the answers into chunks, they are put together
    and each request is answered once.  Http has the HTTP provider, Web3Object the
    object that holds all parts of the API.  Formatters and Methods have the formatters and the
    tables of the node's methods.  Contracts and ContractCalls have functions,
    events, the contract object and the deployment check: a call sends the selector
    and the encoded arguments and returns the decoded answer, a log is decoded to
    the values it was made of, a deployment is reported exactly once.  Registrars
    has the registrar interfaces and transfers; Filters has filters and the sync
    notification; EventWatch puts events and filters together, from the values
    watched for to the callback of the event.

    * Example scripts

    ConsoleScripts has the scripts for the node's console as programs of a monad over
    the state of the request manager: what each sends and prints, and what the scan
    reports.  NodeScripts has the scripts for Node.js, as the requests they make given
    the answers of their promises.

    Deviations the models show, such as calls the call tracer nests wrongly or
    arrays the coder cannot decode, are theorems on concrete or arbitrary inputs in
    the last part of the file they belong to, and the correctness theorems state
    the conditions under which the code is right.

    * Bounds and fuel

    Recursion that is not structural takes fuel computed from the input: the number
    of digits for conversions of bases, the length of a string for scanners, the
    nesting of a type name for the coder.  Each has a lemma that the fuel is enough,
    so that the theorems speak of results and not of results if any.  Two loops of
    the code do not end on some inputs (zero unpadding, the remainder of an account
    number); for these the theorems say that no amount of fuel is enough.

    * Parameters

    Code outside the repository is an argument of the definitions that use it: the
    derivation of contract addresses in the host, [Date] and escape-html in the log
    page, the random salt of a password encryption, node's Buffer in the HTTP
    provider, the packages the scripts for Node.js use, and what comes back from the node.

    * Not modelled

    Sockets and XMLHttpRequest objects themselves, whose events and texts are inputs;
    division, square root and base conversion on the digit arrays of a BigNumber, of which
    the first and the last are modelled by value; the rounding of numbers in JSON texts to doubles; the browser
    shims of the bundle, which are empty; the drawing done by the component libraries of
    the dashboard, its entry point and its build configuration; and the other programs
    of the repository, which are in Go, C++, Java and Haskell, except for
    what the tracers use of the host. *)
From Stdlib Require Import ZArith Lia Ascii String.
From stdpp Require Export strings gmap.
From stdpp Require Export prelude.
Open Scope Z_scope.

(** * JavaScript strings

    A JavaScript string is a sequence of 16-bit code units; we keep it as the
    list of the units.  [str] turns a literal into such a list. *)
Abbreviation jsstr := (list Z).

Fixpoint str (s : string) : jsstr :=
  match s with
  | EmptyString => []
  | String c s => Z.of_N (N_of_ascii c) :: str s
  end.
Arguments str s%_string_scope.

(** * Digits in a base *)

(** The character of a digit, as [Number.prototype.toString] and
    [BigNumber.prototype.toString] print it: 0-9 then a-z. *)
Definition digit_char (d : Z) : Z := if d <? 10 then 48 + d else 87 + d.

(** The value of a digit character, upper or lower case, below the base. *)
Definition char_digit (b c : Z) : option Z :=
  let d := if (48 <=? c) && (c <=? 57) then c - 48
           else if (97 <=? c) && (c <=? 122) then c - 87
           else if (65 <=? c) && (c <=? 90) then c - 55
           else 99 in
  if d <? b then Some d else None.

(** Least significant digit first; the fuel bounds the number of digits. *)
Fixpoint digits_rev (fuel : nat) (b z : Z) : list Z :=
  match fuel with
  | O => []
  | S f => (z mod b) :: (if z / b =? 0 then [] else digits_rev f b (z / b))
  end.

Definition digits (b z : Z) : list Z :=
  reverse (digits_rev (S (Z.to_nat (Z.log2 z))) b z).

Definition of_digits (b : Z) (ds : list Z) : Z :=
  fold_left (fun acc d => acc * b + d) ds 0.

(** [x.toString(b)] of an integral number. *)
Definition to_base (b z : Z) : jsstr :=
  if z <? 0 then 45 :: (digit_char <$> digits b (- z)) else digit_char <$> digits b z.

(** The value of a string all of whose characters are digits in base [b]. *)
Definition of_base (b : Z) (s : jsstr) : option Z :=
  ds ← mapM (char_digit b) s; Some (of_digits b ds).

(** * String methods *)

Definition js_len (s : jsstr) : Z := Z.of_nat (length s).

(** Relative index: negative counts from the end; clamped to the string. *)
Definition js_rel (len i : Z) : nat :=
  Z.to_nat (if i <? 0 then Z.max 0 (len + i) else Z.min i len).

(** [s.substr(i, n)] and [s.substr(i)]. *)
Definition js_substr (s : jsstr) (i n : Z) : jsstr :=
  take (Z.to_nat n) (drop (js_rel (js_len s) i) s).
Definition js_substr_from (s : jsstr) (i : Z) : jsstr := drop (js_rel (js_len s) i) s.

(** [s.slice(i, j)] and [s.slice(i)]. *)
Definition js_slice (s : jsstr) (i j : Z) : jsstr :=
  let a := js_rel (js_len s) i in
  take (js_rel (js_len s) j - a) (drop a s).
Definition js_slice_from (s : jsstr) (i : Z) : jsstr := drop (js_rel (js_len s) i) s.

(** [s.indexOf(p) === 0]. *)
Definition js_starts_with (p s : jsstr) : bool := bool_decide (take (length p) s = p).

(** [s.indexOf(c)] for a single character. *)
Fixpoint js_index_of_char (c : Z) (s : jsstr) : option nat :=
  match s with
  | [] => None
  | x :: s => if x =? c then Some 0%nat else S <$> js_index_of_char c s
  end.

(** [toLowerCase] and [toUpperCase], on the ASCII letters. *)
Definition char_lower (c : Z) : Z := if (65 <=? c) && (c <=? 90) then c + 32 else c.
Definition char_upper (c : Z) : Z := if (97 <=? c) && (c <=? 122) then c - 32 else c.
Definition js_lower (s : jsstr) : jsstr := char_lower <$> s.
Definition js_upper (s : jsstr) : jsstr := char_upper <$> s.

(** * Numbers

    The value of an integral IEEE double nearest to [z] (ties to even): what
    a JavaScript number holds when an exact integer result is [z]. *)
Definition f64 (z : Z) : Z :=
  let a := Z.abs z in
  let n := Z.log2 a - 52 in
  if n <=? 0 then z
  else
    let q := a / 2 ^ n in
    let r := a mod 2 ^ n in
    let h := 2 ^ (n - 1) in
    let q' := if r <? h then q
              else if h <? r then q + 1
              else if Z.even q then q else q + 1 in
    Z.sgn z * (q' * 2 ^ n).

(** Two hexadecimal digits of a byte. *)
Definition hex_byte (x : Z) : jsstr := [digit_char (x / 16); digit_char (x mod 16)].

(** * Generic lemmas *)

Definition is_digit (b d : Z) : Prop := 0 <= d < b.

Fixpoint val_rev (b : Z) (l : list Z) : Z :=
  match l with
  | [] => 0
  | d :: l => d + b * val_rev b l
  end.

Section Digits.
Context (b : Z) (Hb : 2 <= b).

Lemma digits_rev_valid fuel z : 0 <= z -> Forall (is_digit b) (digits_rev fuel b z).
Proof.
  revert z. induction fuel as [|f IH]; intros z Hz; simpl; [constructor|].
  constructor.
  - unfold is_digit. apply Z.mod_pos_bound. lia.
  - destruct (z / b =? 0); [constructor|]. apply IH. apply Z.div_pos; lia.
Qed.

Lemma digits_rev_val fuel z :
  0 <= z < b ^ Z.of_nat fuel -> val_rev b (digits_rev fuel b z) = z.
Proof.
  revert z. induction fuel as [|f IH]; intros z Hz; simpl.
  { change (Z.of_nat 0) with 0 in Hz. rewrite Z.pow_0_r in Hz. lia. }
  assert (0 <= z / b) by (apply Z.div_pos; lia).
  assert (z / b < b ^ Z.of_nat f).
  { apply Z.div_lt_upper_bound; [lia|].
    rewrite Nat2Z.inj_succ, Z.pow_succ_r in Hz by lia. lia. }
  pose proof (Z.div_mod z b ltac:(lia)).
  destruct (Z.eqb_spec (z / b) 0) as [E|E]; simpl.
  - rewrite E in *. lia.
  - rewrite IH by lia. lia.
Qed.

Lemma digits_rev_length fuel z n :
  0 <= z < b ^ Z.of_nat n -> (1 <= n)%nat -> (length (digits_rev fuel b z) <= n)%nat.
Proof.
  revert z n. induction fuel as [|f IH]; intros z n Hz Hn; simpl; [lia|].
  destruct n as [|n]; [lia|].
  rewrite Nat2Z.inj_succ, Z.pow_succ_r in Hz by lia.
  destruct (Z.eqb_spec (z / b) 0) as [E|E]; simpl; [lia|].
  assert (0 <= z / b) by (apply Z.div_pos; lia).
  assert (z / b < b ^ Z.of_nat n) by (apply Z.div_lt_upper_bound; lia).
  destruct n as [|n].
  { change (Z.of_nat 0) with 0 in *. rewrite Z.pow_0_r in *. lia. }
  specialize (IH (z / b) (S n)). lia.
Qed.

Lemma of_digits_acc l a :
  fold_left (fun acc d => acc * b + d) l a = a * b ^ Z.of_nat (length l) + of_digits b l.
Proof.
  revert a. unfold of_digits. induction l as [|d l IH]; intros a; simpl fold_left.
  - simpl length. change (Z.of_nat 0) with 0. rewrite Z.pow_0_r. lia.
  - rewrite (IH (a * b + d)), (IH (0 * b + d)). simpl length.
    rewrite Nat2Z.inj_succ, Z.pow_succ_r by lia. nia.
Qed.

Lemma of_digits_cons d l :
  of_digits b (d :: l) = d * b ^ Z.of_nat (length l) + of_digits b l.
Proof. unfold of_digits at 1. simpl. rewrite of_digits_acc. lia. Qed.

Lemma of_digits_app l1 l2 :
  of_digits b (l1 ++ l2) = of_digits b l1 * b ^ Z.of_nat (length l2) + of_digits b l2.
Proof. unfold of_digits at 1. rewrite fold_left_app. apply of_digits_acc. Qed.

Lemma of_digits_reverse l : of_digits b (reverse l) = val_rev b l.
Proof.
  induction l as [|d l IH]; [done|].
  rewrite reverse_cons, of_digits_app, IH. unfold of_digits. simpl length.
  change (Z.of_nat 1) with 1. rewrite Z.pow_1_r. simpl. lia.
Qed.

Lemma of_digits_zeros n l : of_digits b (replicate n 0 ++ l) = of_digits b l.
Proof.
  induction n as [|n IH]; [done|]. simpl replicate. simpl app.
  rewrite of_digits_cons, IH. lia.
Qed.

Lemma of_digits_bound l :
  Forall (is_digit b) l -> 0 <= of_digits b l < b ^ Z.of_nat (length l).
Proof.
  induction 1 as [|d l [Hd1 Hd2] _ IH]; [unfold of_digits; simpl; lia|].
  rewrite of_digits_cons. simpl length. rewrite Nat2Z.inj_succ, Z.pow_succ_r by lia. nia.
Qed.

Lemma digits_fuel z : 0 <= z -> z < b ^ Z.of_nat (S (Z.to_nat (Z.log2 z))).
Proof.
  intros Hz. rewrite Nat2Z.inj_succ, Z2Nat.id by apply Z.log2_nonneg.
  destruct (Z.eq_dec z 0) as [->|]; [simpl; apply Z.pow_pos_nonneg; lia|].
  pose proof (Z.log2_spec z ltac:(lia)).
  pose proof (Z.pow_le_mono_l 2 b (Z.succ (Z.log2 z)) ltac:(lia)). lia.
Qed.

Lemma digits_valid z : 0 <= z -> Forall (is_digit b) (digits b z).
Proof. intros. unfold digits. rewrite Forall_reverse. by apply digits_rev_valid. Qed.

Lemma of_digits_digits z : 0 <= z -> of_digits b (digits b z) = z.
Proof.
  intros Hz. unfold digits. rewrite of_digits_reverse.
  apply digits_rev_val. split; [done|]. by apply digits_fuel.
Qed.

Lemma digits_length z n :
  0 <= z < b ^ Z.of_nat n -> (1 <= n)%nat -> (length (digits b z) <= n)%nat.
Proof. intros. unfold digits. rewrite length_reverse. by apply digits_rev_length. Qed.

Lemma digits_length_pos z : (1 <= length (digits b z))%nat.
Proof. unfold digits. rewrite length_reverse. simpl. lia. Qed.

(** A value has one digit string of a given length. *)
Lemma of_digits_inj l1 l2 :
  length l1 = length l2 -> Forall (is_digit b) l1 -> Forall (is_digit b) l2 ->
  of_digits b l1 = of_digits b l2 -> l1 = l2.
Proof.
  revert l2. induction l1 as [|d1 l1 IH]; intros [|d2 l2] Hl H1 H2 E; try done.
  injection Hl as Hl. apply Forall_cons in H1 as [Hd1 H1]. apply Forall_cons in H2 as [Hd2 H2].
  rewrite !of_digits_cons, Hl in E.
  pose proof (of_digits_bound _ H1) as B1. pose proof (of_digits_bound _ H2) as B2.
  rewrite Hl in B1. unfold is_digit in *.
  assert (d1 = d2) as -> by nia. f_equal. apply IH; try done. nia.
Qed.
End Digits.

(** ** Digit characters *)

Lemma char_digit_char b d : is_digit b d -> b <= 36 -> char_digit b (digit_char d) = Some d.
Proof.
  unfold is_digit, char_digit, digit_char. intros Hd Hb.
  destruct (Z.ltb_spec d 10).
  - replace (48 <=? 48 + d) with true by lia. replace (48 + d <=? 57) with true by lia.
    simpl. replace (48 + d - 48) with d by lia. by replace (d <? b) with true by lia.
  - replace (48 <=? 87 + d) with true by lia. replace (87 + d <=? 57) with false by lia.
    replace (97 <=? 87 + d) with true by lia. replace (87 + d <=? 122) with true by lia.
    simpl. replace (87 + d - 87) with d by lia. by replace (d <? b) with true by lia.
Qed.

Lemma mapM_char_digit b ds :
  Forall (is_digit b) ds -> b <= 36 -> mapM (char_digit b) (digit_char <$> ds) = Some ds.
Proof.
  intros H Hb. apply mapM_Some. rewrite Forall2_fmap_l. apply Forall_Forall2_diag.
  eapply Forall_impl; [exact H|]. intros d Hd. by apply char_digit_char.
Qed.

Lemma of_base_digits b ds :
  Forall (is_digit b) ds -> b <= 36 ->
  of_base b (digit_char <$> ds) = Some (of_digits b ds).
Proof. intros H Hb. unfold of_base. by rewrite mapM_char_digit. Qed.

Lemma to_base_nonneg b z : 0 <= z -> to_base b z = digit_char <$> digits b z.
Proof. intros. unfold to_base. by replace (z <? 0) with false by lia. Qed.

(** Parsing what [toString(b)] prints gives the number back. *)
Lemma of_base_to_base b z : 2 <= b <= 36 -> 0 <= z -> of_base b (to_base b z) = Some z.
Proof.
  intros Hb Hz. rewrite to_base_nonneg by done.
  rewrite of_base_digits by (try apply digits_valid; lia). by rewrite of_digits_digits by lia.
Qed.

Lemma of_base_padded b n z :
  2 <= b <= 36 -> 0 <= z -> of_base b (replicate n 48 ++ to_base b z) = Some z.
Proof.
  intros Hb Hz. rewrite to_base_nonneg by done.
  change 48 with (digit_char 0). rewrite <-fmap_replicate, <-fmap_app.
  rewrite of_base_digits; [|apply Forall_app; split|lia].
  - by rewrite of_digits_zeros, of_digits_digits by lia.
  - apply Forall_replicate. unfold is_digit. lia.
  - apply digits_valid; lia.
Qed.

Lemma to_base_length b z n :
  2 <= b -> 0 <= z < b ^ Z.of_nat n -> (1 <= n)%nat -> (length (to_base b z) <= n)%nat.
Proof.
  intros. rewrite to_base_nonneg by lia. rewrite length_fmap. apply digits_length; lia.
Qed.

Lemma digit_char_inj b d1 d2 :
  is_digit b d1 -> is_digit b d2 -> b <= 36 -> digit_char d1 = digit_char d2 -> d1 = d2.
Proof.
  unfold is_digit, digit_char. intros.
  destruct (Z.ltb_spec d1 10), (Z.ltb_spec d2 10); lia.
Qed.

Lemma to_base_inj b x y :
  2 <= b <= 36 -> 0 <= x -> 0 <= y -> to_base b x = to_base b y -> x = y.
Proof.
  intros Hb Hx Hy E. apply (f_equal (of_base b)) in E.
  rewrite !of_base_to_base in E by done. congruence.
Qed.

(** The decimal and hexadecimal characters a number prints to. *)
Lemma to_base_chars b z :
  2 <= b <= 36 -> 0 <= z ->
  Forall (fun c => 48 <= c <= 57 \/ 97 <= c < 87 + b) (to_base b z).
Proof.
  intros Hb Hz. rewrite to_base_nonneg by done. apply Forall_fmap.
  eapply Forall_impl; [apply (digits_valid b); lia|].
  unfold is_digit, digit_char. intros d Hd. simpl. destruct (Z.ltb_spec d 10); lia.
Qed.

(** ** Bytes in hexadecimal *)

Definition is_byte (x : Z) : Prop := 0 <= x < 256.

Lemma hex_byte_inj x y : is_byte x -> is_byte y -> hex_byte x = hex_byte y -> x = y.
Proof.
  unfold is_byte, hex_byte. intros Hx Hy [= E1 E2].
  apply (digit_char_inj 16) in E1; [|unfold is_digit; Z.div_mod_to_equations; lia..].
  apply (digit_char_inj 16) in E2; [|unfold is_digit; Z.div_mod_to_equations; lia..].
  Z.div_mod_to_equations; lia.
Qed.

Lemma hex_bytes_inj l1 l2 :
  Forall is_byte l1 -> Forall is_byte l2 -> l1 ≫= hex_byte = l2 ≫= hex_byte -> l1 = l2.
Proof.
  revert l2. induction l1 as [|x l1 IH]; intros [|y l2] H1 H2 E; try done.
  apply Forall_cons in H1 as [Hx H1]. apply Forall_cons in H2 as [Hy H2].
  cbn in E. injection E as E1 E2 E3.
  f_equal; [apply hex_byte_inj; try done; unfold hex_byte; congruence|by apply IH].
Qed.

Lemma hex_bytes_length l : length (l ≫= hex_byte) = (2 * length l)%nat.
Proof. induction l as [|x l IH]; [done|]. cbn in *. rewrite IH. lia. Qed.

(** ** Doubles *)

(** Integers of magnitude at most 2^53 are doubles. *)
Lemma f64_exact z : Z.abs z <= 2 ^ 53 -> f64 z = z.
Proof.
  intros H. unfold f64. destruct (Z.leb_spec (Z.log2 (Z.abs z) - 52) 0) as [|Hn]; [done|].
  destruct (Z.eq_dec (Z.abs z) (2 ^ 53)) as [E|E].
  { rewrite E. change (Z.log2 (2 ^ 53) - 52) with 1. cbn -[Z.pow].
    destruct (Z.abs_spec z) as [[? Ez]|[? Ez]]; rewrite Ez in E.
    - subst z. reflexivity.
    - assert (z = - 2 ^ 53) as -> by lia. reflexivity. }
  assert (Z.log2 (Z.abs z) < 53); [|lia].
  destruct (Z.eq_dec (Z.abs z) 0) as [->|]; [simpl; lia|].
  apply Z.log2_lt_pow2; lia.
Qed.

(** ** List lemmas *)

Lemma js_rel_nonneg len i : 0 <= i <= len -> js_rel len i = Z.to_nat i.
Proof. intros. unfold js_rel. replace (i <? 0) with false by lia. f_equal. lia. Qed.

Lemma js_substr_nonneg s i n :
  0 <= i -> js_substr s i n = take (Z.to_nat n) (drop (Z.to_nat i) s).
Proof.
  intros. unfold js_substr, js_rel. replace (i <? 0) with false by lia.
  destruct (Z.le_ge_cases i (js_len s)).
  - by rewrite Z.min_l.
  - rewrite Z.min_r by done. unfold js_len in *.
    rewrite (drop_ge s (Z.to_nat i)) by lia. rewrite Nat2Z.id, drop_all. done.
Qed.

Lemma js_substr_from_nonneg s i : 0 <= i -> js_substr_from s i = drop (Z.to_nat i) s.
Proof.
  intros. unfold js_substr_from, js_rel. replace (i <? 0) with false by lia.
  destruct (Z.le_ge_cases i (js_len s)).
  - by rewrite Z.min_l.
  - rewrite Z.min_r by done. unfold js_len in *. by rewrite Nat2Z.id, drop_all, drop_ge by lia.
Qed.

Lemma take_drop_app {A} (l1 l2 l3 : list A) i n :
  i = length l1 -> n = length l2 -> take n (drop i (l1 ++ l2 ++ l3)) = l2.
Proof. intros -> ->. rewrite drop_app_length. apply take_app_length. Qed.

#[global] Arguments str : simpl never.
#[global] Arguments f64 : simpl never.
#[global] Arguments to_base : simpl never.
#[global] Arguments of_base : simpl never.
#[global] Arguments digits : simpl never.
#[global] Arguments of_digits : simpl never.
#[global] Arguments js_substr : simpl never.
#[global] Arguments js_slice : simpl never.

(** * The integer a large number prints as

    [Number.prototype.toString] prints the shortest decimal that reads back as
    the number; from 2^53 on that decimal need not be the exact integer. *)
Fixpoint shortest_dec (fuel : nat) (p a : Z) : Z :=
  match fuel with
  | O => a
  | S f =>
      let lo := a / p * p in
      let hi := lo + p in
      let ok x := f64 x =? a in
      if ok lo && (negb (ok hi) || (a - lo <=? hi - a)) then lo
      else if ok hi then hi
      else shortest_dec f (p / 10) a
  end.

Definition js_dec_value (z : Z) : Z :=
  if Z.abs z <? 2 ^ 53 then z
  else
    let d := length (digits 10 (Z.abs z)) in
    Z.sgn z * shortest_dec d (10 ^ (Z.of_nat d - 1)) (Z.abs z).

Lemma js_dec_value_safe z : Z.abs z < 2 ^ 53 -> js_dec_value z = z.
Proof. intros. unfold js_dec_value. by replace (Z.abs z <? 2 ^ 53) with true by lia. Qed.

Lemma Forall_impl_in {A} (P Q : A -> Prop) l : Forall P l -> (forall x, x ∈ l -> P x -> Q x) -> Forall Q l.
Proof. rewrite !Forall_forall. intros H HPQ x Hx. auto. Qed.

(** [zbool e v]: rewrite the integer comparison [e] to the boolean [v]. *)
Ltac zbool e v :=
  let H := fresh in
  assert (e = v) as H;
  [ first [apply Z.leb_le | apply Z.leb_gt | apply Z.ltb_lt | apply Z.ltb_ge
          | apply Z.eqb_eq | apply Z.eqb_neq]; lia
  | rewrite H; clear H ].
