(* ===== verification/TracerHost.v ===== *)
(** The objects the Go host hands to the JavaScript tracers: the [log] of one
    executed opcode, the state database [db], the transaction context [ctx],
    and the global helper functions ([toHex], [toAddress], [toWord],
    [isPrecompiled], [slice]).  They follow src/eth/tracers/tracer.go and the
    helpers it calls in src/common and src/core/vm. *)
From Stdlib Require Import ZArith Lia.
From S2P Require Import Prelude.
Open Scope Z_scope.

Abbreviation bytes := (list Z).

(** One call of [step] or [fault]: what the accessors of [log] return.  The
    stack is kept top first. *)
Record log := Log {
  log_op : Z;               (* log.op.toNumber() *)
  log_opname : jsstr;       (* log.op.toString() *)
  log_stack : list Z;       (* 256-bit words *)
  log_memory : bytes;
  log_address : bytes;      (* log.contract.getAddress() *)
  log_pc : Z;
  log_gas : Z;
  log_cost : Z;
  log_depth : Z;
  log_error : option jsstr
}.

Record database := Database {
  getBalance : bytes -> Z;
  getNonce : bytes -> Z;
  getCode : bytes -> bytes;
  getState : bytes -> bytes -> bytes
}.

Record context := Context {
  ctx_type : jsstr;
  ctx_from : bytes;
  ctx_to : bytes;
  ctx_value : Z;
  ctx_gas : Z;
  ctx_gasUsed : Z;
  ctx_input : bytes;
  ctx_output : bytes;
  ctx_time : jsstr;
  ctx_error : option jsstr
}.

(** [log.stack.peek(i)]: zero below the bottom of the stack. *)
Definition peek (l : log) (i : nat) : Z := default 0 (log_stack l !! i).

(** A JavaScript number read by the host as a C int. *)
Definition getInt (z : Z) : Z := Z.max (- 2 ^ 31) (Z.min (2 ^ 31 - 1) z).

(** [log.memory.slice(begin, end)]. *)
Definition mem_slice (l : log) (b e : Z) : bytes :=
  let b := getInt b in
  let e := getInt e in
  let mem := log_memory l in
  if Z.of_nat (length mem) <? e then []
  else if e - b =? 0 then []
  else if b <? Z.of_nat (length mem)
       then take (Z.to_nat (e - b)) (drop (Z.to_nat b) mem)
       else [].

(** [slice(blob, start, end)]. *)
Definition host_slice (blob : bytes) (s e : Z) : bytes :=
  let s := getInt s in
  let e := getInt e in
  if (s <? 0) || (e <? s) || (Z.of_nat (length blob) <? e) then []
  else take (Z.to_nat (e - s)) (drop (Z.to_nat s) blob).

(** [toHex(buf)]. *)
Definition toHex (bs : bytes) : jsstr := str "0x" ++ (bs ≫= hex_byte).

(** [hex.DecodeString], which keeps what it decoded before an error. *)
Fixpoint hex2bytes (s : jsstr) : bytes :=
  match s with
  | a :: b :: s =>
      match char_digit 16 a, char_digit 16 b with
      | Some x, Some y => (16 * x + y) :: hex2bytes s
      | _, _ => []
      end
  | _ => []
  end.

(** [common.FromHex]. *)
Definition fromHex (s : jsstr) : bytes :=
  let s := if (1 <? length s)%nat && (bool_decide (take 2 s = str "0x") || bool_decide (take 2 s = str "0X"))
           then drop 2 s else s in
  hex2bytes (if Nat.odd (length s) then 48 :: s else s).

(** [common.BytesToAddress] (n = 20) and [common.BytesToHash] (n = 32): crop
    from the left, pad with zeros on the left. *)
Definition bytesToFixed (n : nat) (bs : bytes) : bytes :=
  let bs := drop (length bs - n) bs in
  replicate (n - length bs) 0 ++ bs.

Definition toAddress (s : jsstr) : bytes := bytesToFixed 20 (fromHex s).
Definition toWord (s : jsstr) : bytes := bytesToFixed 32 (fromHex s).

(** [isPrecompiled(addr)]: the eight Byzantium contracts. *)
Definition isPrecompiled (a : bytes) : bool :=
  bool_decide (take 19 a = replicate 19 0) &&
  match drop 19 a with
  | [k] => (1 <=? k) && (k <=? 8)
  | _ => false
  end.

(** The bytes of a number, most significant first, in [n] bytes. *)
Fixpoint be_bytes (n : nat) (z : Z) : bytes :=
  match n with
  | O => []
  | S n => be_bytes n (z / 256) ++ [z mod 256]
  end.

(** ** Lemmas *)

Lemma be_bytes_length n z : length (be_bytes n z) = n.
Proof.
  revert z. induction n as [|n IH]; intros z; simpl; [done|].
  rewrite length_app, IH. simpl. lia.
Qed.

Lemma be_bytes_valid n z : Forall is_byte (be_bytes n z).
Proof.
  revert z. induction n as [|n IH]; intros z; simpl; [constructor|].
  apply Forall_app. split; [apply IH|]. repeat constructor; unfold is_byte; apply Z.mod_pos_bound; lia.
Qed.

Lemma toHex_inj a b : Forall is_byte a -> Forall is_byte b -> toHex a = toHex b -> a = b.
Proof. unfold toHex. intros Ha Hb E. injection E as E. by apply hex_bytes_inj. Qed.

Lemma bytesToFixed_length n bs : length (bytesToFixed n bs) = n.
Proof. unfold bytesToFixed. rewrite length_app, length_replicate, length_drop. lia. Qed.

Lemma bytesToFixed_valid n bs : Forall is_byte bs -> Forall is_byte (bytesToFixed n bs).
Proof.
  intros H. unfold bytesToFixed. apply Forall_app. split.
  - apply Forall_replicate. unfold is_byte. lia.
  - by apply Forall_drop.
Qed.

Lemma be_bytes_val n z : 0 <= z -> of_digits 256 (be_bytes n z) = z mod 256 ^ Z.of_nat n.
Proof.
  revert z. induction n as [|n IH]; intros z Hz; [cbn; by rewrite Z.mod_1_r|].
  simpl be_bytes. rewrite of_digits_app, IH by (try apply Z.div_pos; lia).
  unfold of_digits. simpl length. cbn [fold_left]. change (Z.of_nat 1) with 1.
  rewrite Z.pow_1_r, Nat2Z.inj_succ, Z.pow_succ_r by lia.
  rewrite Z.rem_mul_r by lia. lia.
Qed.

Lemma hex2bytes_digits n ds :
  length ds = (2 * n)%nat -> Forall (is_digit 16) ds ->
  Forall is_byte (hex2bytes (digit_char <$> ds)) /\
  of_digits 256 (hex2bytes (digit_char <$> ds)) = of_digits 16 ds /\
  length (hex2bytes (digit_char <$> ds)) = n.
Proof.
  revert ds. induction n as [|n IH]; intros [|a [|b ds]] Hl Hd; simpl in Hl; try lia; [done|].
  apply Forall_cons in Hd as [Ha Hd]. apply Forall_cons in Hd as [Hb Hd].
  destruct (IH ds ltac:(lia) Hd) as (IH1 & IH2 & IH3).
  cbn [fmap list_fmap hex2bytes]. rewrite !char_digit_char by (done || lia).
  unfold is_digit in *. split_and!.
  - constructor; [unfold is_byte; lia|done].
  - rewrite of_digits_cons by lia. rewrite !of_digits_cons by lia.
    rewrite IH2, IH3. simpl length. rewrite Nat2Z.inj_succ, Z.pow_succ_r by lia.
    replace (length ds) with (n + n)%nat by lia. rewrite Nat2Z.inj_add, Z.pow_add_r by lia.
    rewrite <-(Z.pow_mul_l 16 16). change (16 * 16) with 256. ring.
  - simpl. by rewrite IH3.
Qed.

Lemma bytesToFixed_val n bs :
  Forall is_byte bs -> of_digits 256 (bytesToFixed n bs) = of_digits 256 bs mod 256 ^ Z.of_nat n.
Proof.
  intros H. unfold bytesToFixed. rewrite of_digits_zeros by lia.
  set (k := (length bs - n)%nat).
  rewrite <-(take_drop k bs) at 2. rewrite of_digits_app by lia.
  assert (0 <= of_digits 256 (drop k bs) < 256 ^ Z.of_nat (length (drop k bs))) as B
    by (apply of_digits_bound; [lia|by apply Forall_drop]).
  rewrite length_drop in *. subst k. destruct (Nat.le_gt_cases (length bs) n) as [L|L].
  - replace (length bs - n)%nat with 0%nat in * by lia. rewrite take_0. unfold of_digits at 2. simpl.
    rewrite Z.mod_small; [done|]. split; [lia|].
    eapply Z.lt_le_trans; [apply B|]. apply Z.pow_le_mono_r; lia.
  - replace (length bs - (length bs - n))%nat with n in * by lia.
    rewrite Z.add_comm, Z_mod_plus_full. rewrite Z.mod_small; done.
Qed.

Lemma fromHex_to_base z :
  0 <= z -> Forall is_byte (fromHex (to_base 16 z)) /\ of_digits 256 (fromHex (to_base 16 z)) = z.
Proof.
  intros Hz. unfold fromHex.
  pose proof (to_base_chars 16 z ltac:(lia) Hz) as Hc.
  assert (forall c, take 2 (to_base 16 z) = [48; c] -> 48 <= c <= 57 \/ 97 <= c < 103) as Hx.
  { intros c E. assert (Forall (fun c => 48 <= c <= 57 ∨ 97 <= c < 87 + 16) [48; c]) as F
      by (rewrite <-E; by apply Forall_take).
    inversion F as [|? ? _ F2]. inversion F2. lia. }
  change (str "0x") with [48; 120]. change (str "0X") with [48; 88].
  rewrite !bool_decide_eq_false_2 by (intros E; apply Hx in E; lia).
  rewrite andb_false_r. rewrite to_base_nonneg, length_fmap by done.
  set (ds := digits 16 z).
  assert (Forall (is_digit 16) ds) as Hd by (apply digits_valid; lia).
  assert (of_digits 16 ds = z) as Hv by (apply of_digits_digits; lia).
  destruct (Nat.odd (length ds)) eqn:Eo.
  - apply Nat.odd_spec in Eo as [n En].
    change (48 :: (digit_char <$> ds)) with (digit_char <$> (0 :: ds)).
    destruct (hex2bytes_digits (S n) (0 :: ds)) as (H1 & H2 & _);
      [simpl; lia|constructor; [unfold is_digit; lia|done]|].
    split; [done|]. rewrite H2, of_digits_cons by lia. lia.
  - assert (Nat.even (length ds) = true) as Ee by (rewrite <-Nat.negb_odd, Eo; done).
    apply Nat.even_spec in Ee as [n En].
    destruct (hex2bytes_digits n ds) as (H1 & H2 & _); [lia|done|]. by rewrite H2.
Qed.

(** An address taken from a stack word is its low 160 bits, a storage key its
    256 bits. *)
Lemma bytesToFixed_fromHex n z :
  0 <= z -> bytesToFixed n (fromHex (to_base 16 z)) = be_bytes n z.
Proof.
  intros Hz. destruct (fromHex_to_base z Hz) as [H1 H2].
  apply (of_digits_inj 256); [lia|..].
  - by rewrite bytesToFixed_length, be_bytes_length.
  - by apply bytesToFixed_valid.
  - apply be_bytes_valid.
  - by rewrite bytesToFixed_val, H2, be_bytes_val.
Qed.

Lemma toAddress_word z : 0 <= z -> toAddress (to_base 16 z) = be_bytes 20 z.
Proof. apply bytesToFixed_fromHex. Qed.

Lemma toWord_word z : 0 <= z -> toWord (to_base 16 z) = be_bytes 32 z.
Proof. apply bytesToFixed_fromHex. Qed.

(** A range inside the memory is read as it is. *)
Lemma mem_slice_in l b e :
  0 <= b <= e -> e <= Z.of_nat (length (log_memory l)) -> e < 2 ^ 31 ->
  mem_slice l b e = take (Z.to_nat (e - b)) (drop (Z.to_nat b) (log_memory l)).
Proof.
  intros H1 H2 H3. unfold mem_slice, getInt.
  replace (Z.max (- 2 ^ 31) (Z.min (2 ^ 31 - 1) b)) with b by lia.
  replace (Z.max (- 2 ^ 31) (Z.min (2 ^ 31 - 1) e)) with e by lia.
  replace (Z.of_nat (length (log_memory l)) <? e) with false by lia.
  destruct (Z.eqb_spec (e - b) 0) as [->|]; [done|].
  by replace (b <? Z.of_nat (length (log_memory l))) with true by lia.
Qed.

#[global] Arguments be_bytes : simpl never.
#[global] Arguments toAddress : simpl never.
#[global] Arguments toWord : simpl never.
#[global] Arguments isPrecompiled : simpl never.
#[global] Arguments mem_slice : simpl never.
#[global] Arguments toHex : simpl never.
