(* ===== verification/CounterTracers.v ===== *)
(** The counting tracers of src/eth/tracers/internal/tracers: noop, opcount,
    unigram, bigram, trigram and 4byte.  Each keeps a small state that [step]
    updates once per executed opcode; the theorems relate the state reached
    after a whole trace to a count over the trace. *)
From Stdlib Require Import ZArith Lia.
From S2P Require Import Prelude TracerHost.
Open Scope Z_scope.

(** [x++] on a JavaScript number. *)
Definition js_incr (n : Z) : Z := f64 (n + 1).

(** A histogram object: [{}] used as a map from strings to counters. *)
Abbreviation hist := (gmap jsstr Z).

(** [if (h[k]) h[k]++; else h[k] = 1;] *)
Definition bump (h : hist) (k : jsstr) : hist :=
  match h !! k with
  | Some n => if n =? 0 then <[k := 1]> h else <[k := js_incr n]> h
  | None => <[k := 1]> h
  end.

Module Noop.
Definition step (l : log) (s : unit) : unit := s.
Definition fault (l : log) (s : unit) : unit := s.
(** The result is the empty object. *)
Definition result (c : context) (s : unit) : list (jsstr * Z) := [].
End Noop.

Module Opcount.
Record state := State { count : Z }.
Definition init : state := State 0.
Definition step (s : state) (l : log) : state := State (js_incr (count s)).
Definition fault (s : state) (l : log) : state := s.
Definition result (s : state) : Z := count s.
Definition run (ls : list log) : state := fold_left step ls init.
End Opcount.

Module Unigram.
Record state := State { hist_ : hist; nops : Z }.
Definition init : state := State ∅ 0.
Definition step (s : state) (l : log) : state :=
  State (bump (hist_ s) (log_opname l)) (js_incr (nops s)).
Definition fault (s : state) (l : log) : state := s.
(** [undefined] when no opcode was seen. *)
Definition result (s : state) : option hist :=
  if 0 <? nops s then Some (hist_ s) else None.
Definition run (ls : list log) : state := fold_left step ls init.
End Unigram.

Module Bigram.
Record state := State { hist_ : hist; lastOp : jsstr; lastDepth : Z }.
Definition init : state := State ∅ [] 0.
Definition step (s : state) (l : log) : state :=
  let op := log_opname l in
  let depth := log_depth l in
  let h := if depth =? lastDepth s
           then bump (hist_ s) (lastOp s ++ str "-" ++ op)
           else hist_ s in
  State h op depth.
Definition fault (s : state) (l : log) : state := s.
Definition result (s : state) : hist := hist_ s.
Definition run (ls : list log) : state := fold_left step ls init.
End Bigram.

Module Trigram.
Record state := State { hist_ : hist; lastOp0 : jsstr; lastOp1 : jsstr; lastDepth : Z }.
Definition init : state := State ∅ [] [] 0.
Definition step (s : state) (l : log) : state :=
  let depth := log_depth l in
  if negb (depth =? lastDepth s) then State (hist_ s) [] [] depth
  else
    let op := log_opname l in
    let key := lastOp0 s ++ str "-" ++ lastOp1 s ++ str "-" ++ op in
    State (bump (hist_ s) key) (lastOp1 s) op (lastDepth s).
Definition fault (s : state) (l : log) : state := s.
Definition result (s : state) : hist := hist_ s.
Definition run (ls : list log) : state := fold_left step ls init.
End Trigram.

Module FourByte.
(** [callType]: [false] is [None]. *)
Definition callType (opstr : jsstr) : option nat :=
  if bool_decide (opstr = str "CALL") || bool_decide (opstr = str "CALLCODE") then Some 3%nat
  else if bool_decide (opstr = str "DELEGATECALL") || bool_decide (opstr = str "STATICCALL")
  then Some 2%nat
  else None.

(** The key ["" + toHex(id) + "-" + size]. *)
Definition key (id : bytes) (size : Z) : jsstr := toHex id ++ str "-" ++ to_base 10 size.

(** [this.ids[key] = this.ids[key] + 1 || 1]. *)
Definition store (ids : hist) (id : bytes) (size : Z) : hist :=
  let k := key id size in
  <[k := match ids !! k with
         | Some n => if js_incr n =? 0 then 1 else js_incr n
         | None => 1
         end]> ids.

Definition step (ids : hist) (l : log) : hist :=
  match callType (log_opname l) with
  | None => ids
  | Some ct =>
      if isPrecompiled (toAddress (to_base 16 (peek l 1))) then ids
      else
        let inSz := f64 (peek l (ct + 1)) in
        if 4 <=? inSz then
          let inOff := f64 (peek l ct) in
          store ids (mem_slice l inOff (f64 (inOff + 4))) (f64 (inSz - 4))
        else ids
  end.

Definition fault (ids : hist) (l : log) : hist := ids.

Definition result (c : context) (ids : hist) : hist :=
  if 4 <=? Z.of_nat (length (ctx_input c))
  then store ids (host_slice (ctx_input c) 0 4) (Z.of_nat (length (ctx_input c)) - 4)
  else ids.

Definition run (ls : list log) : hist := fold_left step ls ∅.
End FourByte.

(** * Counting *)

(** The number of occurrences of [k], absent when there is none. *)
Definition occurrences (k : jsstr) (ks : list jsstr) : option Z :=
  let n := length (filter (fun x => x = k) ks) in
  if (n =? 0)%nat then None else Some (Z.of_nat n).

(** A histogram holds the counts of a list of keys. *)
Definition counts (h : hist) (ks : list jsstr) : Prop :=
  forall k, h !! k = occurrences k ks.

Lemma occurrences_snoc k ks x :
  occurrences k (ks ++ [x]) =
  if decide (x = k) then Some (default 0 (occurrences k ks) + 1) else occurrences k ks.
Proof.
  unfold occurrences. rewrite filter_app, length_app, filter_cons, filter_nil.
  destruct (decide (x = k)); simpl.
  - replace (length (filter (λ x0, x0 = k) ks) + 1 =? 0)%nat with false by (symmetry; apply Nat.eqb_neq; lia).
    destruct (Nat.eqb_spec (length (filter (λ x0, x0 = k) ks)) 0) as [E|E]; simpl; f_equal; lia.
  - by rewrite Nat.add_0_r.
Qed.

Lemma occurrences_bound k ks n : occurrences k ks = Some n -> 1 <= n <= Z.of_nat (length ks).
Proof.
  unfold occurrences. destruct (Nat.eqb_spec (length (filter (λ x, x = k) ks)) 0); [done|].
  intros [= <-]. pose proof (length_filter (fun x => x = k) ks). lia.
Qed.

Lemma js_incr_exact n : 0 <= n < 2 ^ 53 -> js_incr n = n + 1.
Proof. intros. unfold js_incr. apply f64_exact. lia. Qed.

Lemma counts_empty : counts ∅ [].
Proof. intros k. by rewrite lookup_empty. Qed.

Lemma counts_insert h ks k :
  counts h ks -> counts (<[k := default 0 (h !! k) + 1]> h) (ks ++ [k]).
Proof.
  intros Hc k'. rewrite occurrences_snoc, lookup_insert, <-!Hc.
  case_decide; [by subst|done].
Qed.

Lemma counts_bump h ks k :
  counts h ks -> Z.of_nat (length ks) < 2 ^ 53 -> counts (bump h k) (ks ++ [k]).
Proof.
  intros Hc Hl. replace (bump h k) with (<[k := default 0 (h !! k) + 1]> h);
    [by apply counts_insert|].
  unfold bump. destruct (h !! k) as [n|] eqn:E; [|done]. rewrite Hc in E.
  apply occurrences_bound in E. simpl. rewrite js_incr_exact by lia.
  by replace (n =? 0) with false by lia.
Qed.

Lemma counts_store h ks id sz :
  counts h ks -> Z.of_nat (length ks) < 2 ^ 53 ->
  counts (FourByte.store h id sz) (ks ++ [FourByte.key id sz]).
Proof.
  intros Hc Hl.
  assert (FourByte.store h id sz =
          <[FourByte.key id sz := default 0 (h !! FourByte.key id sz) + 1]> h) as ->;
    [|by apply counts_insert].
  unfold FourByte.store. f_equal.
  destruct (h !! FourByte.key id sz) as [n|] eqn:E; [|done]. rewrite Hc in E.
  apply occurrences_bound in E. simpl. rewrite js_incr_exact by lia.
  by replace (n + 1 =? 0) with false by lia.
Qed.

(** * What each tracer computes *)

(** Opcount: after a trace the result is the number of executed opcodes. *)
Theorem opcount_length ls :
  Z.of_nat (length ls) <= 2 ^ 53 -> Opcount.result (Opcount.run ls) = Z.of_nat (length ls).
Proof.
  unfold Opcount.run, Opcount.result.
  induction ls as [|l ls IH] using rev_ind; intros Hl; [done|].
  rewrite fold_left_app, length_app in *. simpl in *.
  rewrite IH by lia. rewrite js_incr_exact by lia. lia.
Qed.

Lemma unigram_run ls :
  Z.of_nat (length ls) <= 2 ^ 53 ->
  counts (Unigram.hist_ (Unigram.run ls)) (log_opname <$> ls) /\
  Unigram.nops (Unigram.run ls) = Z.of_nat (length ls).
Proof.
  unfold Unigram.run. induction ls as [|l ls IH] using rev_ind; intros Hl.
  { split; [apply counts_empty|done]. }
  rewrite fold_left_app, length_app in *. simpl in *. destruct IH as [IH1 IH2]; [lia|].
  rewrite fmap_app, IH2, js_incr_exact by lia. split; [|lia].
  apply counts_bump; [done|]. rewrite length_fmap. lia.
Qed.

(** Unigram: the reported histogram maps every opcode name to the number of
    times it was executed, and nothing else. *)
Theorem unigram_counts ls :
  ls <> [] -> Z.of_nat (length ls) <= 2 ^ 53 ->
  exists h, Unigram.result (Unigram.run ls) = Some h /\
    forall op, h !! op = occurrences op (log_opname <$> ls).
Proof.
  intros Hne Hl. destruct (unigram_run ls Hl) as [Hc Hn]. unfold Unigram.result.
  rewrite Hn. destruct ls as [|l ls]; [done|]. eexists. split; [reflexivity|]. apply Hc.
Qed.

(** The key of two successive opcodes of one call frame. *)
Definition bigram_key (p : log * log) : option jsstr :=
  if log_depth p.2 =? log_depth p.1
  then Some (log_opname p.1 ++ str "-" ++ log_opname p.2) else None.

Lemma bigram_fold p ls s ks :
  Bigram.lastOp s = log_opname p -> Bigram.lastDepth s = log_depth p ->
  counts (Bigram.hist_ s) ks -> Z.of_nat (length ks + length ls) < 2 ^ 53 ->
  counts (Bigram.hist_ (fold_left Bigram.step ls s)) (ks ++ omap bigram_key (zip (p :: ls) ls)).
Proof.
  revert p s ks. induction ls as [|l ls IH]; intros p s ks Ho Hd Hc Hl.
  { simpl. by rewrite app_nil_r. }
  simpl in Hl. cbn [fold_left]. change (zip (p :: l :: ls) (l :: ls)) with ((p, l) :: zip (l :: ls) ls).
  change (omap bigram_key ((p, l) :: zip (l :: ls) ls))
    with (match bigram_key (p, l) with
          | Some y => y :: omap bigram_key (zip (l :: ls) ls)
          | None => omap bigram_key (zip (l :: ls) ls)
          end).
  unfold bigram_key at 1. cbn [fst snd].
  destruct (log_depth l =? log_depth p) eqn:E.
  - rewrite cons_middle, app_assoc. apply IH; [done..| |rewrite length_app; simpl; lia].
    unfold Bigram.step. simpl. rewrite Hd, E, Ho. apply counts_bump; [done|lia].
  - apply IH; [done..| |lia]. unfold Bigram.step. simpl. by rewrite Hd, E.
Qed.

(** Bigram: the histogram counts, for every pair of opcodes executed one
    right after the other at the same call depth, how often the pair occurs. *)
Theorem bigram_counts ls k :
  Z.of_nat (length ls) < 2 ^ 53 -> Forall (fun l => 1 <= log_depth l) ls ->
  Bigram.result (Bigram.run ls) !! k = occurrences k (omap bigram_key (zip ls (tail ls))).
Proof.
  intros Hl Hd. unfold Bigram.run. destruct ls as [|l ls]; [done|].
  apply Forall_cons in Hd as [Hd _]. simpl in *.
  apply (bigram_fold l ls _ []); [done..| |simpl; lia].
  unfold Bigram.step. simpl. replace (log_depth l =? 0) with false by lia. apply counts_empty.
Qed.

(** Windows of three opcode names; [a] and [b] are the two names before. *)
Fixpoint windows3 (a b : jsstr) (ops : list jsstr) : list jsstr :=
  match ops with
  | [] => []
  | c :: ops => (a ++ str "-" ++ b ++ str "-" ++ c) :: windows3 b c ops
  end.

Lemma trigram_same_depth ls s ks :
  Forall (fun l => log_depth l = Trigram.lastDepth s) ls ->
  counts (Trigram.hist_ s) ks -> Z.of_nat (length ks + length ls) < 2 ^ 53 ->
  counts (Trigram.hist_ (fold_left Trigram.step ls s))
         (ks ++ windows3 (Trigram.lastOp0 s) (Trigram.lastOp1 s) (log_opname <$> ls)) /\
  Trigram.lastDepth (fold_left Trigram.step ls s) = Trigram.lastDepth s.
Proof.
  revert s ks. induction ls as [|l ls IH]; intros s ks Hd Hc Hl.
  { simpl. by rewrite app_nil_r. }
  apply Forall_cons in Hd as [Hd Hds]. simpl in Hl. cbn [fold_left fmap list_fmap windows3].
  rewrite cons_middle, app_assoc.
  assert (Trigram.step s l =
          Trigram.State (bump (Trigram.hist_ s)
            (Trigram.lastOp0 s ++ str "-" ++ Trigram.lastOp1 s ++ str "-" ++ log_opname l))
            (Trigram.lastOp1 s) (log_opname l) (Trigram.lastDepth s)) as ->
    by (unfold Trigram.step; rewrite Hd, Z.eqb_refl; done).
  apply (IH (Trigram.State _ _ _ _)); [done| |rewrite length_app; simpl; lia].
  apply counts_bump; [done|lia].
Qed.

(** Trigram: over a run of opcodes of one call frame, the tracer counts the
    windows of three names over the run padded by two empty names, after
    dropping the first opcode of the run, which only resets the window. *)
Theorem trigram_run_counts s ks l ls :
  log_depth l <> Trigram.lastDepth s ->
  Forall (fun x => log_depth x = log_depth l) ls ->
  counts (Trigram.hist_ s) ks -> Z.of_nat (length ks + length ls) < 2 ^ 53 ->
  counts (Trigram.result (fold_left Trigram.step (l :: ls) s))
         (ks ++ windows3 [] [] (log_opname <$> ls)).
Proof.
  intros Hne Hd Hc Hl. cbn [fold_left]. unfold Trigram.step at 2.
  rewrite (proj2 (Z.eqb_neq _ _) Hne). simpl negb. cbv iota beta zeta.
  by apply (trigram_same_depth ls (Trigram.State (Trigram.hist_ s) [] [] (log_depth l))).
Qed.

(** ** 4byte *)

(** Two strings joined by a separator neither first part contains. *)
Lemma app_sep_inj (c : Z) l1 l2 r1 r2 :
  c ∉ l1 -> c ∉ l2 -> l1 ++ c :: r1 = l2 ++ c :: r2 -> l1 = l2 /\ r1 = r2.
Proof.
  revert l2. induction l1 as [|x l1 IH]; intros [|y l2] H1 H2 E; simplify_eq/=;
    rewrite ?not_elem_of_cons in H1; rewrite ?not_elem_of_cons in H2; try naive_solver.
Qed.

Lemma hex_no_dash (bs : bytes) : Forall is_byte bs -> 45 ∉ toHex bs.
Proof.
  intros H. unfold toHex.
  assert (45 ∉ bs ≫= hex_byte);
    [|change (str "0x") with [48; 120]; cbn [app]; rewrite !not_elem_of_cons; split_and!; [lia..|done]].
  induction H as [|x bs Hx _ IH]; [apply not_elem_of_nil|].
  change ((x :: bs) ≫= hex_byte) with (hex_byte x ++ (bs ≫= hex_byte)).
  assert (forall d, is_digit 16 d -> digit_char d <> 45) as D
    by (unfold is_digit, digit_char; intros d ?; destruct (Z.ltb_spec d 10); lia).
  unfold is_byte in Hx. unfold hex_byte.
  assert (digit_char (x / 16) <> 45) by (apply D; unfold is_digit; Z.div_mod_to_equations; lia).
  assert (digit_char (x mod 16) <> 45) by (apply D; unfold is_digit; Z.div_mod_to_equations; lia).
  cbn -[digit_char]. rewrite !not_elem_of_cons. split_and!; [lia..|exact IH].
Qed.

Lemma fourbyte_key_inj id1 s1 id2 s2 :
  Forall is_byte id1 -> Forall is_byte id2 -> 0 <= s1 -> 0 <= s2 ->
  FourByte.key id1 s1 = FourByte.key id2 s2 -> id1 = id2 /\ s1 = s2.
Proof.
  unfold FourByte.key. intros H1 H2 Hs1 Hs2 E.
  apply (app_sep_inj 45) in E as [E1 E2]; [|by apply hex_no_dash..].
  split; [by apply toHex_inj|]. apply (to_base_inj 10); [lia|done..].
Qed.

(** The input range of a call opcode, read off the EVM stack layout:
    gas, addr, [value,] inOffset, inSize, outOffset, outSize. *)
Definition call_input (l : log) : option (Z * Z * Z) :=
  if bool_decide (log_opname l = str "CALL") || bool_decide (log_opname l = str "CALLCODE") then
    match log_stack l with
    | _ :: a :: _ :: o :: n :: _ => Some (a, o, n)
    | _ => None
    end
  else if bool_decide (log_opname l = str "DELEGATECALL") || bool_decide (log_opname l = str "STATICCALL") then
    match log_stack l with
    | _ :: a :: o :: n :: _ => Some (a, o, n)
    | _ => None
    end
  else None.

(** The selector of an internal call and the size of the data after it. *)
Definition call_selector (l : log) : option (bytes * Z) :=
  '(a, o, n) ← call_input l;
  if isPrecompiled (be_bytes 20 a) then None
  else if 4 <=? n then Some (take 4 (drop (Z.to_nat o) (log_memory l)), n - 4) else None.

Definition outer_selector (c : context) : option (bytes * Z) :=
  if 4 <=? Z.of_nat (length (ctx_input c))
  then Some (take 4 (ctx_input c), Z.of_nat (length (ctx_input c)) - 4) else None.

(** What the EVM guarantees when it reports an opcode: a call opcode has its
    operands on the stack, and its input range lies in the (byte) memory. *)
Definition evm_log (l : log) : Prop :=
  Forall is_byte (log_memory l) /\ Z.of_nat (length (log_memory l)) < 2 ^ 31 /\
  forall ct, FourByte.callType (log_opname l) = Some ct ->
    exists a o n, call_input l = Some (a, o, n) /\ 0 <= a /\ 0 <= o /\ 0 <= n /\
      o < 2 ^ 31 /\ (0 < n -> o + n <= Z.of_nat (length (log_memory l))) /\ n < 2 ^ 31.

Lemma call_input_peek l ct a o n :
  FourByte.callType (log_opname l) = Some ct -> call_input l = Some (a, o, n) ->
  peek l 1 = a /\ peek l ct = o /\ peek l (ct + 1) = n.
Proof.
  unfold FourByte.callType, call_input, peek.
  destruct (bool_decide (log_opname l = str "CALL") || bool_decide (log_opname l = str "CALLCODE")).
  - intros [= <-] E. repeat case_match; simplify_eq/=; done.
  - destruct (bool_decide (log_opname l = str "DELEGATECALL") || bool_decide (log_opname l = str "STATICCALL")); [|done].
    intros [= <-] E. repeat case_match; simplify_eq/=; done.
Qed.

Lemma call_input_none l : FourByte.callType (log_opname l) = None -> call_input l = None.
Proof.
  unfold FourByte.callType, call_input.
  destruct (bool_decide (log_opname l = str "CALL") || bool_decide (log_opname l = str "CALLCODE")); [done|].
  by destruct (bool_decide (log_opname l = str "DELEGATECALL") || bool_decide (log_opname l = str "STATICCALL")).
Qed.

Lemma fourbyte_step l ids :
  evm_log l ->
  FourByte.step ids l = from_option (fun p => FourByte.store ids p.1 p.2) ids (call_selector l).
Proof.
  intros (_ & Hm & Hc). unfold FourByte.step, call_selector.
  destruct (FourByte.callType (log_opname l)) as [ct|] eqn:Ect;
    [|by rewrite call_input_none].
  destruct (Hc ct eq_refl) as (a & o & n & Ein & Ha & Ho & Hn & Hob & Hon & Hnb).
  destruct (call_input_peek _ _ _ _ _ Ect Ein) as (-> & -> & ->). rewrite Ein. cbn [mbind option_bind].
  rewrite toAddress_word by done. destruct (isPrecompiled _); [done|].
  rewrite !(f64_exact n), (f64_exact o), (f64_exact (o + 4)), (f64_exact (n - 4)) by lia.
  destruct (Z.leb_spec 4 n); [|done].
  rewrite mem_slice_in by lia. cbn [from_option fst snd]. by replace (o + 4 - o) with 4 by lia.
Qed.

Lemma fourbyte_fold ls ids ks :
  Forall evm_log ls -> counts ids ks -> Z.of_nat (length ks + length ls) < 2 ^ 53 ->
  counts (fold_left FourByte.step ls ids)
         (ks ++ ((fun p => FourByte.key p.1 p.2) <$> omap call_selector ls)).
Proof.
  intros H. revert ids ks. induction H as [|l ls Hl _ IH]; intros ids ks Hc Hb.
  { simpl. by rewrite app_nil_r. }
  simpl in Hb. cbn [fold_left]. rewrite fourbyte_step by done.
  change (omap call_selector (l :: ls))
    with (match call_selector l with Some y => y :: omap call_selector ls
          | None => omap call_selector ls end).
  destruct (call_selector l) as [p|]; simpl from_option.
  - rewrite fmap_cons, cons_middle, app_assoc. apply IH; [|rewrite length_app; simpl; lia].
    apply counts_store; [done|lia].
  - apply IH; [done|lia].
Qed.

Lemma omap_length_le {A B} (f : A -> option B) l : (length (omap f l) <= length l)%nat.
Proof. induction l as [|x l IH]; simpl; [done|]. destruct (f x); simpl; unfold omap in *; lia. Qed.

(** All the calls of a transaction: the internal ones and the outer one. *)
Definition all_selectors (c : context) (ls : list log) : list (bytes * Z) :=
  omap call_selector ls ++ option_list (outer_selector c).

Lemma fourbyte_result_keys c ls :
  Forall evm_log ls -> Z.of_nat (length ls) < 2 ^ 53 - 1 -> Z.of_nat (length (ctx_input c)) < 2 ^ 31 ->
  counts (FourByte.result c (FourByte.run ls))
         ((fun p => FourByte.key p.1 p.2) <$> all_selectors c ls).
Proof.
  intros H Hl Hi. unfold FourByte.result, all_selectors, outer_selector.
  pose proof (fourbyte_fold ls ∅ [] H counts_empty ltac:(simpl; lia)) as Hc. simpl in Hc.
  rewrite fmap_app. destruct (Z.leb_spec 4 (Z.of_nat (length (ctx_input c)))); simpl.
  - replace (host_slice (ctx_input c) 0 4) with (take 4 (ctx_input c)).
    + apply counts_store; [done|]. rewrite length_fmap.
      pose proof (omap_length_le call_selector ls). lia.
    + unfold host_slice, getInt.
      replace (Z.max (- 2 ^ 31) (Z.min (2 ^ 31 - 1) 0)) with 0 by lia.
      replace (Z.max (- 2 ^ 31) (Z.min (2 ^ 31 - 1) 4)) with 4 by lia.
      by replace (Z.of_nat (length (ctx_input c)) <? 4) with false by lia.
  - by rewrite app_nil_r.
Qed.

Lemma occurrences_fmap_inj {A} `{!EqDecision A} (P : A -> Prop) (f : A -> jsstr) (x : A) (l : list A) :
  P x -> Forall P l -> (forall a b, P a -> P b -> f a = f b -> a = b) ->
  occurrences (f x) (f <$> l) =
  (let n := length (filter (fun y => y = x) l) in
   if (n =? 0)%nat then None else Some (Z.of_nat n)).
Proof.
  intros Px Pl Hinj. unfold occurrences.
  assert (length (filter (λ k, k = f x) (f <$> l)) = length (filter (λ y, y = x) l)) as ->; [|done].
  induction Pl as [|y l Py _ IH]; [done|]. rewrite fmap_cons, !filter_cons.
  destruct (decide (y = x)) as [->|Hne].
  - rewrite decide_True by done. simpl. by rewrite IH.
  - rewrite decide_False by (intros E; apply Hne; by apply Hinj). done.
Qed.

Lemma all_selectors_valid c ls :
  Forall evm_log ls -> Forall is_byte (ctx_input c) ->
  Forall (fun p => Forall is_byte p.1 /\ 0 <= p.2) (all_selectors c ls).
Proof.
  intros H Hc. unfold all_selectors. apply Forall_app. split.
  - apply Forall_forall. intros p Hp. apply list_elem_of_omap in Hp as (l & Hl & Ep).
    rewrite Forall_forall in H. destruct (H l Hl) as (Hm & _).
    unfold call_selector in Ep. destruct (call_input l) as [[[a o] n]|]; [|done]. cbn [mbind option_bind] in Ep.
    destruct (isPrecompiled _); [done|]. destruct (Z.leb_spec 4 n); [|done]. injection Ep as <-.
    simpl. split; [|lia]. apply Forall_take, Forall_drop, Hm.
  - unfold outer_selector. destruct (Z.leb_spec 4 (Z.of_nat (length (ctx_input c)))); simpl; [|constructor].
    repeat constructor; simpl; [|lia]. by apply Forall_take.
Qed.

(** 4byte: the reported number of a selector and argument size is the number
    of calls of the transaction (internal calls to ordinary contracts, and the
    outer call) whose input starts with that selector and has that size. *)
Theorem fourbyte_counts c ls id sz :
  Forall evm_log ls -> Z.of_nat (length ls) < 2 ^ 53 - 1 ->
  Forall is_byte (ctx_input c) -> Z.of_nat (length (ctx_input c)) < 2 ^ 31 ->
  Forall is_byte id -> 0 <= sz ->
  FourByte.result c (FourByte.run ls) !! FourByte.key id sz =
  (let n := length (filter (fun p => p = (id, sz)) (all_selectors c ls)) in
   if (n =? 0)%nat then None else Some (Z.of_nat n)).
Proof.
  intros H Hl Hc Hi Hid Hsz. rewrite (fourbyte_result_keys c ls H Hl Hi).
  apply (occurrences_fmap_inj (fun p => Forall is_byte p.1 /\ 0 <= p.2)
           (fun p => FourByte.key p.1 p.2) (id, sz)).
  - done.
  - by apply all_selectors_valid.
  - intros [i1 s1] [i2 s2] [? ?] [? ?] E. simpl in *.
    by destruct (fourbyte_key_inj i1 s1 i2 s2) as [-> ->].
Qed.

(** * Examples *)

Definition ex_log (name : jsstr) (depth : Z) : log := Log 0 name [] [] [] 0 0 0 depth None.
Definition ex_logs : list log :=
  [ex_log (str "PUSH1") 1; ex_log (str "ADD") 1; ex_log (str "PUSH1") 1; ex_log (str "ADD") 1].

Lemma opcount_length_witness : Opcount.result (Opcount.run ex_logs) = 4.
Proof. apply (opcount_length ex_logs). simpl. lia. Defined.

Lemma unigram_counts_witness : exists h,
  Unigram.result (Unigram.run ex_logs) = Some h /\ h !! str "ADD" = Some 2.
Proof.
  destruct (unigram_counts ex_logs) as (h & H1 & H2); [discriminate|simpl; lia|].
  exists h. split; [exact H1|]. rewrite H2. vm_compute. reflexivity.
Defined.

Lemma bigram_counts_witness : Bigram.result (Bigram.run ex_logs) !! str "PUSH1-ADD" = Some 2.
Proof.
  rewrite (bigram_counts ex_logs (str "PUSH1-ADD")).
  - vm_compute. reflexivity.
  - simpl. lia.
  - repeat constructor; simpl; lia.
Defined.

Lemma fourbyte_counts_witness :
  FourByte.result (Context (str "CALL") [] [] 0 0 0 [1; 2; 3; 4; 5] [] [] None)
    (FourByte.run [Log 0xf1 (str "CALL") [50; 0xaa; 0; 0; 5; 0; 0] [1; 2; 3; 4; 9] [] 0 0 0 1 None])
    !! FourByte.key [1; 2; 3; 4] 1 = Some 2.
Proof.
  rewrite (fourbyte_counts (Context (str "CALL") [] [] 0 0 0 [1; 2; 3; 4; 5] [] [] None)
    [Log 0xf1 (str "CALL") [50; 0xaa; 0; 0; 5; 0; 0] [1; 2; 3; 4; 9] [] 0 0 0 1 None] [1; 2; 3; 4] 1).
  - vm_compute. reflexivity.
  - constructor; [|constructor]. split; [|split].
    + simpl. repeat constructor; unfold is_byte; lia.
    + simpl. lia.
    + intros ct Hct. eexists _, _, _. split; [vm_compute; reflexivity|]. simpl. lia.
  - simpl. lia.
  - simpl. repeat constructor; unfold is_byte; lia.
  - simpl. lia.
  - repeat constructor; unfold is_byte; lia.
  - lia.
Defined.
