(* ===== verification/CallTracer.v ===== *)
(** The call tracer, src/eth/tracers/internal/tracers/call_tracer.js: it
    rebuilds the tree of internal calls of a transaction from the flat sequence
    of executed opcodes, keeping an explicit stack of open calls.

    [step], [fault], [result] and [finalize] are the methods of the tracer
    object; [None] is a thrown JavaScript exception.  The reference semantics
    [run_item] evaluates an execution as the tree it is, call frame by call
    frame, and the refinement theorem shows that the tracer's stack machine
    computes it. *)
From Stdlib Require Import ZArith Lia.
From S2P Require Import Prelude TracerHost.
Open Scope Z_scope.

(** * State *)

(** The [gas] property: a number while the call is open, then a hex string. *)
Inductive gasv := GNum (z : Z) | GHex (s : jsstr).

(** The properties of a call report; an absent property is [None]. *)
Record fields := Fields {
  c_type : option jsstr;
  c_from : option jsstr;
  c_to : option jsstr;
  c_value : option jsstr;
  c_gas : option gasv;
  c_gasUsed : option jsstr;
  c_input : option jsstr;
  c_output : option jsstr;
  c_error : option jsstr;
  c_time : option jsstr;
  c_gasIn : option Z;
  c_gasCost : option Z;
  c_outOff : option Z;
  c_outLen : option Z
}.

(** A call report: its properties and its [calls] array. *)
Inductive call := Call (info : fields) (calls : option (list call)).

Definition info (c : call) : fields := match c with Call i _ => i end.
Definition calls (c : call) : option (list call) := match c with Call _ cs => cs end.
Definition upd (f : fields -> fields) (c : call) : call :=
  match c with Call i cs => Call (f i) cs end.

(** [{}] *)
Definition no_fields : fields :=
  Fields None None None None None None None None None None None None None None.

Definition set_gas g (i : fields) : fields :=
  Fields (c_type i) (c_from i) (c_to i) (c_value i) g (c_gasUsed i) (c_input i)
    (c_output i) (c_error i) (c_time i) (c_gasIn i) (c_gasCost i) (c_outOff i) (c_outLen i).
Definition set_gasUsed u (i : fields) : fields :=
  Fields (c_type i) (c_from i) (c_to i) (c_value i) (c_gas i) u (c_input i)
    (c_output i) (c_error i) (c_time i) (c_gasIn i) (c_gasCost i) (c_outOff i) (c_outLen i).
Definition set_to t (i : fields) : fields :=
  Fields (c_type i) (c_from i) t (c_value i) (c_gas i) (c_gasUsed i) (c_input i)
    (c_output i) (c_error i) (c_time i) (c_gasIn i) (c_gasCost i) (c_outOff i) (c_outLen i).
Definition set_output o (i : fields) : fields :=
  Fields (c_type i) (c_from i) (c_to i) (c_value i) (c_gas i) (c_gasUsed i) (c_input i)
    o (c_error i) (c_time i) (c_gasIn i) (c_gasCost i) (c_outOff i) (c_outLen i).
Definition set_error e (i : fields) : fields :=
  Fields (c_type i) (c_from i) (c_to i) (c_value i) (c_gas i) (c_gasUsed i) (c_input i)
    (c_output i) e (c_time i) (c_gasIn i) (c_gasCost i) (c_outOff i) (c_outLen i).
(** [delete call.gasIn; delete call.gasCost;] *)
Definition del_gas (i : fields) : fields :=
  Fields (c_type i) (c_from i) (c_to i) (c_value i) (c_gas i) (c_gasUsed i) (c_input i)
    (c_output i) (c_error i) (c_time i) None None (c_outOff i) (c_outLen i).
(** [delete call.outOff; delete call.outLen;] *)
Definition del_out (i : fields) : fields :=
  Fields (c_type i) (c_from i) (c_to i) (c_value i) (c_gas i) (c_gasUsed i) (c_input i)
    (c_output i) (c_error i) (c_time i) (c_gasIn i) (c_gasCost i) None None.

(** The tracer object; the innermost open call is the head of [callstack]. *)
Record state := State { callstack : list call; descended : bool }.
Definition init : state := State [Call no_fields None] false.

(** * Operations *)

(** ['0x' + n.toString(16)] of a big integer. *)
Definition hex (z : Z) : jsstr := str "0x" ++ to_base 16 z.
(** ['0x' + bigInt(n).toString(16)] of a number. *)
Definition hex_num (z : Z) : jsstr := hex (js_dec_value z).

(** [if (parent.calls === undefined) parent.calls = []; parent.calls.push(c)]. *)
Definition push_call (parent c : call) : call :=
  Call (info parent) (Some (default [] (calls parent) ++ [c])).

Definition syscall (l : log) : bool := Z.land (log_op l) 0xf0 =? 0xf0.
Definition is_op (l : log) (n : jsstr) : bool := syscall l && bool_decide (log_opname l = n).

(** The report opened for a CREATE. *)
Definition create_call (l : log) : call :=
  let inOff := f64 (peek l 1) in
  let inEnd := f64 (inOff + f64 (peek l 2)) in
  Call (Fields (Some (log_opname l)) (Some (toHex (log_address l))) None
          (Some (hex (peek l 0))) None None (Some (toHex (mem_slice l inOff inEnd)))
          None None None (Some (f64 (log_gas l))) (Some (f64 (log_cost l))) None None) None.

(** The report opened for a CALL, CALLCODE, DELEGATECALL or STATICCALL. *)
Definition method_call (l : log) (to : bytes) : call :=
  let op := log_opname l in
  let novalue := bool_decide (op = str "DELEGATECALL") || bool_decide (op = str "STATICCALL") in
  let off := if novalue then 0%nat else 1%nat in
  let inOff := f64 (peek l (2 + off)) in
  let inEnd := f64 (inOff + f64 (peek l (3 + off))) in
  Call (Fields (Some op) (Some (toHex (log_address l))) (Some (toHex to))
          (if novalue then None else Some (hex (peek l 2))) None None
          (Some (toHex (mem_slice l inOff inEnd)))
          None None None (Some (f64 (log_gas l))) (Some (f64 (log_cost l)))
          (Some (f64 (peek l (4 + off)))) (Some (f64 (peek l (5 + off))))) None.

(** [if (call.gas !== undefined) call.gas = '0x' + bigInt(call.gas).toString(16)];
    [bigInt] rejects a string that is not a decimal number. *)
Definition gas_to_hex (i : fields) : option fields :=
  match c_gas i with
  | None => Some i
  | Some (GNum z) => Some (set_gas (Some (GHex (hex_num z))) i)
  | Some (GHex _) => None
  end.

(** [call.error === undefined] then "internal failure". *)
Definition internal_failure (i : fields) : fields :=
  match c_error i with
  | None => set_error (Some (str "internal failure")) i
  | Some _ => i
  end.

(** The report of a call that returns to the opcode [l] of its caller. *)
Definition finish_call (db : database) (l : log) (i : fields) : option fields :=
  let ret := peek l 0 in
  if bool_decide (c_type i = Some (str "CREATE")) then
    match c_gasIn i, c_gasCost i with
    | Some gin, Some gcost =>
        let i := del_gas (set_gasUsed (Some (hex_num (f64 (f64 (gin - gcost) - f64 (log_gas l))))) i) in
        gas_to_hex
          (if negb (ret =? 0) then
             let a := toAddress (to_base 16 ret) in
             set_output (Some (toHex (getCode db a))) (set_to (Some (toHex a)) i)
           else internal_failure i)
    | _, _ => None
    end
  else
    match c_gas i with
    | None => Some (del_out (del_gas i))
    | Some (GNum g) =>
        match c_gasIn i, c_gasCost i with
        | Some gin, Some gcost =>
            let i := set_gasUsed (Some (hex_num (f64 (f64 (f64 (gin - gcost) + g) - f64 (log_gas l))))) i in
            let i := if negb (ret =? 0) then
                       let o := default 0 (c_outOff i) in
                       let n := default 0 (c_outLen i) in
                       set_output (Some (toHex (mem_slice l o (f64 (o + n))))) i
                     else internal_failure i in
            gas_to_hex (del_out (del_gas i))
        | _, _ => None
        end
    | Some (GHex _) => None
    end.

(** [fault]. *)
Definition fault (s : state) (l : log) : option state :=
  match callstack s with
  | [] => None
  | Call i cs :: rest =>
      match c_error i with
      | Some _ => Some s
      | None =>
          let i := set_error (log_error l) i in
          match (match c_gas i with
                 | None => Some i
                 | Some (GNum z) =>
                     Some (set_gasUsed (Some (hex_num z)) (set_gas (Some (GHex (hex_num z))) i))
                 | Some (GHex _) => None
                 end) with
          | None => None
          | Some i =>
              let c := Call (del_out (del_gas i)) cs in
              match rest with
              | parent :: rest => Some (State (push_call parent c :: rest) (descended s))
              | [] => Some (State [c] (descended s))
              end
          end
      end
  end.

(** The part of [step] after the opcodes that open calls: the true gas of a
    call just entered, a REVERT, the return of the innermost call. *)
Definition enter (l : log) (s : state) : option (list call) :=
  if descended s then
    if Z.of_nat (length (callstack s)) <=? log_depth l then
      match callstack s with
      | [] => None
      | top :: rest => Some (upd (set_gas (Some (GNum (f64 (log_gas l))))) top :: rest)
      end
    else Some (callstack s)
  else Some (callstack s).

Definition return_call (db : database) (l : log) (cs : list call) : option (list call) :=
  if log_depth l =? Z.of_nat (length cs) - 1 then
    match cs with
    | Call i sub :: parent :: rest =>
        i ← finish_call db l i; Some (push_call parent (Call i sub) :: rest)
    | _ => None
    end
  else Some cs.

Definition step (db : database) (s : state) (l : log) : option state :=
  match log_error l with
  | Some _ => fault s l
  | None =>
      if is_op l (str "CREATE") then Some (State (create_call l :: callstack s) true)
      else if is_op l (str "SELFDESTRUCT") then
        match callstack s with
        | [] => None
        | top :: rest =>
            let c := Call (Fields (Some (log_opname l)) None None None None None None None None
                             None None None None None) None in
            Some (State (push_call top c :: rest) (descended s))
        end
      else if is_op l (str "CALL") || is_op l (str "CALLCODE")
              || is_op l (str "DELEGATECALL") || is_op l (str "STATICCALL") then
        let to := toAddress (to_base 16 (peek l 1)) in
        if isPrecompiled to then Some s
        else Some (State (method_call l to :: callstack s) true)
      else
        cs ← enter l s;
        if is_op l (str "REVERT") then
          match cs with
          | [] => None
          | top :: rest =>
              Some (State (upd (set_error (Some (str "execution reverted"))) top :: rest) false)
          end
        else cs ← return_call db l cs; Some (State cs false)
  end.

(** * Result *)

(** The JSON value the tracer returns: the properties of an object in order. *)
Inductive json :=
| JStr (s : jsstr)
| JNum (z : Z)
| JArr (l : list json)
| JObj (l : list (jsstr * json)).

Definition gas_json (g : gasv) : json :=
  match g with GNum z => JNum z | GHex s => JStr s end.

(** A property kept when it is not [undefined]. *)
Definition prop {A} (k : jsstr) (f : A -> json) (v : option A) : list (jsstr * json) :=
  match v with None => [] | Some x => [(k, f x)] end.

Fixpoint finalize (c : call) : json :=
  match c with
  | Call i cs =>
      JObj (prop (str "type") JStr (c_type i) ++ prop (str "from") JStr (c_from i) ++
            prop (str "to") JStr (c_to i) ++ prop (str "value") JStr (c_value i) ++
            prop (str "gas") gas_json (c_gas i) ++ prop (str "gasUsed") JStr (c_gasUsed i) ++
            prop (str "input") JStr (c_input i) ++ prop (str "output") JStr (c_output i) ++
            prop (str "error") JStr (c_error i) ++ prop (str "time") JStr (c_time i) ++
            match cs with
            | None => []
            | Some l => [(str "calls", JArr (map finalize l))]
            end)
  end.

Definition result (s : state) (c : context) : option json :=
  base ← last (callstack s);
  let error := match c_error (info base) with Some e => Some e | None => ctx_error c end in
  Some (finalize
    (Call (Fields (Some (ctx_type c)) (Some (toHex (ctx_from c))) (Some (toHex (ctx_to c)))
             (Some (hex (ctx_value c))) (Some (GHex (hex_num (f64 (ctx_gas c)))))
             (Some (hex_num (f64 (ctx_gasUsed c)))) (Some (toHex (ctx_input c)))
             (match error with None => Some (toHex (ctx_output c)) | Some _ => None end)
             error (Some (ctx_time c)) None None None None)
          (calls base))).

(** * Executions as trees

    The events the host delivers, and the execution of a call frame as a list
    of items: ordinary opcodes, skipped calls of precompiled contracts, the
    frame's own REVERT and SELFDESTRUCT, an internal call that returns to the
    next opcode [r] of the caller, and an internal call whose frame fails. *)
Inductive event := EStep (l : log) | EFault (l : log).

Definition handle (db : database) (s : state) (e : event) : option state :=
  match e with EStep l => step db s l | EFault l => fault s l end.

Fixpoint run (db : database) (s : state) (es : list event) : option state :=
  match es with
  | [] => Some s
  | e :: es => s ← handle db s e; run db s es
  end.

Inductive item :=
| IOp (l : log)
| ISkip (l : log)
| IRevert (l f : log)
| ISelf (l : log)
| ICall (l : log) (body : list item) (r : log)
| IFail (l : log) (body : list item) (e : event).

Fixpoint flatten (it : item) : list event :=
  match it with
  | IOp l | ISkip l | ISelf l => [EStep l]
  | IRevert l f => [EStep l; EFault f]
  | ICall l body r => EStep l :: concat (map flatten body) ++ [EStep r]
  | IFail l body e => EStep l :: concat (map flatten body) ++ [e]
  end.

Definition event_log (e : event) : log := match e with EStep l | EFault l => l end.

(** Opcodes that neither open a call nor end the frame in a special way. *)
Definition is_call_op (l : log) : bool :=
  is_op l (str "CALL") || is_op l (str "CALLCODE")
  || is_op l (str "DELEGATECALL") || is_op l (str "STATICCALL").
Definition call_target (l : log) : bytes := toAddress (to_base 16 (peek l 1)).

Definition ordinary (l : log) : Prop :=
  log_error l = None /\ is_op l (str "CREATE") = false /\ is_op l (str "SELFDESTRUCT") = false /\
  is_call_op l = false /\ is_op l (str "REVERT") = false.

Definition opens (l : log) : Prop :=
  log_error l = None /\
  (is_op l (str "CREATE") = true \/
   (is_op l (str "CREATE") = false /\ is_op l (str "SELFDESTRUCT") = false /\
    is_call_op l = true /\ isPrecompiled (call_target l) = false)).

(** Gas amounts far from the limit of exact numbers. *)
Definition safe (l : log) : Prop := 0 <= log_gas l < 2 ^ 51 /\ 0 <= log_cost l < 2 ^ 51.

(** The first opcode of a frame, which reveals the gas the frame was given. *)
Definition first_log (body : list item) : option log :=
  match body with
  | IOp l :: _ | IRevert l _ :: _ => Some l
  | _ => None
  end.

(** ** Reference semantics *)

Definition open_call (l : log) : call :=
  if is_op l (str "CREATE") then create_call l else method_call l (call_target l).

Definition self_call (l : log) : call :=
  Call (Fields (Some (log_opname l)) None None None None None None None None
          None None None None None) None.

(** The report of a call that returned to opcode [r]: gas used, output or
    failure, computed with exact integers. *)
Definition closed (db : database) (r : log) (i : fields) : fields :=
  let gasHex := match c_gas i with Some (GNum g) => Some (GHex (hex g)) | g => g end in
  let ok := negb (peek r 0 =? 0) in
  let err := if ok then c_error i
             else Some (default (str "internal failure") (c_error i)) in
  let gin := default 0 (c_gasIn i) in
  let gcost := default 0 (c_gasCost i) in
  if bool_decide (c_type i = Some (str "CREATE")) then
    let a := toAddress (to_base 16 (peek r 0)) in
    Fields (c_type i) (c_from i) (if ok then Some (toHex a) else c_to i) (c_value i) gasHex
      (Some (hex (gin - gcost - log_gas r))) (c_input i)
      (if ok then Some (toHex (getCode db a)) else c_output i) err (c_time i)
      None None (c_outOff i) (c_outLen i)
  else
    match c_gas i with
    | Some (GNum g) =>
        let o := default 0 (c_outOff i) in
        Fields (c_type i) (c_from i) (c_to i) (c_value i) gasHex
          (Some (hex (gin - gcost + g - log_gas r))) (c_input i)
          (if ok then Some (toHex (mem_slice r o (f64 (o + default 0 (c_outLen i)))))
           else c_output i) err (c_time i) None None None None
    | _ => del_out (del_gas i)
    end.

(** The report of a call whose frame failed with the error of [f]: all the gas
    the frame was given is used. *)
Definition failed (f : log) (i : fields) : fields :=
  let gasHex := match c_gas i with Some (GNum g) => Some (GHex (hex g)) | g => g end in
  let used := match c_gas i with Some (GNum g) => Some (hex g) | _ => c_gasUsed i end in
  Fields (c_type i) (c_from i) (c_to i) (c_value i) gasHex used (c_input i) (c_output i)
    (log_error f) (c_time i) None None None None.

Definition enter_frame (body : list item) (c : call) : call :=
  match first_log body with
  | Some l => upd (set_gas (Some (GNum (log_gas l)))) c
  | None => c
  end.

(** What an item does to the report [top] of the frame it belongs to. *)
Fixpoint run_item (db : database) (top : call) (it : item) : call :=
  match it with
  | IOp _ | ISkip _ => top
  | IRevert _ _ => upd (set_error (Some (str "execution reverted"))) top
  | ISelf l => push_call top (self_call l)
  | ICall l body r =>
      push_call top
        (upd (closed db r)
           (fold_left (fun c it => run_item db c it) body (enter_frame body (open_call l))))
  | IFail l body e =>
      push_call top
        (upd (failed (event_log e))
           (fold_left (fun c it => run_item db c it) body (enter_frame body (open_call l))))
  end.

(** Whether a frame reverts on its own. *)
Definition reverts (it : item) : bool := match it with IRevert _ _ => true | _ => false end.

(** Well-formed executions at call depth [d]. *)
Fixpoint wf_item (d : Z) (it : item) : Prop :=
  match it with
  | IOp l => ordinary l /\ safe l /\ log_depth l = d
  | ISkip l =>
      log_error l = None /\ is_op l (str "CREATE") = false /\ is_op l (str "SELFDESTRUCT") = false /\
      is_call_op l = true /\ isPrecompiled (call_target l) = true
  | IRevert l f =>
      log_error l = None /\ is_op l (str "CREATE") = false /\ is_op l (str "SELFDESTRUCT") = false /\
      is_call_op l = false /\ is_op l (str "REVERT") = true /\ safe l /\ log_depth l = d
  | ISelf l => log_error l = None /\ is_op l (str "CREATE") = false /\ is_op l (str "SELFDESTRUCT") = true
  | ICall l body r =>
      opens l /\ safe l /\ ordinary r /\ safe r /\ log_depth r = d /\
      (body = [] \/ is_Some (first_log body)) /\
      foldr (fun it P => wf_item (d + 1) it /\ P) True body
  | IFail l body e =>
      opens l /\ safe l /\ is_Some (log_error (event_log e)) /\
      is_Some (first_log body) /\ forallb (fun it => negb (reverts it)) body = true /\
      foldr (fun it P => wf_item (d + 1) it /\ P) True body
  end.

Definition wf_items (d : Z) (its : list item) : Prop := Forall (wf_item d) its.

(** * The stack machine computes the tree *)

(** What holds of the report of an open call. *)
Definition open_fields (i : fields) : Prop :=
  (exists g, c_gasIn i = Some g /\ 0 <= g < 2 ^ 51) /\
  (exists g, c_gasCost i = Some g /\ 0 <= g < 2 ^ 51) /\
  (c_gas i = None \/ exists g, c_gas i = Some (GNum g) /\ 0 <= g < 2 ^ 51).

Lemma finish_closed db r i :
  open_fields i -> safe r -> finish_call db r i = Some (closed db r i).
Proof.
  destruct i as [ty fr to va ga us inp out er ti gin gc oo ol]. unfold open_fields, safe. simpl.
  intros ((gi & -> & Hgi) & (gco & -> & Hgc) & Hg) [Hr _].
  unfold finish_call, closed, gas_to_hex, internal_failure, hex_num. simpl.
  assert (f64 (log_gas r) = log_gas r) as -> by (apply f64_exact; lia).
  rewrite (f64_exact (gi - gco)) by lia.
  destruct (bool_decide (ty = Some (str "CREATE"))).
  - rewrite (f64_exact (gi - gco - log_gas r)), js_dec_value_safe by lia.
    destruct Hg as [->|(g & -> & Hg)]; destruct (peek r 0 =? 0), er; simpl; try done;
      by rewrite ?js_dec_value_safe by lia.
  - destruct Hg as [->|(g & -> & Hg)]; [done|].
    rewrite (f64_exact (gi - gco + g)), (f64_exact (gi - gco + g - log_gas r)) by lia.
    rewrite !js_dec_value_safe by lia.
    destruct (peek r 0 =? 0), er; simpl; by rewrite ?js_dec_value_safe by lia.
Qed.

Lemma open_call_fields l : safe l -> open_fields (info (open_call l)).
Proof.
  intros [Hg Hc]. unfold open_call, open_fields, create_call, method_call.
  destruct (is_op l (str "CREATE")); simpl; rewrite !f64_exact by lia; eauto 10.
Qed.

Lemma open_call_error l : c_error (info (open_call l)) = None.
Proof. unfold open_call. by destruct (is_op l (str "CREATE")). Qed.

Lemma enter_frame_fields body c :
  open_fields (info c) -> (forall l, first_log body = Some l -> safe l) ->
  open_fields (info (enter_frame body c)).
Proof.
  intros (H1 & H2 & H3) Hs. unfold enter_frame. destruct (first_log body) as [l|]; [|done].
  destruct c as [i cs], (Hs l eq_refl) as [Hg _]. unfold open_fields. simpl in *. eauto 10.
Qed.

Lemma enter_frame_error body c : c_error (info (enter_frame body c)) = c_error (info c).
Proof. unfold enter_frame. by destruct (first_log body), c. Qed.

(** Items only touch the error and the calls of their frame's report. *)
Lemma run_item_info db c it :
  info (run_item db c it) =
  if reverts it then set_error (Some (str "execution reverted")) (info c) else info c.
Proof. destruct it; simpl; by destruct c. Qed.

Lemma run_items_fields db its c :
  open_fields (info c) -> open_fields (info (fold_left (run_item db) its c)).
Proof.
  revert c. induction its as [|it its IH]; intros c H; [done|]. apply IH.
  rewrite run_item_info. destruct (reverts it); [|done]. exact H.
Qed.

Lemma run_items_error db its c :
  forallb (fun it => negb (reverts it)) its = true ->
  c_error (info (fold_left (run_item db) its c)) = c_error (info c).
Proof.
  revert c. induction its as [|it its IH]; intros c H; [done|]. simpl in *.
  apply andb_prop in H as [H1 H2]. rewrite IH by done. rewrite run_item_info.
  by destruct (reverts it).
Qed.

Lemma run_app db s es1 es2 : run db s (es1 ++ es2) = (s ← run db s es1; run db s es2).
Proof.
  revert s. induction es1 as [|e es1 IH]; intros s; simpl; [done|].
  destruct (handle db s e); simpl; [apply IH|done].
Qed.

(** Single events. *)

Lemma step_opens db s l :
  opens l -> step db s l = Some (State (open_call l :: callstack s) true).
Proof.
  intros [He Ho]. unfold step, open_call. rewrite He.
  destruct Ho as [->|(-> & -> & Hc & Hp)]; [done|]. unfold is_call_op, call_target in *.
  by rewrite Hc, Hp.
Qed.

Lemma step_ordinary db top rest fl l d :
  ordinary l -> safe l -> log_depth l = d -> Z.of_nat (length (top :: rest)) = d ->
  step db (State (top :: rest) fl) l =
  Some (State ((if fl then upd (set_gas (Some (GNum (log_gas l)))) top else top) :: rest) false).
Proof.
  intros (He & Hc & Hs & Hcall & Hr) [Hg _] Hd Hl. unfold step, is_call_op in *.
  rewrite He, Hc, Hs, Hcall, Hr. unfold enter, return_call.
  cbn [callstack descended]. rewrite (f64_exact (log_gas l)) by lia.
  replace (Z.of_nat (length (top :: rest)) <=? log_depth l) with true by lia.
  assert (forall t : call, (log_depth l =? Z.of_nat (length (t :: rest)) - 1) = false) as Hn
    by (intros t; apply Z.eqb_neq; simpl length in *; lia).
  destruct fl; cbn [mbind option_bind]; by rewrite Hn.
Qed.

Lemma step_revert db top rest fl l f d :
  log_error l = None -> is_op l (str "CREATE") = false -> is_op l (str "SELFDESTRUCT") = false ->
  is_call_op l = false -> is_op l (str "REVERT") = true -> safe l -> log_depth l = d ->
  Z.of_nat (length (top :: rest)) = d ->
  run db (State (top :: rest) fl) [EStep l; EFault f] =
  Some (State (upd (set_error (Some (str "execution reverted")))
                 (if fl then upd (set_gas (Some (GNum (log_gas l)))) top else top) :: rest) false).
Proof.
  intros He Hc Hs Hcall Hr [Hg _] Hd Hl. cbn [run handle]. unfold step, is_call_op in *.
  rewrite He, Hc, Hs, Hcall, Hr. unfold enter. cbn [callstack descended].
  rewrite Hl, Hd, Z.leb_refl, (f64_exact (log_gas l)) by lia.
  by destruct fl, top.
Qed.

(** The opcode after a call returned, in the caller, closes its report. *)
Lemma step_return db i sub parent rest fl r d :
  ordinary r -> safe r -> open_fields i -> log_depth r = d ->
  Z.of_nat (length (parent :: rest)) = d ->
  step db (State (Call i sub :: parent :: rest) fl) r =
  Some (State (push_call parent (Call (closed db r i) sub) :: rest) false).
Proof.
  intros (He & Hc & Hs & Hcall & Hr) Hsafe Hi Hd Hl. unfold step, is_call_op in *.
  rewrite He, Hc, Hs, Hcall, Hr. unfold enter. cbn [callstack descended]. simpl length in *.
  zbool (Z.of_nat (S (S (length rest))) <=? log_depth r) false.
  assert (return_call db r (Call i sub :: parent :: rest) =
          Some (push_call parent (Call (closed db r i) sub) :: rest)) as Hret.
  { unfold return_call. simpl length.
    zbool (log_depth r =? Z.of_nat (S (S (length rest))) - 1) true.
    by rewrite finish_closed. }
  destruct fl; cbn [mbind option_bind]; by rewrite Hret.
Qed.

Lemma handle_fails db i sub parent rest e :
  is_Some (log_error (event_log e)) -> c_error i = None -> open_fields i ->
  handle db (State (Call i sub :: parent :: rest) false) e =
  Some (State (push_call parent (Call (failed (event_log e) i) sub) :: rest) false).
Proof.
  intros [m Hm] He (_ & _ & Hg).
  assert (handle db (State (Call i sub :: parent :: rest) false) e =
          fault (State (Call i sub :: parent :: rest) false) (event_log e)) as ->.
  { destruct e; simpl in *; [|done]. unfold step. by rewrite Hm. }
  unfold fault, failed, hex_num. cbn [callstack]. rewrite He.
  destruct i as [ty fr to va ga us inp out er ti gin gc oo ol]. simpl in *.
  destruct Hg as [->|(g & -> & Hb)]; simpl; [done|]. by rewrite js_dec_value_safe by lia.
Qed.

(** ** Induction on executions *)

Section ItemInd.
Context (P : item -> Prop).
Context (HOp : forall l, P (IOp l)) (HSkip : forall l, P (ISkip l)).
Context (HRevert : forall l f, P (IRevert l f)) (HSelf : forall l, P (ISelf l)).
Context (HCall : forall l body r, Forall P body -> P (ICall l body r)).
Context (HFail : forall l body e, Forall P body -> P (IFail l body e)).

Fixpoint item_tree_ind (it : item) : P it :=
  let go := fix go (b : list item) : Forall P b :=
    match b with
    | [] => Forall_nil_2 P
    | i :: b => Forall_cons_2 P i b (item_tree_ind i) (go b)
    end in
  match it with
  | IOp l => HOp l
  | ISkip l => HSkip l
  | IRevert l f => HRevert l f
  | ISelf l => HSelf l
  | ICall l body r => HCall l body r (go body)
  | IFail l body e => HFail l body e (go body)
  end.
End ItemInd.

Lemma wf_body d body :
  foldr (fun it P => wf_item d it /\ P) True body -> Forall (wf_item d) body.
Proof. induction body as [|it body IH]; simpl; [constructor|]. intros [H1 H2]. constructor; auto. Qed.

(** The tracer computes [run_item] on this item. *)
Definition sound (db : database) (it : item) : Prop :=
  forall d top rest, wf_item d it -> Z.of_nat (length (top :: rest)) = d ->
  run db (State (top :: rest) false) (flatten it) =
  Some (State (run_item db top it :: rest) false).

Lemma sound_items db its d top rest :
  Forall (sound db) its -> Forall (wf_item d) its -> Z.of_nat (length (top :: rest)) = d ->
  run db (State (top :: rest) false) (concat (map flatten its)) =
  Some (State (fold_left (run_item db) its top :: rest) false).
Proof.
  intros Hs. revert top. induction Hs as [|it its Hit _ IH]; intros top Hw Hl; [done|].
  apply Forall_cons in Hw as [Hw1 Hw2]. simpl concat. rewrite run_app, (Hit d) by done.
  cbn [mbind option_bind fold_left]. by apply IH.
Qed.

(** A frame just entered: its first opcode also reveals the gas it was given. *)
Lemma sound_frame db body d top rest :
  Forall (sound db) body -> Forall (wf_item d) body -> is_Some (first_log body) ->
  Z.of_nat (length (top :: rest)) = d ->
  run db (State (top :: rest) true) (concat (map flatten body)) =
  Some (State (fold_left (run_item db) body (enter_frame body top) :: rest) false).
Proof.
  intros Hs Hw [l0 Hf] Hl. destruct body as [|it body]; [done|].
  apply Forall_cons in Hs as [_ Hs]. apply Forall_cons in Hw as [Hw1 Hw2].
  unfold enter_frame. rewrite Hf. simpl concat. rewrite run_app. cbn [fold_left].
  destruct it as [l| |l f| | |]; try done; injection Hf as <-; simpl in Hw1.
  - destruct Hw1 as (Ho & Hsafe & Hd). cbn [flatten run handle].
    rewrite (step_ordinary db top rest true l d) by done. cbn [mbind option_bind].
    by apply (sound_items db body d).
  - destruct Hw1 as (He & Hc & Hse & Hcall & Hr & Hsafe & Hd). cbn [flatten].
    rewrite (step_revert db top rest true l f d) by done. cbn [mbind option_bind].
    by apply (sound_items db body d).
Qed.

Lemma first_log_safe d body l :
  Forall (wf_item d) body -> first_log body = Some l -> safe l.
Proof.
  intros Hw Hf. destruct body as [|it body]; [done|]. apply Forall_cons in Hw as [Hw _].
  destruct it; try done; injection Hf as <-; simpl in Hw; naive_solver.
Qed.

(** The frame of a call just opened, run to its end. *)
Lemma frame_fields db l body d :
  safe l -> Forall (wf_item d) body ->
  open_fields (info (fold_left (run_item db) body (enter_frame body (open_call l)))).
Proof.
  intros Hs Hw. apply run_items_fields, enter_frame_fields; [by apply open_call_fields|].
  intros l' Hf. by eapply first_log_safe.
Qed.

Lemma call_eta (c : call) : c = Call (info c) (calls c).
Proof. by destruct c. Qed.

Lemma upd_eta f (c : call) : upd f c = Call (f (info c)) (calls c).
Proof. by destruct c. Qed.

Lemma sound_call db l body r : Forall (sound db) body -> sound db (ICall l body r).
Proof.
  intros IH d top rest (Ho & Hsafe & Hor & Hsr & Hd & Hb & Hw) Hl. apply wf_body in Hw.
  cbn [flatten run handle]. rewrite step_opens by done. cbn [mbind option_bind callstack].
  rewrite run_app. pose proof (frame_fields db l body (d + 1) Hsafe Hw) as Hi.
  cbn [run_item]. change (fold_left (λ c it, run_item db c it)) with (fold_left (run_item db)).
  revert Hi. set (c := fold_left (run_item db) body (enter_frame body (open_call l))). intros Hi.
  assert (exists fl, run db (State (open_call l :: top :: rest) true) (concat (map flatten body)) =
          Some (State (c :: top :: rest) fl)) as [fl ->].
  { destruct Hb as [->|Hb]; [by exists true|]. exists false.
    apply (sound_frame db body (d + 1)); try done. simpl length in *. lia. }
  cbn [mbind option_bind run handle]. rewrite (call_eta c) at 1.
  rewrite (step_return db _ _ _ _ _ _ d) by done. cbn [mbind option_bind run].
  by rewrite upd_eta.
Qed.

Lemma sound_fail db l body e : Forall (sound db) body -> sound db (IFail l body e).
Proof.
  intros IH d top rest (Ho & Hsafe & He & Hf & Hrev & Hw) Hl. apply wf_body in Hw.
  cbn [flatten run handle]. rewrite step_opens by done. cbn [mbind option_bind callstack].
  rewrite run_app, (sound_frame db body (d + 1)) by (try done; simpl length in *; lia).
  cbn [mbind option_bind run run_item].
  change (fold_left (λ c it, run_item db c it)) with (fold_left (run_item db)).
  pose proof (frame_fields db l body (d + 1) Hsafe Hw) as Hi.
  assert (c_error (info (fold_left (run_item db) body (enter_frame body (open_call l)))) = None) as Hce
    by (rewrite run_items_error by done; by rewrite enter_frame_error, open_call_error).
  revert Hi Hce. set (c := fold_left (run_item db) body (enter_frame body (open_call l))). intros Hi Hce.
  rewrite (call_eta c) at 1. rewrite handle_fails by done. cbn [mbind option_bind].
  by rewrite upd_eta.
Qed.

Lemma item_sound db it : sound db it.
Proof.
  induction it as [l|l|l f|l|l body r IH|l body e IH] using item_tree_ind;
    [..|by apply sound_call|by apply sound_fail];
    intros d top rest Hw Hl; simpl in Hw.
  - destruct Hw as (Ho & Hsafe & Hd). cbn [flatten run handle].
    by rewrite (step_ordinary db top rest false l d).
  - destruct Hw as (He & Hc & Hs & Hcall & Hp). cbn [flatten run handle].
    unfold step, is_call_op, call_target in *. by rewrite He, Hc, Hs, Hcall, Hp.
  - destruct Hw as (He & Hc & Hs & Hcall & Hr & Hsafe & Hd).
    by apply (step_revert db top rest false l f d).
  - destruct Hw as (He & Hc & Hs). cbn [flatten run handle]. unfold step. by rewrite He, Hc, Hs.
Qed.

(** C1. Refinement: on the event sequence of any well-formed execution, at any
    nesting depth, the tracer's explicit call stack ends with exactly the
    report the recursive reference semantics gives the running frame, with the
    enclosing frames untouched.  So the flat trace is turned into the tree of
    internal calls, with each call's gas, output and error. *)
Theorem call_tracer_refines db its top rest :
  wf_items (Z.of_nat (length (top :: rest))) its ->
  run db (State (top :: rest) false) (concat (map flatten its)) =
  Some (State (fold_left (run_item db) its top :: rest) false).
Proof.
  intros Hw. apply (sound_items db its (Z.of_nat (length (top :: rest)))); try done.
  apply Forall_true. intros it. apply item_sound.
Qed.

(** A transaction that calls contract 0xaa with 4 bytes of input: the call's
    frame executes one opcode, then the caller goes on. *)
Definition ex_log (op : Z) (name : jsstr) (stack : list Z) (gas cost depth : Z) : log :=
  Log op name stack [1; 2; 3; 4] (replicate 20 7) 0 gas cost depth None.
Definition ex_db : database := Database (fun _ => 0) (fun _ => 0) (fun _ => []) (fun _ _ => []).
Definition ex_items : list item :=
  [ICall (ex_log 0xf1 (str "CALL") [50; 0xaa; 0; 0; 4; 0; 0] 100 60 1)
     [IOp (ex_log 0x5b (str "JUMPDEST") [] 50 1 2)]
     (ex_log 0x50 (str "POP") [1] 80 2 1)].

Ltac wf_example :=
  repeat match goal with
  | |- safe _ => unfold safe; cbn; lia
  | |- opens _ => split; [reflexivity|right]
  | |- ordinary _ => unfold ordinary
  | |- is_Some _ => eexists; reflexivity
  | |- _ /\ _ => split
  | |- True => exact I
  | |- _ \/ _ => right
  | |- _ = _ => vm_compute; reflexivity
  end.

Lemma call_tracer_refines_witness :
  wf_items 1 ex_items /\
  run ex_db init (concat (map flatten ex_items)) =
  Some (State [fold_left (run_item ex_db) ex_items (Call no_fields None)] false).
Proof.
  assert (wf_items 1 ex_items) as H.
  { unfold wf_items. constructor; [|constructor]. cbn [wf_item foldr]. wf_example. }
  split; [exact H|]. exact (call_tracer_refines ex_db ex_items (Call no_fields None) [] H).
Defined.

(** * Robustness on arbitrary event sequences *)

(** Open calls above the transaction's own report can be closed; the base
    report has a numeric gas until it fails. *)
Definition upper_ok (i : fields) : Prop :=
  is_Some (c_gasIn i) /\ is_Some (c_gasCost i) /\
  match c_gas i with Some (GHex _) => False | _ => True end.
Definition base_ok (i : fields) : Prop :=
  c_error i = None -> match c_gas i with Some (GHex _) => False | _ => True end.

Inductive stack_inv : list call -> Prop :=
| stack_base c : base_ok (info c) -> stack_inv [c]
| stack_up c cs : upper_ok (info c) -> stack_inv cs -> stack_inv (c :: cs).

(** What the host guarantees of any event: the depth is at least one, and a
    fault carries its error. *)
Definition host_event (e : event) : Prop :=
  1 <= log_depth (event_log e) /\
  match e with EFault l => is_Some (log_error l) | EStep _ => True end.

Lemma stack_inv_cons c cs :
  stack_inv (c :: cs) -> (cs = [] /\ base_ok (info c)) \/ (upper_ok (info c) /\ stack_inv cs).
Proof. inversion 1; subst; auto. Qed.

Lemma stack_inv_info c c' cs :
  info c' = info c -> stack_inv (c :: cs) -> stack_inv (c' :: cs).
Proof.
  intros E H. apply stack_inv_cons in H as [[-> H]|[H Hs]].
  - apply stack_base. by rewrite E.
  - apply stack_up; [by rewrite E|done].
Qed.

Lemma stack_inv_push c x cs : stack_inv (c :: cs) -> stack_inv (push_call c x :: cs).
Proof. apply stack_inv_info. by destruct c. Qed.

Lemma open_call_upper l cs : stack_inv cs -> stack_inv (open_call l :: cs).
Proof.
  intros H. apply stack_up; [|done]. unfold open_call, upper_ok.
  destruct (is_op l (str "CREATE")); simpl; eauto.
Qed.

Lemma fault_inv s l :
  stack_inv (callstack s) -> is_Some (log_error l) ->
  exists s', fault s l = Some s' /\ stack_inv (callstack s').
Proof.
  intros Hs [e He]. unfold fault. destruct (callstack s) as [|[i cs] rest] eqn:Ec; [inversion Hs|].
  destruct (c_error i) eqn:Ei; [exists s; by rewrite Ec|].
  apply stack_inv_cons in Hs as [[-> Hb]|[(_ & _ & Hg) Hs]].
  - specialize (Hb Ei). simpl in Hb.
    destruct i as [ty fr to va [[g|]|] us inp out er ti gin gc oo ol]; simpl in *; try done;
      eexists; (split; [done|]); apply stack_base; intros Hn; simpl in Hn; rewrite He in Hn; done.
  - simpl in Hg. destruct rest as [|parent rest]; [inversion Hs|].
    destruct i as [ty fr to va [[g|]|] us inp out er ti gin gc oo ol]; simpl in *; try done;
      eexists; (split; [done|]); by apply stack_inv_push.
Qed.

Lemma finish_upper db r i : upper_ok i -> is_Some (finish_call db r i).
Proof.
  intros ([gi Hgi] & [gc Hgc] & Hg). unfold finish_call. rewrite Hgi, Hgc.
  unfold internal_failure, gas_to_hex.
  destruct i as [ty fr to va [[g|]|] us inp out er ti gin gco oo ol]; simpl in *; try done;
    destruct (bool_decide (ty = Some (str "CREATE"))), (peek r 0 =? 0), er; simpl; eauto.
Qed.

Lemma enter_inv l s cs :
  stack_inv (callstack s) -> enter l s = Some cs -> stack_inv cs.
Proof.
  unfold enter. intros Hs. destruct (descended s); [|by intros [= <-]].
  destruct (_ <=? _); [|by intros [= <-]].
  destruct (callstack s) as [|[i sub] rest]; [done|]. intros [= <-].
  apply stack_inv_cons in Hs as [[-> Hb]|[(H1 & H2 & _) Hs]].
  - by apply stack_base.
  - by apply stack_up.
Qed.

Lemma return_inv db l cs :
  1 <= log_depth l -> stack_inv cs -> exists cs', return_call db l cs = Some cs' /\ stack_inv cs'.
Proof.
  intros Hd Hs. unfold return_call.
  destruct (Z.eqb_spec (log_depth l) (Z.of_nat (length cs) - 1)) as [E|]; [|by exists cs].
  destruct Hs as [c Hb|[i sub] cs Hu Hs]; [simpl in E; lia|].
  destruct (finish_upper db l i Hu) as [i' Hi']. simpl in Hu.
  destruct cs as [|parent rest]; [inversion Hs|]. rewrite Hi'. simpl.
  eexists. split; [done|]. by apply stack_inv_push.
Qed.

Lemma step_inv db s l :
  1 <= log_depth l -> stack_inv (callstack s) ->
  exists s', step db s l = Some s' /\ stack_inv (callstack s').
Proof.
  intros Hd Hs. unfold step. destruct (log_error l) eqn:He; [apply fault_inv; eauto|].
  destruct (is_op l (str "CREATE")) eqn:Ec.
  { eexists. split; [done|]. pose proof (open_call_upper l _ Hs) as H.
    unfold open_call in H. by rewrite Ec in H. }
  destruct (is_op l (str "SELFDESTRUCT")).
  { destruct (callstack s) as [|top rest]; [inversion Hs|]. eexists. split; [done|].
    by apply stack_inv_push. }
  destruct (is_op l (str "CALL") || _ || _ || _).
  { destruct (isPrecompiled _); [by exists s|]. eexists. split; [done|].
    pose proof (open_call_upper l _ Hs) as H. unfold open_call in H. by rewrite Ec in H. }
  destruct (enter l s) as [cs|] eqn:Een.
  - apply enter_inv in Een; [|done]. cbn [mbind option_bind].
    destruct (is_op l (str "REVERT")).
    + destruct cs as [|[i sub] rest]; [inversion Een|]. eexists. split; [done|].
      apply stack_inv_cons in Een as [[-> Hb]|[Hu Hc]]; [by apply stack_base|by apply stack_up].
    + destruct (return_inv db l cs Hd Een) as (cs' & -> & Hcs'). simpl. by eexists.
  - exfalso. unfold enter in Een. destruct (descended s); [|done].
    destruct (_ <=? _); [|done]. destruct (callstack s); [inversion Hs|done].
Qed.

(** C26. Safety: whatever the host delivers, the tracer never throws, always keeps
    the transaction's own report at the bottom of its stack, and so always
    returns a result. *)
Theorem call_tracer_total db es c :
  Forall host_event es ->
  exists s, run db init es = Some s /\ stack_inv (callstack s) /\ is_Some (result s c).
Proof.
  intros H. assert (stack_inv (callstack init)) as Hi by (apply stack_base; done).
  revert Hi. generalize init. induction H as [|e es [Hd He] _ IH]; intros s Hs; simpl.
  - exists s. split; [done|]. split; [done|]. unfold result.
    assert (is_Some (last (callstack s))) as [b ->]; [|simpl; eauto].
    apply last_is_Some. intros E. rewrite E in Hs. inversion Hs.
  - assert (exists s', handle db s e = Some s' /\ stack_inv (callstack s')) as (s' & -> & Hs').
    { destruct e as [l|l]; simpl in *; [by apply step_inv|by apply fault_inv]. }
    simpl. by apply IH.
Qed.

Lemma call_tracer_total_witness :
  exists s, run ex_db init (concat (map flatten ex_items)) = Some s /\
    stack_inv (callstack s) /\
    is_Some (result s (Context (str "CALL") [] [] 0 0 0 [] [] [] None)).
Proof.
  apply (call_tracer_total ex_db (concat (map flatten ex_items))).
  repeat constructor; vm_compute; discriminate.
Defined.

(** * The reported JSON *)

(** The documented order of the properties. *)
Definition key_order : list jsstr :=
  [str "type"; str "from"; str "to"; str "value"; str "gas"; str "gasUsed"; str "input";
   str "output"; str "error"; str "time"; str "calls"].

(** Every object of a report, at every level, lists known properties in the
    documented order, each at most once. *)
Inductive ordered : json -> Prop :=
| ordered_obj l :
    map fst l `sublist_of` key_order ->
    (forall js, (str "calls", JArr js) ∈ l -> Forall ordered js) -> ordered (JObj l).

Section CallInd.
Context (P : call -> Prop) (H : forall i cs, Forall P (default [] cs) -> P (Call i cs)).
Fixpoint call_tree_ind (c : call) : P c :=
  let go := fix go (l : list call) : Forall P l :=
    match l with
    | [] => Forall_nil_2 P
    | x :: l => Forall_cons_2 P x l (call_tree_ind x) (go l)
    end in
  match c with
  | Call i None => H i None (Forall_nil_2 P)
  | Call i (Some l) => H i (Some l) (go l)
  end.
End CallInd.

Lemma prop_sublist {A} k (f : A -> json) v l ks :
  map fst l `sublist_of` ks -> map fst (prop k f v ++ l) `sublist_of` k :: ks.
Proof. intros Hs. destruct v; simpl; by constructor. Qed.

Lemma prop_no_calls {A} k (f : A -> json) v js :
  k <> str "calls" -> (str "calls", JArr js) ∉ prop k f v.
Proof. intros Hk. destruct v; simpl; [|set_solver]. rewrite list_elem_of_singleton. congruence. Qed.

(** [finalize] returns, at every level of the call tree, an object whose
    properties are in the documented order and which has none of the tracer's
    bookkeeping properties. *)
Theorem finalize_ordered c : ordered (finalize c).
Proof.
  induction c as [i cs IH] using call_tree_ind. cbn [finalize]. constructor.
  - unfold key_order. do 10 apply prop_sublist. destruct cs; simpl; by repeat constructor.
  - intros js. rewrite !elem_of_app.
    intros Hin. repeat (destruct Hin as [Hin|Hin]; [by apply prop_no_calls in Hin|]).
    destruct cs as [l|]; simpl in *; [|set_solver].
    apply list_elem_of_singleton in Hin as [= ->]. change (map finalize l) with (finalize <$> l).
    by apply Forall_fmap.
Qed.

(** * Deviations from the call tree *)

(** Two calls made by one frame, the second by the opcode right after the first
    returned. *)
Definition sibling_events : list event :=
  [EStep (ex_log 0xf1 (str "CALL") [50; 0xaa; 0; 0; 4; 0; 0] 100 60 1);
   EStep (ex_log 0x5b (str "JUMPDEST") [] 50 1 2);
   EStep (ex_log 0xf1 (str "CALL") [50; 0xbb; 0; 0; 4; 0; 0] 80 60 1);
   EStep (ex_log 0x5b (str "JUMPDEST") [] 50 1 2);
   EStep (ex_log 0x50 (str "POP") [1] 70 2 1);
   EStep (ex_log 0x50 (str "POP") [1] 68 2 1)].

(** The opcode that would close the first call's report is itself a call, for
    which [step] returns before it looks at the depth: the second call is
    reported as made by the first one, and without its gas and output. *)
Theorem sibling_calls_nested :
  exists s i1 i2, run ex_db init sibling_events = Some s /\
    callstack s = [Call no_fields (Some [Call i1 (Some [Call i2 None])])] /\
    c_to i1 = Some (toHex (be_bytes 20 0xaa)) /\ c_to i2 = Some (toHex (be_bytes 20 0xbb)) /\
    c_gasUsed i2 = None.
Proof. do 3 eexists. split; [vm_compute; reflexivity|]. repeat split; reflexivity. Qed.

(** A call whose very first opcode fails leaves the [descended] flag set: the
    next opcode of the caller overwrites the caller's own gas allowance. *)
Theorem failed_first_opcode_overwrites_gas db i sub parent rest f l :
  c_error i = None -> open_fields i -> is_Some (log_error f) ->
  ordinary l -> safe l -> log_depth l = Z.of_nat (length (parent :: rest)) ->
  exists top,
    run db (State (Call i sub :: parent :: rest) true) [EStep f; EStep l] =
    Some (State (top :: rest) false) /\
    c_gas (info top) = Some (GNum (log_gas l)).
Proof.
  intros He (_ & _ & Hg) [m Hm] Hl Hs Hd. cbn [run handle].
  assert (exists c, step db (State (Call i sub :: parent :: rest) true) f =
                    Some (State (push_call parent c :: rest) true)) as [c ->].
  { unfold step. rewrite Hm. unfold fault. cbn [callstack]. rewrite He.
    destruct i as [ty fr to va ga us inp out er ti gin gc oo ol]. simpl in *.
    destruct Hg as [->|(g & -> & _)]; simpl; eauto. }
  cbn [mbind option_bind].
  rewrite (step_ordinary db (push_call parent c) rest true l (log_depth l)) by done.
  simpl. eexists. split; [done|]. by destruct parent.
Qed.
