(* ===== verification/PrestateTracer.v ===== *)
(** The prestate tracer, src/eth/tracers/internal/tracers/prestate_tracer.js: it
    collects, while a transaction runs, the accounts and storage slots the
    transaction touches, so that the transaction can be replayed from a genesis
    block.  [None] results are thrown JavaScript exceptions. *)
From Stdlib Require Import ZArith Lia.
From S2P Require Import Prelude TracerHost.
Open Scope Z_scope.

Record account := Account {
  balance : jsstr;
  nonce : Z;
  code : jsstr;
  storage : gmap jsstr jsstr
}.

Abbreviation prestate := (gmap jsstr account).

Definition hex (z : Z) : jsstr := str "0x" ++ to_base 16 z.

(** [bigInt(s, 16)]. *)
Definition bigInt16 (s : jsstr) : option Z :=
  match s with
  | 45 :: s => Z.opp <$> of_base 16 s
  | _ => of_base 16 s
  end.

(** The account object built from the database. *)
Definition read_account (db : database) (addr : bytes) : account :=
  Account (hex (getBalance db addr)) (f64 (getNonce db addr)) (toHex (getCode db addr)) ∅.

Definition lookupAccount (db : database) (p : prestate) (addr : bytes) : prestate :=
  let acc := toHex addr in
  match p !! acc with
  | None => <[acc := read_account db addr]> p
  | Some _ => p
  end.

Definition zero_word : jsstr :=
  str "0x0000000000000000000000000000000000000000000000000000000000000000".

Definition lookupStorage (db : database) (p : prestate) (addr key : bytes) : option prestate :=
  let acc := toHex addr in
  let idx := toHex key in
  match p !! acc with
  | None => None
  | Some a =>
      match storage a !! idx with
      | Some _ => Some p
      | None =>
          let val := toHex (getState db addr key) in
          if bool_decide (val = zero_word) then Some p
          else Some (<[acc := Account (balance a) (nonce a) (code a) (<[idx := val]> (storage a))]> p)
      end
  end.

Section Tracer.
(** The host's [toContract(from, nonce)]: the address CREATE gives a contract. *)
Context (toContract : bytes -> Z -> bytes).

Definition opn (l : log) (n : jsstr) : bool := bool_decide (log_opname l = n).

(** The [switch] of [step]. *)
Definition access (db : database) (p : prestate) (l : log) : option prestate :=
  if opn l (str "EXTCODECOPY") || opn l (str "EXTCODESIZE") || opn l (str "BALANCE") then
    Some (lookupAccount db p (toAddress (to_base 16 (peek l 0))))
  else if opn l (str "CREATE") then
    let from := log_address l in
    Some (lookupAccount db p (toContract from (f64 (getNonce db from))))
  else if opn l (str "CALL") || opn l (str "CALLCODE") || opn l (str "DELEGATECALL")
          || opn l (str "STATICCALL") then
    Some (lookupAccount db p (toAddress (to_base 16 (peek l 1))))
  else if opn l (str "SSTORE") || opn l (str "SLOAD") then
    lookupStorage db p (log_address l) (toWord (to_base 16 (peek l 0)))
  else Some p.

(** [step]; the state is [null] until the first opcode. *)
Definition step (db : database) (s : option prestate) (l : log) : option (option prestate) :=
  let p := match s with
           | None => lookupAccount db ∅ (log_address l)
           | Some p => p
           end in
  Some <$> access db p l.

Definition fault (s : option prestate) (l : log) : option prestate := s.

Definition set_balance (b : jsstr) (a : account) : account := Account b (nonce a) (code a) (storage a).
Definition decr_nonce (a : account) : account :=
  Account (balance a) (f64 (nonce a - 1)) (code a) (storage a).

Definition result (db : database) (c : context) (s : option prestate) : option prestate :=
  p ← s;
  let p := lookupAccount db p (ctx_from c) in
  let from := toHex (ctx_from c) in
  let to := toHex (ctx_to c) in
  af ← p !! from;
  fromBal ← bigInt16 (js_slice_from (balance af) 2);
  at_ ← p !! to;
  toBal ← bigInt16 (js_slice_from (balance at_) 2);
  let p := alter (set_balance (hex (toBal - ctx_value c))) to p in
  let p := alter (set_balance (hex (fromBal + ctx_value c))) from p in
  let p := alter decr_nonce from p in
  Some (if bool_decide (ctx_type c = str "CREATE") then delete to p else p).

(** A transaction: each opcode comes with the state database at that time. *)
Fixpoint run (s : option prestate) (tr : list (log * database)) : option (option prestate) :=
  match tr with
  | [] => Some s
  | (l, db) :: tr => s ← step db s l; run s tr
  end.

(** * First access wins *)

(** The account an opcode looks up. *)
Definition touches (l : log) (db : database) : option bytes :=
  if opn l (str "EXTCODECOPY") || opn l (str "EXTCODESIZE") || opn l (str "BALANCE") then
    Some (be_bytes 20 (peek l 0))
  else if opn l (str "CREATE") then
    Some (toContract (log_address l) (f64 (getNonce db (log_address l))))
  else if opn l (str "CALL") || opn l (str "CALLCODE") || opn l (str "DELEGATECALL")
          || opn l (str "STATICCALL") then
    Some (be_bytes 20 (peek l 1))
  else None.

(** Same account up to the storage collected so far. *)
Definition same_account (a b : account) : Prop :=
  balance a = balance b /\ nonce a = nonce b /\ code a = code b.

(** [p'] keeps what [p] recorded. *)
Definition keeps (p p' : prestate) : Prop :=
  forall k a, p !! k = Some a -> exists a', p' !! k = Some a' /\ same_account a a' /\
    forall i v, storage a !! i = Some v -> storage a' !! i = Some v.

#[global] Instance keeps_refl : Reflexive keeps.
Proof. intros p k a H. exists a. by unfold same_account. Qed.

#[global] Instance keeps_trans : Transitive keeps.
Proof.
  intros p1 p2 p3 H12 H23 k a1 H1. destruct (H12 k a1 H1) as (a2 & H2 & (E1 & E2 & E3) & S12).
  destruct (H23 k a2 H2) as (a3 & H3 & (F1 & F2 & F3) & S23).
  exists a3. split; [done|]. split; [repeat split; congruence|eauto].
Qed.

Lemma lookupAccount_keeps db p a : keeps p (lookupAccount db p a).
Proof.
  unfold lookupAccount. destruct (p !! toHex a) eqn:E; [reflexivity|].
  intros k x Hk. exists x. split; [|by unfold same_account].
  rewrite lookup_insert_ne; [done|]. intros <-. congruence.
Qed.

Lemma lookupStorage_keeps db p a k p' : lookupStorage db p a k = Some p' -> keeps p p'.
Proof.
  unfold lookupStorage. destruct (p !! toHex a) as [x|] eqn:E; [|done].
  destruct (storage x !! toHex k) eqn:Es; [by intros [= <-]|].
  case_bool_decide; intros [= <-]; [reflexivity|].
  intros k' y Hk'. rewrite lookup_insert. case_decide as D.
  - subst k'. rewrite E in Hk'. injection Hk' as <-. eexists. split; [done|].
    split; [done|]. intros i v Hi. simpl. rewrite lookup_insert_ne; [done|]. congruence.
  - exists y. by unfold same_account.
Qed.

Lemma access_keeps db p l p' : access db p l = Some p' -> keeps p p'.
Proof.
  unfold access. repeat case_match; try (intros [= <-]); try reflexivity;
    try apply lookupAccount_keeps. by apply lookupStorage_keeps.
Qed.

Lemma run_keeps tr p s' : run (Some p) tr = Some s' -> exists p', s' = Some p' /\ keeps p p'.
Proof.
  revert p. induction tr as [|[l db] tr IH]; intros p; simpl.
  - intros [= <-]. exists p. split; [done|reflexivity].
  - unfold step. destruct (access db p l) as [p1|] eqn:E; [|done]. simpl. intros H.
    destruct (IH p1 H) as (p' & -> & Hk). exists p'. split; [done|].
    etrans; [by eapply access_keeps|done].
Qed.

Lemma lookupAccount_has db p a :
  exists x, lookupAccount db p a !! toHex a = Some x /\
    (p !! toHex a = None -> x = read_account db a).
Proof.
  unfold lookupAccount. destruct (p !! toHex a) as [x|] eqn:E.
  - exists x. split; [done|]. congruence.
  - eexists. by rewrite lookup_insert_eq.
Qed.

Lemma access_touches db p l :
  0 <= peek l 0 -> 0 <= peek l 1 -> forall a, touches l db = Some a ->
  access db p l = Some (lookupAccount db p a).
Proof.
  intros H0 H1 a. unfold touches, access. rewrite !toAddress_word by done.
  repeat case_match; intros [= <-]; done.
Qed.

(** Only looked-up accounts are recorded. *)
Lemma access_new_key db p l p' k :
  0 <= peek l 0 -> 0 <= peek l 1 -> access db p l = Some p' -> p !! k = None ->
  is_Some (p' !! k) -> exists a, touches l db = Some a /\ k = toHex a.
Proof.
  intros H0 H1 Ha Hk [x Hx]. destruct (touches l db) as [a|] eqn:Et.
  - rewrite (access_touches db p l H0 H1 a Et) in Ha. injection Ha as <-.
    exists a. split; [done|]. unfold lookupAccount in Hx.
    destruct (p !! toHex a); [congruence|]. apply lookup_insert_Some in Hx as [[<- _]|[_ Hx]]; congruence.
  - exfalso. unfold touches, access in *. repeat case_match; try done; simplify_eq.
    unfold lookupStorage in Ha. repeat case_match; simplify_eq; try congruence.
    apply lookup_insert_Some in Hx as [[<- _]|[_ Hx]]; congruence.
Qed.

Definition nonneg_log (l : log) : Prop := 0 <= peek l 0 /\ 0 <= peek l 1.

Lemma run_fresh tr p p' k :
  run (Some p) tr = Some (Some p') -> p !! k = None ->
  Forall (fun x => nonneg_log x.1 /\ forall a, touches x.1 x.2 = Some a -> toHex a <> k) tr ->
  p' !! k = None.
Proof.
  revert p. induction tr as [|[l db] tr IH]; intros p Hr Hk Hf; simpl in Hr; [congruence|].
  apply Forall_cons in Hf as [[[H0 H1] Ht] Hf]. simpl in *. unfold step in Hr.
  destruct (access db p l) as [p1|] eqn:Ea; [|done]. simpl in Hr.
  apply (IH p1 Hr); [|done]. destruct (p1 !! k) as [ac|] eqn:Ek; [|done].
  destruct (access_new_key db p l p1 k H0 H1 Ea Hk) as (b & Hta & ->); [eauto|].
  exfalso. by apply (Ht b).
Qed.

Lemma prestate_run_app s tr1 tr2 : run s (tr1 ++ tr2) = (s ← run s tr1; run s tr2).
Proof.
  revert s. induction tr1 as [|[l db] tr1 IH]; intros s; simpl; [done|].
  destruct (step db s l); simpl; [apply IH|done].
Qed.

Lemma first_access tr1 l db tr2 p p' a :
  run (Some p) (tr1 ++ (l, db) :: tr2) = Some (Some p') ->
  p !! toHex a = None ->
  Forall (fun x => nonneg_log x.1 /\ forall b, touches x.1 x.2 = Some b -> toHex b <> toHex a) tr1 ->
  nonneg_log l -> touches l db = Some a ->
  exists x, p' !! toHex a = Some x /\ same_account (read_account db a) x.
Proof.
  intros Hr Hp Hf [H0 H1] Ht. rewrite prestate_run_app in Hr.
  destruct (run (Some p) tr1) as [s1|] eqn:E1; [|done]. simpl in Hr.
  destruct (run_keeps _ _ _ E1) as (p1 & -> & _).
  assert (p1 !! toHex a = None) as Hp1 by (by eapply run_fresh).
  unfold step in Hr. rewrite (access_touches db p1 l H0 H1 a Ht) in Hr. simpl in Hr.
  destruct (run_keeps _ _ _ Hr) as (p2 & [= <-] & Hk).
  destruct (lookupAccount_has db p1 a) as (x & Hx & Ex).
  destruct (Hk _ _ Hx) as (x' & Hx' & Hs & _). exists x'. split; [done|].
  by rewrite <-Ex.
Qed.

(** The contracts whose storage is accessed are in [keys] or looked up before:
    the EVM runs the transaction's contract and those called or created. *)
Fixpoint covered (keys : list jsstr) (tr : list (log * database)) : Prop :=
  match tr with
  | [] => True
  | (l, db) :: tr =>
      (opn l (str "SSTORE") || opn l (str "SLOAD") = true -> toHex (log_address l) ∈ keys) /\
      covered (match touches l db with Some a => toHex a :: keys | None => keys end) tr
  end.

Lemma lookupStorage_some db p a k : is_Some (p !! toHex a) -> is_Some (lookupStorage db p a k).
Proof. intros [x Hx]. unfold lookupStorage. rewrite Hx. repeat case_match; by eexists. Qed.

Lemma run_total tr p keys :
  covered keys tr -> Forall (fun x => nonneg_log x.1) tr -> (forall k, k ∈ keys -> is_Some (p !! k)) ->
  exists p', run (Some p) tr = Some (Some p').
Proof.
  revert p keys. induction tr as [|[l db] tr IH]; intros p keys Hc Hn Hk; [by eexists|].
  apply Forall_cons in Hn as [[H0 H1] Hn]. destruct Hc as [Hst Hc]. simpl. unfold step.
  destruct (touches l db) as [a|] eqn:Et.
  - rewrite (access_touches db p l H0 H1 a Et). simpl. eapply (IH _ _ Hc Hn).
    intros k [->|Hin]%elem_of_cons.
    + destruct (lookupAccount_has db p a) as (x & -> & _). by eexists.
    + destruct (Hk k Hin) as [x Hx]. destruct (lookupAccount_keeps db p a _ _ Hx) as (x' & -> & _). by eexists.
  - assert (is_Some (access db p l)) as [p1 E].
    { unfold access, touches in *. repeat case_match; try done; try (by eexists).
      apply lookupStorage_some. auto. }
    rewrite E. simpl. eapply (IH _ _ Hc Hn). intros k Hin. destruct (Hk k Hin) as [x Hx].
    destruct (access_keeps db p l p1 E _ _ Hx) as (x' & -> & _). by eexists.
Qed.


(** * The result *)

Lemma bigInt16_hex z : 0 <= z -> bigInt16 (js_slice_from (hex z) 2) = Some z.
Proof.
  intros Hz. unfold hex, js_slice_from.
  assert (drop (js_rel (js_len (str "0x" ++ to_base 16 z)) 2) (str "0x" ++ to_base 16 z) = to_base 16 z) as ->.
  { rewrite js_rel_nonneg by (unfold js_len; rewrite length_app; simpl; lia). done. }
  rewrite <-(of_base_to_base 16 z) by lia. unfold bigInt16.
  pose proof (to_base_chars 16 z ltac:(lia) Hz) as Hc.
  destruct (to_base 16 z) as [|c s]; [done|]. apply Forall_cons in Hc as [Hc _].
  repeat case_match; lia || done.
Qed.

Lemma alter_lookup_ne {A} (f : A -> A) (m : gmap jsstr A) i j : i <> j -> alter f i m !! j = m !! j.
Proof. intros. by apply lookup_alter_ne. Qed.

(** The outer transaction is undone in the reported prestate: its value is
    moved back from the recipient to the sender, the sender's nonce is one
    less, every other account is untouched, and a created contract is
    removed. *)
Theorem prestate_result db c p af at_ bf bt :
  toHex (ctx_from c) <> toHex (ctx_to c) ->
  lookupAccount db p (ctx_from c) !! toHex (ctx_from c) = Some af ->
  lookupAccount db p (ctx_from c) !! toHex (ctx_to c) = Some at_ ->
  balance af = hex bf -> balance at_ = hex bt -> 0 <= bf -> 0 <= bt ->
  exists p', result db c (Some p) = Some p' /\
    p' !! toHex (ctx_from c) =
      Some (Account (hex (bf + ctx_value c)) (f64 (nonce af - 1)) (code af) (storage af)) /\
    p' !! toHex (ctx_to c) =
      (if bool_decide (ctx_type c = str "CREATE") then None
       else Some (Account (hex (bt - ctx_value c)) (nonce at_) (code at_) (storage at_))) /\
    forall k, k <> toHex (ctx_from c) -> k <> toHex (ctx_to c) ->
      p' !! k = lookupAccount db p (ctx_from c) !! k.
Proof.
  intros Hne Hf Ht Ebf Ebt Hbf Hbt. unfold result. cbn [mbind option_bind].
  rewrite Hf. cbn [mbind option_bind]. rewrite Ebf, bigInt16_hex by done. cbn [mbind option_bind].
  rewrite Ht. cbn [mbind option_bind]. rewrite Ebt, bigInt16_hex by done. cbn [mbind option_bind].
  set (p1 := lookupAccount db p (ctx_from c)) in *.
  set (p2 := alter decr_nonce _ _). exists (if bool_decide (ctx_type c = str "CREATE") then delete (toHex (ctx_to c)) p2 else p2).
  assert (p2 !! toHex (ctx_from c) = Some (decr_nonce (set_balance (hex (bf + ctx_value c)) af))) as E1.
  { unfold p2. rewrite !lookup_alter_eq, lookup_alter_ne by done. by rewrite Hf. }
  assert (p2 !! toHex (ctx_to c) = Some (set_balance (hex (bt - ctx_value c)) at_)) as E2.
  { unfold p2. rewrite !(lookup_alter_ne _ _ (toHex (ctx_from c))) by done.
    rewrite lookup_alter_eq. by rewrite Ht. }
  split; [done|]. split; [|split].
  - case_bool_decide; [rewrite lookup_delete_ne by done|]; by rewrite E1.
  - case_bool_decide; [by rewrite lookup_delete_eq|]. by rewrite E2.
  - intros k Hk1 Hk2. assert (p2 !! k = p1 !! k) as E3.
    { unfold p2. by rewrite !lookup_alter_ne. }
    case_bool_decide; [rewrite lookup_delete_ne by done|]; done.
Qed.

(** * Deviations *)

(** A transaction that executes no opcode (a plain transfer) leaves the tracer
    at [null]: [result] throws. *)
Theorem plain_transfer_throws db c : result db c None = None.
Proof. reflexivity. Qed.

(** When sender and recipient are the same account the value is added, instead
    of leaving the balance as it was. *)
Theorem self_transfer_balance db c p af bf :
  ctx_from c = ctx_to c -> ctx_type c <> str "CREATE" ->
  lookupAccount db p (ctx_from c) !! toHex (ctx_from c) = Some af ->
  balance af = hex bf -> 0 <= bf ->
  exists p', result db c (Some p) = Some p' /\
    balance <$> (p' !! toHex (ctx_from c)) = Some (hex (bf + ctx_value c)).
Proof.
  intros Heq Hty Hf Ebf Hbf. unfold result. cbn [mbind option_bind]. rewrite <-Heq, Hf.
  cbn [mbind option_bind]. rewrite Ebf, bigInt16_hex by done. cbn [mbind option_bind].
  eexists. split; [done|]. rewrite bool_decide_eq_false_2 by done.
  by rewrite !lookup_alter_eq, Hf.
Qed.

(** A slot that was empty before the transaction is recorded with the value the
    transaction itself wrote: an empty slot is not remembered, so the next
    access of the slot records what is there by then. *)
Theorem written_slot_recorded db1 db2 p a k acct v :
  p !! toHex a = Some acct -> storage acct !! toHex k = None ->
  toHex (getState db1 a k) = zero_word ->
  toHex (getState db2 a k) = v -> v <> zero_word ->
  exists p1 p2 acct', lookupStorage db1 p a k = Some p1 /\ lookupStorage db2 p1 a k = Some p2 /\
    p2 !! toHex a = Some acct' /\ storage acct' !! toHex k = Some v.
Proof.
  intros Hp Hs H1 H2 Hv. exists p. unfold lookupStorage at 1. rewrite Hp, Hs, H1.
  rewrite bool_decide_eq_true_2 by done. unfold lookupStorage. rewrite Hp, Hs, H2.
  rewrite bool_decide_eq_false_2 by done. do 2 eexists. split; [done|]. split; [done|].
  split; [apply lookup_insert_eq|]. simpl. apply lookup_insert_eq.
Qed.
End Tracer.

(** * Examples *)

Definition ex_toContract (from : bytes) (n : Z) : bytes := from.
Definition ex_db (b : Z) : database :=
  Database (fun _ => b) (fun _ => 1) (fun _ => [1]) (fun _ _ => replicate 32 0).
Definition ex_log (name : jsstr) (stack : list Z) : log :=
  Log 0 name stack [] (replicate 20 7) 0 100 1 1 None.
Definition ex_ctx : context :=
  Context (str "CALL") (replicate 20 1) (replicate 20 7) 5 100 50 [] [] [] None.


Lemma prestate_result_witness : exists p',
  result (ex_db 9) ex_ctx (Some (lookupAccount (ex_db 9) ∅ (replicate 20 7))) = Some p' /\
  balance <$> p' !! toHex (ctx_from ex_ctx) = Some (hex (9 + 5)).
Proof.
  destruct (prestate_result (ex_db 9) ex_ctx (lookupAccount (ex_db 9) ∅ (replicate 20 7))
    (read_account (ex_db 9) (replicate 20 1)) (read_account (ex_db 9) (replicate 20 7)) 9 9)
    as (p' & H1 & H2 & _).
  - vm_compute. discriminate.
  - vm_compute. reflexivity.
  - vm_compute. reflexivity.
  - vm_compute. reflexivity.
  - vm_compute. reflexivity.
  - lia.
  - lia.
  - exists p'. split; [exact H1|]. rewrite H2. reflexivity.
Defined.
