(* ===== verification/EvmdisTracer.v ===== *)
(** The evmdis tracer, src/eth/tracers/internal/tracers/evmdis_tracer.js.

    The report of a call opcode is at once an entry of its caller's [ops] and
    the open frame on the tracer's [stack], whose own [ops] grow while the call
    runs.  The model therefore keeps the report objects in a store and passes
    references to them: [objects] is the store, a reference is an index. *)
From Stdlib Require Import ZArith Lia.
From S2P Require Import Prelude TracerHost.
Open Scope Z_scope.

(** [opinfo.op]: a number, or the opcode's name for the calls without value. *)
Inductive opid := OpNum (z : Z) | OpName (s : jsstr).

(** A report object; [error] and [return] are [Some None] when set to [null]. *)
Record object := Object {
  o_op : option opid;
  o_depth : option Z;
  o_result : list jsstr;
  o_gas : option Z;
  o_to : option jsstr;
  o_value : option jsstr;
  o_input : option bytes;
  o_error : option (option jsstr);
  o_return : option (option bytes);
  o_ops : option (list nat);
  o_pc : option Z;
  o_len : option Z
}.

Record state := State { objects : list object; stack : list nat }.

Definition empty_object : object :=
  Object None None [] None None None None None None None None None.
(** [stack: [{ops: []}]]. *)
Definition init : state :=
  State [Object None None [] None None None None None None (Some []) None None] [0%nat].

Definition set_op x (o : object) : object :=
  Object x (o_depth o) (o_result o) (o_gas o) (o_to o) (o_value o) (o_input o) (o_error o)
    (o_return o) (o_ops o) (o_pc o) (o_len o).
Definition add_result x (o : object) : object :=
  Object (o_op o) (o_depth o) (o_result o ++ x) (o_gas o) (o_to o) (o_value o) (o_input o)
    (o_error o) (o_return o) (o_ops o) (o_pc o) (o_len o).
Definition set_error x (o : object) : object :=
  Object (o_op o) (o_depth o) (o_result o) (o_gas o) (o_to o) (o_value o) (o_input o)
    x (o_return o) (o_ops o) (o_pc o) (o_len o).
Definition set_return x (o : object) : object :=
  Object (o_op o) (o_depth o) (o_result o) (o_gas o) (o_to o) (o_value o) (o_input o)
    (o_error o) x (o_ops o) (o_pc o) (o_len o).
Definition add_op x (o : object) : object :=
  Object (o_op o) (o_depth o) (o_result o) (o_gas o) (o_to o) (o_value o) (o_input o)
    (o_error o) (o_return o) ((fun l => l ++ [x]) <$> o_ops o) (o_pc o) (o_len o).
Definition set_pc x (o : object) : object :=
  Object (o_op o) (o_depth o) (o_result o) (o_gas o) (o_to o) (o_value o) (o_input o)
    (o_error o) (o_return o) (o_ops o) x (o_len o).
Definition set_len x (o : object) : object :=
  Object (o_op o) (o_depth o) (o_result o) (o_gas o) (o_to o) (o_value o) (o_input o)
    (o_error o) (o_return o) (o_ops o) (o_pc o) x.

(** The [npushes] table. *)
Definition npushes_table : list (Z * nat) :=
  [(0, 0%nat); (1, 1%nat); (2, 1%nat); (3, 1%nat); (4, 1%nat); (5, 1%nat); (6, 1%nat); (7, 1%nat);
   (8, 1%nat); (9, 1%nat); (10, 1%nat); (11, 1%nat); (16, 1%nat); (17, 1%nat); (18, 1%nat); (19,
   1%nat); (20, 1%nat); (21, 1%nat); (22, 1%nat); (23, 1%nat); (24, 1%nat); (25, 1%nat); (26,
   1%nat); (32, 1%nat); (48, 1%nat); (49, 1%nat); (50, 1%nat); (51, 1%nat); (52, 1%nat); (53,
   1%nat); (54, 1%nat); (55, 0%nat); (56, 1%nat); (57, 0%nat); (58, 1%nat); (59, 1%nat); (60,
   0%nat); (64, 1%nat); (65, 1%nat); (66, 1%nat); (67, 1%nat); (68, 1%nat); (69, 1%nat); (80,
   0%nat); (81, 1%nat); (82, 0%nat); (83, 0%nat); (84, 1%nat); (85, 0%nat); (86, 0%nat); (87,
   0%nat); (88, 1%nat); (89, 1%nat); (90, 1%nat); (91, 0%nat); (96, 1%nat); (97, 1%nat); (98,
   1%nat); (99, 1%nat); (100, 1%nat); (101, 1%nat); (102, 1%nat); (103, 1%nat); (104, 1%nat);
   (105, 1%nat); (106, 1%nat); (107, 1%nat); (108, 1%nat); (109, 1%nat); (110, 1%nat); (111,
   1%nat); (112, 1%nat); (113, 1%nat); (114, 1%nat); (115, 1%nat); (116, 1%nat); (117, 1%nat);
   (118, 1%nat); (119, 1%nat); (120, 1%nat); (121, 1%nat); (122, 1%nat); (123, 1%nat); (124,
   1%nat); (125, 1%nat); (126, 1%nat); (127, 1%nat); (128, 2%nat); (129, 3%nat); (130, 4%nat);
   (131, 5%nat); (132, 6%nat); (133, 7%nat); (134, 8%nat); (135, 9%nat); (136, 10%nat); (137,
   11%nat); (138, 12%nat); (139, 13%nat); (140, 14%nat); (141, 15%nat); (142, 16%nat); (143,
   17%nat); (144, 2%nat); (145, 3%nat); (146, 4%nat); (147, 5%nat); (148, 6%nat); (149, 7%nat);
   (150, 8%nat); (151, 9%nat); (152, 10%nat); (153, 11%nat); (154, 12%nat); (155, 13%nat); (156,
   14%nat); (157, 15%nat); (158, 16%nat); (159, 17%nat); (160, 0%nat); (161, 0%nat); (162, 0%nat);
   (163, 0%nat); (164, 0%nat); (240, 1%nat); (241, 1%nat); (242, 1%nat); (243, 0%nat); (244,
   0%nat); (255, 0%nat)].

(** [this.npushes[op]]: an opcode the table does not list is [undefined], which
    the loop bound treats like zero. *)
Definition npushes (op : Z) : nat :=
  match find (fun e => e.1 =? op) npushes_table with Some e => e.2 | None => 0%nat end.

Definition pushes_of (o : object) : nat :=
  match o_op o with Some (OpNum z) => npushes z | _ => 0%nat end.

(** The words the previous opcode left on the stack. *)
Definition results (l : log) (n : nat) : list jsstr :=
  (fun i => to_base 16 (peek l i)) <$> seq 0 n.

Definition opn (l : log) (n : jsstr) : bool := bool_decide (log_opname l = n).
Definition isPush (l : log) : bool := (0x60 <=? log_op l) && (log_op l <=? 0x7f).

(** The report object of the opcode and whether it is pushed on the stack. *)
Definition new_object (l : log) : object * bool :=
  let o := Object (Some (OpNum (log_op l))) (Some (f64 (log_depth l))) [] None None None None
             None None None None None in
  let '(o, frame) :=
    if opn l (str "CALL") || opn l (str "CALLCODE") then
      let instart := f64 (peek l 3) in
      let insize := f64 (peek l 4) in
      (Object (o_op o) (o_depth o) [] (Some (f64 (peek l 0))) (Some (to_base 16 (peek l 1)))
         (Some (to_base 10 (peek l 2))) (Some (mem_slice l instart (f64 (instart + insize))))
         (Some None) (Some None) (Some []) None None, true)
    else if opn l (str "DELEGATECALL") || opn l (str "STATICCALL") then
      let instart := f64 (peek l 2) in
      let insize := f64 (peek l 3) in
      (Object (Some (OpName (log_opname l))) (o_depth o) [] (Some (f64 (peek l 0)))
         (Some (to_base 16 (peek l 1))) None
         (Some (mem_slice l instart (f64 (instart + insize))))
         (Some None) (Some None) (Some []) None None, true)
    else if opn l (str "JUMPDEST") then (set_pc (Some (f64 (log_pc l))) o, false)
    else (o, false) in
  (if isPush l then set_len (Some (log_op l - 0x5e)) o else o, frame).

(** What RETURN, STOP and SUICIDE write to their frame. *)
Definition frame_return (l : log) (o : object) : object :=
  if opn l (str "RETURN") then
    let out := f64 (peek l 0) in
    let outsize := f64 (peek l 1) in
    set_return (Some (Some (mem_slice l out (f64 (out + outsize))))) o
  else if opn l (str "STOP") || opn l (str "SUICIDE") then
    set_return (Some (Some (mem_slice l 0 0))) o
  else o.

(** [if (error)]: an empty message is falsy. *)
Definition truthy (e : option jsstr) : bool :=
  match e with None | Some [] => false | Some _ => true end.

(** The objects once the results of the previous opcode of the frame are known. *)
Definition with_results (l : log) (ops : list nat) (objs : list object) : list object :=
  match last ops with
  | Some prev => alter (fun o => add_result (results l (pushes_of o)) o) prev objs
  | None => objs
  end.

(** An opcode of the frame [fr], whose [ops] are given: complete the previous
    opcode, build the new object, add it to the frame, open a frame for it. *)
Definition record (s : state) (fr : nat) (ops : list nat) (l : log) : state :=
  let objs := with_results l ops (objects s) in
  let '(o, isframe) := new_object l in
  let id := length objs in
  let objs := alter (fun o => add_op id (frame_return l o)) fr (objs ++ [o]) in
  State objs (if isframe then stack s ++ [id] else stack s).

(** [None] is a thrown exception: no frame, or a frame without [ops]. *)
Definition step (s : state) (l : log) : option state :=
  fr ← last (stack s);
  frame ← objects s !! fr;
  if truthy (log_error l) then
    Some (State (<[fr := set_error (Some (log_error l)) frame]> (objects s)) (stack s))
  else if log_depth l =? Z.of_nat (length (stack s)) then
    ops ← o_ops frame;
    Some (record s fr ops l)
  else Some (State (objects s) (take (Z.to_nat (log_depth l)) (stack s))).

Definition fault (s : state) (l : log) : state := s.

(** [this.stack[0].ops]. *)
Definition result (s : state) : option (list nat) :=
  fr ← stack s !! 0%nat;
  frame ← objects s !! fr;
  o_ops frame.

Fixpoint run (s : state) (ls : list log) : option state :=
  match ls with
  | [] => Some s
  | l :: ls => s ← step s l; run s ls
  end.

(** * Invariant *)

(** Every frame on the stack is an object with an [ops] array, and [ops] arrays
    refer to objects. *)
Definition inv (s : state) : Prop :=
  stack s <> [] /\
  (forall id, id ∈ stack s -> exists o, objects s !! id = Some o /\ is_Some (o_ops o)) /\
  (forall id o ops, objects s !! id = Some o -> o_ops o = Some ops ->
     Forall (fun k => (k < length (objects s))%nat) ops).

Lemma init_inv : inv init.
Proof.
  split; [done|]. split.
  - intros id. simpl. rewrite list_elem_of_singleton. intros ->. by eexists.
  - intros [|id] o ops; simpl; [|done]. intros [= <-] [= <-]. constructor.
Qed.

Lemma last_elem {A} (l : list A) x : last l = Some x -> x ∈ l.
Proof. rewrite last_lookup. apply list_elem_of_lookup_2. Qed.

Lemma frame_return_ops l o : o_ops (frame_return l o) = o_ops o.
Proof. unfold frame_return. by repeat case_match. Qed.

Lemma new_object_ops l : o_ops (new_object l).1 = if (new_object l).2 then Some [] else None.
Proof. unfold new_object. repeat case_match; simplify_eq/=; done. Qed.

Lemma with_results_length l ops objs : length (with_results l ops objs) = length objs.
Proof. unfold with_results. destruct (last ops); [apply length_alter|done]. Qed.

(** Recording results keeps every object and its [ops]. *)
Lemma with_results_ops l ops objs id :
  (o_ops <$> (with_results l ops objs !! id)) = (o_ops <$> (objs !! id)).
Proof.
  unfold with_results. destruct (last ops) as [prev|]; [|done].
  destruct (decide (prev = id)) as [->|].
  - rewrite list_lookup_alter_eq. by destruct (objs !! id).
  - by rewrite list_lookup_alter_ne.
Qed.

(** The objects after an opcode is recorded. *)
Lemma record_lookup s fr ops l id :
  (fr < length (objects s))%nat ->
  objects (record s fr ops l) !! id =
    (if decide (id = fr)
     then (fun o => add_op (length (objects s)) (frame_return l o))
            <$> (with_results l ops (objects s) !! id)
     else if decide (id = length (objects s)) then Some (new_object l).1
     else with_results l ops (objects s) !! id).
Proof.
  intros Hfr. unfold record. destruct (new_object l) as [o isf]. cbn [objects fst].
  rewrite with_results_length. pose proof (with_results_length l ops (objects s)) as Hl.
  destruct (decide (id = fr)) as [->|Hne].
  - rewrite list_lookup_alter_eq, lookup_app_l by lia. done.
  - rewrite list_lookup_alter_ne by done.
    destruct (decide (id = length (objects s))) as [->|Hn].
    + rewrite <-Hl at 1. by rewrite list_lookup_middle.
    + destruct (Nat.lt_ge_cases id (length (objects s))) as [Hlt|Hge].
      * by rewrite lookup_app_l by lia.
      * rewrite !lookup_ge_None_2; [done|lia|rewrite length_app; simpl; lia].
Qed.

Lemma record_length s fr ops l : length (objects (record s fr ops l)) = S (length (objects s)).
Proof.
  unfold record. destruct (new_object l). cbn [objects].
  rewrite length_alter, length_app, with_results_length. simpl. lia.
Qed.

(** The [ops] of every object after an opcode is recorded. *)
Lemma record_ops s fr ops l id :
  (fr < length (objects s))%nat -> (o_ops <$> (objects s !! fr)) = Some (Some ops) ->
  (o_ops <$> (objects (record s fr ops l) !! id)) =
    (if decide (id = fr) then Some (Some (ops ++ [length (objects s)]))
     else if decide (id = length (objects s)) then Some (o_ops (new_object l).1)
     else o_ops <$> (objects s !! id)).
Proof.
  intros Hfr Ho. rewrite record_lookup by done.
  pose proof (with_results_ops l ops (objects s) id) as Hw.
  destruct (decide (id = fr)) as [->|].
  - rewrite Ho in Hw. destruct (with_results l ops (objects s) !! fr) as [o|]; [|done].
    simpl in *. rewrite frame_return_ops. injection Hw as ->. done.
  - by destruct (decide (id = length (objects s))).
Qed.

Lemma record_inv s fr ops l :
  inv s -> last (stack s) = Some fr -> (o_ops <$> (objects s !! fr)) = Some (Some ops) ->
  inv (record s fr ops l).
Proof.
  intros (Hne & Hst & Hops) Hl Ho.
  assert (exists o, objects s !! fr = Some o /\ o_ops o = Some ops) as (fo & Hfo & Hfops)
    by (destruct (objects s !! fr); simplify_eq/=; eauto).
  assert (fr < length (objects s))%nat as Hfr by (by eapply lookup_lt_Some).
  assert (stack (record s fr ops l) =
          if (new_object l).2 then stack s ++ [length (objects s)] else stack s) as Est
    by (unfold record; destruct (new_object l); cbn [stack snd]; by rewrite with_results_length).
  split; [|split].
  - rewrite Est. destruct (new_object l).2; [by destruct (stack s)|done].
  - intros id Hid. pose proof (record_ops s fr ops l id Hfr Ho) as Hr.
    assert (is_Some (o_ops <$> (objects (record s fr ops l) !! id)) /\
            (o_ops <$> (objects (record s fr ops l) !! id)) <> Some None) as [[x Hx] Hn].
    { rewrite Hr. destruct (decide (id = fr)); [split; [eauto|done]|].
      destruct (decide (id = length (objects s))) as [->|Hn].
      - rewrite new_object_ops. rewrite Est in Hid. destruct (new_object l).2 eqn:Ef; [split; [eauto|done]|].
        exfalso. destruct (Hst _ Hid) as (o & Hoo & _). apply lookup_lt_Some in Hoo. lia.
      - assert (id ∈ stack s) as Hs.
        { rewrite Est in Hid. destruct (new_object l).2; [|done].
          apply elem_of_app in Hid as [?|Hid]; [done|]. by apply list_elem_of_singleton in Hid. }
        destruct (Hst id Hs) as (o & -> & [y Hy]). simpl. rewrite Hy. split; [eauto|done]. }
    destruct (objects (record s fr ops l) !! id) as [o|]; [|done]. exists o. split; [done|].
    simpl in *. destruct (o_ops o); [eauto|done].
  - intros id o ops' Hid Hops'. rewrite record_length.
    pose proof (record_ops s fr ops l id Hfr Ho) as Hr. rewrite Hid in Hr. simpl in Hr. rewrite Hops' in Hr.
    destruct (decide (id = fr)); [|destruct (decide (id = length (objects s)))].
    + injection Hr as ->. apply Forall_app. split; [|repeat constructor; lia].
      eapply Forall_impl; [by eapply Hops|]. simpl. lia.
    + rewrite new_object_ops in Hr. destruct (new_object l).2; [|done]. injection Hr as ->. constructor.
    + destruct (objects s !! id) as [o'|] eqn:Eo; [|done]. simpl in Hr. injection Hr as Hr.
      eapply Forall_impl; [by eapply Hops|]. simpl. lia.
Qed.

Lemma evmdis_step_inv s l : 1 <= log_depth l -> inv s -> exists s', step s l = Some s' /\ inv s'.
Proof.
  intros Hd Hi. pose proof Hi as (Hne & Hst & Hops). unfold step.
  assert (is_Some (last (stack s))) as [fr Hl] by (by apply last_is_Some). rewrite Hl.
  cbn [mbind option_bind]. pose proof (last_elem _ _ Hl) as Hin.
  destruct (Hst fr Hin) as (o & Ho & [ops Hoo]). rewrite Ho. cbn [mbind option_bind].
  destruct (truthy (log_error l)).
  { eexists. split; [done|]. split; [done|]. split; cbn [objects stack].
    - intros id Hid. destruct (decide (id = fr)) as [->|].
      + eexists. rewrite list_lookup_insert_eq by (by eapply lookup_lt_Some). split; [done|]. simpl. by rewrite Hoo.
      + rewrite list_lookup_insert_ne by done. by apply Hst.
    - intros id o' ops' Hid Hops'. rewrite length_insert.
      destruct (decide (id = fr)) as [->|].
      + rewrite list_lookup_insert_eq in Hid by (by eapply lookup_lt_Some).
        injection Hid as <-. by eapply Hops.
      + rewrite list_lookup_insert_ne in Hid by done. by eapply Hops. }
  destruct (Z.eqb_spec (log_depth l) (Z.of_nat (length (stack s)))).
  { rewrite Hoo. cbn [mbind option_bind]. eexists. split; [done|].
    apply record_inv; [done..|]. rewrite Ho. simpl. by rewrite Hoo. }
  eexists. split; [done|]. split; [|split]; cbn [objects stack]; [| |done].
  2: { intros id Hid. apply Hst. rewrite <-(take_drop (Z.to_nat (log_depth l)) (stack s)).
       apply elem_of_app. by left. }
  destruct (stack s), (Z.to_nat (log_depth l)) eqn:E; simpl; (done || lia).
Qed.

(** The evmdis tracer never throws: whatever opcodes the host reports (at depth
    one or more), the frames on its stack stay objects with an [ops] list whose
    entries refer to existing objects, and a result is returned. *)
Theorem evmdis_total ls :
  Forall (fun l => 1 <= log_depth l) ls ->
  exists s, run init ls = Some s /\ inv s /\ is_Some (result s).
Proof.
  intros H. pose proof init_inv as Hi. revert Hi. generalize init.
  induction H as [|l ls Hd _ IH]; intros s Hs; simpl.
  - exists s. split; [done|]. split; [done|]. destruct Hs as (Hne & Hst & _). unfold result.
    destruct (stack s) as [|fr st]; [done|]. simpl.
    destruct (Hst fr) as (o & -> & Ho); [by left|]. done.
  - destruct (evmdis_step_inv s l Hd Hs) as (s' & -> & Hs'). simpl. by apply IH.
Qed.

(** * What is recorded *)

(** An opcode of the running frame that does not open a call. *)
Definition flat (d : Z) (l : log) : Prop :=
  truthy (log_error l) = false /\ log_depth l = d /\
  opn l (str "CALL") || opn l (str "CALLCODE") = false /\
  opn l (str "DELEGATECALL") || opn l (str "STATICCALL") = false.

(** The words opcode [l] left on the stack, seen when the next one runs. *)
Definition recorded_result (l : log) (next : option log) : list jsstr :=
  match next with Some l' => results l' (npushes (log_op l)) | None => [] end.

Lemma new_object_flat d l :
  flat d l -> (new_object l).2 = false /\ o_op (new_object l).1 = Some (OpNum (log_op l)) /\
  o_result (new_object l).1 = [].
Proof.
  intros (_ & _ & H1 & H2). unfold new_object. rewrite H1, H2.
  destruct (opn l (str "JUMPDEST")), (isPush l); done.
Qed.

Lemma step_flat s fr ops l :
  last (stack s) = Some fr -> (o_ops <$> (objects s !! fr)) = Some (Some ops) ->
  flat (Z.of_nat (length (stack s))) l -> step s l = Some (record s fr ops l).
Proof.
  intros Hl Ho (He & Hd & _). unfold step. rewrite Hl. cbn [mbind option_bind].
  destruct (objects s !! fr) as [o|]; [|done]. cbn [mbind option_bind]. simpl in Ho.
  rewrite He, Hd, Z.eqb_refl. injection Ho as ->. done.
Qed.

Lemma record_flat_stack s fr ops d l : flat d l -> stack (record s fr ops l) = stack s.
Proof.
  intros Hf. destruct (new_object_flat d l Hf) as (E & _). unfold record.
  destruct (new_object l) as [o b]. simpl in E. by subst b.
Qed.

Lemma frame_return_result l o : o_result (frame_return l o) = o_result o /\ o_op (frame_return l o) = o_op o.
Proof. unfold frame_return. by repeat case_match. Qed.

(** Results of objects after an opcode is recorded: only the last opcode of the
    frame gets results. *)
Lemma record_result s fr ops l id o :
  (fr < length (objects s))%nat -> objects s !! id = Some o ->
  exists o', objects (record s fr ops l) !! id = Some o' /\ o_op o' = o_op o /\
    o_result o' = if decide (last ops = Some id)
                  then o_result o ++ results l (pushes_of o) else o_result o.
Proof.
  intros Hfr Ho. rewrite record_lookup by done.
  assert (exists o1, with_results l ops (objects s) !! id = Some o1 /\ o_op o1 = o_op o /\
    o_result o1 = if decide (last ops = Some id)
                  then o_result o ++ results l (pushes_of o) else o_result o) as (o1 & E1 & E2 & E3).
  { unfold with_results. destruct (last ops) as [prev|] eqn:El.
    - destruct (decide (Some prev = Some id)) as [[= ->]|Hne].
      + eexists. by rewrite list_lookup_alter_eq, Ho.
      + exists o. rewrite list_lookup_alter_ne by congruence. done.
    - exists o. by rewrite decide_False. }
  pose proof (lookup_lt_Some _ _ _ Ho). rewrite E1.
  destruct (decide (id = fr)); [|rewrite decide_False by lia; eauto].
  eexists. split; [done|]. simpl. destruct (frame_return_result l o1) as [-> ->]. done.
Qed.

(** For a frame that runs opcodes without calls, the tracer lists exactly
    these opcodes in order, each with the stack words it pushed, read from the
    stack of the following opcode. *)
Theorem evmdis_records ls s fr ops :
  inv s -> last (stack s) = Some fr -> (o_ops <$> (objects s !! fr)) = Some (Some ops) ->
  Forall (flat (Z.of_nat (length (stack s)))) ls ->
  exists s', run s ls = Some s' /\ stack s' = stack s /\
    (o_ops <$> (objects s' !! fr)) = Some (Some (ops ++ seq (length (objects s)) (length ls))) /\
    forall i l, ls !! i = Some l ->
      exists o, objects s' !! (length (objects s) + i)%nat = Some o /\
        o_op o = Some (OpNum (log_op l)) /\ o_result o = recorded_result l (ls !! S i).
Proof.
  intros Hi Hl Ho Hf.
  enough (exists s', run s ls = Some s' /\ stack s' = stack s /\ inv s' /\
    length (objects s') = (length (objects s) + length ls)%nat /\
    (o_ops <$> (objects s' !! fr)) = Some (Some (ops ++ seq (length (objects s)) (length ls))) /\
    forall i l, ls !! i = Some l ->
      exists o, objects s' !! (length (objects s) + i)%nat = Some o /\
        o_op o = Some (OpNum (log_op l)) /\ o_result o = recorded_result l (ls !! S i)) by naive_solver.
  induction ls as [|l ls IH] using rev_ind.
  { exists s. simpl. rewrite app_nil_r, Nat.add_0_r. done. }
  apply Forall_app in Hf as [Hf Hlast]. pose proof (proj1 (Forall_singleton _ _) Hlast) as Hfl.
  destruct (IH Hf) as (s1 & Hr & Hst & Hi1 & Hlen & Ho1 & Hobj).
  set (ops1 := ops ++ seq (length (objects s)) (length ls)) in *.
  assert (fr < length (objects s1))%nat as Hfr
    by (destruct (objects s1 !! fr) eqn:E; [by eapply lookup_lt_Some|done]).
  exists (record s1 fr ops1 l). rewrite record_length, Hlen, !length_app.
  split_and!; [| | |simpl; lia| |].
  - assert (forall s, run s (ls ++ [l]) = (s ← run s ls; step s l)) as ->.
    { intros s0. clear. revert s0. induction ls as [|x ls IH]; intros s0; simpl.
      - by destruct (step s0 l).
      - destruct (step s0 x); simpl; [apply IH|done]. }
    rewrite Hr. cbn [mbind option_bind]. apply step_flat; [by rewrite Hst|done|rewrite Hst; exact Hfl].
  - by erewrite record_flat_stack.
  - apply record_inv; [done|by rewrite Hst|done].
  - rewrite record_ops, decide_True by done. rewrite Hlen. unfold ops1.
    simpl length. rewrite seq_app, app_assoc. done.
  - intros i x Hx. apply lookup_app_Some in Hx as [Hx|[Hge Hx]].
    + destruct (Hobj i x Hx) as (o & Hoo & Hop & Hres).
      destruct (record_result s1 fr ops1 l _ o Hfr Hoo) as (o' & Ho' & Hop' & Hres').
      exists o'. split; [done|]. split; [congruence|]. rewrite Hres'.
      pose proof (lookup_lt_Some _ _ _ Hx) as Hlt.
      assert (last ops1 = Some (length (objects s) + length ls - 1)%nat) as ->.
      { unfold ops1. rewrite last_app. destruct ls as [|y ls' _] using rev_ind; [simpl in Hlt; lia|].
        rewrite length_app. simpl. rewrite seq_app, last_app. simpl. f_equal. lia. }
      destruct (decide (i = length ls - 1)%nat) as [->|Hni].
      * rewrite decide_True by (f_equal; lia). unfold pushes_of. rewrite Hop, Hres.
        replace (S (length ls - 1)) with (length ls) by lia.
        rewrite (lookup_ge_None_2 ls) by lia. by rewrite lookup_app_r, Nat.sub_diag by lia.
      * rewrite decide_False by (intros [= E]; lia). rewrite Hres.
        by rewrite lookup_app_l by lia.
    + assert (i = length ls) as ->.
      { apply lookup_lt_Some in Hx. simpl in Hx. lia. }
      rewrite Nat.sub_diag in Hx. injection Hx as <-. rewrite <-Hlen.
      rewrite record_lookup by done. rewrite decide_False by lia. rewrite decide_True by done.
      destruct (new_object_flat _ _ Hfl) as (_ & E1 & E2). eexists. split; [done|].
      split; [done|]. rewrite E2. rewrite lookup_ge_None_2 by (rewrite length_app; simpl; lia). done.
Qed.

(** * Deviation *)

(** The first opcode a frame executes after one of its calls returned is not
    recorded: it only truncates the stack of frames. *)
Theorem opcode_after_return_dropped s l :
  inv s -> truthy (log_error l) = false -> 1 <= log_depth l < Z.of_nat (length (stack s)) ->
  step s l = Some (State (objects s) (take (Z.to_nat (log_depth l)) (stack s))).
Proof.
  intros (Hne & Hst & _) He Hd. unfold step.
  assert (is_Some (last (stack s))) as [fr Hl] by (by apply last_is_Some). rewrite Hl.
  destruct (Hst fr (last_elem _ _ Hl)) as (o & Ho & _). cbn [mbind option_bind]. rewrite Ho.
  cbn [mbind option_bind]. rewrite He. by zbool (log_depth l =? Z.of_nat (length (stack s))) false.
Qed.

(** * Examples *)

Definition ex_log (op : Z) (name : jsstr) (stack : list Z) : log := Log op name stack [] [] 0 100 3 1 None.
Definition ex_logs : list log :=
  [ex_log 0x60 (str "PUSH1") []; ex_log 0x60 (str "PUSH1") [5]; ex_log 0x01 (str "ADD") [6; 5];
   ex_log 0x50 (str "POP") [11]].

Lemma evmdis_total_witness : exists s, run init ex_logs = Some s /\ inv s /\ is_Some (result s).
Proof. apply (evmdis_total ex_logs). repeat constructor; simpl; lia. Defined.

Lemma evmdis_records_witness : exists s',
  run init ex_logs = Some s' /\
  exists o, objects s' !! 3%nat = Some o /\ o_op o = Some (OpNum 0x01) /\ o_result o = [to_base 16 11].
Proof.
  destruct (evmdis_records ex_logs init 0 []) as (s' & H1 & _ & _ & H4).
  - apply init_inv.
  - reflexivity.
  - reflexivity.
  - repeat constructor.
  - exists s'. split; [exact H1|].
    destruct (H4 2%nat (ex_log 0x01 (str "ADD") [6; 5]) eq_refl) as (o & Ho & Hop & Hres).
    exists o. split; [exact Ho|]. split; [exact Hop|]. rewrite Hres. vm_compute. reflexivity.
Defined.
