(* ===== verification/DashLogs.v ===== *)
(** The log page of the dashboard, src/dashboard/assets/components/Logs.jsx:
    [createChunk] formats log records, [inserter] keeps the sliding window of
    log chunks shown by the page, and the request methods of the component
    decide when more chunks are asked from the server. *)
From Stdlib Require Import ZArith Lia.
From S2P Require Import Prelude.
Open Scope Z_scope.

(** * Data *)

(** A log record as received; [msg] and [ctx] are [None] when they do not have
    the expected type. *)
Record record := Record_ {
  r_t : jsstr;
  r_lvl : jsstr;
  r_msg : option jsstr;
  r_ctx : option (list jsstr)
}.

(** The fields of a valid [Date] the page prints. *)
Record date := Date { month : Z; day : Z; hours : Z; minutes : Z; seconds : Z }.

Record chunk := Chunk { content : jsstr; name : jsstr }.

(** [chunks] is [None] when it is not an array; an [undefined] flag is [false]. *)
Record logs := Logs {
  chunks : option (list chunk);
  endTop : bool;
  endBottom : bool;
  topChanged : Z;
  bottomChanged : Z
}.

Record source := Source { s_name : jsstr; s_last : bool }.
(** [chunk] is [None] when it is not an array. *)
Record message := Message { m_source : option source; m_chunk : option (list record) }.

Definition ADDED : Z := 1.
Definition SAME : Z := 0.
Definition REMOVED : Z := -1.

(** [a < b] on strings: lexicographic on code units. *)
Fixpoint js_ltb (a b : jsstr) : bool :=
  match a, b with
  | _, [] => false
  | [], _ :: _ => true
  | x :: a, y :: b => (x <? y) || ((x =? y) && js_ltb a b)
  end.

(** * Formatting *)

(** [s.repeat(n)]; a negative count throws. *)
Definition js_repeat (s : jsstr) (n : Z) : option jsstr :=
  if n <? 0 then None else Some (concat (replicate (Z.to_nat n) s)).

Section Format.
(** [new Date(t)], which depends on the browser's time zone ([None] is an
    invalid date), and the [escape-html] package, given [undefined] past the
    end of the context. *)
Context (new_Date : jsstr -> option date) (escapeHtml : option jsstr -> jsstr).

(** The level's label and colour. *)
Definition level (lvl : jsstr) : jsstr * jsstr :=
  let lvl_is n := bool_decide (lvl = n) in
  if lvl_is (str "trace") || lvl_is (str "trce") then (str "TRACE", str "#3465a4")
  else if lvl_is (str "debug") || lvl_is (str "dbug") then (str "DEBUG", str "#3d989b")
  else if lvl_is (str "info") then (str "INFO&nbsp;", str "#4c8f0f")
  else if lvl_is (str "warn") then (str "WARN&nbsp;", str "#b79a22")
  else if lvl_is (str "error") || lvl_is (str "eror") then (str "ERROR", str "#754b70")
  else if lvl_is (str "crit") then (str "CRIT&nbsp;", str "#ce3c23")
  else ([], str "#ce3c23").

(** [`0${n}`.slice(-2)]. *)
Definition two_digits (n : Z) : jsstr := js_slice_from (48 :: to_base 10 n) (-2).

(** The string literals that carry quotes, as code units. *)
Definition span_open (color : jsstr) : jsstr :=
  str "<span style=" ++ [34] ++ str "color:" ++ color ++ [34] ++ str ">".
Definition span_close : jsstr := str "</span>".
Definition invalid_record : jsstr := span_open (str "#ce3c23") ++ str "Invalid log record</span><br />".

(** The loop over the context, two entries at a time; [pad] is the global
    [fieldPadding] map. *)
Fixpoint format_ctx (fuel : nat) (color : jsstr) (ctx : list jsstr) (i : nat)
    (pad : gmap jsstr Z) : option (jsstr * gmap jsstr Z) :=
  match fuel with
  | O => Some ([], pad)
  | S fuel =>
      if (i <? length ctx)%nat then
        let key := escapeHtml (ctx !! i) in
        let val := escapeHtml (ctx !! S i) in
        let '(padding, pad) :=
          match pad !! key with
          | Some p => if p <? js_len val then (js_len val, <[key := js_len val]> pad) else (p, pad)
          | None => (js_len val, <[key := js_len val]> pad)
          end in
        p ← (if (Z.of_nat i <? Z.of_nat (length ctx) - 2)
             then js_repeat (str "&nbsp;") (padding - js_len val) else Some []);
        '(rest, pad) ← format_ctx fuel color ctx (i + 2) pad;
        Some (str " " ++ span_open color ++ key ++ span_close ++ str "=" ++ val ++ p ++ rest, pad)
      else Some ([], pad)
  end.

Definition format_record (r : record) (pad : gmap jsstr Z) : option (jsstr * gmap jsstr Z) :=
  let '(lvl, color) := level (r_lvl r) in
  match new_Date (r_t r), r_msg r, r_ctx r with
  | Some time, Some msg, Some ctx =>
      if bool_decide (lvl = []) then Some (invalid_record, pad)
      else
        msg ← (if (0 <? length ctx)%nat
               then (fun p => msg ++ p) <$> js_repeat (str "&nbsp;") (Z.max (40 - js_len msg) 0)
               else Some msg);
        let head := span_open color ++ lvl ++ span_close ++ str "[" ++
          two_digits (month time + 1) ++ str "-" ++ two_digits (day time) ++ str "|" ++
          two_digits (hours time) ++ str ":" ++ two_digits (minutes time) ++ str ":" ++
          two_digits (seconds time) ++ str "] " ++ msg in
        '(fields, pad) ← format_ctx (length ctx) color ctx 0 pad;
        Some (head ++ fields ++ str "<br />", pad)
  | _, _, _ => Some (invalid_record, pad)
  end.

Fixpoint createChunk (records : list record) (pad : gmap jsstr Z) : option (jsstr * gmap jsstr Z) :=
  match records with
  | [] => Some ([], pad)
  | r :: rs =>
      '(c, pad) ← format_record r pad;
      '(cs, pad) ← createChunk rs pad;
      Some (c ++ cs, pad)
  end.

(** * The window of chunks *)

(** [arr.splice(i, n)] with [0 <= i], [0 <= n]. *)
Definition splice {A} (i n : nat) (l : list A) : list A := take i l ++ drop (i + n) l.

(** What the updater returns: the log state, or (see below) a bare array. *)
Inductive inserted := Kept (l : logs) | BareArray (cs : list chunk).

Definition set_changed (t b : Z) (l : logs) : logs := Logs (chunks l) (endTop l) (endBottom l) t b.

(** The state as the next update and the page read it: an array has none of
    the fields. *)
Definition as_logs (r : inserted) : logs :=
  match r with
  | Kept l => l
  | BareArray _ => Logs None false false SAME SAME
  end.

(** The updater proper, given the array of chunks and the formatted content of
    the message; [1 <= limit]. *)
Definition insert_content (limit : nat) (src : option source) (c : jsstr) (cs : list chunk)
    (prev : logs) : inserted :=
  let len := length cs in
  match src with
  | None =>
      if negb (endBottom prev) then Kept (Logs (Some cs) (endTop prev) (endBottom prev) (topChanged prev) (bottomChanged prev))
      else match last cs with
           | None => BareArray [Chunk c (str "00000000000000.log")]
           | Some x =>
               Kept (Logs (Some (<[(len - 1)%nat := Chunk (content x ++ c) (name x)]> cs))
                       (endTop prev) (endBottom prev) (topChanged prev) ADDED)
           end
  | Some s =>
      let ck := Chunk c (s_name s) in
      let before := match cs with first :: _ => js_ltb (s_name s) (name first) | [] => false end in
      if before then
        let top := s_last s || endTop prev in
        if (limit <=? len)%nat then
          Kept (Logs (Some (ck :: splice (limit - 1) (len - limit + 1) cs)) top false ADDED REMOVED)
        else Kept (Logs (Some (ck :: cs)) top (endBottom prev) ADDED (bottomChanged prev))
      else
        let bottom := s_last s || endBottom prev in
        if (limit <=? len)%nat then
          Kept (Logs (Some (splice 0 (len - limit + 1) cs ++ [ck])) false bottom REMOVED ADDED)
        else Kept (Logs (Some (cs ++ [ck])) (endTop prev) bottom (topChanged prev) ADDED)
  end.

Definition inserter (limit : nat) (update : message) (prev : logs) (pad : gmap jsstr Z)
    : option (inserted * gmap jsstr Z) :=
  let prev := set_changed SAME SAME prev in
  match m_chunk update with
  | None | Some [] => Some (Kept prev, pad)
  | Some records =>
      '(c, pad) ← createChunk records pad;
      Some (insert_content limit (m_source update) c (default [] (chunks prev)) prev, pad)
  end.
End Format.

(** * Requests of the page *)

(** The scroll container, in whole pixels. *)
Record container := Container { scrollTop : Z; scrollHeight : Z; clientHeight : Z }.

(** The page: its container, the height of its content ([None] when
    undefined), whether requests are allowed, and the requests sent (name of
    the file, and whether the older one is wanted). *)
Record page := Page {
  p_container : option container;
  p_content : option Z;
  p_requestAllowed : bool;
  p_sent : list (jsstr * bool)
}.

(** [requestBand = 0.05]: the product compared with whole pixels. *)
Definition atTop (c : container) : bool := 20 * scrollTop c <=? scrollHeight c.
Definition atBottom (c : container) : bool :=
  20 * (scrollHeight c - scrollTop c) <=? 20 * clientHeight c + scrollHeight c.

Definition sendRequest (n : jsstr) (past : bool) (p : page) : page :=
  Page (p_container p) (p_content p) false (p_sent p ++ [(n, past)]).
Definition set_scrollTop (y : Z) (p : page) : page :=
  Page ((fun c => Container y (scrollHeight c) (clientHeight c)) <$> p_container p)
    (p_content p) (p_requestAllowed p) (p_sent p).
Definition allow (p : page) : page :=
  Page (p_container p) (p_content p) true (p_sent p).

Definition componentDidMount (l : logs) (p : page) : option page :=
  match p_container p with
  | None => Some p
  | Some c =>
      let p := set_scrollTop (scrollHeight c - clientHeight c) p in
      match p_content p with
      | None => Some p
      | Some h =>
          cs ← chunks l;
          match cs with
          | [] => Some p
          | first :: _ =>
              Some (if (h <? clientHeight c) && negb (endTop l) then sendRequest (name first) true p else p)
          end
      end
  end.

(** [this.atTop()] throws without a container. *)
Definition onScroll (l : logs) (p : page) : option page :=
  if negb (p_requestAllowed p) then Some p
  else match p_content p with
  | None => Some p
  | Some _ =>
      cs ← chunks l;
      match cs, last cs with
      | first :: _, Some lst =>
          c ← p_container p;
          Some (if atTop c && negb (endTop l) then sendRequest (name first) true p
                else if atBottom c && negb (endBottom l) then sendRequest (name lst) false p
                else p)
      | _, _ => Some p
      end
  end.

(** What the parent saved before the update: the scroll position and the
    height of the first chunk. *)
Record snapshot := Snapshot { sn_scrollTop : Z; sn_firstHeight : Z }.

(** [logs_in_update] is whether the update carried logs; [firstHeight] is the
    height of the first chunk after the update. *)
Definition didUpdate (logs_in_update : bool) (sn : option snapshot) (firstHeight : Z)
    (l : logs) (p : page) : option page :=
  match logs_in_update, p_content p, sn with
  | true, Some h, Some s =>
      match p_container p with
      | None => Some p
      | Some c =>
          cs ← chunks l;
          match cs with
          | [] => Some p
          | first :: _ =>
              if h <? clientHeight c then
                Some (if negb (endTop l) then sendRequest (name first) true p else p)
              else
                let y :=
                  if topChanged l =? ADDED then sn_scrollTop s + firstHeight
                  else if bottomChanged l =? ADDED then
                    if topChanged l =? REMOVED then sn_scrollTop s - sn_firstHeight s
                    else if atBottom c && endBottom l then scrollHeight c - clientHeight c
                    else sn_scrollTop s
                  else sn_scrollTop s in
                Some (allow (set_scrollTop y p))
          end
      end
  | _, _, _ => Some p
  end.

(** [first] is the height of the first chunk's element, when there is one. *)
Definition beforeUpdate (c : container) (first : option Z) : snapshot :=
  Snapshot (scrollTop c) (default 0 first).

(** * Formatting never throws *)

(** [pad ≼ pad'] : no field's padding shrank. *)
Definition pad_le (pad pad' : gmap jsstr Z) : Prop :=
  forall k p, pad !! k = Some p -> exists p', pad' !! k = Some p' /\ p <= p'.

Lemma pad_le_refl pad : pad_le pad pad.
Proof. intros k p H. eauto with lia. Qed.

Lemma pad_le_trans p1 p2 p3 : pad_le p1 p2 -> pad_le p2 p3 -> pad_le p1 p3.
Proof.
  intros H1 H2 k p Hk. destruct (H1 k p Hk) as (q & Hq & ?).
  destruct (H2 k q Hq) as (r & Hr & ?). eauto with lia.
Qed.

Lemma pad_le_insert pad k n :
  (forall p, pad !! k = Some p -> p <= n) -> pad_le pad (<[k := n]> pad).
Proof.
  intros H k' p Hp. destruct (decide (k' = k)) as [->|Hne].
  - rewrite lookup_insert_eq. eauto.
  - rewrite lookup_insert_ne by done. eauto with lia.
Qed.

Lemma js_repeat_some s n : 0 <= n -> exists r, js_repeat s n = Some r.
Proof. intros H. unfold js_repeat. zbool (n <? 0) false. eauto. Qed.

Section FormatProofs.
Context (new_Date : jsstr -> option date) (escapeHtml : option jsstr -> jsstr).

(** [pad] has room for every value of the context from [i] on. *)
Definition fits (ctx : list jsstr) (i : nat) (pad : gmap jsstr Z) : Prop :=
  forall j, (i + 2 * j < length ctx)%nat ->
    exists p, pad !! escapeHtml (ctx !! (i + 2 * j)%nat) = Some p /\
      js_len (escapeHtml (ctx !! S (i + 2 * j)%nat)) <= p.

Lemma fits_le ctx i pad pad' : fits ctx i pad -> pad_le pad pad' -> fits ctx i pad'.
Proof.
  intros H Hle j Hj. destruct (H j Hj) as (p & Hp & ?).
  destruct (Hle _ _ Hp) as (q & Hq & ?). eauto with lia.
Qed.

Lemma format_ctx_some fuel color ctx i pad :
  (length ctx <= i + fuel)%nat ->
  exists out pad', format_ctx escapeHtml fuel color ctx i pad = Some (out, pad') /\
    pad_le pad pad' /\ fits ctx i pad'.
Proof.
  revert i pad. induction fuel as [|fuel IH]; intros i pad Hf; simpl.
  - exists [], pad. split_and!; [done|apply pad_le_refl|intros j Hj; lia].
  - destruct (Nat.ltb_spec i (length ctx)) as [Hi|Hi].
    2: { exists [], pad. split_and!; [done|apply pad_le_refl|intros j Hj; lia]. }
    set (key := escapeHtml (ctx !! i)). set (val := escapeHtml (ctx !! S i)).
    set (upd := match pad !! key with Some _ => _ | None => _ end).
    assert (exists p pad1, upd = (p, pad1) /\ js_len val <= p /\ pad1 !! key = Some p /\
              pad_le pad pad1) as (p & pad1 & -> & Hp & Hk & Hle).
    { subst upd. destruct (pad !! key) as [p|] eqn:Ek.
      - destruct (Z.ltb_spec p (js_len val)).
        + eexists _, _. split_and!; [done|lia|apply lookup_insert_eq|].
          apply pad_le_insert. rewrite Ek. intros ? [= <-]. lia.
        + exists p, pad. split_and!; [done|lia|done|apply pad_le_refl].
      - eexists _, _. split_and!; [done|lia|apply lookup_insert_eq|].
        apply pad_le_insert. rewrite Ek. done. }
    assert (exists q, (if Z.of_nat i <? Z.of_nat (length ctx) - 2
              then js_repeat (str "&nbsp;") (p - js_len val) else Some []) = Some q) as (q & ->).
    { destruct (_ <? _); [apply js_repeat_some; lia|eauto]. }
    destruct (IH (i + 2)%nat pad1) as (out & pad' & E & Hle' & Hfit); [lia|].
    cbn [mbind option_bind]. rewrite E. cbn. eexists _, pad'. split; [done|]. split.
    { by eapply pad_le_trans. }
    intros [|j] Hj.
    + rewrite Nat.mul_0_r, Nat.add_0_r. destruct (Hle' _ _ Hk) as (p' & ? & ?).
      exists p'. split; [done|]. fold val. lia.
    + replace (i + 2 * S j)%nat with (i + 2 + 2 * j)%nat by lia. apply Hfit. lia.
Qed.

Lemma format_record_some r pad :
  exists out pad', format_record new_Date escapeHtml r pad = Some (out, pad') /\ pad_le pad pad'.
Proof.
  unfold format_record. destruct (level (r_lvl r)) as [lvl color].
  pose proof (pad_le_refl pad).
  destruct (new_Date (r_t r)), (r_msg r) as [msg|], (r_ctx r) as [ctx|]; eauto.
  destruct (bool_decide (lvl = [])); eauto.
  assert (exists m, (if (0 <? length ctx)%nat
             then (fun p => msg ++ p) <$> js_repeat (str "&nbsp;") (Z.max (40 - js_len msg) 0)
             else Some msg) = Some m) as (m & ->).
  { destruct (0 <? length ctx)%nat; [|eauto].
    destruct (js_repeat_some (str "&nbsp;") (Z.max (40 - js_len msg) 0)) as (x & ->); [lia|]. simpl. eauto. }
  destruct (format_ctx_some (length ctx) color ctx 0 pad) as (out & pad' & E & Hle & _); [lia|].
  cbn [mbind option_bind]. rewrite E. cbn. eauto.
Qed.

(** Formatting never throws (the repeat counts are never negative), and the
    padding of a field never shrinks. *)
Theorem createChunk_total records pad :
  exists out pad', createChunk new_Date escapeHtml records pad = Some (out, pad') /\ pad_le pad pad'.
Proof.
  revert pad. induction records as [|r rs IH]; intros pad; simpl.
  - eexists _, _. split; [done|apply pad_le_refl].
  - destruct (format_record_some r pad) as (c & pad1 & -> & H1). simpl.
    destruct (IH pad1) as (cs & pad2 & -> & H2). simpl.
    eexists _, _. split; [done|]. by eapply pad_le_trans.
Qed.
End FormatProofs.

(** * The window is a contiguous part of the log files *)

(** The names of the log files, in the order of the server's directory. *)
Definition sorted (F : list jsstr) : Prop :=
  forall i j a b, (i < j)%nat -> F !! i = Some a -> F !! j = Some b -> js_ltb a b = true.

(** The page shows the files [i .. i + length - 1], at most [limit] of them,
    and its flags are set only at the ends of the directory. *)
Definition window (limit : nat) (F : list jsstr) (l : logs) (i : nat) : Prop :=
  exists cs, chunks l = Some cs /\ (length cs <= limit)%nat /\
    name <$> cs = take (length cs) (drop i F) /\
    (endTop l = true -> i = 0%nat) /\
    (endBottom l = true -> length F = (i + length cs)%nat).

(** The server's answers to a page at [i]: the older file, the newer file, the
    last file to a page that shows nothing; or a part of the last file. *)
Inductive served (F : list jsstr) (i n : nat) : option source -> Prop :=
| Older nm : (0 < i)%nat -> (0 < n)%nat -> F !! (i - 1)%nat = Some nm ->
    served F i n (Some (Source nm (i =? 1)%nat))
| Newer nm : (0 < n)%nat -> F !! (i + n)%nat = Some nm ->
    served F i n (Some (Source nm (S (i + n) =? length F)%nat))
| First nm : n = 0%nat -> S i = length F -> F !! i = Some nm ->
    served F i n (Some (Source nm true))
| Stream : (0 < n)%nat -> served F i n None.

Lemma js_ltb_asym a b : js_ltb a b = true -> js_ltb b a = false.
Proof.
  revert b. induction a as [|x a IH]; intros [|y b]; simpl; try done.
  intros [H|[H1 H2]%andb_prop]%orb_prop.
  - apply Z.ltb_lt in H. zbool (y <? x) false. by zbool (y =? x) false.
  - apply Z.eqb_eq in H1 as ->. rewrite Z.ltb_irrefl, Z.eqb_refl. simpl. auto.
Qed.

Lemma js_ltb_irrefl a : js_ltb a a = false.
Proof. destruct (js_ltb a a) eqn:E; [|done]. by rewrite (js_ltb_asym _ _ E) in E. Qed.

Lemma last_insert_names cs x c :
  last cs = Some x -> name <$> <[(length cs - 1)%nat := Chunk c (name x)]> cs = name <$> cs.
Proof.
  intros Hx. rewrite list_fmap_insert. simpl. apply list_insert_id.
  rewrite list_lookup_fmap.
  rewrite last_lookup in Hx. replace (length cs - 1)%nat with (pred (length cs)) by lia.
  by rewrite Hx.
Qed.

Lemma splice_end {A} (l : list A) i n : length l = (i + n)%nat -> splice i n l = take i l.
Proof. intros H. unfold splice. rewrite drop_ge by lia. apply app_nil_r. Qed.

Lemma window_first limit F l i ck cs :
  window limit F l i -> chunks l = Some (ck :: cs) -> F !! i = Some (name ck).
Proof.
  intros (cs' & Hcs & _ & Hn & _ & _) E. simplify_eq. simpl in Hn.
  destruct (drop i F) as [|x xs] eqn:Ed; [done|]. simpl in Hn. simplify_eq.
  rewrite <- (Nat.add_0_r i), <- lookup_drop, Ed. done.
Qed.

Lemma segment_cons (F : list jsstr) i n nm :
  F !! i = Some nm -> nm :: take n (drop (S i) F) = take (S n) (drop i F).
Proof. intros H. by rewrite (drop_S _ _ _ H). Qed.

Lemma segment_snoc (F : list jsstr) i n nm :
  F !! (i + n)%nat = Some nm -> take n (drop i F) ++ [nm] = take (S n) (drop i F).
Proof. intros H. symmetry. apply take_S_r. by rewrite lookup_drop. Qed.

Section WindowProofs.
Context (limit : nat) (F : list jsstr) (l : logs) (i : nat) (cs : list chunk) (c : jsstr).
Context (Hlim : (1 <= limit)%nat) (HF : sorted F) (Hw : window limit F l i) (Hcs : chunks l = Some cs).

(** The result keeps the window, and shows the file of the message. *)
Definition shown (src : option source) (r : inserted) : Prop :=
  exists l' cs' i', r = Kept l' /\ window limit F l' i' /\ chunks l' = Some cs' /\
    match src with
    | Some s => s_name s ∈ name <$> cs'
    | None => name <$> cs' = name <$> cs
    end.

Lemma shown_older nm :
  (0 < i)%nat -> (0 < length cs)%nat -> F !! (i - 1)%nat = Some nm ->
  shown (Some (Source nm (i =? 1)%nat)) (insert_content limit (Some (Source nm (i =? 1)%nat)) c cs l).
Proof using HF Hcs Hlim Hw.
  intros Hi Hn Hnm. destruct cs as [|first rest] eqn:Ecs; [simpl in Hn; lia|].
  pose proof (window_first _ _ _ _ _ _ Hw Hcs) as Hf.
  assert (js_ltb nm (name first) = true) as Hlt by (eapply (HF (i - 1)%nat i); eauto with lia).
  destruct Hw as (cs' & Hcs' & Hlen & Hnames & Htop & Hbot). rewrite Hcs in Hcs'. injection Hcs' as <-.
  unfold insert_content. cbn [s_name s_last]. rewrite Hlt. rewrite <- Ecs in *.
  assert (forall n, nm :: take n (drop i F) = take (S n) (drop (i - 1) F)) as Hcons.
  { intros n. rewrite <- (segment_cons _ _ n _ Hnm). do 3 f_equal. lia. }
  assert (endTop l = false) as Het by (destruct (endTop l); [|done]; specialize (Htop eq_refl); lia).
  rewrite Het, orb_false_r.
  destruct (Nat.leb_spec limit (length cs)) as [Hfull|Hfull].
  - rewrite splice_end by lia. eexists _, _, (i - 1)%nat. split; [done|]. split.
    + eexists. split; [done|]. rewrite fmap_cons, fmap_take, Hnames, take_take. simpl.
      rewrite length_take. split; [lia|]. split.
      * rewrite Hcons. by f_equal; lia.
      * split; [intros ?%Nat.eqb_eq; lia|done].
    + split; [done|]. rewrite fmap_cons. left.
  - eexists _, _, (i - 1)%nat. split; [done|]. split.
    + eexists. split; [done|]. rewrite fmap_cons, Hnames. simpl. split; [lia|]. split; [apply Hcons|].
      split; [intros ?%Nat.eqb_eq; lia|intros Hb; specialize (Hbot Hb); lia].
    + split; [done|]. rewrite fmap_cons. left.
Qed.

(** A file that follows the window goes to its end. *)
Lemma shown_newer nm lst :
  F !! (i + length cs)%nat = Some nm -> lst = (S (i + length cs) =? length F)%nat ->
  shown (Some (Source nm lst)) (insert_content limit (Some (Source nm lst)) c cs l).
Proof using HF Hcs Hlim Hw.
  intros Hnm ->.
  assert (match cs with first :: _ => js_ltb nm (name first) | [] => false end = false) as Hlt.
  { destruct cs as [|first rest]; [done|]. pose proof (window_first _ _ _ _ _ _ Hw Hcs) as Hf.
    apply js_ltb_asym. apply (HF i (i + S (length rest))%nat); [lia|done|done]. }
  destruct Hw as (cs' & Hcs' & Hlen & Hnames & Htop & Hbot). rewrite Hcs in Hcs'. injection Hcs' as <-.
  unfold insert_content. cbn [s_name s_last]. rewrite Hlt.
  assert (i + length cs < length F)%nat as HltF by by apply lookup_lt_Some in Hnm.
  assert (endBottom l = false) as Heb.
  { destruct (endBottom l); [|done]. specialize (Hbot eq_refl). lia. }
  rewrite Heb, orb_false_r.
  destruct (Nat.leb_spec limit (length cs)) as [Hfull|Hfull].
  - replace (length cs - limit + 1)%nat with 1%nat by lia. change (splice 0 1 cs) with (drop 1 cs).
    eexists _, _, (S i). split; [done|]. split.
    + eexists. split; [done|]. rewrite length_app, length_drop. simpl length. split; [lia|]. split.
      * rewrite fmap_app, fmap_drop, Hnames, skipn_firstn_comm, drop_drop.
        rewrite Nat.add_1_r. simpl fmap.
        rewrite (segment_snoc F (S i) (length cs - 1)); [f_equal; lia|].
        by replace (S i + (length cs - 1))%nat with (i + length cs)%nat by lia.
      * split; [done|intros ?%Nat.eqb_eq; lia].
    + split; [done|]. rewrite fmap_app. apply elem_of_app. right. left.
  - eexists _, _, i. split; [done|]. split.
    + eexists. split; [done|]. rewrite length_app. simpl length. split; [lia|]. split.
      * rewrite fmap_app, Hnames. simpl fmap. rewrite segment_snoc by done. f_equal. lia.
      * split; [done|intros ?%Nat.eqb_eq; lia].
    + split; [done|]. rewrite fmap_app. apply elem_of_app. right. left.
Qed.

Lemma shown_stream : (0 < length cs)%nat -> shown None (insert_content limit None c cs l).
Proof using Hcs Hlim Hw.
  intros Hn. destruct Hw as (cs' & Hcs' & Hlen & Hnames & Htop & Hbot).
  rewrite Hcs in Hcs'. injection Hcs' as <-.
  unfold insert_content. destruct (endBottom l) eqn:Eb; cbn [negb].
  - destruct (last cs) as [x|] eqn:El.
    2: { apply last_None in El. rewrite El in Hn. simpl in Hn. lia. }
    eexists _, _, i. split; [done|]. split.
    + eexists. split; [done|]. rewrite length_insert, last_insert_names by done. auto.
    + split; [done|]. by apply last_insert_names.
  - eexists _, _, i. split; [done|]. split; [|done].
    eexists. split; [done|]. simpl. auto.
Qed.

Lemma shown_served src : served F i (length cs) src -> shown src (insert_content limit src c cs l).
Proof using HF Hcs Hlim Hw.
  destruct 1 as [nm H1 H2 H3|nm H1 H2|nm H1 H2 H3|H1].
  - by apply shown_older.
  - by apply shown_newer.
  - apply shown_newer; [by rewrite H1, Nat.add_0_r|].
    symmetry. apply Nat.eqb_eq. rewrite H1. lia.
  - by apply shown_stream.
Qed.
End WindowProofs.

(** C14. The page's window stays a contiguous part of the server's log files:
    whatever answer of the server (an older file, a newer one, the last one to
    an empty page, or a part of the streamed last file) arrives at a page
    whose window is the [limit] or fewer files from the [i]-th on, the updater
    succeeds, the result is again such a window with flags that are only set
    at the ends of the directory, and it shows the file of the answer. *)
Theorem inserter_window new_Date escapeHtml limit F l i cs src r rs pad :
  (1 <= limit)%nat -> sorted F -> window limit F l i -> chunks l = Some cs ->
  served F i (length cs) src ->
  exists l' cs' i' pad',
    inserter new_Date escapeHtml limit (Message src (Some (r :: rs))) l pad = Some (Kept l', pad') /\
    window limit F l' i' /\ chunks l' = Some cs' /\
    match src with
    | Some s => s_name s ∈ name <$> cs'
    | None => name <$> cs' = name <$> cs
    end.
Proof.
  intros Hlim HF Hw Hcs Hs. unfold inserter. cbn [m_chunk m_source].
  destruct (createChunk_total new_Date escapeHtml (r :: rs) pad) as (c & pad' & E & _).
  rewrite E. cbn [mbind option_bind set_changed chunks]. rewrite Hcs.
  destruct (shown_served limit F (set_changed SAME SAME l) i cs c) with (src := src)
    as (l' & cs' & i' & Hl' & ?); try done.
  exists l', cs', i', pad'. by rewrite <- Hl'.
Qed.

Definition ex_date (t : jsstr) : option date := Some (Date 0 1 0 0 0).
Definition ex_escape (s : option jsstr) : jsstr := default (str "undefined") s.
Definition ex_record : record := Record_ (str "t") (str "info") (Some (str "m")) (Some [str "k"; str "v"]).
Definition ex_files : list jsstr := [str "1.log"; str "2.log"; str "3.log"].

Lemma ex_files_sorted : sorted ex_files.
Proof.
  intros i j a b Hij Ha Hb.
  pose proof (lookup_lt_Some _ _ _ Hb) as Hj. simpl in Hj.
  destruct j as [|[|[|j]]]; [lia| | |lia]; destruct i as [|[|i]]; try lia;
    vm_compute in Ha, Hb; simplify_eq; reflexivity.
Qed.

Lemma inserter_window_witness : exists l' cs' i' pad',
  inserter ex_date ex_escape 2 (Message (Some (Source (str "1.log") true)) (Some [ex_record]))
    (Logs (Some [Chunk [] (str "2.log"); Chunk [] (str "3.log")]) false true 0 0) ∅ = Some (Kept l', pad') /\
  window 2 ex_files l' i' /\ chunks l' = Some cs' /\ str "1.log" ∈ name <$> cs'.
Proof.
  apply (inserter_window ex_date ex_escape 2 ex_files _ 1
    [Chunk [] (str "2.log"); Chunk [] (str "3.log")] (Some (Source (str "1.log") true)) ex_record []).
  - lia.
  - apply ex_files_sorted.
  - eexists. split; [reflexivity|]. simpl. split_and!; [lia|reflexivity|done|done].
  - reflexivity.
  - apply (Older ex_files 1 2 (str "1.log")); simpl; [lia|lia|reflexivity].
Defined.

(** The updater is total, and leaves at most [limit] chunks whatever arrives:
    unless a part of the stream arrives first, which is answered with a bare
    array in place of the state. *)
Lemma inserter_some new_Date escapeHtml limit m l pad :
  (1 <= limit)%nat -> (length (default [] (chunks l)) <= limit)%nat ->
  exists res pad', inserter new_Date escapeHtml limit m l pad = Some (res, pad') /\
    (length (default [] (chunks (as_logs res))) <= limit)%nat /\
    ((exists cs, res = BareArray cs) <->
      m_source m = None /\ (exists r rs, m_chunk m = Some (r :: rs)) /\
      endBottom l = true /\ default [] (chunks l) = []).
Proof.
  intros Hlim Hlen. unfold inserter.
  destruct m as [src [[|r rs]|]]; cbn [m_chunk m_source].
  1,3: eexists _, _; split; [done|]; split; [done|]; split; [intros [? ?]; done|intros (_ & (? & ? & ?) & _); done].
  destruct (createChunk_total new_Date escapeHtml (r :: rs) pad) as (c & pad' & E & _).
  rewrite E. cbn [mbind option_bind]. eexists _, _. split; [done|].
  cbn [set_changed chunks]. set (cs := default [] (chunks l)) in *.
  unfold insert_content. cbn [endBottom set_changed].
  destruct src as [s|].
  - destruct (match cs with [] => false | _ => _ end).
    all: destruct (Nat.leb_spec limit (length cs)); simpl.
    1: rewrite splice_end by lia; rewrite length_take.
    3: unfold splice; rewrite length_app, length_app, length_drop; simpl.
    4: rewrite length_app; simpl.
    all: split; [lia|]; split; [intros [? ?]; done|intros [? ?]; done].
  - destruct (endBottom l) eqn:Eb; cbn [negb].
    + destruct (last cs) as [x|] eqn:El; simpl.
      * rewrite length_insert. split; [done|]. split; [intros [? ?]; done|].
        intros (_ & _ & _ & Hnil). by rewrite Hnil in El.
      * apply last_None in El. split; [lia|]. split; [|eauto]. intros _. split_and!; eauto.
    + simpl. split; [done|]. split; [intros [? ?]; done|intros (_ & _ & ? & _); done].
Qed.

(** Scrolling sends at most one request, for the neighbour of an end of the
    window that is not known to be the last file, and the page then sends
    nothing more until an update arrives. *)
Theorem onScroll_one_request l p p' :
  onScroll l p = Some p' ->
  p' = p \/
  exists nm past, p' = sendRequest nm past p /\ p_requestAllowed p = true /\
    (if past then endTop l = false /\ (name <$> (default [] (chunks l))) !! 0%nat = Some nm
     else endBottom l = false /\ last (name <$> (default [] (chunks l))) = Some nm) /\
    forall l', onScroll l' p' = Some p'.
Proof.
  unfold onScroll at 1. destruct (p_requestAllowed p) eqn:Ea; simpl; [|by intros [= ->]; left].
  destruct (p_content p); [|by intros [= ->]; left].
  destruct (chunks l) as [cs|]; [|done]. simpl.
  destruct cs as [|first rest]; [by intros [= ->]; left|].
  destruct (last (first :: rest)) as [lst|] eqn:El; [|by intros [= ->]; left].
  destruct (p_container p) as [ct|]; [|done]. simpl.
  destruct (atTop ct && negb (endTop l)) eqn:E1.
  - intros [= <-]. right. apply andb_prop in E1 as [_ ?%negb_true_iff].
    eexists _, true. split_and!; try done.
  - destruct (atBottom ct && negb (endBottom l)) eqn:E2; intros [= <-]; [right|by left].
    apply andb_prop in E2 as [_ ?%negb_true_iff].
    eexists _, false. split_and!; try done. by rewrite <- fmap_cons, fmap_last, El.
Qed.

(** A part of the stream that arrives first replaces the log state by an
    array, on which the page's next update throws: [logs.chunks] is undefined. *)
Theorem stream_first_breaks_page :
  exists r pad', inserter ex_date ex_escape 10 (Message None (Some [ex_record]))
      (Logs (Some []) false true SAME SAME) ∅ = Some (r, pad') /\
    (exists cs, r = BareArray cs) /\
    didUpdate true (Some (Snapshot 0 0)) 0 (as_logs r)
      (Page (Some (Container 0 100 50)) (Some 60) true []) = None.
Proof. eexists _, _. split; [vm_compute; reflexivity|]. split; [eexists; reflexivity|reflexivity]. Qed.

(** The server broadcasts the start of a new log file with its name. A page
    scrolled up to old files appends it too, so that the window skips the
    files between and claims to end at the bottom. *)
Theorem broadcast_leaves_gap :
  exists r pad', inserter ex_date ex_escape 10 (Message (Some (Source (str "3.log") true)) (Some [ex_record]))
      (Logs (Some [Chunk [] (str "1.log")]) true false SAME SAME) ∅ = Some (r, pad') /\
    name <$> default [] (chunks (as_logs r)) = [str "1.log"; str "3.log"] /\
    endBottom (as_logs r) = true /\
    forall i, ~ window 10 ex_files (as_logs r) i.
Proof.
  eexists _, _. split; [vm_compute; reflexivity|]. split; [reflexivity|]. split; [reflexivity|].
  intros i (cs & Hcs & _ & Hn & Ht & _). specialize (Ht eq_refl) as ->.
  injection Hcs as <-. vm_compute in Hn. discriminate.
Qed.
