(* ===== verification/DashContent.v ===== *)
(** The state of the dashboard, src/dashboard/assets/components/Dashboard.jsx:
    dynamic values, the generic update of the content by a message of the same
    shape, the state updater functions, and the transitions of the component. *)
From Stdlib Require Import ZArith Lia.
From S2P Require Import Prelude DashLogs.
Open Scope Z_scope.

(** * Dynamic values *)

(** Values as [JSON.parse] makes them, and [undefined]. *)
Inductive val :=
| VUndef
| VNull
| VBool (b : bool)
| VNum (z : Z)
| VStr (s : jsstr)
| VArr (l : list val)
| VObj (l : list (jsstr * val)).

Fixpoint assoc {A} (k : jsstr) (l : list (jsstr * A)) : option A :=
  match l with
  | [] => None
  | (k', a) :: l => if bool_decide (k = k') then Some a else assoc k l
  end.

Fixpoint indexed {A} (i : Z) (l : list A) : list (jsstr * A) :=
  match l with [] => [] | a :: l => (to_base 10 i, a) :: indexed (i + 1) l end.

(** The enumerable own properties, in order; [null] and [undefined] throw. *)
Definition own (v : val) : option (list (jsstr * val)) :=
  match v with
  | VUndef | VNull => None
  | VBool _ | VNum _ => Some []
  | VStr s => Some (indexed 0 ((fun c => VStr [c]) <$> s))
  | VArr l => Some (indexed 0 l)
  | VObj l => Some l
  end.

(** [v[k]] (own properties). *)
Definition get (v : val) (k : jsstr) : option val :=
  default VUndef ∘ assoc k <$> own v.

#[export] Instance undef_dec v : Decision (v = VUndef).
Proof. destruct v; first [by left|by right]. Defined.

Definition truthy (v : val) : bool :=
  match v with
  | VUndef | VNull => false
  | VBool b => b
  | VNum z => negb (z =? 0)
  | VStr s => negb (bool_decide (s = []))
  | VArr _ | VObj _ => true
  end.

(** * deepUpdate and shouldUpdate *)

(** The tree of state updater functions. *)
Inductive updater :=
| UFun (f : val -> val -> option val)
| UObj (l : list (jsstr * updater))
| UNull.

(** [deepUpdate(null or undefined, m, p)]: reading a key of the updater throws. *)
Definition deepUpdate_none (m p : val) : option val :=
  match m with
  | VUndef => Some p
  | _ => kvs ← own p; match kvs with [] => Some (VObj []) | _ => None end
  end.

Definition update_field (fs : list (jsstr * (val -> val -> option val))) (m : val)
    (kv : jsstr * val) : option (jsstr * val) :=
  mk ← get m kv.1;
  r ← default deepUpdate_none (assoc kv.1 fs) mk kv.2;
  Some (kv.1, r).

Fixpoint deepUpdate (u : updater) (m p : val) {struct u} : option val :=
  match m with
  | VUndef => Some p
  | _ =>
      match u with
      | UFun f => f m p
      | UObj us =>
          let fs := List.map (fun ku => (ku.1, deepUpdate ku.2)) us in
          kvs ← own p;
          VObj <$> mapM (update_field fs m) kvs
      | UNull => deepUpdate_none m p
      end
  end.

(** The structure of a message: [true] at the updated paths. *)
Inductive shape :=
| STrue
| SObj (l : list (jsstr * shape)).

Definition shouldUpdate_none (m : val) : option shape :=
  kvs ← own m; match kvs with [] => Some (SObj []) | _ => None end.

Definition shape_field (fs : list (jsstr * (val -> option shape))) (kv : jsstr * val)
    : option (jsstr * shape) :=
  (fun s => (kv.1, s)) <$> default shouldUpdate_none (assoc kv.1 fs) kv.2.

(** [go u m] is the value of [su[key]] for the updater [u] of the key. *)
Fixpoint field_shape (u : updater) (m : val) {struct u} : option shape :=
  match u with
  | UFun _ => Some STrue
  | UObj us =>
      let fs := List.map (fun ku => (ku.1, field_shape ku.2)) us in
      kvs ← own m;
      SObj <$> mapM (shape_field fs) kvs
  | UNull => shouldUpdate_none m
  end.

(** [shouldUpdate] itself never looks whether its own updater is a function;
    it is only called on objects and [null]. *)
Definition shouldUpdate (u : updater) (m : val) : option shape := field_shape u m.

(** * The state updater functions *)

Definition replacer (update prev : val) : option val := Some update.

(** [.slice(-limit)] *)
Definition slice_last {A} (limit : nat) (l : list A) : list A :=
  if (limit =? 0)%nat then l else drop (length l - limit) l.

Definition appender (limit : nat) (mapper : val -> val) (update prev : val) : option val :=
  match prev, update with
  | VArr p, VArr u => Some (VArr (slice_last limit (p ++ (mapper <$> u))))
  | _, _ => None
  end.

(** * The content *)

(** Reading and writing the log state as a dynamic value. *)
Definition field (v : val) (k : jsstr) : val := default VUndef (get v k).
Definition as_str (v : val) : option jsstr := match v with VStr s => Some s | _ => None end.
Definition as_num (v : val) : Z := match v with VNum z => z | _ => 0 end.
Definition as_arr (v : val) : option (list val) := match v with VArr l => Some l | _ => None end.

Definition chunk_of_val (v : val) : chunk :=
  Chunk (default [] (as_str (field v (str "content")))) (default [] (as_str (field v (str "name")))).
Definition val_of_chunk (c : chunk) : val :=
  VObj [(str "content", VStr (content c)); (str "name", VStr (name c))].

Definition logs_of_val (v : val) : logs :=
  Logs (List.map chunk_of_val <$> as_arr (field v (str "chunks")))
    (truthy (field v (str "endTop"))) (truthy (field v (str "endBottom")))
    (as_num (field v (str "topChanged"))) (as_num (field v (str "bottomChanged"))).
Definition val_of_logs (l : logs) : val :=
  VObj [(str "chunks", default VUndef (VArr ∘ List.map val_of_chunk <$> chunks l));
        (str "endTop", VBool (endTop l)); (str "endBottom", VBool (endBottom l));
        (str "topChanged", VNum (topChanged l)); (str "bottomChanged", VNum (bottomChanged l))].
Definition val_of_inserted (r : inserted) : val :=
  match r with
  | Kept l => val_of_logs l
  | BareArray cs => VArr (List.map val_of_chunk cs)
  end.

(** A log message of the declared type; a context of other things than strings
    is read as no context. *)
Definition record_of_val (v : val) : record :=
  Record_ (default [] (as_str (field v (str "t")))) (default [] (as_str (field v (str "lvl"))))
    (as_str (field v (str "msg"))) (as_arr (field v (str "ctx")) ≫= mapM as_str).
Definition message_of_val (v : val) : message :=
  let src := field v (str "source") in
  Message
    (if truthy src
     then Some (Source (default [] (as_str (field src (str "name")))) (truthy (field src (str "last"))))
     else None)
    (List.map record_of_val <$> as_arr (field v (str "chunk"))).

Definition defaultContent : val :=
  VObj [(str "general", VObj [(str "version", VNull); (str "commit", VNull)]);
        (str "home", VObj []); (str "chain", VObj []); (str "txpool", VObj []);
        (str "network", VObj []);
        (str "system", VObj [(str "activeMemory", VArr []); (str "virtualMemory", VArr []);
           (str "networkIngress", VArr []); (str "networkEgress", VArr []);
           (str "processCPU", VArr []); (str "systemCPU", VArr []);
           (str "diskRead", VArr []); (str "diskWrite", VArr [])]);
        (str "logs", VObj [(str "chunks", VArr []); (str "endTop", VBool false);
           (str "endBottom", VBool true); (str "topChanged", VNum 0); (str "bottomChanged", VNum 0)])].

Section Dashboard.
Context (new_Date : jsstr -> option date) (escapeHtml : option jsstr -> jsstr).

(** [logInserter(limit)], at the current padding map of the log page. *)
Definition logInserter (limit : nat) (pad : gmap jsstr Z) (update prev : val) : option val :=
  val_of_inserted ∘ fst <$> inserter new_Date escapeHtml limit (message_of_val update) (logs_of_val prev) pad.

Definition updaters (pad : gmap jsstr Z) : updater :=
  let app := UFun (appender 200 id) in
  UObj [(str "general", UObj [(str "version", UFun replacer); (str "commit", UFun replacer)]);
        (str "home", UNull); (str "chain", UNull); (str "txpool", UNull); (str "network", UNull);
        (str "system", UObj [(str "activeMemory", app); (str "virtualMemory", app);
           (str "networkIngress", app); (str "networkEgress", app);
           (str "processCPU", app); (str "systemCPU", app);
           (str "diskRead", app); (str "diskWrite", app)]);
        (str "logs", UFun (logInserter 5 pad))].

(** The padding map after a message: the log updater runs at most once. *)
Definition pad_after (pad : gmap jsstr Z) (msg content : val) : gmap jsstr Z :=
  match field msg (str "logs") with
  | VUndef => pad
  | m => default pad (snd <$> inserter new_Date escapeHtml 5 (message_of_val m)
                               (logs_of_val (field content (str "logs"))) pad)
  end.

(** * The component *)

(** [sent] collects what was sent to the server; a server is a connection
    number. *)
Record dashboard := Dashboard {
  active : jsstr;
  sideBar : bool;
  content : val;
  should : shape;
  server : option nat;
  fieldPadding : gmap jsstr Z;
  sent : list (nat * jsstr);
  timers : nat
}.

Definition initial : dashboard :=
  Dashboard (str "home") true defaultContent (SObj []) None ∅ [] 0.

(** [server.onopen], [server.onmessage] with the parsed data,
    [server.onclose], and the callbacks given to the children. *)
Inductive event :=
| OnOpen (s : nat)
| OnMessage (msg : val)
| OnClose
| Send (msg : jsstr)
| ChangeContent (newActive : jsstr)
| SwitchSideBar.

Definition update (msg : val) (d : dashboard) : option dashboard :=
  c ← deepUpdate (updaters (fieldPadding d)) msg (content d);
  s ← shouldUpdate (updaters (fieldPadding d)) msg;
  Some (Dashboard (active d) (sideBar d) c s (server d)
          (pad_after (fieldPadding d) msg (content d)) (sent d) (timers d)).

Definition handle (e : event) (d : dashboard) : option dashboard :=
  match e with
  | OnOpen s => Some (Dashboard (active d) (sideBar d) defaultContent (SObj []) (Some s)
                        (fieldPadding d) (sent d) (timers d))
  | OnMessage msg => if truthy msg then update msg d else Some d
  | OnClose => Some (Dashboard (active d) (sideBar d) (content d) (should d) None
                       (fieldPadding d) (sent d) (S (timers d)))
  | Send msg =>
      Some (match server d with
            | Some s => Dashboard (active d) (sideBar d) (content d) (should d) (server d)
                          (fieldPadding d) (sent d ++ [(s, msg)]) (timers d)
            | None => d
            end)
  | ChangeContent a =>
      Some (Dashboard (if bool_decide (active d = a) then active d else a) (sideBar d) (content d)
              (should d) (server d) (fieldPadding d) (sent d) (timers d))
  | SwitchSideBar =>
      Some (Dashboard (active d) (negb (sideBar d)) (content d) (should d) (server d)
              (fieldPadding d) (sent d) (timers d))
  end.

Definition handle_all (es : list event) (d : dashboard) : option dashboard :=
  foldl (fun d e => d ≫= handle e) (Some d) es.

(** [shouldComponentUpdate] of the footer. *)
Definition footer_updates (s : shape) : bool :=
  match s with
  | STrue => false
  | SObj l => match assoc (str "general") l, assoc (str "system") l with None, None => false | _, _ => true end
  end.
End Dashboard.

(** * deepUpdate changes exactly the paths of the message *)

Fixpoint at_path (v : val) (ks : list jsstr) : val :=
  match ks with [] => v | k :: ks => at_path (field v k) ks end.

Fixpoint has_path (v : val) (ks : list jsstr) : Prop :=
  match ks with
  | [] => True
  | k :: ks => exists v', (own v ≫= assoc k) = Some v' /\ has_path v' ks
  end.

(** The updater at a path; [None] below a function. *)
Fixpoint upd_at (u : updater) (ks : list jsstr) : option updater :=
  match ks, u with
  | [], _ => Some u
  | _, UFun _ => None
  | _, UNull => Some UNull
  | k :: ks, UObj us => upd_at (default UNull (assoc k us)) ks
  end.

Lemma at_path_undef ks : at_path VUndef ks = VUndef.
Proof. induction ks as [|k ks IH]; [done|]. exact IH. Qed.

Lemma assoc_map {A B} (g : A -> B) k (l : list (jsstr * A)) :
  assoc k (List.map (fun ka => (ka.1, g ka.2)) l) = g <$> assoc k l.
Proof.
  induction l as [|[k' a] l IH]; [done|]. simpl. by destruct (bool_decide (k = k')).
Qed.

Lemma assoc_mapM {A B} (g : jsstr * A -> option (jsstr * B)) (h : jsstr -> A -> option B) l l' k :
  (forall kv, g kv = (fun b => (kv.1, b)) <$> h kv.1 kv.2) ->
  mapM g l = Some l' ->
  match assoc k l with
  | Some a => exists b, h k a = Some b /\ assoc k l' = Some b
  | None => assoc k l' = None
  end.
Proof.
  intros Hg. revert l'. induction l as [|[k0 a] l IH]; intros l' H.
  - by injection H as <-.
  - apply mapM_Some, Forall2_cons_inv_l in H as ([k1 b] & rest & Hb & Hr & ->).
    rewrite Hg in Hb. simpl in Hb. destruct (h k0 a) as [b'|] eqn:E; [|done].
    injection Hb as <- <-. simpl. case_bool_decide as Hk.
    + subst. eauto.
    + apply IH. by apply mapM_Some.
Qed.

(** The function of an updater, or of an absent one. *)
Lemma deepUpdate_UNull m p : deepUpdate UNull m p = deepUpdate_none m p.
Proof. by destruct m. Qed.

Lemma update_field_spec us m kv :
  update_field (List.map (fun ku => (ku.1, deepUpdate ku.2)) us) m kv =
  (fun r => (kv.1, r)) <$> (mk ← get m kv.1; deepUpdate (default UNull (assoc kv.1 us)) mk kv.2).
Proof.
  unfold update_field. destruct (get m kv.1) as [mk|]; [|done]. simpl.
  rewrite (assoc_map deepUpdate kv.1 us).
  replace (default deepUpdate_none (deepUpdate <$> assoc kv.1 us) mk kv.2)
    with (deepUpdate (default UNull (assoc kv.1 us)) mk kv.2)
    by (destruct (assoc kv.1 us); [done|apply deepUpdate_UNull]).
  by destruct (deepUpdate _ mk kv.2).
Qed.

(** One level: a field of the result is the field of the state updated by the
    field of the message. *)
Lemma deepUpdate_field us m p r k :
  m <> VUndef -> deepUpdate (UObj us) m p = Some r ->
  match own p ≫= assoc k with
  | Some pv => exists rv, deepUpdate (default UNull (assoc k us)) (field m k) pv = Some rv /\
                own r ≫= assoc k = Some rv
  | None => own r ≫= assoc k = None
  end.
Proof.
  intros Hm H. assert (own p ≫= (fun kvs => VObj <$> mapM (update_field
    (List.map (fun ku => (ku.1, deepUpdate ku.2)) us) m) kvs) = Some r) as H' by (by destruct m).
  clear H. destruct (own p) as [kvs|]; [|done]. simpl in H' |- *.
  destruct (mapM _ kvs) as [rs|] eqn:E; [|done]. injection H' as <-. simpl.
  pose proof (assoc_mapM _ (fun k v => mk ← get m k; deepUpdate (default UNull (assoc k us)) mk v)
    _ _ k (update_field_spec us m) E) as Ha.
  destruct (assoc k kvs) as [pv|]; [|done].
  destruct Ha as (rv & Hrv & ?). unfold field. destruct (get m k); [|done]. simpl in *. eauto.
Qed.

Lemma field_own v k : field v k = default VUndef (own v ≫= assoc k).
Proof. unfold field, get. by destruct (own v). Qed.

Lemma deepUpdate_none_field m p r k :
  m <> VUndef -> deepUpdate_none m p = Some r -> field r k = field p k.
Proof.
  intros Hm H. assert (own p ≫= (fun kvs => match kvs with [] => Some (VObj []) | _ => None end) = Some r)
    as H' by (by destruct m).
  rewrite !field_own. destruct (own p) as [[|]|]; simplify_eq/=. done.
Qed.

Lemma deepUpdate_keeps u m p r ks :
  deepUpdate u m p = Some r -> is_Some (upd_at u ks) -> at_path m ks = VUndef ->
  at_path r ks = at_path p ks.
Proof.
  revert u m p r. induction ks as [|k ks IH]; intros u m p r Hd Hu Hm.
  - simpl in Hm. subst. destruct u; injection Hd as <-; done.
  - destruct (decide (m = VUndef)) as [->|Hne].
    { destruct u; injection Hd as <-; done. }
    destruct u as [f|us|]; simpl in Hu.
    + by destruct Hu.
    + pose proof (deepUpdate_field us m p r k Hne Hd) as Hf. simpl. rewrite !field_own.
      destruct (own p ≫= assoc k) as [pv|].
      * destruct Hf as (rv & Hrv & ->). simpl. eauto.
      * by rewrite Hf.
    + rewrite deepUpdate_UNull in Hd. simpl. by rewrite (deepUpdate_none_field _ _ _ k Hne Hd).
Qed.

Lemma deepUpdate_applies u m p r ks f :
  deepUpdate u m p = Some r -> upd_at u ks = Some (UFun f) -> at_path m ks <> VUndef ->
  has_path p ks -> f (at_path m ks) (at_path p ks) = Some (at_path r ks).
Proof.
  revert u m p r. induction ks as [|k ks IH]; intros u m p r Hd Hu Hm Hp.
  - simpl in *. injection Hu as ->. by destruct m.
  - destruct (decide (m = VUndef)) as [->|Hne].
    { by rewrite at_path_undef in Hm. }
    destruct u as [g|us|]; simpl in Hu; [done| |done].
    pose proof (deepUpdate_field us m p r k Hne Hd) as Hf.
    destruct Hp as (pv & Hpv & Hp). rewrite Hpv in Hf. destruct Hf as (rv & Hrv & Hr).
    simpl. rewrite (field_own p), (field_own r), Hpv, Hr. simpl. eauto.
Qed.

(** [deepUpdate] changes the state at exactly the paths of the message:
    when it returns, a path with no value in the message keeps its value
    (unless it lies inside a value handed to an updater function), and at each
    path where the message has a value and the tree has an updater function,
    the new value is that function of the message's and the old value. *)
Theorem deepUpdate_paths u m p r :
  deepUpdate u m p = Some r ->
  (forall ks, is_Some (upd_at u ks) -> at_path m ks = VUndef -> at_path r ks = at_path p ks) /\
  (forall ks f, upd_at u ks = Some (UFun f) -> at_path m ks <> VUndef -> has_path p ks ->
     f (at_path m ks) (at_path p ks) = Some (at_path r ks)).
Proof. eauto using deepUpdate_keeps, deepUpdate_applies. Qed.

Lemma deepUpdate_paths_witness : exists r,
  deepUpdate (updaters ex_date ex_escape ∅)
    (VObj [(str "system", VObj [(str "diskRead", VArr [VNum 1])])]) defaultContent = Some r /\
  at_path r [str "system"; str "diskRead"] = VArr [VNum 1] /\
  at_path r [str "general"] = at_path defaultContent [str "general"].
Proof.
  eexists. split; [vm_compute; reflexivity|]. split.
  - apply (inj Some). symmetry.
    apply (deepUpdate_paths (updaters ex_date ex_escape ∅)
      (VObj [(str "system", VObj [(str "diskRead", VArr [VNum 1])])]) defaultContent _
      ltac:(vm_compute; reflexivity)) with (ks := [str "system"; str "diskRead"]) (f := appender 200 id).
    + reflexivity.
    + discriminate.
    + repeat (eexists; split; [vm_compute; reflexivity|]). exact I.
  - apply (deepUpdate_paths (updaters ex_date ex_escape ∅)
      (VObj [(str "system", VObj [(str "diskRead", VArr [VNum 1])])]) defaultContent _
      ltac:(vm_compute; reflexivity)); [eexists; reflexivity|reflexivity].
Defined.

(** * The appender *)

Lemma slice_last_app {A} n (l l' : list A) :
  n <> 0%nat -> slice_last n (slice_last n l ++ l') = slice_last n (l ++ l').
Proof.
  intros Hn. unfold slice_last. destruct (Nat.eqb_spec n 0); [done|].
  rewrite !length_app, length_drop.
  destruct (decide (length l <= n)%nat) as [Hl|Hl].
  - replace (length l - n)%nat with 0%nat by lia. rewrite drop_0. do 2 f_equal. lia.
  - rewrite <- (drop_app_le l l' (length l - n)) by lia. rewrite drop_drop. f_equal. lia.
Qed.

Lemma slice_last_length {A} n (l : list A) : n <> 0%nat -> (length (slice_last n l) <= n)%nat.
Proof. intros Hn. unfold slice_last. destruct (Nat.eqb_spec n 0); [done|]. rewrite length_drop. lia. Qed.

(** A chart keeps the last [limit] samples however they are batched:
    appending two batches one after the other is appending them at once, and
    there are never more than [limit] samples. *)
Theorem appender_batches limit mapper p u1 u2 :
  limit <> 0%nat ->
  (r ← appender limit mapper (VArr u1) (VArr p); appender limit mapper (VArr u2) r) =
    appender limit mapper (VArr (u1 ++ u2)) (VArr p) /\
  exists l, appender limit mapper (VArr u1) (VArr p) = Some (VArr l) /\ (length l <= limit)%nat.
Proof.
  intros Hl. simpl. split.
  - rewrite slice_last_app by done. by rewrite fmap_app, app_assoc.
  - eexists. split; [done|]. by apply slice_last_length.
Qed.

Lemma appender_batches_witness :
  (r ← appender 2 id (VArr [VNum 1; VNum 2]) (VArr [VNum 0]); appender 2 id (VArr [VNum 3]) r) =
    appender 2 id (VArr [VNum 1; VNum 2; VNum 3]) (VArr [VNum 0]).
Proof. apply (appender_batches 2 id [VNum 0] [VNum 1; VNum 2] [VNum 3]). discriminate. Defined.

(** * Messages of the declared type never break the state *)

(** The content with the given data; the log state is an object or (after the
    defect described in DashLogs) an array. *)
Definition system_keys : list jsstr :=
  [str "activeMemory"; str "virtualMemory"; str "networkIngress"; str "networkEgress";
   str "processCPU"; str "systemCPU"; str "diskRead"; str "diskWrite"].
Definition content_val (version commit : val) (system : list (list val)) (l : inserted) : val :=
  VObj [(str "general", VObj [(str "version", version); (str "commit", commit)]);
        (str "home", VObj []); (str "chain", VObj []); (str "txpool", VObj []);
        (str "network", VObj []);
        (str "system", VObj (zip system_keys (VArr <$> system)));
        (str "logs", val_of_inserted l)].

Definition wf_content (c : val) : Prop :=
  exists version commit system l, c = content_val version commit system l /\
    length system = 8%nat /\ Forall (fun a => length a <= 200)%nat system /\
    (length (default [] (chunks (as_logs l))) <= 5)%nat.

(** A message names only known paths, with arrays of samples. *)
Definition object_of (ks : list jsstr) (P : val -> Prop) (v : val) : Prop :=
  exists kvs, v = VObj kvs /\ Forall (fun kv => kv.1 ∈ ks /\ P kv.2) kvs.
Definition wf_entry (kv : jsstr * val) : Prop :=
  (kv.1 = str "general" /\ object_of [str "version"; str "commit"] (fun _ => True) kv.2) \/
  (kv.1 = str "system" /\ object_of system_keys (fun v => exists l, v = VArr l) kv.2) \/
  (kv.1 = str "logs" /\ exists kvs, kv.2 = VObj kvs).
Definition wf_msg (m : val) : Prop := exists kvs, m = VObj kvs /\ Forall wf_entry kvs.

Lemma object_of_field ks P v k : object_of ks P v -> field v k = VUndef \/ P (field v k).
Proof.
  intros (kvs & -> & H). rewrite field_own. simpl.
  induction H as [|[k' v'] kvs [_ H1] H2 IH]; simpl; [by left|].
  case_bool_decide; [by right|done].
Qed.

Lemma wf_field kvs k : Forall wf_entry kvs -> field (VObj kvs) k = VUndef \/ wf_entry (k, field (VObj kvs) k).
Proof.
  intros H. rewrite field_own. simpl.
  induction H as [|[k' v'] kvs H1 H2 IH]; simpl; [by left|].
  case_bool_decide; [subst; by right|done].
Qed.

Lemma update_field_eq us m k u v r :
  is_Some (own m) -> assoc k us = Some u -> deepUpdate u (field m k) v = Some r ->
  update_field (List.map (fun ku => (ku.1, deepUpdate ku.2)) us) m (k, v) = Some (k, r).
Proof.
  intros [kvs Hm] Hk Hd. rewrite update_field_spec. cbn [fst snd]. rewrite Hk.
  unfold field, get in Hd |- *. rewrite Hm in Hd |- *. simpl in Hd |- *. by rewrite Hd.
Qed.

Lemma mapM_cons_some {A B} (f : A -> option B) x y l l' :
  f x = Some y -> mapM f l = Some l' -> mapM f (x :: l) = Some (y :: l').
Proof. intros Hx Hl. simpl. by rewrite Hx, Hl. Qed.

Lemma system_update us m ks system :
  is_Some (own m) ->
  Forall (fun k => assoc k us = Some (UFun (appender 200 id))) ks ->
  (forall k, field m k = VUndef \/ exists l, field m k = VArr l) ->
  length ks = length system -> Forall (fun a => length a <= 200)%nat system ->
  exists system',
    mapM (update_field (List.map (fun ku => (ku.1, deepUpdate ku.2)) us) m) (zip ks (VArr <$> system)) =
      Some (zip ks (VArr <$> system')) /\
    length system' = length system /\ Forall (fun a => length a <= 200)%nat system'.
Proof.
  intros Hm Hks Hf. revert system. induction Hks as [|k ks Hk Hks IH]; intros [|a system] Hl Ha; try done.
  - by exists [].
  - injection Hl as Hl. apply Forall_cons in Ha as [Ha Hr].
    destruct (IH system Hl Hr) as (system' & E & Hl' & Hr').
    assert (exists a', deepUpdate (UFun (appender 200 id)) (field m k) (VArr a) = Some (VArr a') /\
              (length a' <= 200)%nat) as (a' & Ea & Ha').
    { destruct (Hf k) as [->|[l ->]]; simpl; [eauto|]. eexists. split; [done|]. by apply slice_last_length. }
    exists (a' :: system'). split.
    { apply mapM_cons_some; [by apply (update_field_eq us m k _ _ _ Hm Hk Ea)|done]. }
    simpl. split; [lia|]. by constructor.
Qed.

(** A name that starts with no digit is no index. *)
Lemma assoc_indexed {A} c k i (l : list A) :
  ~ 48 <= c < 97 -> 0 <= i -> assoc (c :: k) (indexed i l) = None.
Proof.
  intros Hc. revert i. induction l as [|a l IH]; intros i Hi; [done|]. simpl.
  rewrite bool_decide_false; [apply IH; lia|].
  intros E. pose proof (to_base_chars 10 i ltac:(lia) Hi) as Hd. rewrite <- E in Hd.
  apply Forall_cons in Hd as [Hd _]. lia.
Qed.

Lemma field_arr c k l : ~ 48 <= c < 97 -> field (VArr l) (c :: k) = VUndef.
Proof. intros Hc. rewrite field_own. simpl. by rewrite assoc_indexed. Qed.

Lemma chunk_val_id c : chunk_of_val (val_of_chunk c) = c.
Proof. by destruct c. Qed.

Lemma logs_val_id r : as_logs r = logs_of_val (val_of_inserted r).
Proof.
  destruct r as [[cs et eb tc bc]|cs].
  - unfold logs_of_val, val_of_inserted, val_of_logs. rewrite !field_own. simpl. f_equal.
    destruct cs as [cs|]; [|done]. simpl. f_equal.
    rewrite List.map_map, (List.map_ext _ id chunk_val_id). by rewrite List.map_id.
  - unfold logs_of_val, val_of_inserted, str. simpl. rewrite !field_arr by lia. done.
Qed.

Section Safety.
Context (new_Date : jsstr -> option date) (escapeHtml : option jsstr -> jsstr).

Lemma logInserter_some pad m l :
  (length (default [] (chunks (as_logs l))) <= 5)%nat ->
  exists l', logInserter new_Date escapeHtml 5 pad m (val_of_inserted l) = Some (val_of_inserted l') /\
    (length (default [] (chunks (as_logs l'))) <= 5)%nat.
Proof.
  intros Hl. unfold logInserter. rewrite <- logs_val_id.
  destruct (inserter_some new_Date escapeHtml 5 (message_of_val m) (as_logs l) pad) as (r & pad' & -> & Hr & _);
    [lia|done|].
  simpl. eauto.
Qed.

Lemma general_update m ver com :
  m = VUndef \/ object_of [str "version"; str "commit"] (fun _ => True) m ->
  exists ver' com',
    deepUpdate (UObj [(str "version", UFun replacer); (str "commit", UFun replacer)]) m
      (VObj [(str "version", ver); (str "commit", com)]) =
    Some (VObj [(str "version", ver'); (str "commit", com')]).
Proof.
  intros [->|(gs & -> & _)]; [by eexists _, _|].
  exists (match field (VObj gs) (str "version") with VUndef => ver | v => v end).
  exists (match field (VObj gs) (str "commit") with VUndef => com | v => v end).
  cbn [deepUpdate own mbind option_bind]. erewrite mapM_cons_some; [done| |].
  - eapply (update_field_eq _ _ _ (UFun replacer)); [by eexists|done|by destruct (field _ _)].
  - apply mapM_cons_some; [|done].
    eapply (update_field_eq _ _ _ (UFun replacer)); [by eexists|done|by destruct (field _ _)].
Qed.

Lemma deepUpdate_content pad m c :
  wf_msg m -> wf_content c ->
  exists c', deepUpdate (updaters new_Date escapeHtml pad) m c = Some c' /\ wf_content c'.
Proof.
  intros (kvs & Em & Hk) (ver & com & sys & l & -> & Hsys & H200 & H5).
  assert (is_Some (own m)) as Hm by (rewrite Em; by eexists).
  pose proof (wf_field kvs) as Hw. rewrite <- Em in Hw.
  destruct (general_update (field m (str "general")) ver com) as (ver' & com' & Eg).
  { destruct (Hw (str "general") Hk) as [?|[[_ ?]|[[? _]|[? _]]]]; [by left|by right|done|done]. }
  assert (exists sys', deepUpdate (UObj ((fun k => (k, UFun (appender 200 id))) <$> system_keys))
      (field m (str "system")) (VObj (zip system_keys (VArr <$> sys))) =
      Some (VObj (zip system_keys (VArr <$> sys'))) /\ length sys' = length sys /\
      Forall (fun a => length a <= 200)%nat sys') as (sys' & Es & Hsys' & H200').
  { destruct (decide (field m (str "system") = VUndef)) as [->|Hne]; [by eexists|].
    assert (object_of system_keys (fun v => exists l, v = VArr l) (field m (str "system"))) as Hs.
    { destruct (Hw (str "system") Hk) as [?|[[? _]|[[_ ?]|[? _]]]]; done. }
    destruct (system_update ((fun k => (k, UFun (appender 200 id))) <$> system_keys)
      (field m (str "system")) system_keys sys) as (sys' & E & ?); [| | |done|done|].
    - destruct Hs as (ss & -> & _). by eexists.
    - by repeat constructor.
    - intros k. by apply (object_of_field _ _ _ k) in Hs.
    - exists sys'. split; [|done].
      destruct Hs as (ss & Es & _). rewrite Es in E |- *.
      cbn [deepUpdate own mbind option_bind]. by rewrite E. }
  assert (exists l', deepUpdate (UFun (logInserter new_Date escapeHtml 5 pad)) (field m (str "logs"))
      (val_of_inserted l) = Some (val_of_inserted l') /\
      (length (default [] (chunks (as_logs l'))) <= 5)%nat) as (l' & El & H5').
  { destruct (Hw (str "logs") Hk) as [->|[[? _]|[[? _]|[_ [ls El]]]]]; [by eexists|done|done|].
    cbn [snd] in El. rewrite El. by apply logInserter_some. }
  exists (content_val ver' com' sys' l'). split; [|exists ver', com', sys', l'; split_and!; congruence || done].
  assert (forall k, k ∈ [str "home"; str "chain"; str "txpool"; str "network"] -> field m k = VUndef) as Hnone.
  { intros k Hin. destruct (Hw k Hk) as [?|[[E _]|[[E _]|[E _]]]]; [done| | |];
      cbn [fst] in E; subst k; rewrite !elem_of_cons, elem_of_nil in Hin;
      destruct_or! Hin; vm_compute in Hin; done. }
  assert (forall k u v, k ∈ [str "home"; str "chain"; str "txpool"; str "network"] ->
    deepUpdate u (field m k) v = Some v) as Hskip.
  { intros k u v Hin. rewrite Hnone by done. by destruct u. }
  unfold updaters, content_val. rewrite Em. cbn [deepUpdate own mbind option_bind]. rewrite <- Em.
  erewrite mapM_cons_some; [done| |].
  { apply update_field_eq with (1 := Hm) (2 := eq_refl) (3 := Eg). }
  do 4 (apply mapM_cons_some; [eapply update_field_eq with (1 := Hm) (2 := eq_refl); apply Hskip; repeat (apply list_elem_of_here || apply list_elem_of_further)|]).
  apply mapM_cons_some; [apply update_field_eq with (1 := Hm) (2 := eq_refl) (3 := Es)|].
  apply mapM_cons_some; [apply update_field_eq with (1 := Hm) (2 := eq_refl) (3 := El)|done].
Qed.

Lemma field_shape_some us (P : val -> Prop) kvs :
  Forall (fun kv => exists u, assoc kv.1 us = Some u /\ is_Some (field_shape u kv.2)) kvs ->
  is_Some (field_shape (UObj us) (VObj kvs)).
Proof.
  intros H. change (is_Some (SObj <$> mapM (shape_field
    (List.map (fun ku => (ku.1, field_shape ku.2)) us)) kvs)).
  apply fmap_is_Some, mapM_is_Some_2.
  eapply Forall_impl; [exact H|]. intros [k v] (u & Hu & Hs). unfold compose, shape_field.
  cbn [fst snd] in *. apply fmap_is_Some. rewrite (assoc_map field_shape k us). by rewrite Hu.
Qed.

Lemma leaf_shapes f ks kvs (P : val -> Prop) :
  Forall (fun kv => kv.1 ∈ ks /\ P kv.2) kvs ->
  is_Some (field_shape (UObj ((fun k => (k, UFun f)) <$> ks)) (VObj kvs)).
Proof.
  intros H. apply (field_shape_some _ P). eapply Forall_impl; [exact H|].
  intros [k v] [Hk _]. simpl in Hk |- *. exists (UFun f). split; [|by eexists].
  clear -Hk. induction Hk as [|k' ks Hk IH]; simpl.
  - by rewrite bool_decide_true.
  - by case_bool_decide.
Qed.

Lemma shouldUpdate_msg pad m : wf_msg m -> is_Some (shouldUpdate (updaters new_Date escapeHtml pad) m).
Proof.
  intros (kvs & -> & Hk). unfold shouldUpdate, updaters. apply (field_shape_some _ (fun _ => True)).
  eapply Forall_impl; [exact Hk|]. intros [k v] H.
  destruct H as [[E H]|[[E H]|[E H]]]; cbn [fst snd] in E, H |- *; subst k.
  - eexists. split; [done|]. destruct H as (gs & -> & H).
    apply (leaf_shapes replacer [str "version"; str "commit"] gs (fun _ => True) H).
  - eexists. split; [done|]. destruct H as (gs & -> & H).
    apply (leaf_shapes (appender 200 id) system_keys gs (fun v => exists l, v = VArr l) H).
  - eexists. split; [done|]. by eexists.
Qed.

(** The events of the component with messages of the declared type. *)
Definition wf_event (e : event) : Prop :=
  match e with OnMessage m => wf_msg m | _ => True end.

Lemma wf_default : wf_content defaultContent.
Proof.
  exists VNull, VNull, (replicate 8 []), (Kept (Logs (Some []) false true 0 0)).
  split_and!; [done|done| |simpl; lia]. apply Forall_replicate. simpl. lia.
Qed.

Lemma handle_safe e d :
  wf_event e -> wf_content (content d) ->
  exists d', handle new_Date escapeHtml e d = Some d' /\ wf_content (content d').
Proof.
  intros He Hd. destruct e as [s|m| |m|a|]; simpl.
  - eexists. split; [done|]. apply wf_default.
  - destruct (truthy m); [|eauto]. unfold update.
    destruct (deepUpdate_content (fieldPadding d) m _ He Hd) as (c' & -> & Hc').
    destruct (shouldUpdate_msg (fieldPadding d) m He) as [s ->]. simpl. eauto.
  - eauto.
  - destruct (server d); eauto.
  - eauto.
  - eauto.
Qed.

End Safety.


Lemma shape_keys fs kvs ss k :
  mapM (shape_field fs) kvs = Some ss -> assoc k ss = None -> assoc k kvs = None.
Proof.
  intros Em Hn. pose proof (assoc_mapM _ (fun k v => default shouldUpdate_none (assoc k fs) v)
    _ _ k (fun kv => eq_refl) Em) as Ha.
  destruct (assoc k kvs); [|done]. destruct Ha as (? & _ & ?). congruence.
Qed.

(** The footer is redrawn whenever its data changes: if the structure of
    the message says that neither [general] nor [system] was touched, the
    update left both as they were. *)
Theorem footer_redraw_sound new_Date escapeHtml msg d d' :
  update new_Date escapeHtml msg d = Some d' -> footer_updates (should d') = false ->
  field (content d') (str "general") = field (content d) (str "general") /\
  field (content d') (str "system") = field (content d) (str "system").
Proof.
  unfold update. destruct (deepUpdate _ msg (content d)) as [c|] eqn:Ec; [|done].
  cbn [mbind option_bind].
  destruct (shouldUpdate (updaters new_Date escapeHtml (fieldPadding d)) msg) as [s|] eqn:Es; [|done]. intros [= <-]. simpl. intros Hf.
  unfold shouldUpdate, updaters in Es. cbn [field_shape] in Es.
  destruct (own msg) as [kvs|] eqn:Eo; [|done]. simpl in Es.
  destruct (mapM _ kvs) as [ss|] eqn:Em; [|done]. injection Es as <-. simpl in Hf.
  assert (forall k, assoc k ss = None -> field msg k = VUndef) as Hk.
  { intros k Hn. rewrite field_own, Eo. simpl. by rewrite (shape_keys _ _ _ _ Em Hn). }
  destruct (assoc (str "general") ss) eqn:Eg; [done|].
  destruct (assoc (str "system") ss) eqn:Ey; [done|].
  split; eapply (deepUpdate_keeps _ _ _ _ [_] Ec); (by eexists) || by apply Hk.
Qed.

Lemma footer_redraw_sound_witness : exists d',
  update ex_date ex_escape (VObj [(str "logs", VObj [])]) initial = Some d' /\
  field (content d') (str "system") = field (content initial) (str "system").
Proof.
  eexists. split; [vm_compute; reflexivity|].
  apply (footer_redraw_sound ex_date ex_escape (VObj [(str "logs", VObj [])]) initial).
  - vm_compute. reflexivity.
  - reflexivity.
Defined.
