(* ===== verification/DashCharts.v ===== *)
(** The charts of the dashboard's footer and their tooltips,
    src/dashboard/assets/components/CustomTooltip.jsx and Footer.jsx: the data
    series of a double chart, and the rendering of byte counts and percentages. *)
From Stdlib Require Import ZArith Lia.
From S2P Require Import Prelude.
Open Scope Z_scope.

(** * Numbers with two decimals *)

(** [(n / d).toFixed(2)] for [0 < d]: the nearest hundredth, the larger of two. *)
Definition hundredths (n d : Z) : Z := (200 * n + d) / (2 * d).
Definition pad2 (z : Z) : jsstr := if z <? 10 then 48 :: to_base 10 z else to_base 10 z.
Definition toFixed2 (n d : Z) : jsstr :=
  let h := hundredths (Z.abs n) d in
  (if n <? 0 then str "-" else []) ++ to_base 10 (h / 100) ++ str "." ++ pad2 (h mod 100).

(** A finite number [num / den], the denominator positive (a double has a power
    of two there). *)
Record number := Number { num : Z; den : Z }.

(** * Tooltips *)

(** [x * by], by a whole number. *)
Definition multiplier (by_ : Z) (x : number) : number := Number (num x * by_) (den x).

Definition unit : list jsstr :=
  [[]; str "Ki"; str "Mi"; str "Gi"; str "Ti"; str "Pi"; str "Ei"; str "Zi"; str "Yi"].

(** The loop: the current [x] is [n / d / 1024 ^ i], divided while it exceeds
    1024 (at most 8 times; dividing by a power of two is exact). *)
Fixpoint unit_index (fuel : nat) (n d i : Z) : Z :=
  match fuel with
  | O => i
  | S fuel => if (d * (1024 * 1024 ^ i) <? n) && (i <? 8) then unit_index fuel n d (i + 1) else i
  end.

Definition simplifyBytes (x : number) : jsstr :=
  let i := unit_index 8 (num x) (den x) 0 in
  toFixed2 (num x) (den x * 1024 ^ i) ++ str " " ++ default [] (unit !! Z.to_nat i) ++ str "B".

(** The plotters give the text of the tooltip; [None] stands for a payload
    that is not a number and for no tooltip. *)
Definition percentPlotter (text : jsstr) (mapper : number -> number) (payload : option number) : option jsstr :=
  p ← mapper <$> payload; Some (text ++ str " " ++ toFixed2 (num p) (den p) ++ str " %").
Definition bytePlotter (text : jsstr) (mapper : number -> number) (payload : option number) : option jsstr :=
  p ← mapper <$> payload; Some (text ++ str " " ++ simplifyBytes p).
Definition bytePerSecPlotter (text : jsstr) (mapper : number -> number) (payload : option number) : option jsstr :=
  p ← mapper <$> payload; Some (text ++ str " " ++ simplifyBytes p ++ str "/s").

(** [render] of CustomTooltip: the first value of the payload array. *)
Definition render (active : bool) (tooltip : option (option number -> option jsstr))
    (payload : option (list (option number))) : option jsstr :=
  if negb active then None
  else match tooltip, payload with
       | Some f, Some (v :: _) => f v
       | _, _ => None
       end.

(** * Double charts *)

Definition neg (x : number) : number := Number (- num x) (den x).
Definition zero : number := Number 0 1.

(** The series of a chart: values, missing ones as [None], and the default. *)
Record chart := Chart { c_data : option (list (option number)); c_default : option number }.

(** [a || b] on numbers. *)
Definition or_default (a : option number) (d : number) : number :=
  match a with Some z => if num z =? 0 then d else z | None => d end.

(** The points of the top and of the bottom chart. *)
Definition doubleChart (top bottom : chart) : option (list number * list number) :=
  match c_data top, c_data bottom with
  | Some t, Some b =>
      let topDefault := or_default (c_default top) zero in
      let bottomDefault := or_default (c_default bottom) zero in
      Some ((fun v => or_default v topDefault) <$> t,
            (fun v => or_default (neg <$> v) (neg bottomDefault)) <$> b)
  | _, _ => None
  end.

(** * Properties *)

Lemma unit_index_spec fuel n d i :
  0 <= i -> i + Z.of_nat fuel = 8 -> (i = 0 \/ d * 1024 ^ i < n) ->
  let j := unit_index fuel n d i in
  0 <= j <= 8 /\ (j = 0 \/ d * 1024 ^ j < n) /\ (j = 8 \/ n <= d * 1024 ^ (j + 1)).
Proof.
  revert i. induction fuel as [|fuel IH]; intros i Hi Hf Hn; simpl.
  - split; [lia|]. split; [done|lia].
  - rewrite <- Z.pow_succ_r by done.
    destruct (Z.ltb_spec (d * 1024 ^ Z.succ i) n) as [Hlt|Hge]; simpl.
    + zbool (i <? 8) true. apply IH; [lia|lia|]. right. by rewrite Z.add_1_r.
    + split; [lia|]. split; [done|]. right. by rewrite Z.add_1_r.
Qed.

Lemma hundredths_nearest n d : 0 < d -> 0 <= n -> 2 * Z.abs (100 * n - hundredths n d * d) <= d.
Proof.
  intros Hd Hn. unfold hundredths. pose proof (Z.div_mod (200 * n + d) (2 * d) ltac:(lia)) as Hdm.
  pose proof (Z.mod_pos_bound (200 * n + d) (2 * d) ltac:(lia)) as Hm.
  set (q := (200 * n + d) / (2 * d)) in *. nia.
Qed.

(** A number of bytes is shown in the largest unit that keeps it above 1 and at
    most 1024 (the first and last unit apart), to the nearest hundredth. *)
Theorem simplifyBytes_spec n d :
  0 <= n -> 0 < d ->
  exists i h u, unit !! i = Some u /\
    simplifyBytes (Number n d) =
      to_base 10 (h / 100) ++ str "." ++ pad2 (h mod 100) ++ str " " ++ u ++ str "B" /\
    (i = 0%nat \/ d * 1024 ^ Z.of_nat i < n) /\ (i = 8%nat \/ n <= d * 1024 ^ (Z.of_nat i + 1)) /\
    2 * Z.abs (100 * n - h * (d * 1024 ^ Z.of_nat i)) <= d * 1024 ^ Z.of_nat i.
Proof.
  intros Hn Hd. destruct (unit_index_spec 8 n d 0) as (Hj & Hlo & Hhi); [lia|lia|by left|].
  unfold simplifyBytes. cbn [num den]. set (j := unit_index 8 n d 0) in *.
  assert (exists u, unit !! Z.to_nat j = Some u) as [u Hu].
  { apply lookup_lt_is_Some. simpl. lia. }
  exists (Z.to_nat j), (hundredths n (d * 1024 ^ j)), u. rewrite Hu, Z2Nat.id by lia.
  split; [done|]. split.
  { unfold toFixed2. zbool (n <? 0) false. rewrite Z.abs_eq by done. simpl. by rewrite <- !app_assoc. }
  split; [destruct Hlo; [left; lia|by right]|].
  split; [destruct Hhi; [left; lia|by right]|].
  apply hundredths_nearest; [|done]. apply Z.mul_pos_pos; [done|]. apply Z.pow_pos_nonneg; lia.
Qed.

Lemma simplifyBytes_spec_witness :
  simplifyBytes (Number 1536 1) = str "1.50 KiB" /\
  exists i h u, unit !! i = Some u /\
    simplifyBytes (Number 1536 1) =
      to_base 10 (h / 100) ++ str "." ++ pad2 (h mod 100) ++ str " " ++ u ++ str "B" /\
    (i = 0%nat \/ 1 * 1024 ^ Z.of_nat i < 1536) /\ (i = 8%nat \/ 1536 <= 1 * 1024 ^ (Z.of_nat i + 1)) /\
    2 * Z.abs (100 * 1536 - h * (1 * 1024 ^ Z.of_nat i)) <= 1 * 1024 ^ Z.of_nat i.
Proof. split; [vm_compute; reflexivity|]. apply (simplifyBytes_spec 1536 1); lia. Defined.

(** The bottom chart is the mirrored data, and its tooltip with
    [multiplier(-1)] shows the value itself. *)
Theorem bottom_chart_mirrored text t b :
  exists ps qs, doubleChart (Chart (Some t) None) (Chart (Some b) None) = Some (ps, qs) /\
    Forall2 (fun v p => num p = default 0 (num <$> v)) t ps /\
    Forall2 (fun v q => bytePlotter text (multiplier (-1)) (Some q) =
      Some (text ++ str " " ++ simplifyBytes
        (match v with Some x => if num x =? 0 then zero else x | None => zero end))) b qs.
Proof.
  unfold doubleChart. simpl. eexists _, _. split; [done|]. split.
  - apply Forall2_fmap_r, Forall_Forall2_diag, Forall_forall. intros [v|] _; simpl; [|done].
    by destruct (Z.eqb_spec (num v) 0) as [->|].
  - apply Forall2_fmap_r, Forall_Forall2_diag, Forall_forall. intros v _.
    unfold bytePlotter, multiplier. simpl. do 4 f_equal. destruct v as [[n d]|]; simpl; [|done].
    rewrite (Z.eqb_sym (- n)), (Z.eqb_sym n). destruct (Z.eqb_spec 0 n), (Z.eqb_spec 0 (- n)); try lia; [done|].
    simpl. f_equal. lia.
Qed.
