(* ===== verification/DashView.v ===== *)
(** What the dashboard shows: the components of src/dashboard/assets/components as
    functions from the state to trees of elements, the menu of
    src/dashboard/assets/common.jsx, and what React keeps of the last rendering
    where a component says that it need not be rendered again.

    [withStyles] injects the names of the generated classes: [classes].  The elements of
    material-ui, recharts and react-transition-group are leaves of the model: they
    appear with their properties and children. *)
From Stdlib Require Import ZArith Lia.
From S2P Require Import Prelude DashLogs DashContent DashCharts.
Open Scope Z_scope.

(** * Elements *)

(** The event handlers given to elements. *)
Inductive handler :=
| SwitchSideBarH      (** [this.props.switchSideBar] *)
| ClickOn (id : jsstr)  (** [this.clickOn(id)] *)
| OnScrollH.          (** [this.onScroll] of [Main] *)

Inductive element :=
| Element (tag : jsstr) (props : list (jsstr * prop)) (children : list element)
| Text (s : jsstr)
| Nothing
with prop :=
| PVal (v : val)
| PHandler (h : handler)
| PElement (e : element)
| PTooltip (f : option number -> option jsstr)
| PData (key : jsstr) (points : list number)
| PRender (f : jsstr -> element).

Definition pstr (s : jsstr) : prop := PVal (VStr s).
Definition style (l : list (jsstr * val)) : jsstr * prop := (str "style", PVal (VObj l)).
Definition flag (k : jsstr) : jsstr * prop := (k, PVal (VBool true)).

(** * The menu *)

Record menu := Menu { menu_id : jsstr; title : jsstr; icon : jsstr }.

Definition menuSkeletons : list (jsstr * (jsstr * jsstr)) :=
  [(str "home", (str "Home", str "home")); (str "chain", (str "Chain", str "link"));
   (str "txpool", (str "TxPool", str "credit-card")); (str "network", (str "Network", str "globe"));
   (str "system", (str "System", str "tachometer")); (str "logs", (str "Logs", str "list"))].
(** The map, in the order of insertion. *)
Definition MENU : list (jsstr * menu) :=
  (fun '(id, (t, i)) => (id, Menu id t i)) <$> menuSkeletons.
Definition DURATION : Z := 200.
Definition light : list (jsstr * val) := [(str "color", VStr (str "rgba(255, 255, 255, 0.54)"))].

Section View.
Context (classes : jsstr -> jsstr).
Definition class (c : jsstr) : jsstr * prop := (str "className", pstr (classes c)).

(** * Header *)

Definition header_render : element :=
  Element (str "AppBar") [(str "position", pstr (str "static")); class (str "header"); style [(str "height", VStr (str "8%"))]]
    [Element (str "Toolbar") [class (str "toolbar"); style [(str "height", VStr (str "100%"))]]
       [Element (str "IconButton") [(str "onClick", PHandler SwitchSideBarH)]
          [Element (str "Icon") [] [Element (str "MenuIcon") [] []]];
        Element (str "Typography") [(str "type", pstr (str "title")); (str "color", pstr (str "inherit")); flag (str "noWrap"); class (str "title")]
          [Text (str "Go Ethereum Dashboard")]]].

(** * The side bar *)

(** [styles.menu.transition[transitionState]] *)
Definition transition_style (transitionState : jsstr) : list (jsstr * val) :=
  if bool_decide (transitionState = str "entered") then [(str "marginLeft", VNum (-200))] else [].

Definition menu_item (transitionState : jsstr) (m : menu) : element :=
  Element (str "ListItem") [flag (str "button"); (str "key", pstr (menu_id m)); (str "onClick", PHandler (ClickOn (menu_id m))); class (str "listItem")]
    [Element (str "ListItemIcon") []
       [Element (str "Icon") [class (str "icon")] [Element (str "FontAwesome") [(str "name", pstr (icon m))] []]];
     Element (str "ListItemText")
       [(str "primary", pstr (title m));
        style ((str "transition", VStr (str "margin-left " ++ to_base 10 DURATION ++ str "ms")) ::
               transition_style transitionState ++ [(str "padding", VNum 0)])] []].
Definition menuItems (transitionState : jsstr) : list element := menu_item transitionState <$> (snd <$> MENU).
Definition menu_render (transitionState : jsstr) : element :=
  Element (str "div") [class (str "list")] [Element (str "List") [] (menuItems transitionState)].
Definition sidebar_render (opened : bool) : element :=
  Element (str "Transition")
    [flag (str "mountOnEnter"); (str "in", PVal (VBool opened)); (str "timeout", PVal (VObj [(str "enter", VNum DURATION)]));
     (str "children", PRender menu_render)] [].
(** [shouldComponentUpdate] *)
Definition sidebar_updates (opened next : bool) : bool := negb (Bool.eqb next opened).

(** * The footer *)

Definition FOOTER_SYNC_ID : jsstr := str "footerSyncId".
Definition TOP : jsstr := str "Top".
Definition BOTTOM : jsstr := str "Bottom".

Definition halfHeightChart (syncId key : jsstr) (points : list number) (margin : Z * Z) (tooltip : option number -> option jsstr)
    (color : jsstr) : element :=
  Element (str "ResponsiveContainer") [(str "width", pstr (str "100%")); (str "height", pstr (str "50%"))]
    [Element (str "AreaChart")
       [(str "syncId", pstr syncId); (str "data", PData key points);
        (str "margin", PVal (VObj [(str "top", VNum margin.1); (str "right", VNum 5); (str "bottom", VNum margin.2); (str "left", VNum 5)]))]
       [Element (str "Tooltip") [(str "cursor", PVal (VBool false)); (str "content", PElement (Element (str "CustomTooltip") [(str "tooltip", PTooltip tooltip)] []))] [];
        Element (str "Area") [(str "isAnimationActive", PVal (VBool false)); (str "type", pstr (str "monotone")); (str "dataKey", pstr key); (str "stroke", pstr color); (str "fill", pstr color)] []]].

(** [({value}) => ...]: the value of a sample, when it is a number; reading a field of
    [null] or [undefined] throws. *)
Definition sample (v : val) : option (option number) :=
  x ← get v (str "value"); Some (match x with VNum z => Some (Number z 1) | _ => None end).
Definition samples (v : val) : option (option (list (option number))) :=
  match v with
  | VArr l => Some <$> mapM sample l
  | _ => Some None
  end.

(** [this.doubleChart(syncId, chartKey, {data, tooltip}, {data, tooltip})] *)
Definition double_chart (chartKey : jsstr) (top : val) (topTooltip : option number -> option jsstr)
    (bottom : val) (bottomTooltip : option number -> option jsstr) : option element :=
  match top, bottom with
  | VArr _, VArr _ =>
      t ← samples top;
      b ← samples bottom;
      Some (match doubleChart (Chart t None) (Chart b None) with
            | None => Nothing
            | Some (ts, bs) =>
                Element (str "div") [style [(str "height", VStr (str "100%")); (str "width", VStr (str "99%"))]]
                  [halfHeightChart FOOTER_SYNC_ID (chartKey ++ TOP) ts (5, 0) topTooltip (str "#8884d8");
                   halfHeightChart FOOTER_SYNC_ID (chartKey ++ BOTTOM) bs (0, 5) bottomTooltip (str "#82ca9d")]
            end)
  | _, _ => Some Nothing
  end.

(** [React.Children.map] also calls the function on [null]. *)
Definition chartrow_render (children : list element) : element :=
  Element (str "Grid") [flag (str "container"); (str "direction", pstr (str "row"));
      style [(str "flexWrap", VStr (str "nowrap")); (str "height", VStr (str "100%")); (str "maxWidth", VStr (str "100%")); (str "margin", VNum 0)];
      (str "justify", pstr (str "space-between"))]
    ((fun child => Element (str "Grid") [flag (str "item"); flag (str "xs"); style [(str "flex", VNum 1); (str "padding", VNum 0)]] [child]) <$> children).

(** A value as a child of an element: an object throws. *)
Fixpoint child_of (v : val) : option element :=
  match v with
  | VUndef | VNull | VBool _ => Some Nothing
  | VNum z => Some (Text (to_base 10 z))
  | VStr s => Some (Text s)
  | VArr l => Element [] [] <$> mapM child_of l
  | VObj _ => None
  end.

Definition caption (children : list element) : element :=
  Element (str "Typography") [(str "type", pstr (str "caption")); (str "color", pstr (str "inherit"))] children.
(** [general.commit && ...] *)
Definition commit_render (commit : val) : option element :=
  if negb (truthy commit) then child_of commit
  else match commit with
       | VStr c =>
           Some (caption
             [Element (str "span") [style light] [Text (str "Commit ")];
              Element (str "a") [(str "href", pstr (str "https://github.com/ethereum/go-ethereum/commit/" ++ c)); (str "target", pstr (str "_blank"));
                  style [(str "color", VStr (str "inherit")); (str "textDecoration", VStr (str "none"))]]
                [Text (js_slice c 0 8)]])
       | _ => None
       end.

Definition footer_charts (system : val) : option (list element) :=
  let data k := get system (str k) in
  pc ← data "processCPU"%string; sc ← data "systemCPU"%string;
  cpu ← double_chart (str "cpu") pc (percentPlotter (str "Process load") id)
          sc (percentPlotter (str "System load") (multiplier (-1)));
  am ← data "activeMemory"%string; vm ← data "virtualMemory"%string;
  memory ← double_chart (str "memory") am (bytePlotter (str "Active memory") id)
             vm (bytePlotter (str "Virtual memory") (multiplier (-1)));
  dr ← data "diskRead"%string; dw ← data "diskWrite"%string;
  disk ← double_chart (str "disk") dr (bytePerSecPlotter (str "Disk read") id)
           dw (bytePerSecPlotter (str "Disk write") (multiplier (-1)));
  ni ← data "networkIngress"%string; ne ← data "networkEgress"%string;
  traffic ← double_chart (str "traffic") ni (bytePerSecPlotter (str "Download") id)
              ne (bytePerSecPlotter (str "Upload") (multiplier (-1)));
  Some [cpu; memory; disk; traffic].

Definition footer_render (general system : val) : option element :=
  charts ← footer_charts system;
  version ← get general (str "version");
  version ← child_of version;
  commit ← get general (str "commit");
  commit ← commit_render commit;
  Some (Element (str "Grid")
    [flag (str "container"); class (str "footer"); (str "direction", pstr (str "row")); (str "alignItems", pstr (str "center"));
     style [(str "maxWidth", VStr (str "100%")); (str "flexWrap", VStr (str "nowrap")); (str "margin", VNum 0)]]
    [Element (str "Grid") [flag (str "item"); flag (str "xs"); style [(str "height", VStr (str "100%")); (str "padding", VNum 0)]]
       [chartrow_render charts];
     Element (str "Grid") [flag (str "item")]
       [caption [Element (str "span") [style light] [Text (str "Geth")]; Text (str " "); version]; commit]]).

(** * The log page *)

Definition wait_msg (s : jsstr) : element :=
  Element (str "div") [style [(str "textAlign", VStr (str "center")); (str "color", VStr (str "white")); (str "fontFamily", VStr (str "monospace"))]] [Text s].
(** The line height, which is not a whole number, as its text. *)
Definition chunk_render (index : Z) (c : chunk) : element :=
  Element (str "ListItem") [style [(str "padding", VNum 0); (str "lineHeight", VStr (str "1.231"))]; (str "key", PVal (VNum index))]
    [Element (str "div") [style [(str "color", VStr (str "white")); (str "fontFamily", VStr (str "monospace")); (str "whiteSpace", VStr (str "nowrap")); (str "width", VNum 0)];
       (str "dangerouslySetInnerHTML", PVal (VObj [(str "__html", VStr (DashLogs.content c))]))] []].
(** [logs.chunks.map] throws when there are no chunks. *)
Definition logs_render (l : logs) : option element :=
  cs ← chunks l;
  Some (Element (str "div") []
    [wait_msg (if endTop l then str "No more logs." else str "Waiting for server...");
     Element (str "List") [] (imap (fun i c => chunk_render (Z.of_nat i) c) cs);
     if endBottom l then Nothing else wait_msg (str "Waiting for server...")]).

(** * Main, Body and Dashboard *)

(** The [switch] of [Main]: the page of a menu entry. *)
Definition page_render (active : jsstr) (content : val) : option element :=
  if existsb (fun id => bool_decide (active = id)) [str "home"; str "chain"; str "txpool"; str "network"; str "system"]
  then Some (Element (str "div") [] [Text (str "Work in progress.")])
  else if bool_decide (active = str "logs") then logs_render (logs_of_val (field content (str "logs")))
  else Some Nothing.

Definition main_render (page footer : element) : element :=
  Element (str "div") [style [(str "display", VStr (str "flex")); (str "flexDirection", VStr (str "column")); (str "width", VStr (str "100%"))]]
    [Element (str "div") [class (str "content"); style [(str "flex", VNum 1); (str "overflow", VStr (str "auto"))]; (str "onScroll", PHandler OnScrollH)] [page];
     footer].
Definition body_render (sidebar main : element) : element :=
  Element (str "div") [style [(str "display", VStr (str "flex")); (str "width", VStr (str "100%")); (str "height", VStr (str "92%"))]] [sidebar; main].
Definition dashboard_render (header body : element) : element :=
  Element (str "div") [class (str "dashboard");
      style [(str "display", VStr (str "flex")); (str "flexFlow", VStr (str "column")); (str "width", VStr (str "100%"));
             (str "height", VStr (str "100%")); (str "zIndex", VNum 1); (str "overflow", VStr (str "hidden"))]]
    [header; body].

(** What the components rendered; the tree on the screen is made of these. *)
Record view := View { v_header : element; v_sidebar : element; v_page : element; v_footer : element }.
Definition screen (v : view) : element :=
  dashboard_render (v_header v) (body_render (v_sidebar v) (main_render (v_page v) (v_footer v))).

Definition footer_of (d : dashboard) : option element :=
  footer_render (field (content d) (str "general")) (field (content d) (str "system")).
(** Every component rendered from the state. *)
Definition render_all (d : dashboard) : option view :=
  p ← page_render (active d) (content d);
  f ← footer_of d;
  Some (View header_render (sidebar_render (sideBar d)) p f).
(** The rendering after a change of the state from [d] to [d']: the side bar and the
    footer decide whether they are rendered. *)
Definition rerender (d d' : dashboard) (v : view) : option view :=
  p ← page_render (active d') (content d');
  f ← (if footer_updates (should d') then footer_of d' else Some (v_footer v));
  Some (View header_render
    (if sidebar_updates (sideBar d) (sideBar d') then sidebar_render (sideBar d') else v_sidebar v) p f).
End View.

(** * Renderings that can be made *)

(** The content as the types of types/content.jsx say: texts, entries of charts that are
    objects, and an array of chunks. *)
Definition text (v : val) : Prop := v = VNull \/ exists s, v = VStr s.
Definition entry (v : val) : Prop := exists kvs, v = VObj kvs.
Definition drawable (c : val) : Prop :=
  wf_content c /\
  (forall k, k ∈ [str "version"; str "commit"] -> text (at_path c [str "general"; k])) /\
  (forall k, k ∈ system_keys -> exists l, at_path c [str "system"; k] = VArr l /\ Forall entry l) /\
  is_Some (chunks (logs_of_val (field c (str "logs")))).

Lemma sample_some l : Forall entry l -> is_Some (samples (VArr l)).
Proof.
  intros H. apply fmap_is_Some, mapM_is_Some_2. eapply Forall_impl; [exact H|].
  intros v (kvs & ->). unfold sample, get. cbn. eauto.
Qed.
Lemma double_chart_some k t tt b bt : Forall entry t -> Forall entry b -> is_Some (double_chart k (VArr t) tt (VArr b) bt).
Proof.
  intros Ht Hb. unfold double_chart. destruct (sample_some t Ht) as [ts ->], (sample_some b Hb) as [bs ->]. cbn. eauto.
Qed.
Lemma text_child v : text v -> is_Some (child_of v).
Proof. intros [->|[s ->]]; cbn; eauto. Qed.
Lemma text_commit v : text v -> is_Some (commit_render v).
Proof.
  intros [->|[s ->]]; [cbn; eauto|]. unfold commit_render. destruct (negb _); [cbn; eauto|eauto].
Qed.
Lemma get_some v k : is_Some (own v) -> get v k = Some (field v k).
Proof. intros [kvs E]. unfold field, get. by rewrite E. Qed.

Lemma drawable_footer classes d : drawable (content d) -> is_Some (footer_of classes d).
Proof.
  intros ((ver & com & sys & l & Ec & _) & Ht & Hs & _). unfold footer_of, footer_render.
  assert (is_Some (own (field (content d) (str "general")))) as Hg by (rewrite Ec; by eexists).
  assert (is_Some (own (field (content d) (str "system")))) as Hy by (rewrite Ec; by eexists).
  assert (forall k, k ∈ system_keys -> exists l, field (field (content d) (str "system")) k = VArr l /\ Forall entry l) as Hs' by done.
  assert (is_Some (footer_charts (field (content d) (str "system")))) as [cs ->].
  { unfold footer_charts. cbv zeta.
    repeat match goal with
      |- context [get ?v (str ?k)] =>
        rewrite (get_some v (str k) Hy); cbn [mbind option_bind];
        let l := fresh "l" in let E := fresh "E" in let H := fresh "H" in
        destruct (Hs' (str k) ltac:(repeat (apply list_elem_of_here || apply list_elem_of_further))) as (l & E & H); rewrite E
    | |- context [double_chart ?k (VArr ?t) ?f (VArr ?b) ?g] =>
        let x := fresh "x" in destruct (double_chart_some k t f b g ltac:(done) ltac:(done)) as [x ->]; cbn [mbind option_bind]
    end. eauto. }
  cbn [mbind option_bind]. rewrite !(get_some _ _ Hg). cbn [mbind option_bind].
  destruct (text_child _ (Ht (str "version") ltac:(left))) as [e E]. cbn [at_path] in E. rewrite E. cbn [mbind option_bind].
  destruct (text_commit _ (Ht (str "commit") ltac:(right; left))) as [c Ec']. cbn [at_path] in Ec'. rewrite Ec'. cbn. eauto.
Qed.
Lemma drawable_page a c : drawable c -> is_Some (page_render a c).
Proof.
  intros (_ & _ & _ & [cs Hc]). unfold page_render. destruct (existsb _ _); [eauto|].
  case_bool_decide; [|eauto]. unfold logs_render. rewrite Hc. cbn. eauto.
Qed.
Lemma drawable_renders classes d : drawable (content d) -> exists v, render_all classes d = Some v.
Proof.
  intros Hd. destruct (drawable_page (active d) (content d) Hd) as [p Hp], (drawable_footer classes d Hd) as [f Hf].
  unfold render_all. rewrite Hp, Hf. cbn. eauto.
Qed.

(** A message of the declared type. *)
Definition drawable_msg (m : val) : Prop :=
  wf_msg m /\
  (forall k, k ∈ [str "version"; str "commit"] -> at_path m [str "general"; k] = VUndef \/ text (at_path m [str "general"; k])) /\
  (forall k, k ∈ system_keys -> at_path m [str "system"; k] = VUndef \/
     exists l, at_path m [str "system"; k] = VArr l /\ Forall entry l).

(** The page has chunks, or the message says which file its records are from. *)
Definition log_sourced (m c : val) : Prop :=
  field m (str "logs") = VUndef \/ truthy (field (field m (str "logs")) (str "source")) = true \/
  exists x cs, chunks (logs_of_val (field c (str "logs"))) = Some (x :: cs).

Section Drawable.
Context (new_Date : jsstr -> option date) (escapeHtml : option jsstr -> jsstr).

Lemma insert_content_kept limit src c cs prev :
  src <> None \/ cs <> [] -> is_Some (chunks (as_logs (insert_content limit src c cs prev))).
Proof.
  intros H. unfold insert_content. destruct src as [s|].
  - repeat case_match; cbn; eauto.
  - destruct H as [H|H]; [done|]. destruct (negb (endBottom prev)); [cbn; eauto|].
    destruct (last cs) eqn:El; [cbn; eauto|]. by apply last_None in El.
Qed.
Lemma logInserter_drawable pad m v r :
  logInserter new_Date escapeHtml 5 pad m v = Some r -> is_Some (chunks (logs_of_val v)) ->
  truthy (field m (str "source")) = true \/ (exists x cs, chunks (logs_of_val v) = Some (x :: cs)) ->
  is_Some (chunks (logs_of_val r)).
Proof.
  unfold logInserter, inserter. intros H Hv Hs.
  assert (forall r', val_of_inserted r' = r -> is_Some (chunks (as_logs r')) -> is_Some (chunks (logs_of_val r))) as Hr
    by (intros r' <-; by rewrite <-logs_val_id).
  destruct (m_chunk (message_of_val m)) as [[|rec recs]|];
    [injection H as H; by apply (Hr (Kept _) H)| |injection H as H; by apply (Hr (Kept _) H)].
  destruct (createChunk _ _ _ _) as [[c pad']|]; [|done]. cbn [mbind option_bind fmap option_fmap option_map] in H.
  injection H as H. apply (Hr _ H), insert_content_kept. clear H Hr.
  destruct Hs as [Hs|(x & cs & Hs)].
  - left. unfold message_of_val. cbn [m_source]. by rewrite Hs.
  - right. intros Hn. change (default [] (chunks (logs_of_val v)) = []) in Hn. by rewrite Hs in Hn.
Qed.

Lemma upd_at_paths pad k :
  (k ∈ [str "version"; str "commit"] -> upd_at (updaters new_Date escapeHtml pad) [str "general"; k] = Some (UFun replacer)) /\
  (k ∈ system_keys -> upd_at (updaters new_Date escapeHtml pad) [str "system"; k] = Some (UFun (appender 200 id))).
Proof.
  split; intros Hk; unfold system_keys in *; rewrite !elem_of_cons, elem_of_nil in Hk; destruct_or! Hk; (done || by subst k).
Qed.
Lemma content_has_paths c k : wf_content c ->
  (k ∈ [str "version"; str "commit"] -> has_path c [str "general"; k]) /\ (k ∈ system_keys -> has_path c [str "system"; k]) /\
  has_path c [str "logs"].
Proof.
  intros (ver & com & sys & l & -> & Hl & _).
  do 8 (destruct sys as [|? sys]; [done|]). destruct sys; [|done]. split_and!.
  - intros Hk. eexists. split; [done|]. rewrite !elem_of_cons, elem_of_nil in Hk. destruct_or! Hk; (done || (subst k; eexists; split; [reflexivity|exact I])).
  - intros Hk. eexists. split; [done|]. unfold system_keys in Hk. rewrite !elem_of_cons, elem_of_nil in Hk.
    destruct_or! Hk; (done || (subst k; eexists; split; [reflexivity|exact I])).
  - eexists. split; [reflexivity|exact I].
Qed.

Lemma drawable_update pad m c c' :
  drawable c -> drawable_msg m -> log_sourced m c -> deepUpdate (updaters new_Date escapeHtml pad) m c = Some c' ->
  drawable c'.
Proof.
  intros (Hw & Ht & Hs & Hl) (Hm & Hmt & Hms) Hsrc E.
  destruct (deepUpdate_content new_Date escapeHtml pad m c Hm Hw) as (c1 & E1 & Hw'). rewrite E in E1. injection E1 as <-.
  split; [done|]. split_and!.
  - intros k Hk. destruct (Hmt k Hk) as [Hu|Hu].
    + rewrite (deepUpdate_keeps _ _ _ _ _ E); [by apply Ht|rewrite (proj1 (upd_at_paths pad k) Hk); by eexists|done].
    + pose proof (deepUpdate_applies _ _ _ _ _ _ E (proj1 (upd_at_paths pad k) Hk) ltac:(by destruct Hu as [->|[? ->]])
        (proj1 (content_has_paths c k Hw) Hk)) as Ha. injection Ha as Ha. cbn [at_path] in *. by rewrite <-Ha.
  - intros k Hk. destruct (Hms k Hk) as [Hu|(u & Hu & Hue)].
    + rewrite (deepUpdate_keeps _ _ _ _ _ E); [by apply Hs|rewrite (proj2 (upd_at_paths pad k) Hk); by eexists|done].
    + pose proof (deepUpdate_applies _ _ _ _ _ _ E (proj2 (upd_at_paths pad k) Hk) ltac:(by rewrite Hu)
        (proj1 (proj2 (content_has_paths c k Hw)) Hk)) as Ha.
      destruct (Hs k Hk) as (p & Hp & Hpe). rewrite Hu, Hp in Ha. cbn [appender] in Ha. injection Ha as Ha.
      eexists. split; [by symmetry|]. rewrite list_fmap_id. apply Forall_drop. by apply Forall_app.
  - destruct (decide (field m (str "logs") = VUndef)) as [Hu|Hu].
    + by rewrite (deepUpdate_keeps _ _ _ _ [str "logs"] E ltac:(by eexists) Hu : field c' (str "logs") = field c (str "logs")).
    + pose proof (deepUpdate_applies _ _ _ _ [str "logs"] _ E eq_refl Hu (proj2 (proj2 (content_has_paths c [] Hw)))) as Ha.
      eapply logInserter_drawable; [exact Ha|done|]. by destruct Hsrc as [?|Hsrc].
Qed.
Lemma drawable_default : drawable defaultContent.
Proof.
  split; [apply wf_default|]. split_and!; [| |by eexists].
  - intros k Hk. rewrite !elem_of_cons, elem_of_nil in Hk. destruct_or! Hk; (done || (subst k; by left)).
  - intros k Hk. unfold system_keys in Hk. rewrite !elem_of_cons, elem_of_nil in Hk.
    destruct_or! Hk; (done || (subst k; eexists; split; [reflexivity|constructor])).
Qed.
End Drawable.

(** * The screen over a run *)

Section Runs.
Context (new_Date : jsstr -> option date) (escapeHtml : option jsstr -> jsstr) (classes : jsstr -> jsstr).

(** Whether the handler sets the state, which renders the component again. *)
Definition sets_state (e : event) : bool :=
  match e with
  | OnMessage m => truthy m
  | Send _ => false
  | _ => true
  end.
Definition view_step (e : event) (s : dashboard * view) : option (dashboard * view) :=
  d' ← handle new_Date escapeHtml e s.1;
  v' ← (if sets_state e then rerender classes s.1 d' s.2 else Some s.2);
  Some (d', v').
Definition view_run (es : list event) (s : dashboard * view) : option (dashboard * view) :=
  foldl (fun s e => s ≫= view_step e) (Some s) es.

(** Events at a state: messages of the declared type. *)
Definition ok_message (e : event) (d : dashboard) : Prop :=
  match e with
  | OnMessage m => drawable_msg m /\ log_sourced m (content d)
  | _ => True
  end.
(** Also a connection only while the footer still shows the default content. *)
Definition same_footer (c c' : val) : Prop :=
  field c (str "general") = field c' (str "general") /\ field c (str "system") = field c' (str "system").
Definition ok_event (e : event) (d : dashboard) : Prop :=
  ok_message e d /\
  match e with
  | OnOpen _ => same_footer (content d) defaultContent
  | _ => True
  end.
Fixpoint ok_run (es : list event) (d : dashboard) : Prop :=
  match es with
  | [] => True
  | e :: es => ok_event e d /\ forall d', handle new_Date escapeHtml e d = Some d' -> ok_run es d'
  end.

Lemma same_footer_of d d' : same_footer (content d) (content d') -> footer_of classes d = footer_of classes d'.
Proof. intros [Hg Hs]. unfold footer_of. by rewrite Hg, Hs. Qed.

Lemma handle_footer e d d' :
  ok_event e d -> handle new_Date escapeHtml e d = Some d' -> footer_updates (should d') = false ->
  footer_of classes d = footer_of classes d'.
Proof.
  intros He H Hf. apply same_footer_of. destruct e as [s|m| |m|a|]; cbn [handle] in H.
  - injection H as <-. apply He.
  - destruct (truthy m); [|by injection H as <-]. destruct (footer_redraw_sound _ _ _ _ _ H Hf) as [Hg Hs]. by split.
  - by injection H as <-.
  - injection H as <-. by destruct (server d).
  - by injection H as <-.
  - by injection H as <-.
Qed.
Lemma handle_drawable e d d' :
  ok_message e d -> drawable (content d) -> handle new_Date escapeHtml e d = Some d' -> drawable (content d').
Proof.
  intros He Hd H. destruct e as [s|m| |m|a|]; cbn [handle] in H.
  - injection H as <-. apply drawable_default.
  - destruct (truthy m); [|by injection H as <-]. unfold update in H.
    destruct (deepUpdate _ m (content d)) as [c|] eqn:Ec; [|done]. cbn [mbind option_bind] in H.
    destruct (shouldUpdate _ m); [|done]. injection H as <-. destruct He as [Hm Hs]. by apply (drawable_update _ _ _ _ _ _ Hd Hm Hs Ec).
  - by injection H as <-.
  - injection H as <-. by destruct (server d).
  - by injection H as <-.
  - by injection H as <-.
Qed.
Lemma ok_handles e d : ok_message e d -> drawable (content d) -> exists d', handle new_Date escapeHtml e d = Some d'.
Proof.
  intros He [Hw _]. destruct (handle_safe new_Date escapeHtml e d) as (d' & -> & _); [|done|eauto].
  destruct e; try done. apply He.
Qed.
(** A handler that does not set the state leaves what is shown. *)
Lemma unset_same e d d' : handle new_Date escapeHtml e d = Some d' -> sets_state e = false ->
  render_all classes d' = render_all classes d.
Proof.
  intros H Hs. destruct e as [s|m| |m|a|]; try done; cbn [handle sets_state] in *.
  - rewrite Hs in H. by injection H as <-.
  - injection H as <-. by destruct (server d).
Qed.

Lemma view_step_fresh e d v :
  ok_event e d -> drawable (content d) -> render_all classes d = Some v ->
  exists d' v', handle new_Date escapeHtml e d = Some d' /\ view_step e (d, v) = Some (d', v') /\
    drawable (content d') /\ render_all classes d' = Some v'.
Proof.
  intros He Hd Hv. destruct (ok_handles e d (proj1 He) Hd) as [d' Hh]. pose proof (handle_drawable e d d' (proj1 He) Hd Hh) as Hd'.
  unfold view_step. cbn [fst snd]. rewrite Hh. cbn [mbind option_bind]. destruct (sets_state e) eqn:Es.
  2: { exists d', v. split_and!; [done..|]. by rewrite (unset_same e d d' Hh Es). }
  assert (rerender classes d d' v = render_all classes d') as ->.
  { unfold rerender, render_all in *. destruct (page_render (active d) (content d)); [|done].
    destruct (page_render (active d') (content d')); [|done]. cbn [mbind option_bind] in *.
    destruct (footer_of classes d) as [f|] eqn:Ef; [|done]. injection Hv as <-. cbn [v_footer v_sidebar].
    assert ((if sidebar_updates (sideBar d) (sideBar d') then sidebar_render classes (sideBar d') else sidebar_render classes (sideBar d))
      = sidebar_render classes (sideBar d')) as -> by (by destruct (sideBar d), (sideBar d')).
    destruct (footer_updates (should d')) eqn:Eu; [done|]. by rewrite <-(handle_footer e d d' He Hh Eu), Ef. }
  destruct (drawable_renders classes d' Hd') as [v' Hv'].
  exists d', v'. rewrite Hv'. by split_and!.
Qed.

End Runs.

Definition ex_classes (c : jsstr) : jsstr := str "Dashboard-" ++ c.
Definition ex_message : val :=
  VObj [(str "general", VObj [(str "version", VStr (str "1.8.18")); (str "commit", VStr (str "99e1a5e2"))]);
        (str "system", VObj [(str "diskRead", VArr [VObj [(str "time", VStr []); (str "value", VNum 7)]])]);
        (str "logs", VObj [(str "source", VObj [(str "name", VStr (str "a.log")); (str "last", VBool true)]);
                           (str "chunk", VArr [VObj [(str "t", VStr []); (str "lvl", VStr (str "info")); (str "msg", VStr (str "hi")); (str "ctx", VArr [])]])])].
Lemma ex_message_drawable : drawable_msg ex_message.
Proof.
  split; [|split].
  - eexists. split; [reflexivity|]. constructor; [left; split; [done|]|constructor; [right; left; split; [done|]|constructor; [right; right; split; [done|]|constructor]]].
    + eexists. split; [reflexivity|]. constructor; [split; [left|done]|constructor; [split; [right; left|done]|constructor]].
    + eexists. split; [reflexivity|]. constructor; [|constructor]. split; [|by eexists].
      unfold system_keys. cbn. do 6 right. left.
    + by eexists.
  - intros k Hk. rewrite !elem_of_cons, elem_of_nil in Hk. destruct_or! Hk; (done || (subst k; right; right; by eexists)).
  - intros k Hk. unfold system_keys in Hk. rewrite !elem_of_cons, elem_of_nil in Hk.
    destruct_or! Hk; try done; subst k; ((by left) || (right; eexists; split; [reflexivity|constructor; [by eexists|constructor]])).
Qed.

(** The version the footer shows. *)
Definition shown_version (footer : element) : option jsstr :=
  match footer with
  | Element _ _ [_; Element _ _ (Element _ _ [_; _; Text s] :: _)] => Some s
  | _ => None
  end.
(** After a lost connection the state starts from the default content, and the footer
    goes on showing the old one: the state is set with nothing marked as updated. *)
Theorem footer_stale_after_reconnect :
  (fun s => (shown_version (v_footer s.2), shown_version <$> footer_of ex_classes s.1)) <$>
    (render_all ex_classes initial ≫= fun v0 =>
     view_run ex_date ex_escape ex_classes [OnOpen 0; OnMessage ex_message; OnClose; OnOpen 1] (initial, v0)) =
  Some (Some (str "1.8.18"), Some None).
Proof. vm_compute. reflexivity. Qed.

(** * The menu *)

(** What a click on an element does: the handlers of the element and below. *)
Definition event_of (h : handler) : option event :=
  match h with
  | SwitchSideBarH => Some SwitchSideBar
  | ClickOn id => Some (ChangeContent id)
  | OnScrollH => None
  end.
Definition on_click (e : element) : option event :=
  match e with
  | Element _ props _ => match assoc (str "onClick") props with Some (PHandler h) => event_of h | _ => None end
  | _ => None
  end.

Lemma no_page a c : page_render a c = Some Nothing -> a ∉ fst <$> menuSkeletons.
Proof.
  unfold page_render. destruct (existsb _ _) eqn:E; [done|]. case_bool_decide as Hl; [unfold logs_render; by destruct (chunks _)|].
  intros _ Hin. cbn [fmap list_fmap fst menuSkeletons] in Hin. rewrite !elem_of_cons, elem_of_nil in Hin.
  destruct_or! Hin; (done || (subst a; vm_compute in E; discriminate E)).
Qed.
(** Every entry of the side bar leads to a page: a click on it makes it the active
    one, [Main] has a page for it, and the entry of the logs shows the log page. *)
Theorem menu_leads_to_page new_Date escapeHtml classes st d item :
  drawable (content d) -> item ∈ menuItems classes st ->
  exists m d' p, item = menu_item classes st m /\ on_click item = Some (ChangeContent (menu_id m)) /\
    handle new_Date escapeHtml (ChangeContent (menu_id m)) d = Some d' /\ active d' = menu_id m /\
    page_render (active d') (content d') = Some p /\ p <> Nothing /\
    (menu_id m = str "logs" -> logs_render (logs_of_val (field (content d') (str "logs"))) = Some p).
Proof.
  intros Hd Hin. apply list_elem_of_fmap in Hin as (m & -> & Hm).
  exists m. eexists. destruct (drawable_page (menu_id m) (content d) Hd) as [p Hp]. exists p.
  split_and!; [reflexivity|reflexivity|reflexivity|cbn; by case_bool_decide| | |].
  - cbn [active content]. rewrite <-Hp. f_equal. by case_bool_decide.
  - intros ->. apply no_page in Hp. unfold MENU, menuSkeletons in Hm. cbn [fmap list_fmap snd] in Hm.
    rewrite !elem_of_cons, elem_of_nil in Hm. apply Hp. destruct_or! Hm; (done || (subst m; cbn [menu_id fst menuSkeletons fmap list_fmap]; set_solver)).
  - intros E. rewrite E in Hp. exact Hp.
Qed.
Lemma menu_leads_to_page_witness : exists m d' p,
  on_click (menu_item ex_classes (str "entered") m) = Some (ChangeContent (menu_id m)) /\ active d' = menu_id m /\
  page_render (active d') (content d') = Some p.
Proof.
  destruct (menu_leads_to_page ex_date ex_escape ex_classes (str "entered") initial (menu_item ex_classes (str "entered") (Menu (str "logs") (str "Logs") (str "list"))))
    as (m & d' & p & E & Ho & _ & Ha & Hp & _).
  - apply drawable_default.
  - unfold menuItems, MENU, menuSkeletons. cbn [fmap list_fmap snd]. do 5 right. left.
  - exists m, d', p. rewrite <-E. done.
Defined.
