(* ===== verification/Words.v ===== *)
(** JavaScript's 32-bit integer operators, as used by the bundled crypto-js in
    src/internal/jsre/deps/web3.js: an operand is reduced to 32 bits, a result
    is signed except that of [>>>]. Counting loops, and bit-level lemmas. *)
From Stdlib Require Import ZArith Lia.
From S2P Require Import Prelude.
Open Scope Z_scope.

(** * Operators *)

(** ToUint32 and ToInt32. *)
Definition u32 (z : Z) : Z := z mod 2 ^ 32.
Definition s32 (z : Z) : Z := (z + 2 ^ 31) mod 2 ^ 32 - 2 ^ 31.

Definition js_and (a b : Z) : Z := Z.land (s32 a) (s32 b).
Definition js_or (a b : Z) : Z := Z.lor (s32 a) (s32 b).
Definition js_xor (a b : Z) : Z := Z.lxor (s32 a) (s32 b).
Definition js_not (a : Z) : Z := Z.lnot (s32 a).
Definition js_shl (a n : Z) : Z := s32 (Z.shiftl (s32 a) (n mod 32)).
Definition js_shr (a n : Z) : Z := Z.shiftr (s32 a) (n mod 32).
Definition js_ushr (a n : Z) : Z := Z.shiftr (u32 a) (n mod 32).

Declare Scope word_scope.
Delimit Scope word_scope with word.
Infix "&w" := js_and (at level 40, left associativity) : word_scope.
Infix "|w" := js_or (at level 50, left associativity) : word_scope.
Infix "^w" := js_xor (at level 45, left associativity) : word_scope.
Infix "<<w" := js_shl (at level 30, no associativity) : word_scope.
Infix ">>w" := js_shr (at level 30, no associativity) : word_scope.
Infix ">>>w" := js_ushr (at level 30, no associativity) : word_scope.
Open Scope word_scope.

(** [for (var i = 0; i < n; i++) s = f(i, s)]. *)
Fixpoint loop {S : Type} (n : nat) (f : Z -> S -> S) (s : S) : S :=
  match n with
  | O => s
  | Datatypes.S k => f (Z.of_nat k) (loop k f s)
  end.

(** * Arrays of numbers *)

(** A hole or an index past the end reads [undefined], which is 0 for the
    32-bit operators; writing past the end extends the array with holes. *)
Definition get_word (ws : list Z) (i : Z) : Z := default 0 (ws !! Z.to_nat i).
Definition set_word (ws : list Z) (i v : Z) : list Z :=
  let k := Z.to_nat i in
  if (k <? length ws)%nat then <[k := v]> ws else ws ++ replicate (k - length ws) 0 ++ [v].

(** * Bits *)

Create Rewrite HintDb words.

Lemma u32_range z : 0 <= u32 z < 2 ^ 32.
Proof. apply Z.mod_pos_bound. lia. Qed.

Lemma s32_range z : - 2 ^ 31 <= s32 z < 2 ^ 31.
Proof. unfold s32. pose proof (Z.mod_pos_bound (z + 2 ^ 31) (2 ^ 32) ltac:(lia)). lia. Qed.

Lemma u32_id z : 0 <= z < 2 ^ 32 -> u32 z = z.
Proof. apply Z.mod_small. Qed.

Lemma s32_id z : - 2 ^ 31 <= z < 2 ^ 31 -> s32 z = z.
Proof. intros H. unfold s32. rewrite Z.mod_small; lia. Qed.

Lemma u32_s32 z : u32 (s32 z) = u32 z.
Proof.
  unfold u32, s32. rewrite Zminus_mod_idemp_l. f_equal. lia.
Qed.

Lemma s32_u32 z : s32 (u32 z) = s32 z.
Proof. unfold u32, s32. rewrite Zplus_mod_idemp_l. done. Qed.

Lemma u32_u32 z : u32 (u32 z) = u32 z.
Proof. apply Z.mod_mod. lia. Qed.

(** Equality of 32-bit words. *)
Lemma u32_bits z i : 0 <= i < 32 -> Z.testbit (u32 z) i = Z.testbit z i.
Proof. intros H. unfold u32. apply Z.mod_pow2_bits_low. lia. Qed.

Lemma u32_bits_high z i : 32 <= i -> Z.testbit (u32 z) i = false.
Proof. intros H. unfold u32. apply Z.mod_pow2_bits_high. lia. Qed.

Lemma s32_bits z i : 0 <= i < 32 -> Z.testbit (s32 z) i = Z.testbit z i.
Proof. intros H. rewrite <- u32_bits, u32_s32, u32_bits by done. done. Qed.

Lemma u32_ext a b : (forall i, 0 <= i < 32 -> Z.testbit a i = Z.testbit b i) -> u32 a = u32 b.
Proof.
  intros H. apply Z.bits_inj_iff'. intros i Hi.
  destruct (decide (i < 32)).
  - rewrite !u32_bits by lia. apply H. lia.
  - by rewrite !u32_bits_high by lia.
Qed.

Lemma u32_eq_s32 a b : u32 a = u32 b <-> s32 a = s32 b.
Proof.
  split; intros H.
  - by rewrite <- (s32_u32 a), <- (s32_u32 b), H.
  - by rewrite <- (u32_s32 a), <- (u32_s32 b), H.
Qed.

Lemma and_bits a b i : 0 <= i < 32 -> Z.testbit (a &w b) i = Z.testbit a i && Z.testbit b i.
Proof. intros H. unfold js_and. by rewrite Z.land_spec, !s32_bits. Qed.

Lemma or_bits a b i : 0 <= i < 32 -> Z.testbit (a |w b) i = Z.testbit a i || Z.testbit b i.
Proof. intros H. unfold js_or. by rewrite Z.lor_spec, !s32_bits. Qed.

Lemma xor_bits a b i : 0 <= i < 32 -> Z.testbit (a ^w b) i = xorb (Z.testbit a i) (Z.testbit b i).
Proof. intros H. unfold js_xor. by rewrite Z.lxor_spec, !s32_bits. Qed.

Lemma not_bits a i : 0 <= i < 32 -> Z.testbit (js_not a) i = negb (Z.testbit a i).
Proof. intros H. unfold js_not. by rewrite Z.lnot_spec, s32_bits by lia. Qed.

Lemma shl_bits a n i :
  0 <= n < 32 -> 0 <= i < 32 -> Z.testbit (a <<w n) i = (n <=? i) && Z.testbit a (i - n).
Proof.
  intros Hn Hi. unfold js_shl. rewrite Z.mod_small, s32_bits, Z.shiftl_spec by lia.
  destruct (Z.leb_spec n i); simpl.
  - rewrite s32_bits by lia. done.
  - apply Z.testbit_neg_r. lia.
Qed.

Lemma ushr_bits a n i :
  0 <= n < 32 -> 0 <= i -> Z.testbit (a >>>w n) i = (i + n <? 32) && Z.testbit a (i + n).
Proof.
  intros Hn Hi. unfold js_ushr. rewrite Z.mod_small, Z.shiftr_spec by lia.
  destruct (Z.ltb_spec (i + n) 32); simpl.
  - apply u32_bits. lia.
  - apply u32_bits_high. lia.
Qed.

Lemma shr_bits a n i :
  0 <= n < 32 -> 0 <= i -> i + n < 32 -> Z.testbit (a >>w n) i = Z.testbit a (i + n).
Proof. intros Hn Hi H. unfold js_shr. rewrite Z.mod_small, Z.shiftr_spec, s32_bits by lia. done. Qed.

#[export] Hint Rewrite and_bits or_bits xor_bits not_bits shl_bits ushr_bits u32_bits s32_bits
  using lia : words.

(** * Loops *)

Lemma loop_S {T} n (f : Z -> T -> T) s : loop (S n) f s = f (Z.of_nat n) (loop n f s).
Proof. done. Qed.

Lemma loop_ext {S} n (f g : Z -> S -> S) s :
  (forall i x, 0 <= i < Z.of_nat n -> f i x = g i x) -> loop n f s = loop n g s.
Proof.
  induction n as [|n IH]; intros H; simpl; [done|].
  rewrite IH by (intros; apply H; lia). apply H. lia.
Qed.

Lemma loop_ind {S} (P : nat -> S -> Prop) n (f : Z -> S -> S) s :
  P 0%nat s -> (forall k x, (k < n)%nat -> P k x -> P (Datatypes.S k) (f (Z.of_nat k) x)) ->
  P n (loop n f s).
Proof.
  intros H0 Hs. induction n as [|n IH]; [done|]. simpl. apply Hs; [lia|].
  apply IH. intros. apply Hs; [lia|done].
Qed.

(** * Array lemmas *)

Lemma get_set_word ws i v j :
  0 <= i -> 0 <= j -> get_word (set_word ws i v) j = if j =? i then v else get_word ws j.
Proof.
  intros Hi Hj. unfold get_word, set_word.
  assert ((Z.to_nat i =? Z.to_nat j)%nat = (j =? i)) as Hij.
  { destruct (Z.eqb_spec j i) as [->|]; [apply Nat.eqb_refl|apply Nat.eqb_neq; lia]. }
  destruct (Nat.ltb_spec (Z.to_nat i) (length ws)) as [Hl|Hl].
  - destruct (Z.eqb_spec j i) as [->|Hne].
    + by rewrite list_lookup_insert_eq.
    + rewrite list_lookup_insert_ne by lia. done.
  - destruct (Z.eqb_spec j i) as [->|Hne].
    + rewrite lookup_app_r, lookup_app_r by (try rewrite length_replicate; lia).
      rewrite length_replicate.
      by replace (Z.to_nat i - length ws - (Z.to_nat i - length ws))%nat with 0%nat by lia.
    + destruct (decide (Z.to_nat j < length ws)%nat).
      * by rewrite lookup_app_l by done.
      * rewrite lookup_app_r by lia. rewrite (lookup_ge_None_2 ws) by lia. simpl.
        destruct (decide (Z.to_nat j < Z.to_nat i)%nat).
        -- rewrite lookup_app_l by (rewrite length_replicate; lia).
           rewrite lookup_replicate_2 by lia. done.
        -- rewrite lookup_ge_None_2; [done|]. rewrite length_app, length_replicate. simpl. lia.
Qed.

Lemma length_set_word ws i v :
  0 <= i -> Z.of_nat (length (set_word ws i v)) = Z.max (i + 1) (Z.of_nat (length ws)).
Proof.
  intros Hi. unfold set_word. destruct (Nat.ltb_spec (Z.to_nat i) (length ws)).
  - rewrite length_insert. lia.
  - rewrite !length_app, length_replicate. simpl. lia.
Qed.

(** * Small operands *)

Lemma ushr_div a n : 0 <= a < 2 ^ 32 -> 0 <= n < 32 -> a >>>w n = a / 2 ^ n.
Proof. intros Ha Hn. unfold js_ushr. rewrite u32_id, Z.mod_small, Z.shiftr_div_pow2 by lia. done. Qed.

Lemma shl_mul a n : 0 <= n < 32 -> 0 <= a -> a * 2 ^ n < 2 ^ 31 -> a <<w n = a * 2 ^ n.
Proof.
  intros Hn Ha Hb. assert (a < 2 ^ 31) by (pose proof (Z.pow_pos_nonneg 2 n ltac:(lia) ltac:(lia)); nia).
  unfold js_shl. rewrite Z.mod_small, (s32_id a), Z.shiftl_mul_pow2, s32_id by lia. done.
Qed.

Lemma or_0 a : a |w 0 = s32 a.
Proof. unfold js_or. change (s32 0) with 0. apply Z.lor_0_r. Qed.

Lemma or_0_u32 a b : u32 a = u32 b -> a |w 0 = b |w 0.
Proof. intros H. rewrite !or_0. by apply u32_eq_s32. Qed.

(** Masks are remainders, and joining disjoint fields is adding. *)
Lemma and_mask a k m : 0 <= a < 2 ^ 31 -> 0 <= k < 31 -> m = 2 ^ k - 1 -> a &w m = a mod 2 ^ k.
Proof.
  intros Ha Hk ->. unfold js_and. pose proof (Z.pow_lt_mono_r 2 k 31 ltac:(lia) ltac:(lia) ltac:(lia)).
  pose proof (Z.pow_pos_nonneg 2 k ltac:(lia) ltac:(lia)).
  rewrite !s32_id by lia. rewrite <- Z.land_ones by lia. f_equal. rewrite Z.ones_equiv. lia.
Qed.

Lemma and_high_mask a k m : 0 <= a < 2 ^ 31 -> 0 <= k < 31 -> m = 2 ^ 32 - 2 ^ k -> a &w m = a - a mod 2 ^ k.
Proof.
  intros Ha Hk ->. unfold js_and. pose proof (Z.pow_lt_mono_r 2 k 31 ltac:(lia) ltac:(lia) ltac:(lia)).
  pose proof (Z.pow_pos_nonneg 2 k ltac:(lia) ltac:(lia)).
  rewrite (s32_id a) by lia.
  assert (s32 (2 ^ 32 - 2 ^ k) = Z.lnot (Z.ones k)) as ->.
  { rewrite Z.ones_equiv. unfold Z.lnot. rewrite <- (s32_u32 (2 ^ 32 - 2 ^ k)).
    unfold u32. rewrite <- (Z.mod_add (2 ^ 32 - 2 ^ k) (-1)) by lia. fold (u32 (2 ^ 32 - 2 ^ k + -1 * 2 ^ 32)).
    rewrite s32_u32, s32_id; lia. }
  rewrite <- Z.ldiff_land, Z.ldiff_ones_r, Z.shiftr_div_pow2, Z.shiftl_mul_pow2 by lia.
  pose proof (Z.div_mod a (2 ^ k) ltac:(lia)). lia.
Qed.

Lemma lor_add a b k : 0 <= k -> 0 <= b < 2 ^ k -> Z.lor (a * 2 ^ k) b = a * 2 ^ k + b.
Proof.
  intros Hk Hb. assert (Z.land (a * 2 ^ k) b = 0) as H0.
  { apply Z.bits_inj_iff'. intros i Hi. rewrite Z.land_spec, Z.bits_0. destruct (decide (i < k)).
    - by rewrite Z.mul_pow2_bits_low by lia.
    - rewrite <- (Z.mod_small b (2 ^ k)), Z.mod_pow2_bits_high by lia. apply andb_false_r. }
  rewrite Z.add_nocarry_lxor by done. by rewrite Z.lxor_lor.
Qed.

Lemma or_add a b k :
  0 <= k < 31 -> 0 <= a -> a * 2 ^ k < 2 ^ 31 -> 0 <= b < 2 ^ k -> (a * 2 ^ k) |w b = a * 2 ^ k + b.
Proof.
  intros Hk Ha Hb Hlt. unfold js_or. pose proof (Z.pow_lt_mono_r 2 k 31 ltac:(lia) ltac:(lia) ltac:(lia)).
  rewrite !s32_id by nia. apply lor_add; lia.
Qed.

Lemma shr_div a n : 0 <= a < 2 ^ 31 -> 0 <= n < 32 -> a >>w n = a / 2 ^ n.
Proof. intros Ha Hn. unfold js_shr. rewrite s32_id, Z.mod_small, Z.shiftr_div_pow2 by lia. done. Qed.

(** * Words as unsigned numbers *)

(** Rotation of a 32-bit word to the right. *)
Definition rotr (n x : Z) : Z := Z.lor (Z.shiftr x n) (u32 (Z.shiftl x (32 - n))).

Lemma u32_and a b : u32 (a &w b) = Z.land (u32 a) (u32 b).
Proof.
  apply Z.bits_inj_iff'. intros i Hi. rewrite Z.land_spec. destruct (decide (i < 32)).
  - by rewrite !u32_bits, and_bits by lia.
  - by rewrite !u32_bits_high by lia.
Qed.

Lemma u32_or a b : u32 (a |w b) = Z.lor (u32 a) (u32 b).
Proof.
  apply Z.bits_inj_iff'. intros i Hi. rewrite Z.lor_spec. destruct (decide (i < 32)).
  - by rewrite !u32_bits, or_bits by lia.
  - by rewrite !u32_bits_high by lia.
Qed.

Lemma u32_xor a b : u32 (a ^w b) = Z.lxor (u32 a) (u32 b).
Proof.
  apply Z.bits_inj_iff'. intros i Hi. rewrite Z.lxor_spec. destruct (decide (i < 32)).
  - by rewrite !u32_bits, xor_bits by lia.
  - by rewrite !u32_bits_high by lia.
Qed.

Lemma u32_not a : u32 (js_not a) = Z.lxor (u32 a) (Z.ones 32).
Proof.
  apply Z.bits_inj_iff'. intros i Hi. rewrite Z.lxor_spec. destruct (decide (i < 32)).
  - rewrite !u32_bits, not_bits, Z.ones_spec_low by lia. by destruct (Z.testbit a i).
  - by rewrite !u32_bits_high, Z.ones_spec_high by lia.
Qed.

Lemma u32_ushr a n : 0 <= n < 32 -> u32 (a >>>w n) = Z.shiftr (u32 a) n.
Proof.
  intros Hn. unfold js_ushr. rewrite (Z.mod_small n) by lia. apply u32_id.
  pose proof (u32_range a). split; [apply Z.shiftr_nonneg; lia|].
  rewrite Z.shiftr_div_pow2 by lia. apply Z.le_lt_trans with (u32 a); [|lia].
  apply Z.div_le_upper_bound; [apply Z.pow_pos_nonneg; lia|].
  pose proof (Z.pow_pos_nonneg 2 n ltac:(lia) ltac:(lia)). nia.
Qed.

Lemma u32_shl a n : 0 <= n < 32 -> u32 (a <<w n) = u32 (Z.shiftl (u32 a) n).
Proof.
  intros Hn. apply u32_ext. intros i Hi. rewrite shl_bits, Z.shiftl_spec by lia.
  destruct (Z.leb_spec n i); simpl.
  - by rewrite u32_bits by lia.
  - by rewrite Z.testbit_neg_r by lia.
Qed.

Lemma u32_rot a l n : 0 < n < 32 -> l + n = 32 -> u32 ((a <<w l) |w (a >>>w n)) = rotr n (u32 a).
Proof.
  intros Hn Hl. unfold rotr. rewrite u32_or, u32_shl, u32_ushr, Z.lor_comm by lia.
  by replace (32 - n) with l by lia.
Qed.

Lemma u32_add a b : u32 (a + b) = u32 (u32 a + u32 b).
Proof. unfold u32. apply Z.add_mod. lia. Qed.

Lemma u32_add_l a b : u32 (u32 a + b) = u32 (a + b).
Proof. rewrite u32_add, u32_u32, <- u32_add. done. Qed.

Lemma u32_add_r a b : u32 (a + u32 b) = u32 (a + b).
Proof. rewrite u32_add, u32_u32, <- u32_add. done. Qed.

(** Equality modulo [2 ^ 32], with rewriting under sums. *)
Record eq32 (a b : Z) : Prop := Eq32 { eq32_u32 : u32 a = u32 b }.
Infix "≡32" := eq32 (at level 70) : word_scope.

#[export] Instance eq32_equiv : Equivalence eq32.
Proof.
  split.
  - by constructor.
  - intros a b [H]. by constructor.
  - intros a b c [H1] [H2]. constructor. congruence.
Qed.
#[export] Instance add_eq32 : Proper (eq32 ==> eq32 ==> eq32) Z.add.
Proof. intros a a' [Ha] b b' [Hb]. constructor. by rewrite u32_add, Ha, Hb, <- u32_add. Qed.
#[export] Instance u32_eq32 : Proper (eq32 ==> eq) u32.
Proof. intros a b [H]. exact H. Qed.

Lemma u32_id32 a : u32 a ≡32 a.
Proof. constructor. apply u32_u32. Qed.
Lemma s32_id32 a : s32 a ≡32 a.
Proof. constructor. apply u32_s32. Qed.
Lemma or_0_id32 a : a |w 0 ≡32 a.
Proof. constructor. rewrite or_0. apply u32_s32. Qed.

Lemma u32_add_or_0 a b : u32 ((a + b) |w 0) = u32 (u32 a + u32 b).
Proof. apply eq32_u32. by rewrite or_0_id32, !u32_id32. Qed.
