(* ===== verification/WordArray.v ===== *)
(** crypto-js's core, src/internal/jsre/deps/web3.js 7864-8625: arrays of
    big-endian 32-bit words that hold [sigBytes] bytes, their encoders, and the
    buffered block algorithms and hashers built on them. *)
From Stdlib Require Import ZArith Lia.
From S2P Require Import Prelude Words.
Open Scope Z_scope.
Open Scope word_scope.

(** * WordArray *)

Record wordarray := WA { words : list Z; sigBytes : Z }.

Definition wa_empty : wordarray := WA [] 0.
(** [WordArray.init(words)] without a size. *)
Definition wa_init (ws : list Z) : wordarray := WA ws (Z.of_nat (length ws) * 4).

(** [(words[i >>> 2] >>> (24 - (i % 4) * 8)) & 0xff] *)
Definition byte_at (ws : list Z) (i : Z) : Z :=
  (get_word ws (i / 4) >>>w (24 - (i mod 4) * 8)) &w 0xff.

(** [words[i >>> 2] |= b << (24 - (i % 4) * 8)] *)
Definition or_byte (ws : list Z) (i b : Z) : list Z :=
  set_word ws (i / 4) (get_word ws (i / 4) |w (b <<w (24 - (i mod 4) * 8))).

(** [words.length = n] *)
Definition resize (n : nat) (ws : list Z) : list Z := take n ws ++ replicate (n - length ws) 0.

Definition clamp (w : wordarray) : wordarray :=
  let ws := set_word (words w) (sigBytes w / 4)
              (get_word (words w) (sigBytes w / 4) &w (0xffffffff <<w (32 - (sigBytes w mod 4) * 8))) in
  WA (resize (Z.to_nat ((sigBytes w + 3) / 4)) ws) (sigBytes w).

Definition concat (this that : wordarray) : wordarray :=
  let thisSigBytes := sigBytes this in
  let thatSigBytes := sigBytes that in
  let ws := words (clamp this) in
  let ws :=
    if negb (thisSigBytes mod 4 =? 0) then
      loop (Z.to_nat thatSigBytes)
        (fun i ws => or_byte ws (thisSigBytes + i) (byte_at (words that) i)) ws
    else
      loop (Z.to_nat ((thatSigBytes + 3) / 4))
        (fun i ws => set_word ws ((thisSigBytes + i * 4) / 4) (get_word (words that) i)) ws in
  WA ws (thisSigBytes + thatSigBytes).

(** * Encoders *)

(** [parseInt(s, 16)]; [None] is NaN. *)
Fixpoint hex_prefix (s : jsstr) (acc : option Z) : option Z :=
  match s with
  | [] => acc
  | c :: s => match char_digit 16 c with
              | Some d => hex_prefix s (Some (16 * default 0 acc + d))
              | None => acc
              end
  end.
Definition is_space (c : Z) : bool :=
  (c =? 32) || ((9 <=? c) && (c <=? 13)) || (c =? 160) || (c =? 0xfeff) || (c =? 0x1680) ||
  ((0x2000 <=? c) && (c <=? 0x200a)) || (c =? 0x2028) || (c =? 0x2029) || (c =? 0x202f) ||
  (c =? 0x205f) || (c =? 0x3000).
Fixpoint trim_left (s : jsstr) : jsstr :=
  match s with
  | c :: s' => if is_space c then trim_left s' else s
  | [] => []
  end.
Definition strip_0x (s : jsstr) : jsstr :=
  match s with
  | c :: x :: s' => if (c =? 48) && ((x =? 120) || (x =? 88)) then s' else s
  | _ => s
  end.
Definition parseInt16 (s : jsstr) : option Z :=
  match trim_left s with
  | c :: s' =>
      if c =? 45 then Z.opp <$> hex_prefix (strip_0x s') None
      else if c =? 43 then hex_prefix (strip_0x s') None
      else hex_prefix (strip_0x (c :: s')) None
  | [] => None
  end.

Definition Hex_stringify (w : wordarray) : jsstr :=
  loop (Z.to_nat (sigBytes w))
    (fun i cs => let bite := byte_at (words w) i in
                 cs ++ to_base 16 (bite >>>w 4) ++ to_base 16 (bite &w 0x0f)) [].

(** An odd length gives a fractional size, which is not represented. *)
Definition Hex_parse (s : jsstr) : option wordarray :=
  if Z.even (js_len s) then
    Some (WA (loop (Z.to_nat (js_len s / 2))
                (fun k ws => let i := 2 * k in
                   set_word ws (i / 8)
                     (get_word ws (i / 8) |w
                        (default 0 (parseInt16 (js_substr s i 2)) <<w (24 - (i mod 8) * 4)))) [])
            (js_len s / 2))
  else None.

Definition Latin1_stringify (w : wordarray) : jsstr :=
  loop (Z.to_nat (sigBytes w)) (fun i cs => cs ++ [byte_at (words w) i]) [].

Definition Latin1_parse (s : jsstr) : wordarray :=
  WA (loop (length s) (fun i ws => or_byte ws i (default 0 (s !! Z.to_nat i) &w 0xff)) [])
     (js_len s).

(** * Bytes of a word array *)

Definition bytes_of (w : wordarray) : list Z :=
  byte_at (words w) <$> seqZ 0 (sigBytes w).

Lemma and_range a b : 0 <= b < 2 ^ 31 -> 0 <= a &w b <= b.
Proof.
  intros Hb. unfold js_and. rewrite (s32_id b) by lia.
  pose proof (Z.land_nonneg (s32 a) b). rewrite Z.land_comm.
  split; [apply Z.land_nonneg; lia|].
  apply Z.ldiff_le; [lia|]. apply Z.bits_inj_iff'. intros i Hi.
  rewrite Z.ldiff_spec, Z.land_spec, Z.bits_0. by destruct (Z.testbit b i), (Z.testbit (s32 a) i).
Qed.

Lemma byte_at_range ws i : is_byte (byte_at ws i).
Proof. unfold byte_at, is_byte. pose proof (and_range (get_word ws (i / 4) >>>w (24 - i mod 4 * 8)) 0xff). lia. Qed.

Lemma testbit_255 j : 0 <= j -> Z.testbit 255 j = (j <? 8).
Proof.
  intros Hj. change 255 with (Z.ones 8). destruct (Z.ltb_spec j 8).
  - apply Z.ones_spec_low. lia.
  - apply Z.ones_spec_high. lia.
Qed.

Lemma byte_bits_high b j : is_byte b -> 8 <= j -> Z.testbit b j = false.
Proof.
  intros Hb Hj. unfold is_byte in Hb. apply Z.bits_above_log2; [lia|].
  destruct (decide (b = 0)) as [->|]; [simpl; lia|].
  apply Z.log2_lt_pow2; [lia|]. apply Z.lt_le_trans with (2 ^ 8); [lia|]. apply Z.pow_le_mono_r; lia.
Qed.

Lemma byte_ext a b : is_byte a -> is_byte b ->
  (forall j, 0 <= j < 8 -> Z.testbit a j = Z.testbit b j) -> a = b.
Proof.
  intros Ha Hb H. apply Z.bits_inj_iff'. intros j Hj. destruct (decide (j < 8)); [apply H; lia|].
  rewrite !byte_bits_high by (done || lia). done.
Qed.

Lemma byte_at_bits ws i j :
  0 <= i -> 0 <= j < 8 ->
  Z.testbit (byte_at ws i) j = Z.testbit (get_word ws (i / 4)) (24 - (i mod 4) * 8 + j).
Proof.
  intros Hi Hj. unfold byte_at. pose proof (Z.mod_pos_bound i 4 ltac:(lia)).
  rewrite and_bits, ushr_bits, testbit_255 by lia.
  zbool (j <? 8) true. zbool (j + (24 - i mod 4 * 8) <? 32) true. rewrite andb_true_r. simpl.
  f_equal. lia.
Qed.

Lemma byte_at_set_other ws k v i :
  0 <= k -> 0 <= i -> i / 4 <> k -> byte_at (set_word ws k v) i = byte_at ws i.
Proof.
  intros Hk Hi Hne. unfold byte_at. rewrite get_set_word by (try apply Z.div_pos; lia).
  by zbool (i / 4 =? k) false.
Qed.

Lemma div_mod_4 i j : i / 4 = j / 4 -> i mod 4 = j mod 4 -> i = j.
Proof. intros H1 H2. rewrite (Z.div_mod i 4), (Z.div_mod j 4) by lia. lia. Qed.

Lemma lor_byte a b : is_byte a -> is_byte b -> is_byte (Z.lor a b).
Proof.
  unfold is_byte. intros Ha Hb. split; [apply Z.lor_nonneg; lia|].
  destruct (decide (Z.lor a b = 0)) as [->|]; [lia|].
  apply Z.log2_lt_cancel. rewrite Z.log2_lor by lia. change (Z.log2 256) with 8.
  assert (forall c, 0 <= c < 256 -> Z.log2 c < 8) as Hlog; [|pose proof (Hlog a Ha); pose proof (Hlog b Hb); lia].
  intros c Hc. destruct (decide (c = 0)) as [->|]; [simpl; lia|]. apply Z.log2_lt_pow2; lia.
Qed.

Lemma or_byte_lor ws p q b :
  0 <= p -> 0 <= q -> is_byte b ->
  byte_at (or_byte ws p b) q = if q =? p then Z.lor (byte_at ws p) b else byte_at ws q.
Proof.
  intros Hp Hq Hb. unfold or_byte.
  destruct (decide (q / 4 = p / 4)) as [E|E].
  2: { rewrite byte_at_set_other by (try apply Z.div_pos; lia).
       destruct (Z.eqb_spec q p) as [->|]; [done|done]. }
  pose proof (Z.mod_pos_bound p 4 ltac:(lia)). pose proof (Z.mod_pos_bound q 4 ltac:(lia)).
  apply byte_ext; [apply byte_at_range|destruct (q =? p); [apply lor_byte; [apply byte_at_range|done]|apply byte_at_range]|].
  intros j Hj. rewrite byte_at_bits by lia.
  rewrite get_set_word by (apply Z.div_pos; lia). rewrite E, Z.eqb_refl.
  rewrite or_bits, shl_bits by lia.
  destruct (Z.eqb_spec q p) as [->|Hne].
  - rewrite <- byte_at_bits, Z.lor_spec by lia.
    zbool (24 - p mod 4 * 8 <=? 24 - p mod 4 * 8 + j) true. simpl. do 2 f_equal. lia.
  - rewrite <- E, <- byte_at_bits by lia.
    assert (q mod 4 <> p mod 4) as Hm by (intros Hm; by apply Hne, div_mod_4).
    destruct (Z.leb_spec (24 - p mod 4 * 8) (24 - q mod 4 * 8 + j)); simpl; [|by rewrite orb_false_r].
    rewrite (byte_bits_high b) by (done || lia). apply orb_false_r.
Qed.

Lemma or_byte_spec ws p q b :
  0 <= p -> 0 <= q -> is_byte b -> byte_at ws p = 0 ->
  byte_at (or_byte ws p b) q = if q =? p then b else byte_at ws q.
Proof. intros Hp Hq Hb Hz. by rewrite or_byte_lor, Hz, Z.lor_0_l by done. Qed.

(** * clamp *)

(** Array sizes in bytes are never negative, and the words cover the bytes
    exactly; [clean] also says that no bit past the last byte is set. *)
Definition sized (w : wordarray) : Prop :=
  0 <= sigBytes w /\ Z.of_nat (length (words w)) = (sigBytes w + 3) / 4.
Definition clean (w : wordarray) : Prop :=
  sized w /\ forall q, sigBytes w <= q -> byte_at (words w) q = 0.

Lemma get_resize n ws i : 0 <= i -> get_word (resize n ws) i = if i <? Z.of_nat n then get_word ws i else 0.
Proof.
  intros Hi. unfold get_word, resize. destruct (Z.ltb_spec i (Z.of_nat n)).
  - destruct (decide (Z.to_nat i < length ws)%nat).
    + rewrite lookup_app_l by (rewrite length_take; lia). by rewrite lookup_take_lt by lia.
    + rewrite (lookup_ge_None_2 ws), lookup_app_r by (try rewrite length_take; lia).
      rewrite lookup_replicate_2; [done|]. rewrite length_take. lia.
  - rewrite lookup_ge_None_2; [done|]. rewrite length_app, length_take, length_replicate. lia.
Qed.

Lemma length_resize n ws : length (resize n ws) = n.
Proof. unfold resize. rewrite length_app, length_take, length_replicate. lia. Qed.

Lemma byte_at_zero_word ws i : get_word ws (i / 4) = 0 -> byte_at ws i = 0.
Proof. intros H. unfold byte_at, js_ushr. rewrite H. change (u32 0) with 0. by rewrite Z.shiftr_0_l. Qed.

Lemma div_4_bounds i : 4 * (i / 4) <= i < 4 * (i / 4) + 4.
Proof. pose proof (Z.div_mod i 4 ltac:(lia)). pose proof (Z.mod_pos_bound i 4 ltac:(lia)). lia. Qed.

Lemma mask_bits r i :
  0 < r < 4 -> 0 <= i < 32 -> Z.testbit (0xffffffff <<w (32 - r * 8)) i = (32 - r * 8 <=? i).
Proof.
  intros Hr Hi. rewrite shl_bits by lia.
  destruct (Z.leb_spec (32 - r * 8) i); simpl; [|done].
  change 0xffffffff with (Z.ones 32). apply Z.ones_spec_low. lia.
Qed.

Lemma clamp_byte w q :
  0 <= sigBytes w -> 0 <= q ->
  byte_at (words (clamp w)) q = if q <? sigBytes w then byte_at (words w) q else 0.
Proof.
  intros Hs Hq. unfold clamp. cbn [words]. set (s := sigBytes w) in *. set (ws := words w).
  pose proof (div_4_bounds s). pose proof (div_4_bounds q). pose proof (div_4_bounds (s + 3)).
  pose proof (Z.mod_pos_bound s 4 ltac:(lia)). pose proof (Z.div_mod s 4 ltac:(lia)).
  pose proof (Z.mod_pos_bound q 4 ltac:(lia)). pose proof (Z.div_mod q 4 ltac:(lia)).
  destruct (decide (q / 4 < (s + 3) / 4)) as [Hin|Hout].
  2: { zbool (q <? s) false. apply byte_at_zero_word. rewrite get_resize by lia.
       by zbool (q / 4 <? Z.of_nat (Z.to_nat ((s + 3) / 4))) false. }
  destruct (decide (q / 4 = s / 4)) as [E|E].
  - apply byte_ext; [apply byte_at_range|destruct (q <? s); [apply byte_at_range|done]|].
    intros j Hj. rewrite byte_at_bits, get_resize by lia.
    zbool (q / 4 <? Z.of_nat (Z.to_nat ((s + 3) / 4))) true.
    rewrite get_set_word, E, Z.eqb_refl, and_bits, mask_bits by lia.
    destruct (Z.ltb_spec q s).
    + zbool (32 - s mod 4 * 8 <=? 24 - q mod 4 * 8 + j) true.
      rewrite andb_true_r, <- E, <- byte_at_bits by lia. done.
    + zbool (32 - s mod 4 * 8 <=? 24 - q mod 4 * 8 + j) false. by rewrite andb_false_r, Z.bits_0.
  - zbool (q <? s) true. unfold byte_at. rewrite get_resize by lia.
    zbool (q / 4 <? Z.of_nat (Z.to_nat ((s + 3) / 4))) true.
    rewrite get_set_word by lia. by zbool (q / 4 =? s / 4) false.
Qed.

Lemma clamp_sized w : 0 <= sigBytes w -> Z.of_nat (length (words (clamp w))) = (sigBytes w + 3) / 4.
Proof.
  intros H. unfold clamp. simpl. rewrite length_resize.
  pose proof (Z.div_pos (sigBytes w + 3) 4). lia.
Qed.

(** * concat *)

Lemma byte_at_beyond ws i : 4 * Z.of_nat (length ws) <= i -> byte_at ws i = 0.
Proof.
  intros H. apply byte_at_zero_word. unfold get_word.
  rewrite lookup_ge_None_2; [done|]. pose proof (div_4_bounds i). lia.
Qed.

Lemma length_or_byte ws i b :
  0 <= i -> Z.of_nat (length (or_byte ws i b)) = Z.max (i / 4 + 1) (Z.of_nat (length ws)).
Proof. intros H. unfold or_byte. apply length_set_word. pose proof (div_4_bounds i). lia. Qed.

(** Writing the bytes [f 0 .. f (n-1)] at [p] into zeros, as the copying and
    parsing loops do. *)
Lemma or_bytes_spec ws p n f q :
  0 <= p -> 0 <= q -> (forall i, is_byte (f i)) -> (forall q, p <= q -> byte_at ws q = 0) ->
  byte_at (loop n (fun i ws => or_byte ws (p + i) (f i)) ws) q =
  if q <? p then byte_at ws q else if q <? p + Z.of_nat n then f (q - p) else 0.
Proof.
  intros Hp Hq Hf Hz. revert q Hq. induction n as [|n IH]; intros q Hq; simpl loop.
  - destruct (Z.ltb_spec q p); [done|]. zbool (q <? p + Z.of_nat 0) false. by apply Hz.
  - rewrite or_byte_spec; [|lia|done|done|].
    2: { rewrite IH by lia. zbool (p + Z.of_nat n <? p) false. by zbool (p + Z.of_nat n <? p + Z.of_nat n) false. }
    destruct (Z.eqb_spec q (p + Z.of_nat n)) as [->|Hne].
    + zbool (p + Z.of_nat n <? p) false. zbool (p + Z.of_nat n <? p + Z.of_nat (S n)) true. f_equal. lia.
    + rewrite IH by done. destruct (q <? p); [done|].
      destruct (Z.ltb_spec q (p + Z.of_nat n)).
      * by zbool (q <? p + Z.of_nat (S n)) true.
      * by zbool (q <? p + Z.of_nat (S n)) false.
Qed.

Lemma or_bytes_length ws p n f :
  0 <= p -> Z.of_nat (length ws) = (p + 3) / 4 ->
  Z.of_nat (length (loop n (fun i ws => or_byte ws (p + i) (f i)) ws)) = (p + Z.of_nat n + 3) / 4.
Proof.
  intros Hp Hl. induction n as [|n IH]; simpl loop.
  - rewrite Hl. f_equal. lia.
  - rewrite length_or_byte, IH by lia. Z.div_mod_to_equations. lia.
Qed.

(** The word copying loop. *)
Lemma copy_words_get ws k n f i :
  0 <= k -> 0 <= i ->
  get_word (loop n (fun i ws => set_word ws (k + i) (f i)) ws) i =
  if (k <=? i) && (i <? k + Z.of_nat n) then f (i - k) else get_word ws i.
Proof.
  intros Hk Hi. induction n as [|n IH]; simpl loop.
  - destruct (Z.leb_spec k i); simpl; [|done]. by zbool (i <? k + Z.of_nat 0) false.
  - rewrite get_set_word, IH by lia. destruct (Z.eqb_spec i (k + Z.of_nat n)) as [->|].
    + zbool (k <=? k + Z.of_nat n) true. zbool (k + Z.of_nat n <? k + Z.of_nat (S n)) true.
      simpl. f_equal. lia.
    + destruct (Z.leb_spec k i); simpl; [|done].
      destruct (Z.ltb_spec i (k + Z.of_nat n)).
      * by zbool (i <? k + Z.of_nat (S n)) true.
      * by zbool (i <? k + Z.of_nat (S n)) false.
Qed.

Lemma copy_words_length ws k n f :
  0 <= k -> Z.of_nat (length ws) = k ->
  Z.of_nat (length (loop n (fun i ws => set_word ws (k + i) (f i)) ws)) = k + Z.of_nat n.
Proof.
  intros Hk Hl. induction n as [|n IH]; simpl loop; [lia|]. rewrite length_set_word, IH by lia. lia.
Qed.

(** In the aligned branch the indexes are whole words. *)
Lemma concat_aligned a b :
  sigBytes a mod 4 = 0 ->
  words (concat a b) = loop (Z.to_nat ((sigBytes b + 3) / 4))
    (fun i ws => set_word ws (sigBytes a / 4 + i) (get_word (words b) i)) (words (clamp a)).
Proof.
  intros H. unfold concat. cbn [words]. rewrite H. simpl negb. cbv iota.
  apply loop_ext. intros i ws _. f_equal.
  rewrite Z.add_comm, Z.div_add_l by lia. lia.
Qed.

Lemma concat_byte a b q :
  0 <= sigBytes a -> 0 <= sigBytes b -> 0 <= q < sigBytes a + sigBytes b \/ (clean b /\ 0 <= q) ->
  byte_at (words (concat a b)) q =
  if q <? sigBytes a then byte_at (words a) q else byte_at (words b) (q - sigBytes a).
Proof.
  intros Ha Hb Hq. assert (0 <= q) as Hq0 by lia.
  assert (forall r, sigBytes a <= r -> byte_at (words (clamp a)) r = 0) as Hz.
  { intros r Hr. rewrite clamp_byte by lia. by zbool (r <? sigBytes a) false. }
  assert (byte_at (words (clamp a)) q = if q <? sigBytes a then byte_at (words a) q else 0) as Hc
    by (by apply clamp_byte).
  destruct (Z.eqb_spec (sigBytes a mod 4) 0) as [E|E].
  - rewrite concat_aligned by done.
    pose proof (div_4_bounds (sigBytes a)). pose proof (Z.div_mod (sigBytes a) 4 ltac:(lia)).
    pose proof (div_4_bounds q). pose proof (div_4_bounds (sigBytes b + 3)).
    unfold byte_at at 1. rewrite copy_words_get by lia.
    destruct (Z.ltb_spec q (sigBytes a)).
    + zbool (sigBytes a / 4 <=? q / 4) false. simpl. exact Hc.
    + zbool (sigBytes a / 4 <=? q / 4) true. simpl.
      assert (q / 4 - sigBytes a / 4 = (q - sigBytes a) / 4) as Eq by (Z.div_mod_to_equations; lia).
      assert (q mod 4 = (q - sigBytes a) mod 4) as Em by (Z.div_mod_to_equations; lia).
      destruct (Z.ltb_spec (q / 4) (sigBytes a / 4 + Z.of_nat (Z.to_nat ((sigBytes b + 3) / 4)))).
      * unfold byte_at. by rewrite Eq, Em.
      * destruct Hq as [Hq|[[_ Hcl] _]]; [lia|]. rewrite Hcl by lia. exact Hc.
  - unfold concat. cbn [words]. rewrite (proj2 (Z.eqb_neq _ _) E). simpl negb. cbv iota.
    rewrite or_bytes_spec; [|done|done|intros; apply byte_at_range|exact Hz].
    rewrite Z2Nat.id by done. destruct (Z.ltb_spec q (sigBytes a)); [exact Hc|].
    destruct (Z.ltb_spec q (sigBytes a + sigBytes b)); [done|].
    destruct Hq as [Hq|[[_ Hcl] _]]; [lia|]. by rewrite Hcl by lia.
Qed.

Lemma concat_sized a b :
  0 <= sigBytes a -> 0 <= sigBytes b -> sized (concat a b).
Proof.
  intros Ha Hb. split; [simpl; lia|]. change (sigBytes (concat a b)) with (sigBytes a + sigBytes b).
  destruct (Z.eqb_spec (sigBytes a mod 4) 0) as [E|E].
  - rewrite concat_aligned, copy_words_length; [| |rewrite clamp_sized by done|done].
    all: Z.div_mod_to_equations; lia.
  - unfold concat. cbn [words]. rewrite (proj2 (Z.eqb_neq _ _) E). simpl negb. cbv iota.
    rewrite or_bytes_length; [|done|by apply clamp_sized]. rewrite Z2Nat.id by done. done.
Qed.

Lemma concat_clean a b : 0 <= sigBytes a -> clean b -> clean (concat a b).
Proof.
  intros Ha Hb. pose proof Hb as [[Hb0 _] Hz]. split; [by apply concat_sized|].
  intros q Hq. change (sigBytes (concat a b)) with (sigBytes a + sigBytes b) in Hq.
  rewrite concat_byte; [|done|done|right; split; [done|lia]].
  zbool (q <? sigBytes a) false. apply Hz. lia.
Qed.

Lemma lookup_bytes w i : 0 <= i < sigBytes w -> bytes_of w !! Z.to_nat i = Some (byte_at (words w) i).
Proof.
  intros H. unfold bytes_of. rewrite list_lookup_fmap, lookup_seqZ_lt by lia. simpl. do 2 f_equal. lia.
Qed.

Lemma bytes_length w : length (bytes_of w) = Z.to_nat (sigBytes w).
Proof. unfold bytes_of. by rewrite length_fmap, length_seqZ. Qed.

Lemma bytes_eq w l :
  0 <= sigBytes w -> Z.of_nat (length l) = sigBytes w ->
  (forall i, 0 <= i < sigBytes w -> l !! Z.to_nat i = Some (byte_at (words w) i)) -> bytes_of w = l.
Proof.
  intros H0 Hl H. apply list_eq. intros k. destruct (decide (k < Z.to_nat (sigBytes w))%nat).
  - replace k with (Z.to_nat (Z.of_nat k)) by lia. rewrite lookup_bytes, H by lia. done.
  - rewrite !lookup_ge_None_2; [done|lia|rewrite bytes_length; lia].
Qed.

(** Concatenation of word arrays is concatenation of their bytes, whether it
    copies words or single bytes, and whatever the unused bits of the last
    words are. *)
Theorem concat_bytes a b :
  0 <= sigBytes a -> 0 <= sigBytes b -> bytes_of (concat a b) = bytes_of a ++ bytes_of b.
Proof.
  intros Ha Hb. apply bytes_eq; [simpl; lia|rewrite length_app, !bytes_length; simpl; lia|].
  change (sigBytes (concat a b)) with (sigBytes a + sigBytes b). intros i Hi.
  rewrite concat_byte by auto. destruct (Z.ltb_spec i (sigBytes a)).
  - rewrite lookup_app_l by (rewrite bytes_length; lia). by rewrite lookup_bytes by lia.
  - rewrite lookup_app_r by (rewrite bytes_length; lia). rewrite bytes_length, <- Z2Nat.inj_sub by lia.
    by rewrite lookup_bytes by lia.
Qed.

Lemma concat_bytes_witness :
  bytes_of (concat (WA [0x010203ff] 3) (WA [0x04050607; 0x08ffffff] 5)) = [1; 2; 3; 4; 5; 6; 7; 8].
Proof. rewrite (concat_bytes (WA [0x010203ff] 3) (WA [0x04050607; 0x08ffffff] 5)); [reflexivity| |]; simpl; lia. Defined.

(** * Encoders *)

Lemma Latin1_stringify_bytes w : Latin1_stringify w = bytes_of w.
Proof.
  unfold Latin1_stringify, bytes_of, seqZ. induction (Z.to_nat (sigBytes w)) as [|n IH]; [done|].
  simpl loop. rewrite IH. rewrite seq_S, !fmap_app. simpl. by rewrite Z.add_0_r.
Qed.

(** A fact about all bytes, by computation. *)
Lemma byte_forall (P : Z -> Prop) `{forall b, Decision (P b)} b :
  forallb (fun b => bool_decide (P b)) (seqZ 0 256) = true -> is_byte b -> P b.
Proof.
  intros HP Hb. rewrite forallb_forall in HP. eapply bool_decide_eq_true, HP, list_elem_of_In, elem_of_seqZ.
  unfold is_byte in Hb. lia.
Qed.

Lemma hex_digits b : is_byte b -> to_base 16 (b >>>w 4) ++ to_base 16 (b &w 0x0f) = hex_byte b.
Proof.
  apply (byte_forall (fun b => to_base 16 (b >>>w 4) ++ to_base 16 (b &w 0x0f) = hex_byte b)).
  vm_compute. reflexivity.
Qed.

Lemma Hex_stringify_bytes w : Hex_stringify w = bytes_of w ≫= hex_byte.
Proof.
  unfold Hex_stringify, bytes_of, seqZ. induction (Z.to_nat (sigBytes w)) as [|n IH]; [done|].
  cbn [loop]. cbv zeta. rewrite IH, hex_digits by apply byte_at_range.
  rewrite seq_S, !fmap_app, bind_app. simpl. by rewrite Z.add_0_r.
Qed.

Lemma parseInt16_hex b : is_byte b -> parseInt16 (hex_byte b) = Some b.
Proof. apply (byte_forall (fun b => parseInt16 (hex_byte b) = Some b)). vm_compute. reflexivity. Qed.

Lemma hex_bytes_substr bs k :
  (k < length bs)%nat -> js_substr (bs ≫= hex_byte) (2 * Z.of_nat k) 2 = hex_byte (default 0 (bs !! k)).
Proof.
  intros Hk. rewrite js_substr_nonneg by lia.
  revert k Hk. induction bs as [|b bs IH]; intros k Hk; [simpl in Hk; lia|].
  destruct k as [|k]; [done|]. simpl in Hk. change ((b :: bs) !! S k) with (bs !! k).
  rewrite <- (IH k) by lia.
  replace (Z.to_nat (2 * Z.of_nat (S k))) with (2 + Z.to_nat (2 * Z.of_nat k))%nat by lia. done.
Qed.

(** The array of some bytes. *)
Definition of_bytes (bs : list Z) : wordarray :=
  WA (loop (length bs) (fun i ws => or_byte ws i (default 0 (bs !! Z.to_nat i))) [])
     (Z.of_nat (length bs)).

Lemma get_byte_valid bs i : Forall is_byte bs -> is_byte (default 0 (bs !! Z.to_nat i)).
Proof.
  intros H. destruct (bs !! Z.to_nat i) as [b|] eqn:E; simpl; [|unfold is_byte; lia].
  by apply (Forall_lookup_1 _ _ _ _ H E).
Qed.

Lemma of_bytes_byte bs q :
  Forall is_byte bs -> 0 <= q -> byte_at (words (of_bytes bs)) q = default 0 (bs !! Z.to_nat q).
Proof.
  intros Hb Hq. unfold of_bytes. cbn [words].
  rewrite (loop_ext _ _ (fun i ws => or_byte ws (0 + i) (default 0 (bs !! Z.to_nat i)))) by done.
  rewrite or_bytes_spec; [|lia|done|intros; by apply get_byte_valid|intros; apply byte_at_zero_word; done].
  zbool (q <? 0) false. destruct (Z.ltb_spec q (0 + Z.of_nat (length bs))).
  - do 3 f_equal. lia.
  - by rewrite lookup_ge_None_2 by lia.
Qed.

Lemma of_bytes_clean bs : Forall is_byte bs -> clean (of_bytes bs).
Proof.
  intros Hb. split.
  - split; [simpl; lia|]. unfold of_bytes. cbn [words sigBytes].
    rewrite (loop_ext _ _ (fun i ws => or_byte ws (0 + i) (default 0 (bs !! Z.to_nat i)))) by done.
    rewrite or_bytes_length by (done || lia). done.
  - intros q Hq. simpl sigBytes in Hq. rewrite of_bytes_byte by (done || lia).
    by rewrite lookup_ge_None_2 by lia.
Qed.

Lemma of_bytes_id bs : Forall is_byte bs -> bytes_of (of_bytes bs) = bs.
Proof.
  intros Hb. apply bytes_eq; [simpl; lia|done|]. intros i Hi. rewrite of_bytes_byte by (done || lia).
  simpl sigBytes in Hi. destruct (bs !! Z.to_nat i) eqn:E; [done|].
  apply lookup_ge_None_1 in E. lia.
Qed.

Lemma bytes_valid w : Forall is_byte (bytes_of w).
Proof. unfold bytes_of. apply Forall_fmap, Forall_forall. intros i _. apply byte_at_range. Qed.

Lemma Latin1_parse_of_bytes bs : Forall is_byte bs -> Latin1_parse bs = of_bytes bs.
Proof.
  intros Hb. unfold Latin1_parse, of_bytes, js_len. f_equal. apply loop_ext. intros i ws _. f_equal.
  pose proof (get_byte_valid bs i Hb) as Hv. unfold is_byte in Hv.
  apply byte_ext; [unfold is_byte; pose proof (and_range (default 0 (bs !! Z.to_nat i)) 0xff); lia|done|].
  intros j Hj. rewrite and_bits, testbit_255 by lia. zbool (j <? 8) true. apply andb_true_r.
Qed.

Lemma Hex_parse_of_bytes bs :
  Forall is_byte bs -> Hex_parse (bs ≫= hex_byte) = Some (of_bytes bs).
Proof.
  intros Hb. unfold Hex_parse, js_len. rewrite hex_bytes_length.
  replace (Z.of_nat (2 * length bs)) with (2 * Z.of_nat (length bs)) by lia.
  rewrite Z.even_mul. simpl orb. cbv iota. rewrite Z.mul_comm, Z.div_mul by lia.
  rewrite Nat2Z.id. unfold of_bytes. do 2 f_equal. apply loop_ext. intros i ws Hi. cbv zeta.
  unfold or_byte. replace (2 * i / 8) with (i / 4) by (Z.div_mod_to_equations; lia).
  replace ((2 * i) mod 8 * 4) with (i mod 4 * 8) by (Z.div_mod_to_equations; lia).
  replace i with (Z.of_nat (Z.to_nat i)) at 3 by lia.
  rewrite hex_bytes_substr, parseInt16_hex by (lia || by apply get_byte_valid). done.
Qed.

(** Printing a word array in hexadecimal and parsing it back gives an array of
    the same bytes, with no stray bits; so does Latin-1. *)
Theorem hex_latin1_roundtrip w :
  Hex_parse (Hex_stringify w) = Some (of_bytes (bytes_of w)) /\
  Latin1_parse (Latin1_stringify w) = of_bytes (bytes_of w) /\
  bytes_of (of_bytes (bytes_of w)) = bytes_of w /\ clean (of_bytes (bytes_of w)).
Proof.
  pose proof (bytes_valid w). rewrite Hex_stringify_bytes, Latin1_stringify_bytes. split_and!.
  - by apply Hex_parse_of_bytes.
  - by apply Latin1_parse_of_bytes.
  - by apply of_bytes_id.
  - by apply of_bytes_clean.
Qed.
