(* ===== verification/TypedArrays.v ===== *)
(** Word arrays from typed arrays (web3.js 9290-9346): the constructor of word arrays is
    replaced by one that also takes array buffers and their views. *)
From Stdlib Require Import ZArith Lia.
From S2P Require Import Prelude Words WordArray.
Open Scope Z_scope.

(** A view shows the bytes of its buffer from [byteOffset] on; the element types differ
    in how they read them. *)
Inductive element_type := Int8 | Uint8Clamped | Int16 | Uint16 | Int32 | Uint32 | Float32 | Float64 | Uint8.
Record view := View { v_type : element_type; v_buffer : list Z; byteOffset : nat; byteLength : nat }.
(** What [WordArray.init] may be given. *)
Inductive init_arg :=
| ArrayBuffer (bytes : list Z)
| TypedArray (v : view)
| Plain (ws : option (list Z)) (sigBytes : option Z).

Definition view_bytes (v : view) : list Z := take (byteLength v) (drop (byteOffset v) (v_buffer v)).
(** [new Uint8Array(..)] of a buffer, and of a part of it. *)
Definition uint8_of_buffer (bytes : list Z) : view := View Uint8 bytes 0 (length bytes).
Definition to_uint8 (v : view) : view := View Uint8 (v_buffer v) (byteOffset v) (byteLength v).

(** [WordArray.init] as it was. *)
Definition superInit (ws : option (list Z)) (size : option Z) : wordarray :=
  let ws := default [] ws in
  WA ws (default (Z.of_nat (length ws) * 4) size).
Definition from_uint8 (v : view) : wordarray :=
  let b := view_bytes v in
  let words := loop (byteLength v) (fun i ws => or_byte ws i (default 0 (b !! Z.to_nat i))) [] in
  superInit (Some words) (Some (Z.of_nat (byteLength v))).
Definition subInit (a : init_arg) : wordarray :=
  let a := match a with ArrayBuffer bytes => TypedArray (uint8_of_buffer bytes) | _ => a end in
  let a := match a with
           | TypedArray v => match v_type v with Uint8 => a | _ => TypedArray (to_uint8 v) end
           | _ => a
           end in
  match a with
  | TypedArray v => from_uint8 v
  | Plain ws size => superInit ws size
  | ArrayBuffer _ => wa_empty
  end.

(** A view lies inside its buffer. *)
Definition view_ok (v : view) : Prop := Forall is_byte (v_buffer v) /\ (byteOffset v + byteLength v <= length (v_buffer v))%nat.

(** The word array of a typed array has just the bytes the array shows, whatever the type
    of its elements and wherever it lies in its buffer; without a typed array the
    constructor does what it did. *)
Theorem typed_array_bytes v : view_ok v ->
  subInit (TypedArray v) = of_bytes (view_bytes v) /\ bytes_of (subInit (TypedArray v)) = view_bytes v /\
  subInit (ArrayBuffer (v_buffer v)) = of_bytes (v_buffer v).
Proof.
  intros [Hb Hl].
  assert (forall w, view_ok w -> from_uint8 w = of_bytes (view_bytes w)) as H.
  { intros w [Hw Hwl]. unfold from_uint8, superInit, of_bytes. cbn [default from_option id].
    assert (length (view_bytes w) = byteLength w) as El by (unfold view_bytes; rewrite length_take, length_drop; lia).
    by rewrite El. }
  assert (subInit (TypedArray v) = of_bytes (view_bytes v)) as Es.
  { unfold subInit. destruct (v_type v) eqn:Et; cbv iota beta; try (rewrite (H (to_uint8 v)) by done; done). by apply H. }
  split_and!; [done| |].
  - rewrite Es. apply of_bytes_id. apply Forall_take, Forall_drop. done.
  - unfold subInit, uint8_of_buffer. cbn [v_type]. rewrite H by (by split; [|cbn; lia]). unfold view_bytes. cbn [byteLength byteOffset v_buffer].
    by rewrite drop_0, take_ge by lia.
Qed.
Lemma typed_array_bytes_witness :
  bytes_of (subInit (TypedArray (View Uint16 [0; 1; 2; 3; 4; 255] 2 4))) = [2; 3; 4; 255].
Proof.
  refine (proj1 (proj2 (typed_array_bytes (View Uint16 [0; 1; 2; 3; 4; 255] 2 4) _))).
  split; [|cbn; lia]. repeat (constructor; [split; lia|]). constructor.
Defined.
