(* ===== verification/Hasher.v ===== *)
(** crypto-js's [BufferedBlockAlgorithm] and [Hasher] (web3.js 8371-8611): data
    is buffered, whole blocks are processed as they arrive, and [finalize]
    pads. A hash function gives the parts of the class [Algorithm]; under its
    laws the digest depends on the bytes of the message only, not on how it was
    cut into updates. *)
From Stdlib Require Import ZArith Lia.
From S2P Require Import Prelude Words WordArray.
Open Scope Z_scope.
Open Scope word_scope.

(** * Definitions *)

(** [_process]: [step] is [_doProcessBlock(dataWords, offset)], which may
    change the state and the words. Returns the new state, the data left in
    the buffer and the processed words. *)
Definition _process {S} (blockSize minBufferSize : Z) (doFlush : bool)
    (step : Z -> S * list Z -> S * list Z) (s : S) (data : wordarray) : S * wordarray * wordarray :=
  let blockSizeBytes := blockSize * 4 in
  let nBlocksReady :=
    if doFlush then (sigBytes data + blockSizeBytes - 1) / blockSizeBytes
    else Z.max (sigBytes data / blockSizeBytes - minBufferSize) 0 in
  let nWordsReady := nBlocksReady * blockSize in
  let nBytesReady := Z.min (nWordsReady * 4) (sigBytes data) in
  let '(s, ws) := loop (Z.to_nat nBlocksReady) (fun k => step (k * blockSize)) (s, words data) in
  (s, WA (drop (Z.to_nat nWordsReady) ws) (sigBytes data - nBytesReady),
   WA (take (Z.to_nat nWordsReady) ws) nBytesReady).

(** The parts a concrete hash function supplies: [_doReset],
    [_doProcessBlock], and [_doFinalize] before and after its [_process].
    [_trailer n r] is what the padding is meant to add to [n] bytes of which
    [r] are in the last block. *)
Class Algorithm (S : Type) := {
  blockSize : Z;
  _doReset : S;
  _doProcessBlock : Z -> S * list Z -> S * list Z;
  _pad : Z -> wordarray -> wordarray;
  _output : S -> wordarray;
  _trailer : Z -> Z -> list Z
}.

Record hasher (S : Type) := Hasher { h_state : S; _data : wordarray; _nDataBytes : Z }.
Arguments Hasher {S}.
Arguments h_state {S}.
Arguments _data {S}.
Arguments _nDataBytes {S}.

Section Hasher.
Context {S : Type} `{Algorithm S}.

Definition reset : hasher S := Hasher _doReset wa_empty 0.

Definition _append (d : wordarray) (h : hasher S) : hasher S :=
  Hasher (h_state h) (concat (_data h) d) (_nDataBytes h + sigBytes d).

Definition process_hasher (h : hasher S) : hasher S :=
  let '(s, d, _) := _process blockSize 0 false _doProcessBlock (h_state h) (_data h) in
  Hasher s d (_nDataBytes h).

Definition update (d : wordarray) (h : hasher S) : hasher S := process_hasher (_append d h).

Definition _doFinalize (h : hasher S) : wordarray :=
  _output (h_state (process_hasher (Hasher (h_state h) (_pad (_nDataBytes h) (_data h)) (_nDataBytes h)))).

(** [finalize(messageUpdate)]; the update is optional. *)
Definition finalize (d : option wordarray) (h : hasher S) : wordarray :=
  _doFinalize (match d with Some d => _append d h | None => h end).

(** [_createHelper] *)
Definition hash (d : wordarray) : wordarray := finalize (Some d) reset.
End Hasher.

(** * Word arrays up to the representation of words *)

(** Words equal as 32-bit numbers. *)
Definition weq (a b : list Z) : Prop := u32 <$> a = u32 <$> b.
Definition waeq (a b : wordarray) : Prop := weq (words a) (words b) /\ sigBytes a = sigBytes b.

#[export] Instance weq_equiv : Equivalence weq.
Proof. split; unfold weq; repeat intro; congruence. Qed.
#[export] Instance waeq_equiv : Equivalence waeq.
Proof.
  split.
  - by intros a.
  - intros a b [? ?]. by split; symmetry.
  - intros a b c [? ?] [? ?]. by split; etrans.
Qed.

Lemma get_u32 ws i : get_word (u32 <$> ws) i = u32 (get_word ws i).
Proof. unfold get_word. rewrite list_lookup_fmap. by destruct (ws !! Z.to_nat i). Qed.

Lemma weq_get a b i : weq a b -> u32 (get_word a i) = u32 (get_word b i).
Proof. intros H. by rewrite <- !get_u32, H. Qed.

Lemma weq_length a b : weq a b -> length a = length b.
Proof. intros H. by rewrite <- (length_fmap u32 a), H, length_fmap. Qed.

Lemma weq_intro a b :
  length a = length b -> (forall i, 0 <= i -> u32 (get_word a i) = u32 (get_word b i)) -> weq a b.
Proof.
  intros Hl H. apply list_eq. intros i. rewrite !list_lookup_fmap.
  specialize (H (Z.of_nat i) ltac:(lia)). unfold get_word in H. rewrite Nat2Z.id in H.
  destruct (a !! i) as [x|] eqn:Ea, (b !! i) as [y|] eqn:Eb; simpl in *; try done.
  - by rewrite H.
  - apply lookup_lt_Some in Ea. apply lookup_ge_None_1 in Eb. lia.
  - apply lookup_lt_Some in Eb. apply lookup_ge_None_1 in Ea. lia.
Qed.

(** Four bytes determine a word. *)
Lemma word_ext a b i k :
  0 <= i -> 0 <= k -> (forall j, 0 <= j < 4 -> byte_at a (4 * i + j) = byte_at b (4 * k + j)) ->
  u32 (get_word a i) = u32 (get_word b k).
Proof.
  intros Hi Hk H. apply u32_ext. intros t Ht.
  pose proof (H (3 - t / 8) ltac:(Z.div_mod_to_equations; lia)) as Hb.
  apply (f_equal (fun z => Z.testbit z (t mod 8))) in Hb.
  pose proof (Z.mod_pos_bound t 8 ltac:(lia)).
  rewrite !byte_at_bits in Hb by (Z.div_mod_to_equations; lia).
  replace ((4 * i + (3 - t / 8)) / 4) with i in Hb by (Z.div_mod_to_equations; lia).
  replace ((4 * k + (3 - t / 8)) / 4) with k in Hb by (Z.div_mod_to_equations; lia).
  replace (24 - (4 * i + (3 - t / 8)) mod 4 * 8 + t mod 8) with t in Hb by (Z.div_mod_to_equations; lia).
  by replace (24 - (4 * k + (3 - t / 8)) mod 4 * 8 + t mod 8) with t in Hb by (Z.div_mod_to_equations; lia).
Qed.

Lemma clean_waeq a b : clean a -> clean b -> bytes_of a = bytes_of b -> waeq a b.
Proof.
  intros [[Ha0 Hal] Haz] [[Hb0 Hbl] Hbz] H.
  assert (sigBytes a = sigBytes b) as Hs by (apply (f_equal length) in H; rewrite !bytes_length in H; lia).
  split; [|done]. apply weq_intro; [rewrite Hs in Hal; lia|].
  intros i Hi. apply word_ext; [done|done|]. intros j Hj.
  destruct (decide (4 * i + j < sigBytes a)) as [Hlt|Hge].
  - apply (inj Some). rewrite <- !lookup_bytes by lia. by rewrite H.
  - rewrite Haz, Hbz by lia. done.
Qed.

(** * Incremental hashing *)

(** What makes a hash function a function of the message: a block is processed
    looking at its own words as 32-bit numbers only, and leaves the words after
    it alone; padding adds the trailer (the sizes are those for which the bit
    counts of the buffer fit 32 bits). *)
Class AlgorithmLaws (S : Type) `{Algorithm S} := {
  blockSize_pos : 0 < blockSize;
  block_local M M' off off' s :
    0 <= off -> 0 <= off' ->
    (forall i, 0 <= i < blockSize -> u32 (get_word M (off + i)) = u32 (get_word M' (off' + i))) ->
    (_doProcessBlock off (s, M)).1 = (_doProcessBlock off' (s, M')).1;
  block_frame M off s i :
    0 <= off -> off + blockSize <= i -> get_word (_doProcessBlock off (s, M)).2 i = get_word M i;
  block_length M off s :
    0 <= off -> off + blockSize <= Z.of_nat (length M) -> length (_doProcessBlock off (s, M)).2 = length M;
  pad_trailer n d :
    clean d -> 0 <= n -> sigBytes d < 2 ^ 28 -> 0 <= sigBytes (_pad n d) /\
    bytes_of (_pad n d) = bytes_of d ++ _trailer n (sigBytes d mod (blockSize * 4))
}.

Section Incremental.
Context {S : Type} `{AlgorithmLaws S}.

(** [n] blocks from the word [c] on. *)
Definition blocks (n : nat) (c : Z) (x : S * list Z) : S * list Z :=
  loop n (fun k => _doProcessBlock (c + k * blockSize)) x.

Lemma blocks_frame n c x i :
  0 <= c -> c + Z.of_nat n * blockSize <= i -> get_word (blocks n c x).2 i = get_word x.2 i.
Proof.
  pose proof blockSize_pos. intros Hc Hi. unfold blocks. induction n as [|n IH]; [done|]. simpl loop.
  rewrite (surjective_pairing (loop n _ x)), block_frame by nia. apply IH. nia.
Qed.

Lemma blocks_length n c x :
  0 <= c -> c + Z.of_nat n * blockSize <= Z.of_nat (length x.2) -> length (blocks n c x).2 = length x.2.
Proof.
  pose proof blockSize_pos. intros Hc Hn. unfold blocks. induction n as [|n IH]; [done|]. simpl loop.
  rewrite (surjective_pairing (loop n _ x)), block_length; [apply IH; nia|nia|]. rewrite IH; nia.
Qed.

Lemma blocks_local n s M M' c c' :
  0 <= c -> 0 <= c' ->
  (forall i, 0 <= i < Z.of_nat n * blockSize -> u32 (get_word M (c + i)) = u32 (get_word M' (c' + i))) ->
  (blocks n c (s, M)).1 = (blocks n c' (s, M')).1.
Proof.
  pose proof blockSize_pos. intros Hc Hc'. unfold blocks. induction n as [|n IH]; intros Hi; [done|].
  simpl loop. fold (blocks n c (s, M)) (blocks n c' (s, M')).
  rewrite (surjective_pairing (blocks n c (s, M))), (surjective_pairing (blocks n c' (s, M'))).
  unfold blocks at 1 3. rewrite IH by (intros i Hlt; apply Hi; nia). apply block_local; [nia|nia|].
  intros i Hlt. rewrite !blocks_frame by nia. simpl.
  replace (c + Z.of_nat n * blockSize + i) with (c + (Z.of_nat n * blockSize + i)) by lia.
  replace (c' + Z.of_nat n * blockSize + i) with (c' + (Z.of_nat n * blockSize + i)) by lia.
  apply Hi. nia.
Qed.

Lemma blocks_add n m c x : blocks (n + m) c x = blocks m (c + Z.of_nat n * blockSize) (blocks n c x).
Proof.
  unfold blocks. induction m as [|m IH].
  - by rewrite Nat.add_0_r.
  - rewrite Nat.add_succ_r. simpl loop. rewrite IH. f_equal. rewrite Nat2Z.inj_add. lia.
Qed.
(** [_process] without flushing, in terms of [blocks]. *)
Lemma process_blocks s d :
  let n := Z.to_nat (sigBytes d / (blockSize * 4)) in
  let r := blocks n 0 (s, words d) in
  0 <= sigBytes d ->
  _process blockSize 0 false _doProcessBlock s d =
  (r.1, WA (drop (Z.to_nat (Z.of_nat n * blockSize)) r.2) (sigBytes d - Z.of_nat n * blockSize * 4),
   WA (take (Z.to_nat (Z.of_nat n * blockSize)) r.2) (Z.of_nat n * blockSize * 4)).
Proof.
  pose proof blockSize_pos. intros n r Hd. subst n r. unfold _process.
  assert (0 < blockSize * 4) as Hb by lia.
  pose proof (Z.div_pos (sigBytes d) _ Hd Hb) as Hnb. pose proof (Z.mul_div_le (sigBytes d) _ Hb) as Hle.
  set (nb := sigBytes d / (blockSize * 4)) in *.
  rewrite Z.sub_0_r, Z.max_l, Z2Nat.id by lia.
  rewrite (loop_ext _ _ (fun k => _doProcessBlock (0 + k * blockSize))) by done.
  fold (blocks (Z.to_nat nb) 0 (s, words d)).
  destruct (blocks (Z.to_nat nb) 0 (s, words d)) as [s' ws]. simpl.
  by rewrite Z.min_l by nia.
Qed.

Lemma byte_at_drop n ws q : 0 <= q -> byte_at (drop n ws) q = byte_at ws (q + 4 * Z.of_nat n).
Proof.
  intros Hq. unfold byte_at, get_word. rewrite lookup_drop.
  rewrite (Z.mul_comm 4), Z.div_add, Z.mod_add by lia. do 5 f_equal. Z.div_mod_to_equations; lia.
Qed.

Lemma byte_at_get a b q : get_word a (q / 4) = get_word b (q / 4) -> byte_at a q = byte_at b q.
Proof. intros H'. unfold byte_at. by rewrite H'. Qed.

(** The state after the first [k] blocks of the bytes [m]. *)
Definition absorb (k : nat) (m : list Z) : S := (blocks k 0 (_doReset, words (of_bytes m))).1.

Definition full (m : list Z) : nat := Z.to_nat (Z.of_nat (length m) / (blockSize * 4)).

(** The hasher has been given the bytes [m]. *)
Definition given (h : hasher S) (m : list Z) : Prop :=
  Forall is_byte m /\ h_state h = absorb (full m) m /\ clean (_data h) /\
  bytes_of (_data h) = drop (full m * Z.to_nat (blockSize * 4)) m /\
  _nDataBytes h = Z.of_nat (length m).

Lemma full_bound m : (Z.of_nat (full m) * (blockSize * 4)) <= Z.of_nat (length m).
Proof.
  pose proof blockSize_pos. unfold full. assert (0 < blockSize * 4) as Hb by lia.
  pose proof (Z.div_pos (Z.of_nat (length m)) _ ltac:(lia) Hb).
  pose proof (Z.mul_div_le (Z.of_nat (length m)) _ Hb). rewrite Z2Nat.id by done. lia.
Qed.

Lemma of_bytes_byte_app m d q :
  Forall is_byte m -> Forall is_byte d -> 0 <= q < Z.of_nat (length m) ->
  byte_at (words (of_bytes (m ++ d))) q = byte_at (words (of_bytes m)) q.
Proof.
  intros Hm Hd Hq. rewrite !of_bytes_byte by (try apply Forall_app_2; done || lia).
  by rewrite lookup_app_l by lia.
Qed.

Lemma absorb_app k m d :
  Forall is_byte m -> Forall is_byte d -> Z.of_nat k * (blockSize * 4) <= Z.of_nat (length m) ->
  absorb k (m ++ d) = absorb k m.
Proof.
  pose proof blockSize_pos. intros Hm Hd Hk. apply blocks_local; [lia|lia|]. intros i Hi.
  apply word_ext; [lia|lia|]. intros j Hj. rewrite of_bytes_byte_app by (done || nia). done.
Qed.
(** Removing processed words. *)
Lemma drop_words_clean n w ws :
  clean w -> length ws = length (words w) -> Z.of_nat n * 4 <= sigBytes w ->
  (forall i, Z.of_nat n <= i -> get_word ws i = get_word (words w) i) ->
  clean (WA (drop n ws) (sigBytes w - Z.of_nat n * 4)) /\
  bytes_of (WA (drop n ws) (sigBytes w - Z.of_nat n * 4)) = drop (4 * n) (bytes_of w).
Proof.
  intros [[Hs Hl] Hz] Hlen Hn Hget.
  assert (forall q, 0 <= q -> byte_at (drop n ws) q = byte_at (words w) (q + 4 * Z.of_nat n)) as Hbyte.
  { intros q Hq. rewrite byte_at_drop by done. apply byte_at_get, Hget. Z.div_mod_to_equations; lia. }
  split.
  - split; [split|]; cbn [words sigBytes].
    + lia.
    + rewrite length_drop. Z.div_mod_to_equations; lia.
    + intros q Hq. rewrite Hbyte by lia. apply Hz. lia.
  - apply bytes_eq; cbn [words sigBytes]; [lia|rewrite length_drop, bytes_length; lia|].
    intros i Hi. rewrite Hbyte by lia. rewrite lookup_drop.
    replace (4 * n + Z.to_nat i)%nat with (Z.to_nat (i + 4 * Z.of_nat n)) by lia.
    apply lookup_bytes. lia.
Qed.

Lemma given_append h m d :
  given h m -> clean d -> clean (concat (_data h) d) /\
  bytes_of (concat (_data h) d) = drop (full m * Z.to_nat (blockSize * 4)) (m ++ bytes_of d).
Proof.
  pose proof blockSize_pos. intros (Hm & _ & Hc & Hb & _) Hd. pose proof Hc as [[Hs _] _].
  pose proof Hd as [[Hs' _] _]. split; [by apply concat_clean|].
  rewrite concat_bytes, Hb by done. rewrite drop_app_le; [done|]. pose proof (full_bound m). nia.
Qed.

(** Processing the blocks of a buffer continues on the message. *)
Lemma absorb_more k M w n :
  Forall is_byte M -> bytes_of w = drop (k * Z.to_nat (blockSize * 4)) M ->
  Z.of_nat n * (blockSize * 4) <= sigBytes w ->
  (blocks n 0 (absorb k M, words w)).1 = absorb (k + n) M.
Proof.
  pose proof blockSize_pos. intros HM Hb Hn. unfold absorb. rewrite blocks_add.
  rewrite (surjective_pairing (blocks k 0 (_doReset, words (of_bytes M)))).
  apply blocks_local; [lia|nia|]. intros i Hi. rewrite blocks_frame by nia. cbn [snd].
  rewrite !Z.add_0_l. apply word_ext; [lia|nia|]. intros j Hj.
  rewrite of_bytes_byte by (done || nia).
  assert (M !! Z.to_nat (4 * (Z.of_nat k * blockSize + i) + j) = Some (byte_at (words w) (4 * i + j)))
    as ->; [|done].
  rewrite <- lookup_bytes, Hb, lookup_drop by nia. f_equal. nia.
Qed.

Lemma given_update h m d : given h m -> clean d -> given (update d h) (m ++ bytes_of d).
Proof.
  intros Hg Hd. destruct (given_append h m d Hg Hd) as [Hc Hb].
  destruct Hg as (Hm & Hst & _ & _ & Hn). pose proof (bytes_valid d) as Hdv.
  pose proof blockSize_pos as Hpos. pose proof Hc as [[Hs Hl] Hz]. pose proof Hd as [[Hds _] _].
  set (D := concat (_data h) d) in *. set (m' := m ++ bytes_of d) in *.
  assert (Forall is_byte m') as Hm' by by apply Forall_app_2.
  unfold update, process_hasher, _append. cbn [h_state _data _nDataBytes]. fold D.
  rewrite process_blocks by done. cbn [fst].
  set (n := Z.to_nat (sigBytes D / (blockSize * 4))).
  assert (0 < blockSize * 4) as Hb4 by lia.
  assert (sigBytes D = Z.of_nat (length m') - Z.of_nat (full m) * (blockSize * 4)) as HsD.
  { apply (f_equal length) in Hb. rewrite bytes_length, length_drop in Hb.
    pose proof (full_bound m). assert (length m <= length m')%nat by (unfold m'; rewrite length_app; lia). nia. }
  assert (full m' = full m + n)%nat as Hfull.
  { unfold n. rewrite HsD. unfold full at 1.
    replace (Z.of_nat (length m')) with
      (Z.of_nat (length m') - Z.of_nat (full m) * (blockSize * 4) + Z.of_nat (full m) * (blockSize * 4)) at 1 by lia.
    rewrite Z.div_add by lia. rewrite Z2Nat.inj_add, Nat2Z.id; [lia| |lia].
    apply Z.div_pos; lia. }
  assert (Z.of_nat n * (blockSize * 4) <= sigBytes D) as Hnle.
  { unfold n. rewrite Z2Nat.id by (apply Z.div_pos; lia). pose proof (Z.mul_div_le (sigBytes D) _ Hb4). lia. }
  assert (Z.of_nat n * blockSize <= Z.of_nat (length (words D))) as HnD
    by (rewrite Hl; Z.div_mod_to_equations; lia).
  pose proof (drop_words_clean (Z.to_nat (Z.of_nat n * blockSize)) D
    (blocks n 0 (h_state h, words D)).2 Hc) as Hdrop.
  rewrite Z2Nat.id in Hdrop by nia.
  specialize (Hdrop (blocks_length n 0 (h_state h, words D) ltac:(lia) HnD) ltac:(lia)
    (fun i Hi => blocks_frame n 0 (h_state h, words D) i ltac:(lia) Hi)).
  split; [done|]. split; [|split; [|split]].
  - cbn [h_state]. rewrite Hst, Hfull. rewrite <- (absorb_app (full m) m (bytes_of d)) by (done || apply full_bound).
    by apply absorb_more.
  - cbn [_data]. apply Hdrop.
  - cbn [_data]. rewrite (proj2 Hdrop), Hb, drop_drop, Hfull. f_equal. nia.
  - cbn [_nDataBytes]. unfold m'. rewrite Hn, length_app, bytes_length. lia.
Qed.
Lemma given_reset : given reset [].
Proof.
  pose proof blockSize_pos. unfold given, reset, full. simpl. rewrite Z.div_0_l by lia. simpl.
  split_and!; try done. apply (of_bytes_clean []). constructor.
Qed.

Lemma given_updates ds h m :
  given h m -> Forall clean ds -> given (fold_left (fun h d => update d h) ds h) (m ++ (ds ≫= bytes_of)).
Proof.
  intros Hg Hd. revert h m Hg. induction Hd as [|d ds Hd Hds IH]; intros h m Hg; simpl.
  - by rewrite app_nil_r.
  - rewrite app_assoc. apply IH. by apply given_update.
Qed.

(** The digest of some bytes. *)
Definition digest (m : list Z) : wordarray :=
  let padded := m ++ _trailer (Z.of_nat (length m)) (Z.of_nat (length m) mod (blockSize * 4)) in
  _output (absorb (full padded) padded).

Lemma doFinalize_digest s D m k :
  Forall is_byte m -> Z.of_nat (length m) < 2 ^ 28 -> clean D ->
  bytes_of D = drop (k * Z.to_nat (blockSize * 4)) m ->
  Z.of_nat k * (blockSize * 4) <= Z.of_nat (length m) -> s = absorb k m ->
  _doFinalize (Hasher s D (Z.of_nat (length m))) = digest m.
Proof.
  pose proof blockSize_pos. intros Hm Hsz HD Hb Hk ->.
  pose proof HD as [[Hs _] _]. assert (0 < blockSize * 4) as Hb4 by lia.
  assert (sigBytes D = Z.of_nat (length m) - Z.of_nat k * (blockSize * 4)) as HsD.
  { apply (f_equal length) in Hb. rewrite bytes_length, length_drop in Hb. nia. }
  destruct (pad_trailer (Z.of_nat (length m)) D HD ltac:(lia) ltac:(nia)) as [HP0 HP].
  assert (sigBytes D mod (blockSize * 4) = Z.of_nat (length m) mod (blockSize * 4)) as Hmod.
  { replace (Z.of_nat (length m)) with (sigBytes D + Z.of_nat k * (blockSize * 4)) by lia.
    by rewrite Z.mod_add by lia. }
  rewrite Hmod in HP. unfold digest.
  set (t := _trailer _ _) in *. set (P := _pad _ D) in *. set (n := Z.to_nat (sigBytes P / (blockSize * 4))).
  assert (Forall is_byte t) as Ht.
  { pose proof (bytes_valid P) as Hv. rewrite HP in Hv. by apply Forall_app in Hv as [_ Hv]. }
  assert (bytes_of P = drop (k * Z.to_nat (blockSize * 4)) (m ++ t)) as HbP.
  { rewrite HP, Hb, drop_app_le; [done|nia]. }
  assert (full (m ++ t) = k + n)%nat as Hfull.
  { assert (Z.of_nat (length (m ++ t)) = sigBytes P + Z.of_nat k * (blockSize * 4)) as E.
    { apply (f_equal length) in HbP. rewrite bytes_length, length_drop in HbP. rewrite length_app in *. nia. }
    unfold full, n. rewrite E, Z.div_add by lia.
    rewrite Z2Nat.inj_add, Nat2Z.id; [lia|apply Z.div_pos; lia|lia]. }
  unfold _doFinalize, process_hasher. cbn [h_state _data _nDataBytes]. fold P.
  rewrite process_blocks by done. cbn [fst h_state]. fold n. f_equal. rewrite Hfull.
  rewrite <- (absorb_app k m t) by done. apply absorb_more; [by apply Forall_app_2|done|].
  unfold n. rewrite Z2Nat.id by (apply Z.div_pos; lia). pose proof (Z.mul_div_le (sigBytes P) _ Hb4). lia.
Qed.

Lemma finalize_digest h m d :
  given h m -> clean d -> Z.of_nat (length (m ++ bytes_of d)) < 2 ^ 28 ->
  finalize (Some d) h = digest (m ++ bytes_of d).
Proof.
  intros Hg Hd Hsz. destruct (given_append h m d Hg Hd) as [Hc Hb].
  destruct Hg as (Hm & Hst & _ & _ & Hn). pose proof Hd as [[Hds _] _].
  unfold finalize, _append. rewrite Hn.
  replace (Z.of_nat (length m) + sigBytes d) with (Z.of_nat (length (m ++ bytes_of d)))
    by (rewrite length_app, bytes_length; lia).
  apply (doFinalize_digest _ _ _ (full m)); try done.
  - apply Forall_app_2; [done|apply bytes_valid].
  - rewrite length_app. pose proof (full_bound m). lia.
  - rewrite Hst. symmetry. apply absorb_app; [done|apply bytes_valid|apply full_bound].
Qed.

Lemma finalize_none h m : given h m -> Z.of_nat (length m) < 2 ^ 28 -> finalize None h = digest m.
Proof.
  intros (Hm & Hst & Hc & Hb & Hn) Hsz. destruct h as [s D n]. cbn [h_state _data _nDataBytes] in *. subst n.
  apply (doFinalize_digest s D m (full m)); try done. apply full_bound.
Qed.

(** However a message is cut into updates, the digest is that of its bytes. *)
Lemma finalize_updates ds d :
  Forall clean ds -> clean d -> Z.of_nat (length ((ds ≫= bytes_of) ++ bytes_of d)) < 2 ^ 28 ->
  finalize (Some d) (fold_left (fun h d => update d h) ds reset) = digest ((ds ≫= bytes_of) ++ bytes_of d).
Proof.
  intros Hds Hd Hsz. apply finalize_digest; [|done|done].
  apply (given_updates ds reset [] given_reset Hds).
Qed.

Lemma updates_valid ds d : Forall is_byte ((ds ≫= bytes_of) ++ bytes_of d).
Proof. apply Forall_app_2; [|apply bytes_valid]. apply Forall_bind, Forall_true. intros x. apply bytes_valid. Qed.

(** Hashing is incremental. *)
Lemma incremental ds d :
  Forall clean ds -> clean d -> Z.of_nat (length ((ds ≫= bytes_of) ++ bytes_of d)) < 2 ^ 28 ->
  finalize (Some d) (fold_left (fun h d => update d h) ds reset) =
  hash (of_bytes ((ds ≫= bytes_of) ++ bytes_of d)).
Proof.
  intros Hds Hd Hsz. rewrite finalize_updates by done. pose proof (updates_valid ds d) as Hv.
  unfold hash. rewrite (finalize_digest reset [] _ given_reset); [|by apply of_bytes_clean|by rewrite of_bytes_id].
  by rewrite of_bytes_id.
Qed.
End Incremental.

(** The sizes of digests: what an algorithm's state keeps so that its output
    has the size of the digest. *)
Class DigestLaws (S : Type) `{Algorithm S} := {
  state_ok : S -> Prop;
  digestSize : Z;
  reset_ok : state_ok _doReset;
  block_ok M off s : state_ok s -> state_ok (_doProcessBlock off (s, M)).1;
  output_size s :
    state_ok s -> sigBytes (_output s) = digestSize /\ digestSize <= 4 * Z.of_nat (length (words (_output s)));
  digestSize_range : 4 <= digestSize <= blockSize * 4 /\ digestSize <= 64;
  digestSize_words : digestSize mod 4 = 0
}.

Lemma digest_size {S} `{DigestLaws S} m :
  sigBytes (digest m) = digestSize /\ digestSize <= 4 * Z.of_nat (length (words (digest m))).
Proof.
  unfold digest, absorb, blocks. apply output_size.
  set (k := full _). set (M := words _). clearbody k M.
  assert (state_ok (loop k (fun i => _doProcessBlock (0 + i * blockSize)) (_doReset, M)).1) as Hok; [|exact Hok].
  induction k as [|k IH]; [apply reset_ok|]. rewrite loop_S.
  destruct (loop k _ _) as [s' M']. by apply block_ok.
Qed.

(** * Padding with a message length *)

(** The bytes of a word, most significant first. *)
Definition be32 (v : Z) : list Z :=
  (fun j => (v >>>w (24 - j * 8)) &w 0xff) <$> [0; 1; 2; 3].

Lemma be32_lookup v j : 0 <= j < 4 -> be32 v !! Z.to_nat j = Some ((v >>>w (24 - j * 8)) &w 0xff).
Proof.
  intros Hj. assert (j = 0 \/ j = 1 \/ j = 2 \/ j = 3) as Hc by lia.
  destruct_or! Hc; subst; reflexivity.
Qed.

Lemma be32_byte ws k v q :
  0 <= k -> q / 4 = k -> 0 <= q -> byte_at (set_word ws k v) q = default 0 (be32 v !! Z.to_nat (q mod 4)).
Proof.
  intros Hk Hq Hq0. rewrite be32_lookup by (apply Z.mod_pos_bound; lia). simpl. unfold byte_at.
  by rewrite Hq, get_set_word, Z.eqb_refl by done.
Qed.

Lemma bytes_of_app d ws t T :
  clean d -> T = sigBytes d + Z.of_nat (length t) ->
  (forall q, 0 <= q < sigBytes d -> byte_at ws q = byte_at (words d) q) ->
  (forall q, 0 <= q < Z.of_nat (length t) -> t !! Z.to_nat q = Some (byte_at ws (sigBytes d + q))) ->
  bytes_of (WA ws T) = bytes_of d ++ t.
Proof.
  intros [[Hs _] _] HT Hlo Hhi. apply bytes_eq; cbn [words sigBytes]; [lia|rewrite length_app, bytes_length; lia|].
  intros i Hi. destruct (decide (i < sigBytes d)).
  - rewrite lookup_app_l by (rewrite bytes_length; lia). rewrite Hlo by lia. apply lookup_bytes. lia.
  - rewrite lookup_app_r by (rewrite bytes_length; lia). rewrite bytes_length.
    replace (Z.to_nat i - Z.to_nat (sigBytes d))%nat with (Z.to_nat (i - sigBytes d)) by lia.
    rewrite Hhi by lia. do 2 f_equal. lia.
Qed.

(** The byte 0x80, zeros, and two words that end at the word [E]; [T] is the
    size given to the result. *)
Definition length_trailer (E T sig hi lo : Z) : list Z :=
  0x80 :: replicate (Z.to_nat (4 * (E - 2) - sig - 1)) 0 ++ be32 hi ++ be32 lo ++ replicate (Z.to_nat (T - 4 * E)) 0.

Lemma length_trailer_lookup E T sig hi lo q :
  sig + 1 <= 4 * (E - 2) -> 4 * E <= T -> 0 <= sig -> 0 <= q < T - sig ->
  length_trailer E T sig hi lo !! Z.to_nat q = Some (
    if q =? 0 then 0x80 else if sig + q <? 4 * (E - 2) then 0
    else if sig + q <? 4 * (E - 1) then default 0 (be32 hi !! Z.to_nat (sig + q - 4 * (E - 2)))
    else if sig + q <? 4 * E then default 0 (be32 lo !! Z.to_nat (sig + q - 4 * (E - 1))) else 0).
Proof.
  intros H1 H2 H3 Hq. unfold length_trailer. destruct (Z.eqb_spec q 0) as [->|Hne]; [done|].
  rewrite lookup_cons_ne_0 by lia. replace (pred (Z.to_nat q)) with (Z.to_nat (q - 1)) by lia.
  destruct (Z.ltb_spec (sig + q) (4 * (E - 2))).
  { rewrite lookup_app_l by (rewrite length_replicate; lia). apply lookup_replicate_2. lia. }
  rewrite lookup_app_r by (rewrite length_replicate; lia). rewrite length_replicate.
  destruct (Z.ltb_spec (sig + q) (4 * (E - 1))).
  { rewrite lookup_app_l by (simpl; lia).
    replace (Z.to_nat (q - 1) - Z.to_nat (4 * (E - 2) - sig - 1))%nat
      with (Z.to_nat (sig + q - 4 * (E - 2))) by lia. by rewrite be32_lookup by lia. }
  rewrite lookup_app_r by (simpl; lia). change (length (be32 hi)) with 4%nat.
  destruct (Z.ltb_spec (sig + q) (4 * E)).
  { rewrite lookup_app_l by (simpl; lia).
    replace (Z.to_nat (q - 1) - Z.to_nat (4 * (E - 2) - sig - 1) - 4)%nat
      with (Z.to_nat (sig + q - 4 * (E - 1))) by lia. by rewrite be32_lookup by lia. }
  rewrite lookup_app_r by (simpl; lia). apply lookup_replicate_2. simpl. lia.
Qed.

Lemma length_pad_bytes d ws E T hi lo :
  clean d -> sigBytes d + 1 <= 4 * (E - 2) -> 4 * E <= T ->
  (forall q, 0 <= q -> byte_at ws q =
     if q / 4 =? E - 1 then default 0 (be32 lo !! Z.to_nat (q mod 4))
     else if q / 4 =? E - 2 then default 0 (be32 hi !! Z.to_nat (q mod 4))
     else if q =? sigBytes d then 0x80 else byte_at (words d) q) ->
  bytes_of (WA ws T) = bytes_of d ++ length_trailer E T (sigBytes d) hi lo.
Proof.
  intros Hd H1 H2 Hws. pose proof Hd as [[Hs _] Hz].
  assert (Z.of_nat (length (length_trailer E T (sigBytes d) hi lo)) = T - sigBytes d) as Hlen.
  { unfold length_trailer. rewrite length_cons, !length_app, !length_replicate.
    change (length (be32 hi)) with 4%nat. change (length (be32 lo)) with 4%nat. lia. }
  apply bytes_of_app; [done|lia| |].
  - intros q Hq. rewrite Hws by lia. pose proof (div_4_bounds q).
    zbool (q / 4 =? E - 1) false. zbool (q / 4 =? E - 2) false. by zbool (q =? sigBytes d) false.
  - intros q Hq. rewrite length_trailer_lookup by lia. f_equal. rewrite Hws by lia.
    set (p := sigBytes d + q) in *. pose proof (div_4_bounds p). pose proof (Z.div_mod p 4 ltac:(lia)).
    destruct (Z.eqb_spec q 0) as [Eq|Eq].
    { zbool (p / 4 =? E - 1) false. zbool (p / 4 =? E - 2) false. by zbool (p =? sigBytes d) true. }
    destruct (Z.ltb_spec p (4 * (E - 2))).
    { zbool (p / 4 =? E - 1) false. zbool (p / 4 =? E - 2) false. zbool (p =? sigBytes d) false.
      symmetry. apply Hz. lia. }
    destruct (Z.ltb_spec p (4 * (E - 1))).
    { zbool (p / 4 =? E - 1) false. zbool (p / 4 =? E - 2) true. do 3 f_equal. lia. }
    destruct (Z.ltb_spec p (4 * E)).
    { zbool (p / 4 =? E - 1) true. do 3 f_equal. lia. }
    zbool (p / 4 =? E - 1) false. zbool (p / 4 =? E - 2) false. zbool (p =? sigBytes d) false.
    symmetry. apply Hz. lia.
Qed.

Lemma length_trailer_eq E T sig E' T' sig' hi lo :
  4 * E - sig = 4 * E' - sig' -> T - 4 * E = T' - 4 * E' ->
  length_trailer E T sig hi lo = length_trailer E' T' sig' hi lo.
Proof. intros H1 H2. unfold length_trailer. do 2 f_equal; [f_equal; lia|]. do 3 f_equal. f_equal. lia. Qed.

Lemma length_trailer_valid E T sig hi lo : Forall is_byte (length_trailer E T sig hi lo).
Proof.
  unfold length_trailer. constructor; [unfold is_byte; lia|].
  assert (forall v, Forall is_byte (be32 v)) as Hbe.
  { intros v. unfold be32. apply Forall_fmap, Forall_forall. intros j _. unfold compose, is_byte.
    pose proof (and_range (v >>>w (24 - j * 8)) 0xff). lia. }
  repeat apply Forall_app_2; try apply Hbe; apply Forall_replicate; unfold is_byte; lia.
Qed.

(** [words[nBits >>> 5] |= b << (24 - nBits % 32)] writes the byte after the data. *)
Lemma or_bit_byte ws sig b :
  0 <= sig < 2 ^ 29 ->
  set_word ws ((sig * 8) >>>w 5) (get_word ws ((sig * 8) >>>w 5) |w (b <<w (24 - (sig * 8) mod 32))) =
  or_byte ws sig b.
Proof.
  intros H. rewrite ushr_div by lia. unfold or_byte.
  replace (sig * 8 / 2 ^ 5) with (sig / 4) by (Z.div_mod_to_equations; lia).
  by replace ((sig * 8) mod 32) with (sig mod 4 * 8) by (Z.div_mod_to_equations; lia).
Qed.

(** * Words of a message *)

(** The [i]-th big-endian word of some bytes. *)
Definition be_word (p : list Z) (i : Z) : Z :=
  let b j := default 0 (p !! Z.to_nat (4 * i + j)) in
  b 0 * 2 ^ 24 + b 1 * 2 ^ 16 + b 2 * 2 ^ 8 + b 3.

Lemma byte_div v n : 0 <= n < 32 -> (v >>>w n) &w 0xff = (u32 v / 2 ^ n) mod 256.
Proof.
  intros Hn. change 256 with (2 ^ 8). rewrite <- Z.land_ones by lia. change (Z.ones 8) with 0xff.
  unfold js_and, js_ushr. rewrite (Z.mod_small n), <- Z.shiftr_div_pow2 by lia. change (s32 0xff) with 0xff.
  change 0xff with (Z.ones 8). rewrite !Z.land_ones by lia.
  apply Z.bits_inj_iff'. intros i Hi. destruct (decide (i < 8)).
  - rewrite !Z.mod_pow2_bits_low by lia. apply s32_bits. lia.
  - rewrite !Z.mod_pow2_bits_high by lia. done.
Qed.

(** A word is the sum of its bytes. *)
Lemma u32_bytes w :
  u32 w = ((w >>>w 24) &w 0xff) * 2 ^ 24 + ((w >>>w 16) &w 0xff) * 2 ^ 16 +
          ((w >>>w 8) &w 0xff) * 2 ^ 8 + (w >>>w 0) &w 0xff.
Proof.
  rewrite !byte_div by lia. pose proof (u32_range w). set (x := u32 _) in *.
  change (2 ^ 24) with 16777216. change (2 ^ 16) with 65536. change (2 ^ 8) with 256. change (2 ^ 0) with 1.
  Z.div_mod_to_equations; lia.
Qed.

Lemma byte_at_word ws i j :
  0 <= j < 4 -> byte_at ws (4 * i + j) = (get_word ws i >>>w (24 - j * 8)) &w 0xff.
Proof.
  intros Hj. unfold byte_at. replace ((4 * i + j) / 4) with i by (Z.div_mod_to_equations; lia).
  by replace ((4 * i + j) mod 4) with j by (Z.div_mod_to_equations; lia).
Qed.

(** The bytes of an array of whole words, and of its beginning. *)
Lemma words_bytes ws n : n <= 4 * Z.of_nat (length ws) -> bytes_of (WA ws n) = take (Z.to_nat n) (ws ≫= be32).
Proof.
  intros Hn. destruct (decide (n < 0)).
  { unfold bytes_of. cbn [words sigBytes]. rewrite seqZ_nil by lia. by replace (Z.to_nat n) with 0%nat by lia. }
  assert (length (ws ≫= be32) = 4 * length ws)%nat as Hlen.
  { clear. induction ws as [|x ws IH]; [done|]. rewrite bind_cons, length_app, IH. simpl. lia. }
  apply bytes_eq; cbn [words sigBytes]; [lia|rewrite length_take, Hlen; lia|].
  intros i Hi. rewrite lookup_take_lt by lia. pose proof (div_4_bounds i).
  replace i with (4 * (i / 4) + i mod 4) by (Z.div_mod_to_equations; lia).
  pose proof (Z.mod_pos_bound i 4 ltac:(lia)). rewrite byte_at_word by lia.
  assert (0 <= i / 4 < Z.of_nat (length ws)) as Hk by lia.
  revert Hk. generalize (i / 4) as k. generalize dependent (i mod 4). clear. intros j Hj k Hk.
  revert k Hk. induction ws as [|x ws IH]; intros k Hk; [simpl in Hk; lia|]. rewrite bind_cons.
  destruct (decide (k = 0)) as [->|].
  - rewrite lookup_app_l by (simpl; lia). by rewrite <- be32_lookup by lia.
  - rewrite lookup_app_r by (simpl; lia). change (length (be32 x)) with 4%nat.
    replace (Z.to_nat (4 * k + j) - 4)%nat with (Z.to_nat (4 * (k - 1) + j)) by lia.
    rewrite length_cons in Hk. rewrite IH by lia. f_equal. unfold get_word.
    by replace (Z.to_nat k) with (S (Z.to_nat (k - 1))) by lia.
Qed.

Lemma be_word_of_bytes p i :
  Forall is_byte p -> 0 <= i -> u32 (get_word (words (of_bytes p)) i) = be_word p i.
Proof.
  intros Hp Hi. unfold be_word. rewrite <- !of_bytes_byte by (done || lia).
  rewrite !byte_at_word by lia. apply u32_bytes.
Qed.
