(* ===== verification/Sha256.v ===== *)
(** SHA-256 and SHA-224 of the bundled crypto-js, web3.js 11273-11554: the
    constants, the block function on JavaScript numbers, and its equivalence
    with the standard's formulas on 32-bit words. *)
From Stdlib Require Import ZArith Lia.
From S2P Require Import Prelude Words WordArray Hasher.
Open Scope Z_scope.
Open Scope word_scope.

(** * Constants *)

Definition isPrime (n : Z) : bool :=
  forallb (fun factor => negb (n mod factor =? 0)) (seqZ 2 (Z.sqrt n - 1)).

(** The integer cube root, by bisection. *)
Fixpoint cbrt_search (fuel : nat) (lo hi n : Z) : Z :=
  match fuel with
  | O => lo
  | S fuel =>
      let mid := (lo + hi) / 2 in
      if mid ^ 3 <=? n then cbrt_search fuel mid hi n else cbrt_search fuel lo mid n
  end.

(** [getFractionalBits(Math.pow(n, 1 / k))]: the 32 bits after the point of the
    root, which a double holds exactly enough for these [n]. *)
Definition sqrt_bits (n : Z) : Z := s32 (Z.sqrt (n * 2 ^ 64)).
Definition cbrt_bits (n : Z) : Z := s32 (cbrt_search 48 0 (2 ^ 40) (n * 2 ^ 96)).

(** The 64 primes found by the loop. *)
Definition primes : list Z := filter (fun n => isPrime n = true) (seqZ 2 310).
Definition H : list Z := Eval vm_compute in sqrt_bits <$> take 8 primes.
Definition K : list Z := Eval vm_compute in cbrt_bits <$> primes.

(** * The block function *)

(** The working variables. *)
Record vars := Vars { va : Z; vb : Z; vc : Z; vd : Z; ve : Z; vf : Z; vg : Z; vh : Z }.

(** [W[i]], unreduced sums included. *)
Definition schedule (M : list Z) (offset i : Z) (W : list Z) : Z :=
  if i <? 16 then get_word M (offset + i) |w 0
  else
    let gamma0x := get_word W (i - 15) in
    let gamma0 := ((gamma0x <<w 25) |w (gamma0x >>>w 7)) ^w
                  ((gamma0x <<w 14) |w (gamma0x >>>w 18)) ^w (gamma0x >>>w 3) in
    let gamma1x := get_word W (i - 2) in
    let gamma1 := ((gamma1x <<w 15) |w (gamma1x >>>w 17)) ^w
                  ((gamma1x <<w 13) |w (gamma1x >>>w 19)) ^w (gamma1x >>>w 10) in
    gamma0 + get_word W (i - 7) + gamma1 + get_word W (i - 16).

Definition round (k w : Z) (x : vars) : vars :=
  let '(Vars a b c d e f g h) := x in
  let ch := (e &w f) ^w (js_not e &w g) in
  let maj := (a &w b) ^w (a &w c) ^w (b &w c) in
  let sigma0 := ((a <<w 30) |w (a >>>w 2)) ^w ((a <<w 19) |w (a >>>w 13)) ^w ((a <<w 10) |w (a >>>w 22)) in
  let sigma1 := ((e <<w 26) |w (e >>>w 6)) ^w ((e <<w 21) |w (e >>>w 11)) ^w ((e <<w 7) |w (e >>>w 25)) in
  let t1 := h + sigma1 + ch + k + w in
  let t2 := sigma0 + maj in
  Vars ((t1 + t2) |w 0) a b c ((d + t1) |w 0) e f g.

(** One iteration of the loop: the next [W] and the next variables. *)
Definition iteration (M : list Z) (offset i : Z) (st : list Z * vars) : list Z * vars :=
  let W := set_word st.1 i (schedule M offset i st.1) in
  (W, round (get_word K i) (get_word W i) st.2).

Definition load (h : list Z) : vars :=
  let g := get_word h in Vars (g 0) (g 1) (g 2) (g 3) (g 4) (g 5) (g 6) (g 7).
Definition store (h : list Z) (x : vars) : list Z :=
  let g := get_word h in
  [(g 0 + va x) |w 0; (g 1 + vb x) |w 0; (g 2 + vc x) |w 0; (g 3 + vd x) |w 0;
   (g 4 + ve x) |w 0; (g 5 + vf x) |w 0; (g 6 + vg x) |w 0; (g 7 + vh x) |w 0].

Definition doProcessBlock (offset : Z) (x : list Z * list Z) : list Z * list Z :=
  let '(h, M) := x in
  (store h (loop 64 (iteration M offset) ([], load h)).2, M).

(** [_doFinalize] up to its [_process]. *)
Definition pad (nDataBytes : Z) (data : wordarray) : wordarray :=
  let nBitsTotal := nDataBytes * 8 in
  let nBitsLeft := sigBytes data * 8 in
  let ws := words data in
  let i := nBitsLeft >>>w 5 in
  let ws := set_word ws i (get_word ws i |w (0x80 <<w (24 - nBitsLeft mod 32))) in
  let ws := set_word ws ((((nBitsLeft + 64) >>>w 9) <<w 4) + 14) (nBitsTotal / 0x100000000) in
  let ws := set_word ws ((((nBitsLeft + 64) >>>w 9) <<w 4) + 15) nBitsTotal in
  WA ws (Z.of_nat (length ws) * 4).

(** The words from the end of the data to the end of the last block. *)
Definition last_block (r : Z) : Z := 16 * ((r + 8) / 64) + 16.
Definition trailer (n r : Z) : list Z :=
  length_trailer (last_block r) (4 * last_block r) r (n * 8 / 0x100000000) (n * 8).

Definition SHA256 : Algorithm (list Z) := {|
  blockSize := 16;
  _doReset := H;
  _doProcessBlock := doProcessBlock;
  _pad := pad;
  _output := wa_init;
  _trailer := trailer
|}.

(** SHA-224: other initial words, and four bytes fewer in the result. *)
Definition H224 : list Z :=
  [0xc1059ed8; 0x367cd507; 0x3070dd17; 0xf70e5939; 0xffc00b31; 0x68581511; 0x64f98fa7; 0xbefa4fa4].
Definition SHA224 : Algorithm (list Z) := {|
  blockSize := 16;
  _doReset := H224;
  _doProcessBlock := doProcessBlock;
  _pad := pad;
  _output h := WA h (Z.of_nat (length h) * 4 - 4);
  _trailer := trailer
|}.

Definition sha256 (d : wordarray) : wordarray := hash (H := SHA256) d.
Definition sha224 (d : wordarray) : wordarray := hash (H := SHA224) d.

Example sha256_abc : Hex_stringify (sha256 (of_bytes [97; 98; 99])) =
  str "ba7816bf8f01cfea414140de5dae2223b00361a396177a9cb410ff61f20015ad".
Proof. vm_compute. reflexivity. Qed.
Example sha224_abc : Hex_stringify (sha224 (of_bytes [97; 98; 99])) =
  str "23097d223405d8228642a477bda255b32aadbce4bda0b3f7e36c9da7".
Proof. vm_compute. reflexivity. Qed.

(** * The laws of the hasher *)

Lemma last_index sig :
  0 <= sig < 2 ^ 28 -> ((sig * 8 + 64) >>>w 9) <<w 4 = 16 * ((sig + 8) / 64).
Proof.
  intros Hs. rewrite ushr_div by lia.
  replace ((sig * 8 + 64) / 2 ^ 9) with ((sig + 8) / 64) by (Z.div_mod_to_equations; lia).
  rewrite shl_mul; [lia|lia|apply Z.div_pos; lia|].
  change (2 ^ 4) with 16. change (2 ^ 31) with 2147483648. Z.div_mod_to_equations; lia.
Qed.

Lemma pad_law n d :
  clean d -> 0 <= n -> sigBytes d < 2 ^ 28 -> 0 <= sigBytes (pad n d) /\
  bytes_of (pad n d) = bytes_of d ++ trailer n (sigBytes d mod (16 * 4)).
Proof.
  intros Hd Hn Hb. pose proof Hd as [[Hs Hl] Hz]. set (sig := sigBytes d) in *.
  set (E := 16 * ((sig + 8) / 64) + 16).
  assert (sig + 9 <= 4 * E <= sig + 8 + 64 + 64) as HE by (unfold E; Z.div_mod_to_equations; lia).
  assert (pad n d = WA (set_word (set_word (or_byte (words d) sig 0x80) (E - 2) (n * 8 / 0x100000000)) (E - 1) (n * 8))
                       (4 * E)) as ->.
  { unfold pad. fold sig. rewrite or_bit_byte, last_index by lia.
    replace (16 * ((sig + 8) / 64) + 14) with (E - 2) by (unfold E; lia).
    replace (16 * ((sig + 8) / 64) + 15) with (E - 1) by (unfold E; lia). f_equal.
    rewrite !length_set_word, length_or_byte by lia. pose proof (div_4_bounds sig).
    rewrite Hl. Z.div_mod_to_equations; lia. }
  cbn [sigBytes]. split; [lia|]. rewrite (length_pad_bytes d _ E _ (n * 8 / 0x100000000) (n * 8)); [|done|fold sig; lia|lia|].
  - fold sig. unfold trailer. f_equal. unfold last_block. apply length_trailer_eq; [|lia].
    unfold E. Z.div_mod_to_equations; lia.
  - fold sig. intros q Hq. pose proof (div_4_bounds q).
    destruct (Z.eqb_spec (q / 4) (E - 1)) as [E1|E1]; [rewrite be32_byte by lia; done|].
    rewrite byte_at_set_other by lia.
    destruct (Z.eqb_spec (q / 4) (E - 2)) as [E2|E2]; [rewrite be32_byte by lia; done|].
    rewrite byte_at_set_other by lia. apply or_byte_spec; [lia|done|unfold is_byte; lia|by apply Hz].
Qed.

Lemma iteration_local M M' off off' n st :
  (forall i, 0 <= i < 16 -> u32 (get_word M (off + i)) = u32 (get_word M' (off' + i))) ->
  loop n (iteration M off) st = loop n (iteration M' off') st.
Proof.
  intros Heq. apply loop_ext. intros i x Hi. unfold iteration, schedule.
  destruct (Z.ltb_spec i 16); [|done].
  by rewrite (or_0_u32 _ (get_word M' (off' + i))) by (apply Heq; lia).
Qed.

Lemma doProcessBlock_local M M' off off' s :
  (forall i, 0 <= i < 16 -> u32 (get_word M (off + i)) = u32 (get_word M' (off' + i))) ->
  (doProcessBlock off (s, M)).1 = (doProcessBlock off' (s, M')).1.
Proof. intros Heq. unfold doProcessBlock, fst. by rewrite (iteration_local M M' off off'). Qed.

Definition SHA256_laws : AlgorithmLaws (list Z) (H := SHA256) :=
  @Build_AlgorithmLaws (list Z) SHA256 eq_refl
    (fun M M' off off' s _ _ Heq => doProcessBlock_local M M' off off' s Heq)
    (fun M off s i _ _ => eq_refl) (fun M off s _ _ => eq_refl) pad_law.
Definition SHA224_laws : AlgorithmLaws (list Z) (H := SHA224) :=
  @Build_AlgorithmLaws (list Z) SHA224 eq_refl
    (fun M M' off off' s _ _ Heq => doProcessBlock_local M M' off off' s Heq)
    (fun M off s i _ _ => eq_refl) (fun M off s _ _ => eq_refl) pad_law.

(** * The standard's formulas *)

Definition Ch (x y z : Z) : Z := Z.lxor (Z.land x y) (Z.land (Z.lxor x (Z.ones 32)) z).
Definition Maj (x y z : Z) : Z := Z.lxor (Z.lxor (Z.land x y) (Z.land x z)) (Z.land y z).
Definition Sigma0 (x : Z) : Z := Z.lxor (Z.lxor (rotr 2 x) (rotr 13 x)) (rotr 22 x).
Definition Sigma1 (x : Z) : Z := Z.lxor (Z.lxor (rotr 6 x) (rotr 11 x)) (rotr 25 x).
Definition sigma0 (x : Z) : Z := Z.lxor (Z.lxor (rotr 7 x) (rotr 18 x)) (Z.shiftr x 3).
Definition sigma1 (x : Z) : Z := Z.lxor (Z.lxor (rotr 17 x) (rotr 19 x)) (Z.shiftr x 10).

(** The message schedule and a round, on words modulo [2 ^ 32]; [m] is the
    block. *)
Definition ref_schedule (m : Z -> Z) (t : Z) (W : list Z) : Z :=
  if t <? 16 then m t
  else u32 (sigma1 (get_word W (t - 2)) + get_word W (t - 7) + sigma0 (get_word W (t - 15)) + get_word W (t - 16)).
Definition ref_round (k w : Z) (x : vars) : vars :=
  let '(Vars a b c d e f g h) := x in
  let T1 := u32 (h + Sigma1 e + Ch e f g + k + w) in
  let T2 := u32 (Sigma0 a + Maj a b c) in
  Vars (u32 (T1 + T2)) a b c (u32 (d + T1)) e f g.
Definition ref_iteration (m : Z -> Z) (t : Z) (st : list Z * vars) : list Z * vars :=
  let W := set_word st.1 t (ref_schedule m t st.1) in
  (W, ref_round (u32 (get_word K t)) (get_word W t) st.2).
Definition ref_store (h : list Z) (x : vars) : list Z :=
  let g := get_word h in
  [u32 (g 0 + va x); u32 (g 1 + vb x); u32 (g 2 + vc x); u32 (g 3 + vd x);
   u32 (g 4 + ve x); u32 (g 5 + vf x); u32 (g 6 + vg x); u32 (g 7 + vh x)].
Definition ref_block (h : list Z) (m : Z -> Z) : list Z :=
  ref_store h (loop 64 (ref_iteration m) ([], load h)).2.

Definition u32_vars (x : vars) : vars :=
  let '(Vars a b c d e f g h) := x in
  Vars (u32 a) (u32 b) (u32 c) (u32 d) (u32 e) (u32 f) (u32 g) (u32 h).

Lemma fmap_set_word ws i v : 0 <= i -> u32 <$> set_word ws i v = set_word (u32 <$> ws) i (u32 v).
Proof.
  intros Hi. unfold set_word. rewrite length_fmap. destruct (_ <? _)%nat.
  - apply list_fmap_insert.
  - rewrite !fmap_app, fmap_replicate. done.
Qed.

Lemma round_ref k w x : u32_vars (round k w x) = ref_round (u32 k) (u32 w) (u32_vars x).
Proof.
  destruct x as [a b c d e f g h]. unfold round, ref_round, u32_vars.
  assert (u32 (((e &w f) ^w (js_not e &w g))) = Ch (u32 e) (u32 f) (u32 g)) as Hch
    by (unfold Ch; by rewrite u32_xor, !u32_and, u32_not).
  assert (u32 ((a &w b) ^w (a &w c) ^w (b &w c)) = Maj (u32 a) (u32 b) (u32 c)) as Hmaj
    by (unfold Maj; by rewrite !u32_xor, !u32_and).
  assert (u32 (((a <<w 30) |w (a >>>w 2)) ^w ((a <<w 19) |w (a >>>w 13)) ^w ((a <<w 10) |w (a >>>w 22))) =
          Sigma0 (u32 a)) as Hs0.
  { unfold Sigma0. by rewrite !u32_xor, !u32_rot by lia. }
  assert (u32 (((e <<w 26) |w (e >>>w 6)) ^w ((e <<w 21) |w (e >>>w 11)) ^w ((e <<w 7) |w (e >>>w 25))) =
          Sigma1 (u32 e)) as Hs1.
  { unfold Sigma1. by rewrite !u32_xor, !u32_rot by lia. }
  set (ch := (e &w f) ^w _) in *. set (maj := _ ^w (b &w c)) in *.
  set (s0 := _ ^w ((a <<w 10) |w (a >>>w 22))) in *. set (s1 := _ ^w ((e <<w 7) |w (e >>>w 25))) in *.
  assert (h + s1 + ch + k + w ≡32
          u32 h + Sigma1 (u32 e) + Ch (u32 e) (u32 f) (u32 g) + u32 k + u32 w) as HT1
    by (rewrite <- Hs1, <- Hch; by rewrite !u32_id32).
  assert (s0 + maj ≡32 Sigma0 (u32 a) + Maj (u32 a) (u32 b) (u32 c)) as HT2
    by (rewrite <- Hs0, <- Hmaj; by rewrite !u32_id32).
  f_equal.
  - apply eq32_u32. rewrite or_0_id32, HT1, HT2. by rewrite !(u32_id32 (_ + _)).
  - apply eq32_u32. rewrite or_0_id32, HT1. by rewrite (u32_id32 (_ + _)), (u32_id32 d).
Qed.

Lemma schedule_ref M off i W :
  0 <= i ->
  u32 (schedule M off i W) = ref_schedule (fun j => u32 (get_word M (off + j))) i (u32 <$> W).
Proof.
  intros Hi. unfold schedule, ref_schedule. destruct (i <? 16); [apply eq32_u32, or_0_id32|].
  set (x := get_word W (i - 15)). set (y := get_word W (i - 2)).
  assert (u32 (((x <<w 25) |w (x >>>w 7)) ^w ((x <<w 14) |w (x >>>w 18)) ^w (x >>>w 3)) = sigma0 (u32 x)) as H0
    by (unfold sigma0; by rewrite !u32_xor, !u32_rot, u32_ushr by lia).
  assert (u32 (((y <<w 15) |w (y >>>w 17)) ^w ((y <<w 13) |w (y >>>w 19)) ^w (y >>>w 10)) = sigma1 (u32 y)) as H1
    by (unfold sigma1; by rewrite !u32_xor, !u32_rot, u32_ushr by lia).
  cbv zeta. rewrite !get_u32. fold x y. rewrite <- H0, <- H1. apply eq32_u32. rewrite !u32_id32.
  constructor. f_equal. lia.
Qed.

Lemma iterations_ref M off h n :
  let st := loop n (iteration M off) ([], load h) in
  loop n (ref_iteration (fun j => u32 (get_word M (off + j)))) ([], load (u32 <$> h)) =
  (u32 <$> st.1, u32_vars st.2).
Proof.
  induction n as [|n IH]; simpl loop.
  - unfold load, u32_vars. cbn [fst snd]. by rewrite !get_u32.
  - cbv zeta in *. rewrite IH. set (st := loop n _ _). unfold iteration, ref_iteration. cbn [fst snd].
    rewrite round_ref, fmap_set_word, schedule_ref by lia. f_equal.
    by rewrite <- (get_u32 (set_word _ _ _)), fmap_set_word, schedule_ref by lia.
Qed.

(** The block function computes the standard's compression function: on the
    words as 32-bit numbers, although the code works on signed numbers and
    leaves the sums of the schedule unreduced. *)
Theorem sha256_block_standard off h M :
  u32 <$> (doProcessBlock off (h, M)).1 =
  ref_block (u32 <$> h) (fun i => u32 (get_word M (off + i))).
Proof.
  unfold doProcessBlock, ref_block. rewrite iterations_ref. cbn [fst snd].
  set (x := (loop 64 _ _).2). destruct x as [a b c d e f g k].
  unfold store, ref_store, u32_vars. rewrite !fmap_cons, fmap_nil. cbn [va vb vc vd ve vf vg vh].
  by rewrite !get_u32, !u32_add_or_0.
Qed.

(** * The hash function *)

(** The standard's padding and iteration, on bytes. *)
Definition ref_padded (m : list Z) : list Z :=
  m ++ trailer (Z.of_nat (length m)) (Z.of_nat (length m) mod 64).
Definition ref_hash (h0 m : list Z) : list Z :=
  let p := ref_padded m in
  loop (Z.to_nat (Z.of_nat (length p) / 64)) (fun t h => ref_block h (fun j => be_word p (t * 16 + j))) h0.

Lemma ref_block_ext h f g :
  (forall j, 0 <= j < 16 -> f j = g j) -> ref_block h f = ref_block h g.
Proof.
  intros Hfg. unfold ref_block. do 2 f_equal. apply loop_ext. intros i x Hi.
  unfold ref_iteration, ref_schedule. destruct (Z.ltb_spec i 16); [|done]. by rewrite Hfg by lia.
Qed.

Lemma blocks_words k off x : (loop k (fun i => doProcessBlock (off + i * 16)) x).2 = x.2.
Proof.
  induction k as [|k IH]; [done|]. simpl loop. rewrite <- IH.
  destruct (loop k (fun i => doProcessBlock (off + i * 16)) x) as [h M]. reflexivity.
Qed.

Lemma blocks_ref k h m :
  Forall is_byte m ->
  u32 <$> (loop k (fun i => doProcessBlock (0 + i * 16)) (h, words (of_bytes m))).1 =
  loop k (fun t h => ref_block h (fun j => be_word m (t * 16 + j))) (u32 <$> h).
Proof.
  intros Hm. induction k as [|k IH]; [done|]. rewrite !loop_S.
  rewrite (surjective_pairing (loop k (fun i => doProcessBlock (0 + i * 16)) _)).
  rewrite sha256_block_standard, IH, blocks_words. apply ref_block_ext.
  intros j Hj. rewrite Z.add_0_l. apply be_word_of_bytes; [done|lia].
Qed.

Lemma padded_valid m : Forall is_byte m -> Forall is_byte (ref_padded m).
Proof. intros Hm. apply Forall_app_2; [done|apply length_trailer_valid]. Qed.

(** The digest of the generic hasher with this block function. *)
Lemma digest_ref (A : Algorithm (list Z)) (L : AlgorithmLaws (list Z)) h0 out m :
  A = {| blockSize := 16; _doReset := h0; _doProcessBlock := doProcessBlock; _pad := pad;
         _output := out; _trailer := trailer |} ->
  Forall is_byte m -> exists h, digest m = out h /\ u32 <$> h = ref_hash (u32 <$> h0) m.
Proof.
  intros EA Hm. subst A. unfold digest, absorb, blocks, full.
  cbn [_output blockSize _doReset _doProcessBlock _trailer].
  eexists. split; [done|]. unfold ref_hash. apply blocks_ref. by apply padded_valid.
Qed.



(** The bits of a word array past its size are not cleared before hashing: two
    arrays with the same bytes can have different digests. *)
Theorem unclamped_input_changes_digest :
  bytes_of (WA [0x61ffffff] 1) = bytes_of (of_bytes [0x61]) /\
  Hex_stringify (sha256 (WA [0x61ffffff] 1)) <> Hex_stringify (sha256 (of_bytes [0x61])).
Proof. split; vm_compute; [reflexivity|discriminate]. Qed.
