(* ===== verification/Hashes.v ===== *)
(** The other 32-bit hash functions of the bundled crypto-js: SHA-1 (web3.js
    11138-11267), MD5 (9367-9614) and RIPEMD-160 (10881-11116). *)
From Stdlib Require Import ZArith Lia.
From S2P Require Import Prelude Words WordArray Hasher.
Open Scope Z_scope.
Open Scope word_scope.

(** The endian swap written out at each use:
    [((w << 8) | (w >>> 24)) & 0x00ff00ff | ((w << 24) | (w >>> 8)) & 0xff00ff00]. *)
Definition swap (w : Z) : Z :=
  (((w <<w 8) |w (w >>>w 24)) &w 0x00ff00ff) |w (((w <<w 24) |w (w >>>w 8)) &w 0xff00ff00).

(** [words[nBits >>> 5] |= b << (24 - nBits % 32)] *)
Definition end_mark (b nBitsLeft : Z) (ws : list Z) : list Z :=
  let i := nBitsLeft >>>w 5 in
  set_word ws i (get_word ws i |w (b <<w (24 - nBitsLeft mod 32))).

(** The index of the first word of the last block, for blocks of 16 words. *)
Definition last_index (nBitsLeft : Z) : Z := ((nBitsLeft + 64) >>>w 9) <<w 4.

(** * SHA-1 *)

Module Sha1.
Record vars := Vars { va : Z; vb : Z; vc : Z; vd : Z; ve : Z }.

Definition schedule (M : list Z) (offset i : Z) (W : list Z) : Z :=
  if i <? 16 then get_word M (offset + i) |w 0
  else
    let n := get_word W (i - 3) ^w get_word W (i - 8) ^w get_word W (i - 14) ^w get_word W (i - 16) in
    (n <<w 1) |w (n >>>w 31).

Definition round (i w : Z) (x : vars) : vars :=
  let '(Vars a b c d e) := x in
  let t := ((a <<w 5) |w (a >>>w 27)) + e + w in
  let t :=
    if i <? 20 then t + (((b &w c) |w (js_not b &w d)) + 0x5a827999)
    else if i <? 40 then t + ((b ^w c ^w d) + 0x6ed9eba1)
    else if i <? 60 then t + (((b &w c) |w (b &w d) |w (c &w d)) - 0x70e44324)
    else t + ((b ^w c ^w d) - 0x359d3e2a) in
  Vars t a ((b <<w 30) |w (b >>>w 2)) c d.

Definition iteration (M : list Z) (offset i : Z) (st : list Z * vars) : list Z * vars :=
  let W := set_word st.1 i (schedule M offset i st.1) in
  (W, round i (get_word W i) st.2).

Definition doProcessBlock (offset : Z) (x : list Z * list Z) : list Z * list Z :=
  let '(h, M) := x in
  let g := get_word h in
  let '(Vars a b c d e) := (loop 80 (iteration M offset) ([], Vars (g 0) (g 1) (g 2) (g 3) (g 4))).2 in
  ([(g 0 + a) |w 0; (g 1 + b) |w 0; (g 2 + c) |w 0; (g 3 + d) |w 0; (g 4 + e) |w 0], M).

Definition pad (nDataBytes : Z) (data : wordarray) : wordarray :=
  let nBitsTotal := nDataBytes * 8 in
  let nBitsLeft := sigBytes data * 8 in
  let ws := end_mark 0x80 nBitsLeft (words data) in
  let ws := set_word ws (last_index nBitsLeft + 14) (nBitsTotal / 0x100000000) in
  let ws := set_word ws (last_index nBitsLeft + 15) nBitsTotal in
  WA ws (Z.of_nat (length ws) * 4).

Definition H : list Z := [0x67452301; 0xefcdab89; 0x98badcfe; 0x10325476; 0xc3d2e1f0].
End Sha1.

(** * MD5 *)

Module Md5.
(** [Math.abs(Math.sin(n)) * 2 ^ 32 | 0], by the sine's power series in
    fixed-point numbers with 400 fractional bits; 200 terms make the rest
    smaller than the precision for [n <= 64]. *)
Fixpoint sin_terms (fuel : nat) (x2 term k acc : Z) : Z :=
  match fuel with
  | O => acc
  | S fuel =>
      let next := Z.quot (- term * x2) ((2 * k) * (2 * k + 1)) in
      sin_terms fuel x2 next (k + 1) (acc + next)
  end.
Definition sin_fixed (n : Z) : Z := sin_terms 200 (n * n) (n * 2 ^ 400) 1 (n * 2 ^ 400).
Definition T : list Z :=
  Eval vm_compute in (fun i => s32 (Z.abs (sin_fixed (i + 1)) / 2 ^ 368)) <$> seqZ 0 64.

Record vars := Vars { va : Z; vb : Z; vc : Z; vd : Z }.

Definition FF (a b c d x s t : Z) : Z :=
  let n := a + ((b &w c) |w (js_not b &w d)) + x + t in ((n <<w s) |w (n >>>w (32 - s))) + b.
Definition GG (a b c d x s t : Z) : Z :=
  let n := a + ((b &w d) |w (c &w js_not d)) + x + t in ((n <<w s) |w (n >>>w (32 - s))) + b.
Definition HH (a b c d x s t : Z) : Z :=
  let n := a + (b ^w c ^w d) + x + t in ((n <<w s) |w (n >>>w (32 - s))) + b.
Definition II (a b c d x s t : Z) : Z :=
  let n := a + (c ^w (b |w js_not d)) + x + t in ((n <<w s) |w (n >>>w (32 - s))) + b.

(** Four lines of the computation: [F] with the message words [i0 .. i3], the
    shifts [s0 .. s3] and the constants from [T[k]] on. *)
Definition four (F : Z -> Z -> Z -> Z -> Z -> Z -> Z -> Z) (M : Z -> Z) (k i0 i1 i2 i3 s0 s1 s2 s3 : Z)
    (x : vars) : vars :=
  let '(Vars a b c d) := x in
  let a := F a b c d (M i0) s0 (get_word T k) in
  let d := F d a b c (M i1) s1 (get_word T (k + 1)) in
  let c := F c d a b (M i2) s2 (get_word T (k + 2)) in
  let b := F b c d a (M i3) s3 (get_word T (k + 3)) in
  Vars a b c d.

Definition rounds (M : Z -> Z) (x : vars) : vars :=
  let x := four FF M 0 0 1 2 3 7 12 17 22 x in
  let x := four FF M 4 4 5 6 7 7 12 17 22 x in
  let x := four FF M 8 8 9 10 11 7 12 17 22 x in
  let x := four FF M 12 12 13 14 15 7 12 17 22 x in
  let x := four GG M 16 1 6 11 0 5 9 14 20 x in
  let x := four GG M 20 5 10 15 4 5 9 14 20 x in
  let x := four GG M 24 9 14 3 8 5 9 14 20 x in
  let x := four GG M 28 13 2 7 12 5 9 14 20 x in
  let x := four HH M 32 5 8 11 14 4 11 16 23 x in
  let x := four HH M 36 1 4 7 10 4 11 16 23 x in
  let x := four HH M 40 13 0 3 6 4 11 16 23 x in
  let x := four HH M 44 9 12 15 2 4 11 16 23 x in
  let x := four II M 48 0 7 14 5 6 10 15 21 x in
  let x := four II M 52 12 3 10 1 6 10 15 21 x in
  let x := four II M 56 8 15 6 13 6 10 15 21 x in
  four II M 60 4 11 2 9 6 10 15 21 x.

(** The endian swap of the block, in place. *)
Definition swap_block (offset : Z) (M : list Z) : list Z :=
  loop 16 (fun i M => set_word M (offset + i) (swap (get_word M (offset + i)))) M.

Definition doProcessBlock (offset : Z) (x : list Z * list Z) : list Z * list Z :=
  let '(h, M) := x in
  let M := swap_block offset M in
  let g := get_word h in
  let '(Vars a b c d) := rounds (fun i => get_word M (offset + i)) (Vars (g 0) (g 1) (g 2) (g 3)) in
  ([(g 0 + a) |w 0; (g 1 + b) |w 0; (g 2 + c) |w 0; (g 3 + d) |w 0], M).

Definition pad (nDataBytes : Z) (data : wordarray) : wordarray :=
  let nBitsTotal := nDataBytes * 8 in
  let nBitsLeft := sigBytes data * 8 in
  let ws := end_mark 0x80 nBitsLeft (words data) in
  let nBitsTotalH := nBitsTotal / 0x100000000 in
  let nBitsTotalL := nBitsTotal in
  let ws := set_word ws (last_index nBitsLeft + 15) (swap nBitsTotalH) in
  let ws := set_word ws (last_index nBitsLeft + 14) (swap nBitsTotalL) in
  WA ws ((Z.of_nat (length ws) + 1) * 4).

Definition H : list Z := [0x67452301; 0xefcdab89; 0x98badcfe; 0x10325476].
Definition output (h : list Z) : wordarray := wa_init (swap <$> h).
End Md5.

(** * RIPEMD-160 *)

Module Ripemd160.
Definition zl : list Z :=
  [0;  1;  2;  3;  4;  5;  6;  7;  8;  9; 10; 11; 12; 13; 14; 15;
   7;  4; 13;  1; 10;  6; 15;  3; 12;  0;  9;  5;  2; 14; 11;  8;
   3; 10; 14;  4;  9; 15;  8;  1;  2;  7;  0;  6; 13; 11;  5; 12;
   1;  9; 11; 10;  0;  8; 12;  4; 13;  3;  7; 15; 14;  5;  6;  2;
   4;  0;  5;  9;  7; 12;  2; 10; 14;  1;  3;  8; 11;  6; 15; 13].
Definition zr : list Z :=
  [5; 14;  7;  0;  9;  2; 11;  4; 13;  6; 15;  8;  1; 10;  3; 12;
   6; 11;  3;  7;  0; 13;  5; 10; 14; 15;  8; 12;  4;  9;  1;  2;
   15;  5;  1;  3;  7; 14;  6;  9; 11;  8; 12;  2; 10;  0;  4; 13;
   8;  6;  4;  1;  3; 11; 15;  0;  5; 12;  2; 13;  9;  7; 10; 14;
   12; 15; 10;  4;  1;  5;  8;  7;  6;  2; 13; 14;  0;  3;  9; 11].
Definition sl : list Z :=
  [11; 14; 15; 12;  5;  8;  7;  9; 11; 13; 14; 15;  6;  7;  9;  8;
   7; 6;   8; 13; 11;  9;  7; 15;  7; 12; 15;  9; 11;  7; 13; 12;
   11; 13;  6;  7; 14;  9; 13; 15; 14;  8; 13;  6;  5; 12;  7;  5;
   11; 12; 14; 15; 14; 15;  9;  8;  9; 14;  5;  6;  8;  6;  5; 12;
   9; 15;  5; 11;  6;  8; 13; 12;  5; 12; 13; 14; 11;  8;  5;  6].
Definition sr : list Z :=
  [8;  9;  9; 11; 13; 15; 15;  5;  7;  7;  8; 11; 14; 14; 12;  6;
   9; 13; 15;  7; 12;  8;  9; 11;  7;  7; 12;  7;  6; 15; 13; 11;
   9;  7; 15; 11;  8;  6;  6; 14; 12; 13;  5; 14; 13; 13;  7;  5;
   15;  5;  8; 11; 14; 14;  6; 14;  6;  9; 12;  9; 12;  5; 15;  8;
   8;  5; 12;  9; 12;  5; 14;  6;  8; 13;  6;  5; 15; 13; 11; 11].
Definition hl : list Z := [0x00000000; 0x5A827999; 0x6ED9EBA1; 0x8F1BBCDC; 0xA953FD4E].
Definition hr : list Z := [0x50A28BE6; 0x5C4DD124; 0x6D703EF3; 0x7A6D76E9; 0x00000000].

Definition f1 (x y z : Z) : Z := x ^w y ^w z.
Definition f2 (x y z : Z) : Z := (x &w y) |w (js_not x &w z).
Definition f3 (x y z : Z) : Z := (x |w js_not y) ^w z.
Definition f4 (x y z : Z) : Z := (x &w z) |w (y &w js_not z).
Definition f5 (x y z : Z) : Z := x ^w (y |w js_not z).
Definition rotl (x n : Z) : Z := (x <<w n) |w (x >>>w (32 - n)).

Record vars := Vars { va : Z; vb : Z; vc : Z; vd : Z; ve : Z }.

(** One line of the left or right half, with its message word, function,
    constant and shift. *)
Definition line (m f k s : Z) (x : vars) : vars :=
  let '(Vars a b c d e) := x in
  let t := (a + m) |w 0 in
  let t := t + (f + k) in
  let t := t |w 0 in
  let t := rotl t s in
  let t := (t + e) |w 0 in
  Vars e t b (rotl c 10) d.

Definition left_f (i b c d : Z) : Z :=
  if i <? 16 then f1 b c d else if i <? 32 then f2 b c d else if i <? 48 then f3 b c d
  else if i <? 64 then f4 b c d else f5 b c d.
Definition right_f (i b c d : Z) : Z :=
  if i <? 16 then f5 b c d else if i <? 32 then f4 b c d else if i <? 48 then f3 b c d
  else if i <? 64 then f2 b c d else f1 b c d.

Definition iteration (M : Z -> Z) (i : Z) (st : vars * vars) : vars * vars :=
  let '(l, r) := st in
  (line (M (get_word zl i)) (left_f i (vb l) (vc l) (vd l)) (get_word hl (i / 16)) (get_word sl i) l,
   line (M (get_word zr i)) (right_f i (vb r) (vc r) (vd r)) (get_word hr (i / 16)) (get_word sr i) r).

Definition doProcessBlock (offset : Z) (x : list Z * list Z) : list Z * list Z :=
  let '(h, M) := x in
  let M := Md5.swap_block offset M in
  let g := get_word h in
  let v := Vars (g 0) (g 1) (g 2) (g 3) (g 4) in
  let '(Vars al bl cl dl el, Vars ar br cr dr er) :=
    loop 80 (iteration (fun i => get_word M (offset + i))) (v, v) in
  ([(g 1 + cl + dr) |w 0; (g 2 + dl + er) |w 0; (g 3 + el + ar) |w 0;
    (g 4 + al + br) |w 0; (g 0 + bl + cr) |w 0], M).

Definition pad (nDataBytes : Z) (data : wordarray) : wordarray :=
  let nBitsTotal := nDataBytes * 8 in
  let nBitsLeft := sigBytes data * 8 in
  let ws := end_mark 0x80 nBitsLeft (words data) in
  let ws := set_word ws (last_index nBitsLeft + 14) (swap nBitsTotal) in
  WA ws ((Z.of_nat (length ws) + 1) * 4).

Definition H : list Z := [0x67452301; 0xEFCDAB89; 0x98BADCFE; 0x10325476; 0xC3D2E1F0].
Definition output (h : list Z) : wordarray := wa_init (swap <$> h).
End Ripemd160.

(** * The hashers *)

(** The trailers: the end mark and the length, whose words MD5 and RIPEMD-160
    store in the other byte order (RIPEMD-160 only the low one). *)
Definition last_block (r : Z) : Z := 16 * ((r + 8) / 64) + 16.
Definition sha1_trailer (n r : Z) : list Z :=
  length_trailer (last_block r) (4 * last_block r) r (n * 8 / 0x100000000) (n * 8).
Definition md5_trailer (n r : Z) : list Z :=
  length_trailer (last_block r) (4 * last_block r + 4) r (swap (n * 8)) (swap (n * 8 / 0x100000000)).
Definition ripemd160_trailer (n r : Z) : list Z :=
  length_trailer (last_block r) (4 * last_block r) r (swap (n * 8)) 0.

Definition SHA1 : Algorithm (list Z) := {|
  blockSize := 16; _doReset := Sha1.H; _doProcessBlock := Sha1.doProcessBlock;
  _pad := Sha1.pad; _output := wa_init; _trailer := sha1_trailer |}.
Definition MD5 : Algorithm (list Z) := {|
  blockSize := 16; _doReset := Md5.H; _doProcessBlock := Md5.doProcessBlock;
  _pad := Md5.pad; _output := Md5.output; _trailer := md5_trailer |}.
Definition RIPEMD160 : Algorithm (list Z) := {|
  blockSize := 16; _doReset := Ripemd160.H; _doProcessBlock := Ripemd160.doProcessBlock;
  _pad := Ripemd160.pad; _output := Ripemd160.output; _trailer := ripemd160_trailer |}.

Example sha1_abc : Hex_stringify (hash (H := SHA1) (of_bytes [97; 98; 99])) =
  str "a9993e364706816aba3e25717850c26c9cd0d89d".
Proof. vm_compute. reflexivity. Qed.
Example md5_abc : Hex_stringify (hash (H := MD5) (of_bytes [97; 98; 99])) =
  str "900150983cd24fb0d6963f7d28e17f72".
Proof. vm_compute. reflexivity. Qed.
Example ripemd160_abc : Hex_stringify (hash (H := RIPEMD160) (of_bytes [97; 98; 99])) =
  str "8eb208f7e05d987a9b044a8e98c6b087f15a0bfc".
Proof. vm_compute. reflexivity. Qed.

(** * Laws *)

Lemma last_index_val sig : 0 <= sig < 2 ^ 28 -> last_index (sig * 8) = 16 * ((sig + 8) / 64).
Proof.
  intros Hs. unfold last_index. rewrite ushr_div by lia.
  replace ((sig * 8 + 64) / 2 ^ 9) with ((sig + 8) / 64) by (Z.div_mod_to_equations; lia).
  rewrite shl_mul; [lia|lia|apply Z.div_pos; lia|].
  change (2 ^ 4) with 16. change (2 ^ 31) with 2147483648. Z.div_mod_to_equations; lia.
Qed.

Lemma end_mark_byte b sig ws : 0 <= sig < 2 ^ 29 -> end_mark b (sig * 8) ws = or_byte ws sig b.
Proof. intros H. unfold end_mark. by apply or_bit_byte. Qed.

(** The bytes of data to which the mark and two words were added. *)
Lemma padded_byte d E q v1 v2 :
  clean d -> 0 <= q -> sigBytes d + 9 <= 4 * E ->
  byte_at (set_word (set_word (or_byte (words d) (sigBytes d) 0x80) (E - 2) v1) (E - 1) v2) q =
  if q / 4 =? E - 1 then default 0 (be32 v2 !! Z.to_nat (q mod 4))
  else if q / 4 =? E - 2 then default 0 (be32 v1 !! Z.to_nat (q mod 4))
  else if q =? sigBytes d then 0x80 else byte_at (words d) q.
Proof.
  intros [[Hs _] Hz] Hq HE. pose proof (div_4_bounds q).
  destruct (Z.eqb_spec (q / 4) (E - 1)) as [E1|E1]; [rewrite be32_byte by lia; done|].
  rewrite byte_at_set_other by lia.
  destruct (Z.eqb_spec (q / 4) (E - 2)) as [E2|E2]; [rewrite be32_byte by lia; done|].
  rewrite byte_at_set_other by lia. apply or_byte_spec; [lia|done|unfold is_byte; lia|by apply Hz].
Qed.

Lemma last_block_eq sig :
  0 <= sig -> 4 * (16 * ((sig + 8) / 64) + 16) - sig = 4 * last_block (sig mod (16 * 4)) - sig mod (16 * 4) /\
  sig + 9 <= 4 * (16 * ((sig + 8) / 64) + 16).
Proof. intros H. unfold last_block. split; Z.div_mod_to_equations; lia. Qed.

Section Pads.
Context (n : Z) (d : wordarray) (Hd : clean d) (Hn : 0 <= n) (Hb : sigBytes d < 2 ^ 28).

#[local] Abbreviation E := (16 * ((sigBytes d + 8) / 64) + 16).

Lemma mark_length :
  Z.of_nat (length (or_byte (words d) (sigBytes d) 0x80)) <= E - 2 /\ 0 <= sigBytes d /\ sigBytes d + 9 <= 4 * E.
Proof using Hd.
  pose proof Hd as [[Hs Hl] Hz]. destruct (last_block_eq (sigBytes d) Hs) as [_ HE].
  rewrite length_or_byte, Hl by done. Z.div_mod_to_equations; lia.
Qed.

Lemma sha1_pad_law : 0 <= sigBytes (Sha1.pad n d) /\
  bytes_of (Sha1.pad n d) = bytes_of d ++ sha1_trailer n (sigBytes d mod (16 * 4)).
Proof using Hd Hn Hb.
  destruct mark_length as (Hl & Hs & HE). destruct (last_block_eq (sigBytes d) Hs) as [HL _].
  unfold Sha1.pad. rewrite end_mark_byte, last_index_val by lia.
  replace (16 * ((sigBytes d + 8) / 64) + 14) with (E - 2) by lia.
  replace (16 * ((sigBytes d + 8) / 64) + 15) with (E - 1) by lia. cbv zeta.
  rewrite !length_set_word, Z.max_l by lia. cbn [sigBytes]. split; [lia|].
  rewrite (length_pad_bytes d _ E _ (n * 8 / 0x100000000) (n * 8)); [|done|lia|lia|].
  - f_equal. apply length_trailer_eq; lia.
  - intros q Hq. by apply padded_byte.
Qed.

Lemma md5_pad_law : 0 <= sigBytes (Md5.pad n d) /\
  bytes_of (Md5.pad n d) = bytes_of d ++ md5_trailer n (sigBytes d mod (16 * 4)).
Proof using Hd Hn Hb.
  destruct mark_length as (Hl & Hs & HE). destruct (last_block_eq (sigBytes d) Hs) as [HL _].
  unfold Md5.pad. rewrite end_mark_byte, last_index_val by lia.
  replace (16 * ((sigBytes d + 8) / 64) + 14) with (E - 2) by lia.
  replace (16 * ((sigBytes d + 8) / 64) + 15) with (E - 1) by lia. cbv zeta.
  rewrite !length_set_word, Z.max_r, Z.max_l by lia. cbn [sigBytes]. split; [lia|].
  rewrite (length_pad_bytes d _ E _ (swap (n * 8)) (swap (n * 8 / 0x100000000))); [|done|lia|lia|].
  - f_equal. apply length_trailer_eq; lia.
  - intros q Hq. rewrite <- (padded_byte d E q) by (done || lia).
    apply byte_at_get. rewrite !get_set_word by (try apply Z.div_pos; lia).
    by destruct (Z.eqb_spec (q / 4) (E - 2)), (Z.eqb_spec (q / 4) (E - 1)); lia || done.
Qed.

Lemma ripemd160_pad_law : 0 <= sigBytes (Ripemd160.pad n d) /\
  bytes_of (Ripemd160.pad n d) = bytes_of d ++ ripemd160_trailer n (sigBytes d mod (16 * 4)).
Proof using Hd Hn Hb.
  destruct mark_length as (Hl & Hs & HE). destruct (last_block_eq (sigBytes d) Hs) as [HL _].
  unfold Ripemd160.pad. rewrite end_mark_byte, last_index_val by lia.
  replace (16 * ((sigBytes d + 8) / 64) + 14) with (E - 2) by lia. cbv zeta.
  rewrite !length_set_word, Z.max_l by lia. cbn [sigBytes]. split; [lia|].
  rewrite (length_pad_bytes d _ E _ (swap (n * 8)) 0); [|done|lia|lia|].
  - f_equal. apply length_trailer_eq; lia.
  - intros q Hq. rewrite <- (padded_byte d E q) by (done || lia).
    apply byte_at_get. pose proof (div_4_bounds q).
    destruct (Z.eqb_spec (q / 4) (E - 1)) as [Eq|Ne].
    + rewrite Eq. rewrite (get_set_word _ (E - 1)), Z.eqb_refl by lia.
      unfold get_word. rewrite lookup_ge_None_2; [done|].
      pose proof (length_set_word (or_byte (words d) (sigBytes d) 128) (E - 2) (swap (n * 8)) ltac:(lia)). lia.
    + rewrite (get_set_word _ (E - 1)) by (try apply Z.div_pos; lia). by zbool (q / 4 =? E - 1) false.
Qed.
End Pads.

(** Blocks are local. *)
Lemma sha1_local M M' off off' s :
  (forall i, 0 <= i < 16 -> u32 (get_word M (off + i)) = u32 (get_word M' (off' + i))) ->
  (Sha1.doProcessBlock off (s, M)).1 = (Sha1.doProcessBlock off' (s, M')).1.
Proof.
  intros Heq. unfold Sha1.doProcessBlock.
  rewrite (loop_ext 80 (Sha1.iteration M off) (Sha1.iteration M' off')); [by destruct (loop 80 _ _).2|].
  intros i x Hi. unfold Sha1.iteration, Sha1.schedule. destruct (Z.ltb_spec i 16); [|done].
  by rewrite (or_0_u32 _ (get_word M' (off' + i))) by (apply Heq; lia).
Qed.

Lemma sha1_words M off s : (Sha1.doProcessBlock off (s, M)).2 = M.
Proof. unfold Sha1.doProcessBlock. by destruct (loop 80 _ _).2. Qed.

Lemma swap_bits w i : 0 <= i < 32 -> Z.testbit (swap w) i = Z.testbit w (24 - 8 * (i / 8) + i mod 8).
Proof.
  intros Hi. unfold swap. rewrite or_bits, !and_bits, !or_bits, !shl_bits, !ushr_bits by lia.
  assert (i = Z.of_nat (Z.to_nat i)) as E by lia. assert (Z.to_nat i < 32)%nat as Hk by lia.
  revert E Hk. generalize (Z.to_nat i) as k. intros k -> Hk. clear Hi.
  do 32 (destruct k as [|k]; [cbn; rewrite ?andb_false_r, ?andb_true_r, ?orb_false_r, ?orb_false_l; reflexivity|]).
  lia.
Qed.

(** The bytes of the swapped word are those of the word, reversed. *)
Lemma swap_byte w n :
  0 <= n < 4 -> (swap w >>>w (24 - n * 8)) &w 0xff = (w >>>w (n * 8)) &w 0xff.
Proof.
  intros Hn. pose proof (and_range (swap w >>>w (24 - n * 8)) 0xff). pose proof (and_range (w >>>w (n * 8)) 0xff).
  apply byte_ext; [unfold is_byte; lia|unfold is_byte; lia|]. intros j Hj.
  rewrite !and_bits, !ushr_bits by lia. f_equal.
  zbool (j + (24 - n * 8) <? 32) true. zbool (j + n * 8 <? 32) true. cbn [andb].
  rewrite swap_bits by lia. f_equal. Z.div_mod_to_equations; lia.
Qed.

Lemma js_ops_u32 a b : u32 a = u32 b -> swap a = swap b.
Proof.
  intros H. unfold swap, js_shl, js_ushr. by rewrite (proj1 (u32_eq_s32 a b) H), H.
Qed.

Lemma swap_words_get n off M i :
  0 <= off -> 0 <= i ->
  get_word (loop n (fun i M => set_word M (off + i) (swap (get_word M (off + i)))) M) i =
  if (off <=? i) && (i <? off + Z.of_nat n) then swap (get_word M i) else get_word M i.
Proof.
  intros Ho. revert i. induction n as [|n IH]; intros i Hi.
  - simpl loop. destruct (Z.leb_spec off i); simpl; [|done]. by zbool (i <? off + Z.of_nat 0) false.
  - rewrite loop_S. rewrite get_set_word by lia.
    destruct (Z.eqb_spec i (off + Z.of_nat n)) as [->|Hne].
    + rewrite IH by lia. zbool (off <=? off + Z.of_nat n) true.
      zbool (off + Z.of_nat n <? off + Z.of_nat n) false.
      zbool (off + Z.of_nat n <? off + Z.of_nat (S n)) true. cbn [andb]. reflexivity.
    + rewrite IH by done. destruct (Z.leb_spec off i); simpl; [|done].
      destruct (Z.ltb_spec i (off + Z.of_nat n)).
      * by zbool (i <? off + Z.of_nat (S n)) true.
      * by zbool (i <? off + Z.of_nat (S n)) false.
Qed.

Lemma swap_block_in off M i :
  0 <= off -> 0 <= i < 16 -> get_word (Md5.swap_block off M) (off + i) = swap (get_word M (off + i)).
Proof.
  intros Ho Hi. unfold Md5.swap_block. rewrite swap_words_get by lia.
  zbool (off <=? off + i) true. zbool (off + i <? off + Z.of_nat 16) true. cbn [andb]. reflexivity.
Qed.

Lemma swap_block_out off M i : 0 <= off -> off + 16 <= i -> get_word (Md5.swap_block off M) i = get_word M i.
Proof.
  intros Ho Hi. unfold Md5.swap_block. rewrite swap_words_get by lia.
  zbool (off <=? i) true. by zbool (i <? off + Z.of_nat 16) false.
Qed.

Lemma swap_block_length off M :
  0 <= off -> off + 16 <= Z.of_nat (length M) -> length (Md5.swap_block off M) = length M.
Proof.
  intros Ho Hl. unfold Md5.swap_block.
  apply (loop_ind (fun k M' => length M' = length M)); [done|].
  intros k M' Hk HM. pose proof (length_set_word M' (off + Z.of_nat k) (swap (get_word M' (off + Z.of_nat k))) ltac:(lia)).
  lia.
Qed.

(** The rounds read the words 0 to 15 of the block. *)
Lemma four_ext F f g k i0 i1 i2 i3 s0 s1 s2 s3 x :
  f i0 = g i0 -> f i1 = g i1 -> f i2 = g i2 -> f i3 = g i3 ->
  Md5.four F f k i0 i1 i2 i3 s0 s1 s2 s3 x = Md5.four F g k i0 i1 i2 i3 s0 s1 s2 s3 x.
Proof. intros H0 H1 H2 H3. unfold Md5.four. destruct x. by rewrite H0, H1, H2, H3. Qed.

Lemma rounds_ext f g x : (forall i, 0 <= i < 16 -> f i = g i) -> Md5.rounds f x = Md5.rounds g x.
Proof. intros H. unfold Md5.rounds. rewrite !(four_ext _ f g) by (apply H; lia). done. Qed.

Lemma swapped_words M M' off off' :
  0 <= off -> 0 <= off' ->
  (forall i, 0 <= i < 16 -> u32 (get_word M (off + i)) = u32 (get_word M' (off' + i))) ->
  forall i, 0 <= i < 16 ->
  get_word (Md5.swap_block off M) (off + i) = get_word (Md5.swap_block off' M') (off' + i).
Proof. intros Ho Ho' H i Hi. rewrite !swap_block_in by done. apply js_ops_u32. by apply H. Qed.

Lemma md5_local M M' off off' s :
  0 <= off -> 0 <= off' ->
  (forall i, 0 <= i < 16 -> u32 (get_word M (off + i)) = u32 (get_word M' (off' + i))) ->
  (Md5.doProcessBlock off (s, M)).1 = (Md5.doProcessBlock off' (s, M')).1.
Proof.
  intros Ho Ho' Heq. unfold Md5.doProcessBlock.
  rewrite (rounds_ext _ (fun i => get_word (Md5.swap_block off' M') (off' + i))).
  - by destruct (Md5.rounds _ _).
  - by apply swapped_words.
Qed.

Lemma md5_words M off s : (Md5.doProcessBlock off (s, M)).2 = Md5.swap_block off M.
Proof. unfold Md5.doProcessBlock. by destruct (Md5.rounds _ _). Qed.

Lemma ripemd160_indexes : Forall (fun i => 0 <= get_word Ripemd160.zl i < 16 /\ 0 <= get_word Ripemd160.zr i < 16) (seqZ 0 80).
Proof. vm_compute. repeat constructor; discriminate. Qed.

Lemma ripemd160_local M M' off off' s :
  0 <= off -> 0 <= off' ->
  (forall i, 0 <= i < 16 -> u32 (get_word M (off + i)) = u32 (get_word M' (off' + i))) ->
  (Ripemd160.doProcessBlock off (s, M)).1 = (Ripemd160.doProcessBlock off' (s, M')).1.
Proof.
  intros Ho Ho' Heq. unfold Ripemd160.doProcessBlock.
  rewrite (loop_ext 80 _ (Ripemd160.iteration (fun i => get_word (Md5.swap_block off' M') (off' + i)))).
  - by destruct (loop 80 _ _) as [[] []].
  - intros i [l r] Hi. unfold Ripemd160.iteration.
    destruct (proj1 (Forall_forall _ _) ripemd160_indexes i) as [Hzl Hzr]; [apply elem_of_seqZ; lia|].
    by rewrite !(swapped_words M M' off off') by done.
Qed.

Lemma ripemd160_words M off s : (Ripemd160.doProcessBlock off (s, M)).2 = Md5.swap_block off M.
Proof. unfold Ripemd160.doProcessBlock. by destruct (loop 80 _ _) as [[] []]. Qed.

Definition SHA1_laws : AlgorithmLaws (list Z) (H := SHA1).
Proof.
  refine (@Build_AlgorithmLaws (list Z) SHA1 eq_refl _ _ _ sha1_pad_law).
  - intros M M' off off' s _ _. apply sha1_local.
  - intros M off s i _ _. cbn [_doProcessBlock SHA1]. by rewrite sha1_words.
  - intros M off s _ _. cbn [_doProcessBlock SHA1]. by rewrite sha1_words.
Defined.
Definition MD5_laws : AlgorithmLaws (list Z) (H := MD5).
Proof.
  refine (@Build_AlgorithmLaws (list Z) MD5 eq_refl md5_local _ _ md5_pad_law).
  - intros M off s i Ho Hi. cbn [_doProcessBlock MD5]. rewrite md5_words. by apply swap_block_out.
  - intros M off s Ho Hi. cbn [_doProcessBlock MD5]. rewrite md5_words. by apply swap_block_length.
Defined.
Definition RIPEMD160_laws : AlgorithmLaws (list Z) (H := RIPEMD160).
Proof.
  refine (@Build_AlgorithmLaws (list Z) RIPEMD160 eq_refl ripemd160_local _ _ ripemd160_pad_law).
  - intros M off s i Ho Hi. cbn [_doProcessBlock RIPEMD160]. rewrite ripemd160_words. by apply swap_block_out.
  - intros M off s Ho Hi. cbn [_doProcessBlock RIPEMD160]. rewrite ripemd160_words. by apply swap_block_length.
Defined.
