(* ===== verification/X64.v ===== *)
(** The 64-bit words of the bundled crypto-js, x64-core of web3.js
    (13057-13362): pairs of 32-bit numbers, on which SHA-512 and SHA-3 compute.
    Sums carry by comparing; the pairs are shown to compute with 64-bit words. *)
From Stdlib Require Import ZArith Lia.
From S2P Require Import Prelude Words WordArray.
Open Scope Z_scope.
Open Scope word_scope.

Record x64 := W64 { high : Z; low : Z }.

(** [X64WordArray.toX32] *)
Definition toX32 (ws : list x64) (size : Z) : wordarray :=
  WA (ws ≫= (fun x => [high x; low x])) size.

Definition get64 (ws : list x64) (i : Z) : x64 := default (W64 0 0) (ws !! Z.to_nat i).

(** [low = x.low + y.low; high = x.high + y.high + ((low >>> 0) < (c >>> 0) ? 1 : 0)]:
    the carry is found by comparing with the low word [c] of an operand. *)
Definition add_carry (c : Z) (x y : x64) : x64 :=
  let l := low x + low y in
  W64 (high x + high y + (if u32 l <? u32 c then 1 else 0)) l.

(** The same with both words reduced, [| 0]. *)
Definition add_carry_0 (c : Z) (x y : x64) : x64 :=
  let l := (low x + low y) |w 0 in
  W64 ((high x + high y + (if u32 l <? u32 c then 1 else 0)) |w 0) l.

(** * Pairs compute with 64-bit words *)

Definition v64 (x : x64) : Z := u32 (high x) * 2 ^ 32 + u32 (low x).
Definition u64 (z : Z) : Z := z mod 2 ^ 64.
Definition rotr64 (n x : Z) : Z := Z.lor (Z.shiftr x n) (u64 (Z.shiftl x (64 - n))).

Lemma v64_range x : 0 <= v64 x < 2 ^ 64.
Proof. unfold v64. pose proof (u32_range (high x)). pose proof (u32_range (low x)). lia. Qed.

Lemma v64_bits x i :
  Z.testbit (v64 x) i =
    if i <? 32 then Z.testbit (low x) i else (i <? 64) && Z.testbit (high x) (i - 32).
Proof.
  destruct (decide (i < 0)). { zbool (i <? 32) true. by rewrite !Z.testbit_neg_r by lia. }
  unfold v64. pose proof (u32_range (low x)). pose proof (u32_range (high x)).
  destruct (Z.ltb_spec i 32).
  - rewrite <- (Z.mod_pow2_bits_low _ 32) by lia. rewrite Z.add_comm, Z.mod_add, Z.mod_small by lia.
    apply u32_bits. lia.
  - replace i with (i - 32 + 32) at 1 by lia. rewrite <- Z.div_pow2_bits by lia.
    rewrite Z.div_add_l, Z.div_small, Z.add_0_r by lia. destruct (Z.ltb_spec i 64); simpl.
    + apply u32_bits. lia.
    + apply u32_bits_high. lia.
Qed.

Lemma u64_bits z i : 0 <= i -> Z.testbit (u64 z) i = (i <? 64) && Z.testbit z i.
Proof.
  intros Hi. unfold u64. destruct (Z.ltb_spec i 64); simpl.
  - apply Z.mod_pow2_bits_low. lia.
  - apply Z.mod_pow2_bits_high. lia.
Qed.

(** Case analysis on the position of a bit. *)
Ltac bit_cases :=
  repeat match goal with
  | |- context [?a <? ?b] => destruct (Z.ltb_spec a b); try lia
  | |- context [?a <=? ?b] => destruct (Z.leb_spec a b); try lia
  end;
  autorewrite with words;
  repeat match goal with
  | |- context [?a <? ?b] => destruct (Z.ltb_spec a b); try lia
  | |- context [?a <=? ?b] => destruct (Z.leb_spec a b); try lia
  | |- context [Z.testbit _ ?i] => rewrite (Z.testbit_neg_r _ i) by lia
  end;
  cbn [andb]; rewrite ?orb_false_r, ?orb_false_l; try done; try (f_equal; lia).

Lemma pair_rotr h l n m :
  0 < n < 32 -> m + n = 32 ->
  v64 (W64 ((h >>>w n) |w (l <<w m)) ((l >>>w n) |w (h <<w m))) = rotr64 n (v64 (W64 h l)).
Proof.
  intros Hn Hm. apply Z.bits_inj_iff'. intros i Hi. unfold rotr64.
  rewrite Z.lor_spec, Z.shiftr_spec, u64_bits, Z.shiftl_spec, !v64_bits by lia. cbn [high low].
  bit_cases.
Qed.

Lemma pair_rotl h l n m :
  0 < n < 32 -> m + n = 32 ->
  v64 (W64 ((h <<w m) |w (l >>>w n)) ((l <<w m) |w (h >>>w n))) = rotr64 (n + 32) (v64 (W64 h l)).
Proof.
  intros Hn Hm. apply Z.bits_inj_iff'. intros i Hi. unfold rotr64.
  rewrite Z.lor_spec, Z.shiftr_spec, u64_bits, Z.shiftl_spec, !v64_bits by lia. cbn [high low].
  bit_cases.
Qed.

Lemma pair_shr h l n m :
  0 < n < 32 -> m + n = 32 ->
  v64 (W64 (h >>>w n) ((l >>>w n) |w (h <<w m))) = Z.shiftr (v64 (W64 h l)) n.
Proof.
  intros Hn Hm. apply Z.bits_inj_iff'. intros i Hi. rewrite Z.shiftr_spec, !v64_bits by lia.
  cbn [high low]. bit_cases.
Qed.

Lemma pair_xor h l h' l' :
  v64 (W64 (h ^w h') (l ^w l')) = Z.lxor (v64 (W64 h l)) (v64 (W64 h' l')).
Proof.
  apply Z.bits_inj_iff'. intros i Hi. rewrite Z.lxor_spec, !v64_bits by lia. cbn [high low]. bit_cases.
Qed.

Lemma pair_and h l h' l' :
  v64 (W64 (h &w h') (l &w l')) = Z.land (v64 (W64 h l)) (v64 (W64 h' l')).
Proof.
  apply Z.bits_inj_iff'. intros i Hi. rewrite Z.land_spec, !v64_bits by lia. cbn [high low]. bit_cases.
Qed.

Lemma pair_not h l : v64 (W64 (js_not h) (js_not l)) = Z.lxor (v64 (W64 h l)) (Z.ones 64).
Proof.
  apply Z.bits_inj_iff'. intros i Hi. rewrite Z.lxor_spec, Z.testbit_ones_nonneg, !v64_bits by lia.
  cbn [high low]. bit_cases; by rewrite ?xorb_true_r.
Qed.

(** * Sums *)

Lemma v64_add x y :
  v64 (W64 (high x + high y + (u32 (low x) + u32 (low y)) / 2 ^ 32) (low x + low y)) =
  u64 (v64 x + v64 y).
Proof.
  unfold v64, u64, u32. cbn [high low]. change (2 ^ 64) with (2 ^ 32 * 2 ^ 32).
  change (2 ^ 32) with 4294967296. Z.div_mod_to_equations; lia.
Qed.

Lemma v64_ext h l h' l' : u32 h = u32 h' -> u32 l = u32 l' -> v64 (W64 h l) = v64 (W64 h' l').
Proof. intros H1 H2. unfold v64. cbn [high low]. by rewrite H1, H2. Qed.

(** The comparison finds the carry when it is with the low word of an operand. *)
Lemma carry_compare a b c :
  u32 c = u32 a \/ u32 c = u32 b -> (if u32 (a + b) <? u32 c then 1 else 0) = (u32 a + u32 b) / 2 ^ 32.
Proof.
  intros Hc. rewrite u32_add. pose proof (u32_range a). pose proof (u32_range b).
  set (x := u32 a) in *. set (y := u32 b) in *.
  assert (u32 (x + y) = x + y - 2 ^ 32 * ((x + y) / 2 ^ 32)) as -> by (unfold u32; rewrite Z.mod_eq; lia).
  change (2 ^ 32) with 4294967296 in *.
  destruct (Z.ltb_spec (x + y - 4294967296 * ((x + y) / 4294967296)) (u32 c)); Z.div_mod_to_equations; lia.
Qed.

Lemma add_carry_sum c x y :
  u32 c = u32 (low x) \/ u32 c = u32 (low y) -> v64 (add_carry c x y) = u64 (v64 x + v64 y).
Proof. intros Hc. unfold add_carry. rewrite carry_compare by done. apply v64_add. Qed.

Lemma add_carry_0_sum c x y :
  u32 c = u32 (low x) \/ u32 c = u32 (low y) -> v64 (add_carry_0 c x y) = u64 (v64 x + v64 y).
Proof.
  intros Hc. unfold add_carry_0. rewrite <- v64_add. rewrite <- (carry_compare _ _ c) by done.
  rewrite (eq32_u32 _ _ (or_0_id32 (low x + low y))). apply v64_ext; apply eq32_u32, or_0_id32.
Qed.

(** Equality modulo [2 ^ 64], with rewriting under sums. *)
Record eq64 (a b : Z) : Prop := Eq64 { eq64_u64 : u64 a = u64 b }.
Infix "≡64" := eq64 (at level 70) : word_scope.

#[export] Instance eq64_equiv : Equivalence eq64.
Proof.
  split.
  - by constructor.
  - intros a b [H]. by constructor.
  - intros a b c [H1] [H2]. constructor. congruence.
Qed.
#[export] Instance add_eq64 : Proper (eq64 ==> eq64 ==> eq64) Z.add.
Proof. intros a a' [Ha] b b' [Hb]. constructor. unfold u64 in *. by rewrite Z.add_mod, Ha, Hb, <- Z.add_mod. Qed.

Lemma u64_id64 a : u64 a ≡64 a.
Proof. constructor. apply Z.mod_mod. lia. Qed.

Lemma get64_v64 ws i : get_word (v64 <$> ws) i = v64 (get64 ws i).
Proof. unfold get_word, get64. rewrite list_lookup_fmap. by destruct (ws !! Z.to_nat i). Qed.
