(* ===== verification/Sha512.v ===== *)
(** SHA-512 and SHA-384 of the bundled crypto-js, web3.js 11878-12286. The block
    function is shown to be the standard's on 64-bit words. *)
From Stdlib Require Import ZArith Lia.
From S2P Require Import Prelude Words WordArray Hasher X64.
Open Scope Z_scope.
Open Scope word_scope.

(** * Constants *)

Definition K : list x64 :=
  [W64 0x428a2f98 0xd728ae22; W64 0x71374491 0x23ef65cd; W64 0xb5c0fbcf 0xec4d3b2f; 
   W64 0xe9b5dba5 0x8189dbbc; W64 0x3956c25b 0xf348b538; W64 0x59f111f1 0xb605d019; 
   W64 0x923f82a4 0xaf194f9b; W64 0xab1c5ed5 0xda6d8118; W64 0xd807aa98 0xa3030242; 
   W64 0x12835b01 0x45706fbe; W64 0x243185be 0x4ee4b28c; W64 0x550c7dc3 0xd5ffb4e2; 
   W64 0x72be5d74 0xf27b896f; W64 0x80deb1fe 0x3b1696b1; W64 0x9bdc06a7 0x25c71235; 
   W64 0xc19bf174 0xcf692694; W64 0xe49b69c1 0x9ef14ad2; W64 0xefbe4786 0x384f25e3; 
   W64 0x0fc19dc6 0x8b8cd5b5; W64 0x240ca1cc 0x77ac9c65; W64 0x2de92c6f 0x592b0275; 
   W64 0x4a7484aa 0x6ea6e483; W64 0x5cb0a9dc 0xbd41fbd4; W64 0x76f988da 0x831153b5; 
   W64 0x983e5152 0xee66dfab; W64 0xa831c66d 0x2db43210; W64 0xb00327c8 0x98fb213f; 
   W64 0xbf597fc7 0xbeef0ee4; W64 0xc6e00bf3 0x3da88fc2; W64 0xd5a79147 0x930aa725; 
   W64 0x06ca6351 0xe003826f; W64 0x14292967 0x0a0e6e70; W64 0x27b70a85 0x46d22ffc; 
   W64 0x2e1b2138 0x5c26c926; W64 0x4d2c6dfc 0x5ac42aed; W64 0x53380d13 0x9d95b3df; 
   W64 0x650a7354 0x8baf63de; W64 0x766a0abb 0x3c77b2a8; W64 0x81c2c92e 0x47edaee6; 
   W64 0x92722c85 0x1482353b; W64 0xa2bfe8a1 0x4cf10364; W64 0xa81a664b 0xbc423001; 
   W64 0xc24b8b70 0xd0f89791; W64 0xc76c51a3 0x0654be30; W64 0xd192e819 0xd6ef5218; 
   W64 0xd6990624 0x5565a910; W64 0xf40e3585 0x5771202a; W64 0x106aa070 0x32bbd1b8; 
   W64 0x19a4c116 0xb8d2d0c8; W64 0x1e376c08 0x5141ab53; W64 0x2748774c 0xdf8eeb99; 
   W64 0x34b0bcb5 0xe19b48a8; W64 0x391c0cb3 0xc5c95a63; W64 0x4ed8aa4a 0xe3418acb; 
   W64 0x5b9cca4f 0x7763e373; W64 0x682e6ff3 0xd6b2b8a3; W64 0x748f82ee 0x5defb2fc; 
   W64 0x78a5636f 0x43172f60; W64 0x84c87814 0xa1f0ab72; W64 0x8cc70208 0x1a6439ec; 
   W64 0x90befffa 0x23631e28; W64 0xa4506ceb 0xde82bde9; W64 0xbef9a3f7 0xb2c67915; 
   W64 0xc67178f2 0xe372532b; W64 0xca273ece 0xea26619c; W64 0xd186b8c7 0x21c0c207; 
   W64 0xeada7dd6 0xcde0eb1e; W64 0xf57d4f7f 0xee6ed178; W64 0x06f067aa 0x72176fba; 
   W64 0x0a637dc5 0xa2c898a6; W64 0x113f9804 0xbef90dae; W64 0x1b710b35 0x131c471b; 
   W64 0x28db77f5 0x23047d84; W64 0x32caab7b 0x40c72493; W64 0x3c9ebe0a 0x15c9bebc; 
   W64 0x431d67c4 0x9c100d4c; W64 0x4cc5d4be 0xcb3e42b6; W64 0x597f299c 0xfc657e2a; 
   W64 0x5fcb6fab 0x3ad6faec; W64 0x6c44198c 0x4a475817].

Definition H512 : list x64 :=
  [W64 0x6a09e667 0xf3bcc908; W64 0xbb67ae85 0x84caa73b; W64 0x3c6ef372 0xfe94f82b; W64 0xa54ff53a 0x5f1d36f1;
   W64 0x510e527f 0xade682d1; W64 0x9b05688c 0x2b3e6c1f; W64 0x1f83d9ab 0xfb41bd6b; W64 0x5be0cd19 0x137e2179].
Definition H384 : list x64 :=
  [W64 0xcbbb9d5d 0xc1059ed8; W64 0x629a292a 0x367cd507; W64 0x9159015a 0x3070dd17; W64 0x152fecd8 0xf70e5939;
   W64 0x67332667 0xffc00b31; W64 0x8eb44a87 0x68581511; W64 0xdb0c2e0d 0x64f98fa7; W64 0x47b5481d 0xbefa4fa4].

(** * The block function *)

Definition gamma0 (x : x64) : x64 :=
  let '(W64 h l) := x in
  W64 (((h >>>w 1) |w (l <<w 31)) ^w ((h >>>w 8) |w (l <<w 24)) ^w (h >>>w 7))
      (((l >>>w 1) |w (h <<w 31)) ^w ((l >>>w 8) |w (h <<w 24)) ^w ((l >>>w 7) |w (h <<w 25))).
Definition gamma1 (x : x64) : x64 :=
  let '(W64 h l) := x in
  W64 (((h >>>w 19) |w (l <<w 13)) ^w ((h <<w 3) |w (l >>>w 29)) ^w (h >>>w 6))
      (((l >>>w 19) |w (h <<w 13)) ^w ((l <<w 3) |w (h >>>w 29)) ^w ((l >>>w 6) |w (h <<w 26))).
Definition sigma0 (x : x64) : x64 :=
  let '(W64 h l) := x in
  W64 (((h >>>w 28) |w (l <<w 4)) ^w ((h <<w 30) |w (l >>>w 2)) ^w ((h <<w 25) |w (l >>>w 7)))
      (((l >>>w 28) |w (h <<w 4)) ^w ((l <<w 30) |w (h >>>w 2)) ^w ((l <<w 25) |w (h >>>w 7))).
Definition sigma1 (x : x64) : x64 :=
  let '(W64 h l) := x in
  W64 (((h >>>w 14) |w (l <<w 18)) ^w ((h >>>w 18) |w (l <<w 14)) ^w ((h <<w 23) |w (l >>>w 9)))
      (((l >>>w 14) |w (h <<w 18)) ^w ((l >>>w 18) |w (h <<w 14)) ^w ((l <<w 23) |w (h >>>w 9))).
Definition ch (e f g : x64) : x64 :=
  W64 ((high e &w high f) ^w (js_not (high e) &w high g)) ((low e &w low f) ^w (js_not (low e) &w low g)).
Definition maj (a b c : x64) : x64 :=
  W64 ((high a &w high b) ^w (high a &w high c) ^w (high b &w high c))
      ((low a &w low b) ^w (low a &w low c) ^w (low b &w low c)).

(** [W[i]]; [W] has the previous words, the array being filled from 0. *)
Definition schedule (M : list Z) (offset i : Z) (W : list x64) : x64 :=
  if i <? 16 then W64 (get_word M (offset + i * 2) |w 0) (get_word M (offset + i * 2 + 1) |w 0)
  else
    let g0 := gamma0 (get64 W (i - 15)) in
    let g1 := gamma1 (get64 W (i - 2)) in
    let wi := add_carry (low g0) g0 (get64 W (i - 7)) in
    let wi := add_carry (low g1) wi g1 in
    add_carry (low (get64 W (i - 16))) wi (get64 W (i - 16)).

Record vars := Vars { va : x64; vb : x64; vc : x64; vd : x64; ve : x64; vf : x64; vg : x64; vh : x64 }.

Definition round (k w : x64) (x : vars) : vars :=
  let '(Vars a b c d e f g h) := x in
  let c0 := ch e f g in
  let t1 := add_carry (low h) h (sigma1 e) in
  let t1 := add_carry (low c0) t1 c0 in
  let t1 := add_carry (low k) t1 k in
  let t1 := add_carry (low w) t1 w in
  let t2 := add_carry (low (sigma0 a)) (sigma0 a) (maj a b c) in
  Vars (add_carry_0 (low t1) t1 t2) a b c (add_carry_0 (low d) d t1) e f g.

Definition iteration (M : list Z) (offset i : Z) (st : list x64 * vars) : list x64 * vars :=
  let w := schedule M offset i st.1 in
  (st.1 ++ [w], round (get64 K i) w st.2).

Definition load (h : list x64) : vars :=
  let g := get64 h in Vars (g 0) (g 1) (g 2) (g 3) (g 4) (g 5) (g 6) (g 7).
Definition store (h : list x64) (x : vars) : list x64 :=
  let add i y := add_carry (low y) (get64 h i) y in
  [add 0 (va x); add 1 (vb x); add 2 (vc x); add 3 (vd x);
   add 4 (ve x); add 5 (vf x); add 6 (vg x); add 7 (vh x)].

Definition doProcessBlock (offset : Z) (x : list x64 * list Z) : list x64 * list Z :=
  let '(h, M) := x in
  (store h (loop 80 (iteration M offset) ([], load h)).2, M).

Definition pad (nDataBytes : Z) (data : wordarray) : wordarray :=
  let nBitsTotal := nDataBytes * 8 in
  let nBitsLeft := sigBytes data * 8 in
  let ws := words data in
  let i := nBitsLeft >>>w 5 in
  let ws := set_word ws i (get_word ws i |w (0x80 <<w (24 - nBitsLeft mod 32))) in
  let ws := set_word ws ((((nBitsLeft + 128) >>>w 10) <<w 5) + 30) (nBitsTotal / 0x100000000) in
  let ws := set_word ws ((((nBitsLeft + 128) >>>w 10) <<w 5) + 31) nBitsTotal in
  WA ws (Z.of_nat (length ws) * 4).

Definition last_block (r : Z) : Z := 32 * ((r + 16) / 128) + 32.
Definition trailer (n r : Z) : list Z :=
  length_trailer (last_block r) (4 * last_block r) r (n * 8 / 0x100000000) (n * 8).

Definition SHA512 : Algorithm (list x64) := {|
  blockSize := 32; _doReset := H512; _doProcessBlock := doProcessBlock; _pad := pad;
  _output h := toX32 h (Z.of_nat (length h) * 8); _trailer := trailer |}.
Definition SHA384 : Algorithm (list x64) := {|
  blockSize := 32; _doReset := H384; _doProcessBlock := doProcessBlock; _pad := pad;
  _output h := toX32 h (Z.of_nat (length h) * 8 - 16); _trailer := trailer |}.

Example sha512_abc : Hex_stringify (hash (H := SHA512) (of_bytes [97; 98; 99])) =
  str "ddaf35a193617abacc417349ae20413112e6fa4e89a97ea20a9eeee64b55d39a" ++
  str "2192992a274fc1a836ba3c23a3feebbd454d4423643ce80e2a9ac94fa54ca49f".
Proof. vm_compute. reflexivity. Qed.
Example sha384_abc : Hex_stringify (hash (H := SHA384) (of_bytes [97; 98; 99])) =
  str "cb00753f45a35e8bb5a03d699ac65007272c32ab0eded1631a8b605a43ff5bed" ++
  str "8086072ba1e7cc2358baeca134c825a7".
Proof. vm_compute. reflexivity. Qed.

(** * The standard's formulas on 64-bit words *)

Definition Ch (x y z : Z) : Z := Z.lxor (Z.land x y) (Z.land (Z.lxor x (Z.ones 64)) z).
Definition Maj (x y z : Z) : Z := Z.lxor (Z.lxor (Z.land x y) (Z.land x z)) (Z.land y z).
Definition Sigma0 (x : Z) : Z := Z.lxor (Z.lxor (rotr64 28 x) (rotr64 34 x)) (rotr64 39 x).
Definition Sigma1 (x : Z) : Z := Z.lxor (Z.lxor (rotr64 14 x) (rotr64 18 x)) (rotr64 41 x).
Definition Gamma0 (x : Z) : Z := Z.lxor (Z.lxor (rotr64 1 x) (rotr64 8 x)) (Z.shiftr x 7).
Definition Gamma1 (x : Z) : Z := Z.lxor (Z.lxor (rotr64 19 x) (rotr64 61 x)) (Z.shiftr x 6).

Lemma gamma0_ref x : v64 (gamma0 x) = Gamma0 (v64 x).
Proof. destruct x as [h l]. unfold gamma0, Gamma0. by rewrite !pair_xor, !pair_rotr, pair_shr by lia. Qed.
Lemma gamma1_ref x : v64 (gamma1 x) = Gamma1 (v64 x).
Proof.
  destruct x as [h l]. unfold gamma1, Gamma1.
  by rewrite !pair_xor, pair_rotr, (pair_rotl _ _ 29), pair_shr by lia.
Qed.
Lemma sigma0_ref x : v64 (sigma0 x) = Sigma0 (v64 x).
Proof.
  destruct x as [h l]. unfold sigma0, Sigma0.
  by rewrite !pair_xor, pair_rotr, (pair_rotl _ _ 2), (pair_rotl _ _ 7) by lia.
Qed.
Lemma sigma1_ref x : v64 (sigma1 x) = Sigma1 (v64 x).
Proof.
  destruct x as [h l]. unfold sigma1, Sigma1. by rewrite !pair_xor, !pair_rotr, (pair_rotl _ _ 9) by lia.
Qed.
Lemma ch_ref e f g : v64 (ch e f g) = Ch (v64 e) (v64 f) (v64 g).
Proof. destruct e, f, g. unfold ch, Ch. by rewrite !pair_xor, !pair_and, pair_not. Qed.
Lemma maj_ref a b c : v64 (maj a b c) = Maj (v64 a) (v64 b) (v64 c).
Proof. destruct a, b, c. unfold maj, Maj. by rewrite !pair_xor, !pair_and. Qed.

Record vars64 := Vars64 { wa : Z; wb : Z; wc : Z; wd : Z; we : Z; wf : Z; wg : Z; wh : Z }.
Definition v64_vars (x : vars) : vars64 :=
  let '(Vars a b c d e f g h) := x in
  Vars64 (v64 a) (v64 b) (v64 c) (v64 d) (v64 e) (v64 f) (v64 g) (v64 h).

Definition ref_schedule (m : Z -> Z) (t : Z) (W : list Z) : Z :=
  if t <? 16 then m t
  else u64 (Gamma1 (get_word W (t - 2)) + get_word W (t - 7) + Gamma0 (get_word W (t - 15)) + get_word W (t - 16)).
Definition ref_round (k w : Z) (x : vars64) : vars64 :=
  let '(Vars64 a b c d e f g h) := x in
  let T1 := u64 (h + Sigma1 e + Ch e f g + k + w) in
  let T2 := u64 (Sigma0 a + Maj a b c) in
  Vars64 (u64 (T1 + T2)) a b c (u64 (d + T1)) e f g.
Definition ref_iteration (m : Z -> Z) (t : Z) (st : list Z * vars64) : list Z * vars64 :=
  let w := ref_schedule m t st.1 in
  (st.1 ++ [w], ref_round (v64 (get64 K t)) w st.2).
Definition ref_load (h : list Z) : vars64 :=
  let g := get_word h in Vars64 (g 0) (g 1) (g 2) (g 3) (g 4) (g 5) (g 6) (g 7).
Definition ref_store (h : list Z) (x : vars64) : list Z :=
  let g := get_word h in
  [u64 (g 0 + wa x); u64 (g 1 + wb x); u64 (g 2 + wc x); u64 (g 3 + wd x);
   u64 (g 4 + we x); u64 (g 5 + wf x); u64 (g 6 + wg x); u64 (g 7 + wh x)].
Definition ref_block (h : list Z) (m : Z -> Z) : list Z :=
  ref_store h (loop 80 (ref_iteration m) ([], ref_load h)).2.

Lemma round_ref64 k w x : v64_vars (round k w x) = ref_round (v64 k) (v64 w) (v64_vars x).
Proof.
  destruct x as [a b c d e f g h]. unfold round, ref_round, v64_vars.
  cbv zeta. set (t1 := add_carry (low w) _ w).
  assert (v64 t1 = u64 (v64 h + Sigma1 (v64 e) + Ch (v64 e) (v64 f) (v64 g) + v64 k + v64 w)) as HT1.
  { unfold t1. rewrite !add_carry_sum by auto. rewrite sigma1_ref, ch_ref.
    apply eq64_u64. by rewrite !u64_id64. }
  rewrite <- HT1. f_equal.
  - by rewrite add_carry_0_sum, add_carry_sum, sigma0_ref, maj_ref by auto.
  - by rewrite add_carry_0_sum by auto.
Qed.

Lemma schedule_ref64 M off i W :
  v64 (schedule M off i W) =
  ref_schedule (fun j => v64 (W64 (get_word M (off + j * 2)) (get_word M (off + j * 2 + 1)))) i (v64 <$> W).
Proof.
  unfold schedule, ref_schedule. destruct (i <? 16).
  { apply v64_ext; apply eq32_u32, or_0_id32. }
  cbv zeta. rewrite !add_carry_sum by auto. rewrite gamma0_ref, gamma1_ref, !get64_v64.
  apply eq64_u64. rewrite !u64_id64. constructor. f_equal. lia.
Qed.

Lemma iterations_ref64 M off h n :
  let st := loop n (iteration M off) ([], load h) in
  loop n (ref_iteration (fun j => v64 (W64 (get_word M (off + j * 2)) (get_word M (off + j * 2 + 1)))))
    ([], ref_load (v64 <$> h)) = (v64 <$> st.1, v64_vars st.2).
Proof.
  induction n as [|n IH].
  - unfold loop, load, v64_vars, ref_load. cbn [fst snd]. by rewrite !get64_v64.
  - cbv zeta in *. rewrite !loop_S, IH. set (st := loop n _ _). unfold iteration, ref_iteration. cbn [fst snd].
    by rewrite round_ref64, fmap_app, fmap_cons, fmap_nil, schedule_ref64.
Qed.

(** The block function, which adds pairs of 32-bit numbers without reducing
    them, computes the standard's compression function on 64-bit words. *)
Theorem sha512_block_standard off h M :
  v64 <$> (doProcessBlock off (h, M)).1 =
  ref_block (v64 <$> h) (fun j => v64 (W64 (get_word M (off + j * 2)) (get_word M (off + j * 2 + 1)))).
Proof.
  unfold doProcessBlock, ref_block. rewrite iterations_ref64. cbn [fst snd].
  set (x := (loop 80 _ _).2). destruct x as [a b c d e f g k].
  unfold store, ref_store, v64_vars. cbv zeta. rewrite !fmap_cons, fmap_nil. cbn [va vb vc vd ve vf vg vh wa wb wc wd we wf wg wh].
  by rewrite !add_carry_sum, !get64_v64 by auto.
Qed.

(** * The laws of the hasher *)

Lemma last_index64 sig :
  0 <= sig < 2 ^ 28 -> ((sig * 8 + 128) >>>w 10) <<w 5 = 32 * ((sig + 16) / 128).
Proof.
  intros Hs. rewrite ushr_div by lia.
  replace ((sig * 8 + 128) / 2 ^ 10) with ((sig + 16) / 128) by (Z.div_mod_to_equations; lia).
  rewrite shl_mul; [lia|lia|apply Z.div_pos; lia|].
  change (2 ^ 5) with 32. change (2 ^ 31) with 2147483648. Z.div_mod_to_equations; lia.
Qed.

Lemma pad_law64 n d :
  clean d -> 0 <= n -> sigBytes d < 2 ^ 28 -> 0 <= sigBytes (pad n d) /\
  bytes_of (pad n d) = bytes_of d ++ trailer n (sigBytes d mod (32 * 4)).
Proof.
  intros Hd Hn Hb. pose proof Hd as [[Hs Hl] Hz]. set (sig := sigBytes d) in *.
  set (E := 32 * ((sig + 16) / 128) + 32).
  assert (sig + 17 <= 4 * E <= sig + 16 + 128 + 128) as HE by (unfold E; Z.div_mod_to_equations; lia).
  assert (pad n d = WA (set_word (set_word (or_byte (words d) sig 0x80) (E - 2) (n * 8 / 0x100000000)) (E - 1) (n * 8))
                       (4 * E)) as ->.
  { unfold pad. fold sig. rewrite or_bit_byte, last_index64 by lia.
    replace (32 * ((sig + 16) / 128) + 30) with (E - 2) by (unfold E; lia).
    replace (32 * ((sig + 16) / 128) + 31) with (E - 1) by (unfold E; lia). f_equal.
    rewrite !length_set_word, length_or_byte by lia. pose proof (div_4_bounds sig).
    rewrite Hl. Z.div_mod_to_equations; lia. }
  cbn [sigBytes]. split; [lia|]. rewrite (length_pad_bytes d _ E _ (n * 8 / 0x100000000) (n * 8)); [|done|fold sig; lia|lia|].
  - fold sig. unfold trailer. f_equal. unfold last_block. apply length_trailer_eq; [|lia].
    unfold E. Z.div_mod_to_equations; lia.
  - fold sig. intros q Hq. pose proof (div_4_bounds q).
    destruct (Z.eqb_spec (q / 4) (E - 1)) as [E1|E1]; [rewrite be32_byte by lia; done|].
    rewrite byte_at_set_other by lia.
    destruct (Z.eqb_spec (q / 4) (E - 2)) as [E2|E2]; [rewrite be32_byte by lia; done|].
    rewrite byte_at_set_other by lia. apply or_byte_spec; [lia|done|unfold is_byte; lia|by apply Hz].
Qed.

Lemma doProcessBlock_local64 M M' off off' s :
  (forall i, 0 <= i < 32 -> u32 (get_word M (off + i)) = u32 (get_word M' (off' + i))) ->
  (doProcessBlock off (s, M)).1 = (doProcessBlock off' (s, M')).1.
Proof.
  intros Heq. unfold doProcessBlock, fst.
  rewrite (loop_ext 80 (iteration M off) (iteration M' off')); [done|].
  intros i x Hi. unfold iteration, schedule. destruct (Z.ltb_spec i 16); [|done].
  rewrite (or_0_u32 (get_word M (off + i * 2)) (get_word M' (off' + i * 2))) by (apply Heq; lia).
  rewrite (or_0_u32 (get_word M (off + i * 2 + 1)) (get_word M' (off' + i * 2 + 1))); [done|].
  rewrite <- !Z.add_assoc. apply Heq. lia.
Qed.

Definition SHA512_laws : AlgorithmLaws (list x64) (H := SHA512) :=
  @Build_AlgorithmLaws (list x64) SHA512 eq_refl
    (fun M M' off off' s _ _ Heq => doProcessBlock_local64 M M' off off' s Heq)
    (fun M off s i _ _ => eq_refl) (fun M off s _ _ => eq_refl) pad_law64.
Definition SHA384_laws : AlgorithmLaws (list x64) (H := SHA384) :=
  @Build_AlgorithmLaws (list x64) SHA384 eq_refl
    (fun M M' off off' s _ _ Heq => doProcessBlock_local64 M M' off off' s Heq)
    (fun M off s i _ _ => eq_refl) (fun M off s _ _ => eq_refl) pad_law64.

(** * The hash function *)

(** The [i]-th big-endian 64-bit word of some bytes. *)
Definition be_word64 (p : list Z) (i : Z) : Z := be_word p (i * 2) * 2 ^ 32 + be_word p (i * 2 + 1).
Definition ref_padded (m : list Z) : list Z :=
  m ++ trailer (Z.of_nat (length m)) (Z.of_nat (length m) mod 128).
Definition ref_hash (h0 m : list Z) : list Z :=
  let p := ref_padded m in
  loop (Z.to_nat (Z.of_nat (length p) / 128)) (fun t h => ref_block h (fun j => be_word64 p (t * 16 + j))) h0.

Lemma ref_block_ext64 h f g :
  (forall j, 0 <= j < 16 -> f j = g j) -> ref_block h f = ref_block h g.
Proof.
  intros Hfg. unfold ref_block. do 2 f_equal. apply loop_ext. intros i x Hi.
  unfold ref_iteration, ref_schedule. destruct (Z.ltb_spec i 16); [|done]. by rewrite Hfg by lia.
Qed.

Lemma blocks_words64 k off x : (loop k (fun i => doProcessBlock (off + i * 32)) x).2 = x.2.
Proof.
  induction k as [|k IH]; [done|]. rewrite loop_S, <- IH.
  destruct (loop k (fun i => doProcessBlock (off + i * 32)) x) as [h M]. reflexivity.
Qed.

Lemma blocks_ref64 k h m :
  Forall is_byte m ->
  v64 <$> (loop k (fun i => doProcessBlock (0 + i * 32)) (h, words (of_bytes m))).1 =
  loop k (fun t h => ref_block h (fun j => be_word64 m (t * 16 + j))) (v64 <$> h).
Proof.
  intros Hm. induction k as [|k IH]; [done|]. rewrite !loop_S.
  rewrite (surjective_pairing (loop k (fun i => doProcessBlock (0 + i * 32)) _)).
  rewrite sha512_block_standard, IH, blocks_words64. apply ref_block_ext64.
  intros j Hj. unfold v64, be_word64. cbn [high low snd].
  replace (0 + Z.of_nat k * 32 + j * 2) with ((Z.of_nat k * 16 + j) * 2) by lia.
  by rewrite !be_word_of_bytes by (done || lia).
Qed.

(** The words of a digest: the 64-bit words, high half first. *)
Definition halves (hs : list Z) : list Z := hs ≫= (fun v => [v / 2 ^ 32; v mod 2 ^ 32]).

Lemma toX32_halves h n : u32 <$> words (toX32 h n) = halves (v64 <$> h).
Proof.
  unfold toX32, halves. cbn [words]. induction h as [|x h IH]; [done|].
  rewrite fmap_cons, !bind_cons, fmap_app, IH. f_equal. rewrite !fmap_cons, fmap_nil.
  unfold v64. pose proof (u32_range (high x)). pose proof (u32_range (low x)).
  rewrite Z.div_add_l, Z.div_small by lia. rewrite (Z.add_comm (_ * _)), Z.mod_add, Z.mod_small by lia.
  by rewrite Z.add_0_r.
Qed.

Lemma digest_ref64 (A : Algorithm (list x64)) (L : AlgorithmLaws (list x64)) h0 out m :
  A = {| blockSize := 32; _doReset := h0; _doProcessBlock := doProcessBlock; _pad := pad;
         _output := out; _trailer := trailer |} ->
  Forall is_byte m -> exists h, digest m = out h /\ v64 <$> h = ref_hash (v64 <$> h0) m.
Proof.
  intros EA Hm. subst A. unfold digest, absorb, blocks, full.
  cbn [_output blockSize _doReset _doProcessBlock _trailer].
  eexists. split; [done|]. unfold ref_hash. apply blocks_ref64.
  apply Forall_app_2; [done|apply length_trailer_valid].
Qed.


