(* ===== verification/Sha3.v ===== *)
(** SHA-3 of the bundled crypto-js, web3.js 11581-11839, the hash behind web3's
    [sha3] (1831-1842). The permutation is stated over the operations on lanes:
    the code computes on pairs of 32-bit words, the Keccak definition on 64-bit
    words, and the two are shown to agree. *)
From Stdlib Require Import ZArith Lia.
From S2P Require Import Prelude Words WordArray Hasher Hashes X64.
Open Scope Z_scope.
Open Scope word_scope.

(** * Constants *)

Definition set_at {L} (ws : list L) (i : Z) (v : L) : list L := <[Z.to_nat i := v]> ws.
Definition get_at {L} (d : L) (ws : list L) (i : Z) : L := default d (ws !! Z.to_nat i).

(** [RHO_OFFSETS[0]] is never written. *)
Definition RHO_OFFSETS : list Z :=
  Eval vm_compute in
  (loop 24 (fun t st => let '(x, y, r) := st in
     (y mod 5, (2 * x + 3 * y) mod 5, set_at r (x + 5 * y) (((t + 1) * (t + 2) / 2) mod 64)))
   (1, 0, replicate 25 0)).2.

Definition PI_INDEXES : list Z :=
  Eval vm_compute in
  loop 5 (fun x p => loop 5 (fun y p => set_at p (x + 5 * y) (y + ((2 * x + 3 * y) mod 5) * 5)) p)
    (replicate 25 0).

(** One step of the LFSR with the bit it adds to the round constant. *)
Definition lfsr_step (j : Z) (st : Z * Z * Z) : Z * Z * Z :=
  let '(LFSR, msw, lsw) := st in
  let '(msw, lsw) :=
    if negb (LFSR &w 0x01 =? 0) then
      let bitPosition := (1 <<w j) - 1 in
      if bitPosition <? 32 then (msw, lsw ^w (1 <<w bitPosition))
      else (msw ^w (1 <<w (bitPosition - 32)), lsw)
    else (msw, lsw) in
  let LFSR := if negb (LFSR &w 0x80 =? 0) then (LFSR <<w 1) ^w 0x71 else LFSR <<w 1 in
  (LFSR, msw, lsw).
Definition ROUND_CONSTANTS : list x64 :=
  Eval vm_compute in
  (loop 24 (fun _ st => let '(LFSR, cs) := st in
     let '(LFSR, msw, lsw) := loop 7 lfsr_step (LFSR, 0, 0) in (LFSR, cs ++ [W64 msw lsw]))
   (0x01, [])).2.

(** * Lanes *)

(** The operations on lanes; [rot] is the rotation to the left. *)
Class Lanes (L : Type) := {
  zero : L;
  xor : L -> L -> L;
  rot : Z -> L -> L;
  chi_mix : L -> L -> L -> L;
  round_constant : Z -> L
}.

(** The lanes of the code. *)
Definition xor_lane (a b : x64) : x64 := W64 (high a ^w high b) (low a ^w low b).
Definition rot_lane (n : Z) (a : x64) : x64 :=
  let '(W64 m l) := a in
  if n <? 32 then W64 ((m <<w n) |w (l >>>w (32 - n))) ((l <<w n) |w (m >>>w (32 - n)))
  else W64 ((l <<w (n - 32)) |w (m >>>w (64 - n))) ((m <<w (n - 32)) |w (l >>>w (64 - n))).
Definition chi_lane (t t1 t2 : x64) : x64 :=
  W64 (high t ^w (js_not (high t1) &w high t2)) (low t ^w (js_not (low t1) &w low t2)).
#[export] Instance x64_lanes : Lanes x64 := {|
  zero := W64 0 0; xor := xor_lane; rot := rot_lane; chi_mix := chi_lane;
  round_constant i := get_at (W64 0 0) ROUND_CONSTANTS i |}.

Section Keccak.
Context {L : Type} `{Lanes L}.
#[local] Abbreviation get := (get_at zero).

(** [T[x]], the sums of the columns. *)
Definition theta_columns (state T : list L) : list L :=
  loop 5 (fun x T => set_at T x (loop 5 (fun y t => xor t (get state (x + 5 * y))) zero)) T.
Definition theta_mix (state T : list L) : list L :=
  loop 5 (fun x state =>
    let t := xor (get T ((x + 4) mod 5)) (rot 1 (get T ((x + 1) mod 5))) in
    loop 5 (fun y state => set_at state (x + 5 * y) (xor (get state (x + 5 * y)) t)) state) state.
Definition rho_pi (state T : list L) : list L :=
  let T := loop 24 (fun k T => let laneIndex := k + 1 in
    set_at T (get_word PI_INDEXES laneIndex) (rot (get_word RHO_OFFSETS laneIndex) (get state laneIndex))) T in
  set_at T 0 (get state 0).
Definition chi (state T : list L) : list L :=
  loop 5 (fun x state => loop 5 (fun y state =>
    set_at state (x + 5 * y)
      (chi_mix (get T (x + 5 * y)) (get T ((x + 1) mod 5 + 5 * y)) (get T ((x + 2) mod 5 + 5 * y)))) state) state.
Definition iota (round : Z) (state : list L) : list L :=
  set_at state 0 (xor (get state 0) (round_constant round)).

(** One round, with the temporary lanes [T] that the code keeps in a variable
    of the module. *)
Definition round (r : Z) (st : list L * list L) : list L * list L :=
  let '(state, T) := st in
  let T := theta_columns state T in
  let state := theta_mix state T in
  let T := rho_pi state T in
  let state := chi state T in
  (iota r state, T).

Definition rounds (st : list L * list L) : list L * list L := loop 24 round st.
End Keccak.

(** * The algorithm *)

(** The state is the 25 lanes and the temporary lanes. *)
Definition absorb_lane (M : list Z) (offset i : Z) (state : list x64) : list x64 :=
  let M2i := swap (get_word M (offset + 2 * i)) in
  let M2i1 := swap (get_word M (offset + 2 * i + 1)) in
  let lane := get_at (W64 0 0) state i in
  set_at state i (W64 (high lane ^w M2i1) (low lane ^w M2i)).

Section Algorithm.
Variable outputLength : Z.

Definition sha3_blockSize : Z := (1600 - 2 * outputLength) / 32.

Definition doProcessBlock (offset : Z) (x : (list x64 * list x64) * list Z) : (list x64 * list x64) * list Z :=
  let '((state, T), M) := x in
  let state := loop (Z.to_nat (sha3_blockSize / 2)) (absorb_lane M offset) state in
  (rounds (state, T), M).

(** [Math.ceil((nBitsLeft + 1) / blockSizeBits)] is the number of blocks. *)
Definition pad (nDataBytes : Z) (data : wordarray) : wordarray :=
  let nBitsLeft := sigBytes data * 8 in
  let blockSizeBits := sha3_blockSize * 32 in
  let ws := end_mark 0x1 nBitsLeft (words data) in
  let i := (((nBitsLeft + 1 + blockSizeBits - 1) / blockSizeBits * blockSizeBits) >>>w 5) - 1 in
  let ws := set_word ws i (get_word ws i |w 0x80) in
  WA ws (Z.of_nat (length ws) * 4).

(** [outputLength / 64] rounded up lanes, low word first. *)
Definition output (st : list x64 * list x64) : wordarray :=
  let outputLengthBytes := outputLength / 8 in
  WA (loop (Z.to_nat ((outputLengthBytes + 7) / 8))
        (fun i ws => let lane := get_at (W64 0 0) st.1 i in ws ++ [swap (low lane); swap (high lane)]) [])
     outputLengthBytes.

Definition trailer (n r : Z) : list Z :=
  if r =? sha3_blockSize * 4 - 1 then [0x81]
  else [0x01] ++ replicate (Z.to_nat (sha3_blockSize * 4 - r - 2)) 0 ++ [0x80].

Definition SHA3 : Algorithm (list x64 * list x64) := {|
  blockSize := sha3_blockSize;
  _doReset := (replicate 25 (W64 0 0), replicate 25 (W64 0 0));
  _doProcessBlock := doProcessBlock;
  _pad := pad;
  _output := output;
  _trailer := trailer |}.
End Algorithm.

Example sha3_256_empty : Hex_stringify (hash (H := SHA3 256) (of_bytes [])) =
  str "c5d2460186f7233c927e7db2dcc703c0e500b653ca82273b7bfad8045d85a470".
Proof. vm_compute. reflexivity. Qed.
Example sha3_512_abc : Hex_stringify (hash (H := SHA3 512) (of_bytes [97; 98; 99])) =
  str "18587dc2ea106b9a1563e32b3312421ca164c7f1f07bc922a9c83d77cea3a1e5" ++
  str "d0c69910739025372dc14ac9642629379540c17e2a65b19d77aa511a9d00bb96".
Proof. vm_compute. reflexivity. Qed.
Example sha3_224_abc : Hex_stringify (hash (H := SHA3 224) (of_bytes [97; 98; 99])) =
  str "c30411768506ebe1c2871b1ee2e87d38df342317300a9b97a95ec6a8".
Proof. vm_compute. reflexivity. Qed.

(** * The definition of Keccak-f *)

(** The lane of column [x] and row [y], with [x] modulo 5, is at [x + 5 * y]. *)
Definition coords : list (Z * Z) := y ← seqZ 0 5; x ← seqZ 0 5; [(x, y)].

Section Definition_of_Keccak.
Context {L : Type} `{Lanes L}.

Definition lane (A : list L) (x y : Z) : L := get_at zero A (x mod 5 + 5 * (y mod 5)).
Definition lanes (f : Z -> Z -> L) : list L := (fun p => f p.1 p.2) <$> coords.

Definition spec_theta (A : list L) : list L :=
  let C x := foldl xor zero ((fun y => lane A x y) <$> seqZ 0 5) in
  let D x := xor (C (x - 1)) (rot 1 (C (x + 1))) in
  lanes (fun x y => xor (lane A x y) (D x)).

(** The rotation offsets, rows from [y = 0]. *)
Definition offsets : list Z :=
  [ 0;  1; 62; 28; 27;
   36; 44;  6; 55; 20;
    3; 10; 43; 25; 39;
   41; 45; 15; 21;  8;
   18;  2; 61; 56; 14].

(** [B[y, 2x + 3y] = rot(A[x, y], r[x, y])], read backwards. *)
Definition spec_rho_pi (A : list L) : list L :=
  lanes (fun x y =>
    let x' := (x + 3 * y) mod 5 in
    if (x' =? 0) && (x =? 0) then lane A x' x
    else rot (get_at 0 offsets (x' + 5 * x)) (lane A x' x)).

Definition spec_chi (B : list L) : list L :=
  lanes (fun x y => chi_mix (lane B x y) (lane B (x + 1) y) (lane B (x + 2) y)).

Definition spec_round (r : Z) (A : list L) : list L :=
  let A := spec_chi (spec_rho_pi (spec_theta A)) in
  set_at A 0 (xor (lane A 0 0) (round_constant r)).
Definition keccak_f (A : list L) : list L := loop 24 spec_round A.

(** The loops of a round, which work in place, compute the definition's maps. *)
Lemma round_spec r A T :
  length A = 25%nat -> length T = 25%nat ->
  (round r (A, T)).1 = spec_round r A /\ length (round r (A, T)).2 = 25%nat.
Proof.
  intros HA HT.
  do 25 (destruct A as [|? A]; [discriminate HA|]). destruct A; [|discriminate HA].
  do 25 (destruct T as [|? T]; [discriminate HT|]). destruct T; [|discriminate HT].
  split; vm_compute; reflexivity.
Qed.

Lemma spec_round_length r A : length (spec_round r A) = 25%nat.
Proof. unfold spec_round, set_at. by rewrite length_insert. Qed.

Lemma rounds_spec A T :
  length A = 25%nat -> length T = 25%nat ->
  (rounds (A, T)).1 = keccak_f A /\ length (rounds (A, T)).1 = 25%nat /\ length (rounds (A, T)).2 = 25%nat.
Proof.
  intros HA HT. unfold rounds, keccak_f.
  apply (loop_ind (fun n st => st.1 = loop n spec_round A /\ length st.1 = 25%nat /\ length st.2 = 25%nat)); [done|].
  intros n [A' T'] _ (E & HA' & HT'). rewrite loop_S.
  cbn [fst snd] in *. destruct (round_spec (Z.of_nat n) A' T' HA' HT') as [E1 E2].
  split; [by rewrite E1, E|]. split; [|done]. rewrite E1. apply spec_round_length.
Qed.
End Definition_of_Keccak.

(** * Lanes of 64-bit words *)

Definition rotl64 (n x : Z) : Z := if n =? 0 then x else rotr64 (64 - n) x.
(** The round constants of Keccak-f[1600]. *)
Definition RC : list Z :=
  [0x0000000000000001; 0x0000000000008082; 0x800000000000808A; 0x8000000080008000;
   0x000000000000808B; 0x0000000080000001; 0x8000000080008081; 0x8000000000008009;
   0x000000000000008A; 0x0000000000000088; 0x0000000080008009; 0x000000008000000A;
   0x000000008000808B; 0x800000000000008B; 0x8000000000008089; 0x8000000000008003;
   0x8000000000008002; 0x8000000000000080; 0x000000000000800A; 0x800000008000000A;
   0x8000000080008081; 0x8000000000008080; 0x0000000080000001; 0x8000000080008008].
#[export] Instance Z_lanes : Lanes Z := {|
  zero := 0; xor := Z.lxor; rot := rotl64;
  chi_mix t t1 t2 := Z.lxor t (Z.land (Z.lxor t1 (Z.ones 64)) t2);
  round_constant i := get_at 0 RC i |}.

Lemma v64_xor a b : v64 (xor a b) = xor (v64 a) (v64 b).
Proof. destruct a, b. apply pair_xor. Qed.

Lemma v64_rot n a : 0 < n < 64 -> n <> 32 -> v64 (rot n a) = rot n (v64 a).
Proof.
  intros Hn Hne. destruct a as [m l]. cbn [rot x64_lanes Z_lanes]. unfold rot_lane, rotl64.
  zbool (n =? 0) false. destruct (Z.ltb_spec n 32).
  - rewrite (pair_rotl m l (32 - n) n) by lia. f_equal. lia.
  - rewrite <- (pair_rotr m l (64 - n) (n - 32)) by lia.
    apply v64_ext; by rewrite !u32_or, Z.lor_comm.
Qed.

Lemma v64_chi t t1 t2 : v64 (chi_mix t t1 t2) = chi_mix (v64 t) (v64 t1) (v64 t2).
Proof. destruct t, t1, t2. cbn [chi_mix x64_lanes Z_lanes]. unfold chi_lane. by rewrite pair_xor, pair_and, pair_not. Qed.

Lemma v64_constant r : v64 (round_constant r) = round_constant r.
Proof.
  cbn [round_constant x64_lanes Z_lanes]. unfold get_at.
  replace RC with (v64 <$> ROUND_CONSTANTS) by (vm_compute; reflexivity).
  rewrite list_lookup_fmap. by destruct (ROUND_CONSTANTS !! Z.to_nat r).
Qed.

Lemma v64_lane A x y : v64 (lane A x y) = lane (v64 <$> A) x y.
Proof.
  unfold lane, get_at. rewrite list_lookup_fmap. by destruct (A !! _).
Qed.

Lemma v64_lanes f g :
  (forall x y, 0 <= x < 5 -> 0 <= y < 5 -> v64 (f x y) = g x y) -> v64 <$> lanes f = lanes g.
Proof.
  intros Hfg. unfold lanes. rewrite <- list_fmap_compose. apply list_fmap_ext.
  intros i [x y] Hi. apply list_elem_of_lookup_2 in Hi. unfold coords in Hi.
  apply list_elem_of_bind in Hi as (y' & Hx & Hy). apply list_elem_of_bind in Hx as (x' & Hp & Hx).
  apply list_elem_of_singleton in Hp as [= -> ->]. apply elem_of_seqZ in Hx, Hy. apply Hfg; cbn [fst snd]; lia.
Qed.

Lemma v64_set A i v : v64 <$> set_at A i v = set_at (v64 <$> A) i (v64 v).
Proof. apply list_fmap_insert. Qed.

Lemma v64_foldl l a : v64 (foldl xor a l) = foldl xor (v64 a) (v64 <$> l).
Proof.
  revert a. induction l as [|b l IH]; intros a; [done|].
  rewrite fmap_cons. cbn [foldl]. by rewrite IH, v64_xor.
Qed.

Lemma v64_theta A : v64 <$> spec_theta A = spec_theta (v64 <$> A).
Proof.
  apply v64_lanes. intros x y Hx Hy. rewrite v64_xor, v64_lane. f_equal.
  assert (forall z, v64 (foldl xor zero ((fun y => lane A z y) <$> seqZ 0 5)) =
                    foldl xor zero ((fun y => lane (v64 <$> A) z y) <$> seqZ 0 5)) as HC.
  { intros z. rewrite (v64_foldl _ zero), <- list_fmap_compose. f_equal. apply list_fmap_ext.
    intros i w _. apply v64_lane. }
  by rewrite v64_xor, v64_rot, !HC by lia.
Qed.
Lemma offsets_range i : 0 < i < 25 -> 0 < get_at 0 offsets i < 64 /\ get_at 0 offsets i <> 32.
Proof.
  intros Hi. assert (Forall (fun o => 0 < o < 64 /\ o <> 32) (drop 1 offsets)) as HF by (repeat constructor; lia).
  destruct (lookup_lt_is_Some_2 offsets (Z.to_nat i)) as [o Ho]; [simpl; lia|].
  unfold get_at. rewrite Ho. apply (Forall_lookup_1 _ _ (Z.to_nat i - 1) _ HF).
  rewrite lookup_drop. by replace (1 + (Z.to_nat i - 1))%nat with (Z.to_nat i) by lia.
Qed.
Lemma v64_rho_pi A : v64 <$> spec_rho_pi A = spec_rho_pi (v64 <$> A).
Proof.
  apply v64_lanes. intros x y Hx Hy. cbv zeta.
  destruct ((((x + 3 * y) mod 5 =? 0) && (x =? 0))) eqn:E; [apply v64_lane|].
  assert (x <> 0 \/ (x + 3 * y) mod 5 <> 0) as Hne by lia.
  pose proof (Z.mod_pos_bound (x + 3 * y) 5 ltac:(lia)).
  destruct (offsets_range ((x + 3 * y) mod 5 + 5 * x)); [lia|]. by rewrite v64_rot, v64_lane by lia.
Qed.
Lemma v64_spec_chi A : v64 <$> spec_chi A = spec_chi (v64 <$> A).
Proof. apply v64_lanes. intros x y Hx Hy. by rewrite v64_chi, !v64_lane. Qed.

Lemma v64_round r A : v64 <$> spec_round r A = spec_round r (v64 <$> A).
Proof.
  unfold spec_round. cbv zeta.
  by rewrite v64_set, v64_xor, v64_constant, v64_lane, v64_spec_chi, v64_rho_pi, v64_theta.
Qed.

Lemma v64_keccak A : v64 <$> keccak_f A = keccak_f (v64 <$> A).
Proof.
  unfold keccak_f. generalize 24%nat as n. induction n as [|n IH]; [done|]. by rewrite !loop_S, v64_round, IH.
Qed.

(** * Absorbing *)

(** The [i]-th little-endian words of some bytes. *)
Definition le_word (p : list Z) (i : Z) : Z :=
  let b j := default 0 (p !! Z.to_nat (4 * i + j)) in
  b 0 + b 1 * 2 ^ 8 + b 2 * 2 ^ 16 + b 3 * 2 ^ 24.
Definition le_lane (p : list Z) (i : Z) : Z := le_word p (2 * i) + le_word p (2 * i + 1) * 2 ^ 32.

Lemma swap_le_word p i :
  Forall is_byte p -> 0 <= i -> u32 (swap (get_word (words (of_bytes p)) i)) = le_word p i.
Proof.
  intros Hp Hi. rewrite u32_bytes. unfold le_word. rewrite <- !of_bytes_byte by (done || lia).
  rewrite !byte_at_word by lia. set (w := get_word _ i).
  rewrite (swap_byte w 0 ltac:(lia) : (swap w >>>w 24) &w 0xff = _), (swap_byte w 1 ltac:(lia) : (swap w >>>w 16) &w 0xff = _),
    (swap_byte w 2 ltac:(lia) : (swap w >>>w 8) &w 0xff = _), (swap_byte w 3 ltac:(lia) : (swap w >>>w 0) &w 0xff = _).
  change (24 - 3 * 8) with 0. change (24 - 2 * 8) with 8. change (24 - 1 * 8) with 16. change (24 - 0 * 8) with 24.
  change (0 * 8) with 0. change (1 * 8) with 8. change (2 * 8) with 16. change (3 * 8) with 24. lia.
Qed.

Lemma length_set_at {L} (ws : list L) i v : length (set_at ws i v) = length ws.
Proof. apply length_insert. Qed.

(** The first [n] lanes of a block are added to the state. *)
Definition spec_absorb (n : Z) (b : Z -> Z) (A : list Z) : list Z :=
  imap (fun i a => if Z.of_nat i <? n then Z.lxor a (b (Z.of_nat i)) else a) A.

Lemma get_at_v64 A i : get_at 0 (v64 <$> A) i = v64 (get_at (W64 0 0) A i).
Proof. unfold get_at. rewrite list_lookup_fmap. by destruct (A !! _). Qed.

Lemma v64_absorb_lane M off i A :
  v64 <$> absorb_lane M off i A =
  set_at (v64 <$> A) i (Z.lxor (get_at 0 (v64 <$> A) i)
    (v64 (W64 (swap (get_word M (off + 2 * i + 1))) (swap (get_word M (off + 2 * i)))))).
Proof.
  unfold absorb_lane. cbv zeta. rewrite v64_set, pair_xor, get_at_v64. by destruct (get_at (W64 0 0) A i).
Qed.

Lemma spec_absorb_S n b A :
  (n < length A)%nat ->
  spec_absorb (Z.of_nat (S n)) b A =
  set_at (spec_absorb (Z.of_nat n) b A) (Z.of_nat n)
    (Z.lxor (get_at 0 (spec_absorb (Z.of_nat n) b A) (Z.of_nat n)) (b (Z.of_nat n))).
Proof.
  intros Hn. unfold set_at, get_at, spec_absorb. rewrite !Nat2Z.id. apply list_eq. intros k.
  destruct (decide (k = n)) as [->|Hne].
  - rewrite list_lookup_insert_eq by (by rewrite length_imap). rewrite !list_lookup_imap.
    destruct (A !! n) as [a|] eqn:E; [|apply lookup_ge_None_1 in E; lia]. simpl.
    zbool (Z.of_nat n <? Z.of_nat (S n)) true. by zbool (Z.of_nat n <? Z.of_nat n) false.
  - rewrite list_lookup_insert_ne, !list_lookup_imap by done. destruct (A !! k); [simpl|done]. f_equal.
    destruct (Z.ltb_spec (Z.of_nat k) (Z.of_nat n)).
    + by zbool (Z.of_nat k <? Z.of_nat (S n)) true.
    + by zbool (Z.of_nat k <? Z.of_nat (S n)) false.
Qed.

Lemma v64_absorb n M off A :
  (n <= length A)%nat ->
  v64 <$> loop n (absorb_lane M off) A =
  spec_absorb (Z.of_nat n)
    (fun i => v64 (W64 (swap (get_word M (off + 2 * i + 1))) (swap (get_word M (off + 2 * i))))) (v64 <$> A).
Proof.
  induction n as [|n IH]; intros Hn.
  - unfold spec_absorb. symmetry. apply list_eq. intros k. rewrite list_lookup_imap. cbn [loop].
    destruct ((v64 <$> A) !! k); [|done]. cbn [fmap option_fmap option_map].
    destruct (Z.ltb_spec (Z.of_nat k) (Z.of_nat 0)); [lia|done].
  - rewrite loop_S, v64_absorb_lane, IH by lia. by rewrite spec_absorb_S by (rewrite length_fmap; lia).
Qed.

Lemma absorb_length n M off A : length (loop n (absorb_lane M off) A) = length A.
Proof. induction n as [|n IH]; [done|]. rewrite loop_S. unfold absorb_lane. cbv zeta. by rewrite length_set_at. Qed.

(** * The laws of the hasher *)

Section Laws.
Context (outputLength : Z) (Hout : 0 < sha3_blockSize outputLength <= 50).
#[local] Abbreviation bs := (sha3_blockSize outputLength).

Lemma sha3_pad_law n d :
  clean d -> 0 <= n -> sigBytes d < 2 ^ 28 -> 0 <= sigBytes (pad outputLength n d) /\
  bytes_of (pad outputLength n d) = bytes_of d ++ trailer outputLength n (sigBytes d mod (bs * 4)).
Proof using Hout.
  intros Hd Hn Hb. pose proof Hd as [[Hs Hl] Hz]. set (sig := sigBytes d) in *.
  set (q := sig / (bs * 4)). set (E := q * bs + bs).
  pose proof (Z.div_mod sig (bs * 4) ltac:(lia)) as Hdm. pose proof (Z.mod_pos_bound sig (bs * 4) ltac:(lia)) as Hr.
  set (r := sig mod (bs * 4)) in *. fold q in Hdm. assert (0 <= q) by (apply Z.div_pos; lia).
  assert (pad outputLength n d = WA (or_byte (or_byte (words d) sig 0x01) (4 * E - 1) 0x80) (4 * E)) as ->.
  { unfold pad, end_mark. fold sig. rewrite or_bit_byte by lia.
    replace ((sig * 8 + 1 + bs * 32 - 1) / (bs * 32)) with (q + 1).
    2: { apply (Z.div_unique_pos _ _ _ (r * 8)); lia. }
    rewrite ushr_div by nia. replace ((q + 1) * (bs * 32) / 2 ^ 5) with E.
    2: { replace ((q + 1) * (bs * 32)) with (E * 2 ^ 5) by lia. by rewrite Z.div_mul. }
    set (ws := or_byte (words d) sig 1). unfold or_byte. replace ((4 * E - 1) / 4) with (E - 1) by (Z.div_mod_to_equations; lia).
    replace ((4 * E - 1) mod 4) with 3 by (Z.div_mod_to_equations; lia).
    change (0x80 <<w (24 - 3 * 8)) with 0x80. f_equal.
    rewrite length_set_word by nia. unfold ws. rewrite length_or_byte, Hl by nia.
    assert (sig / 4 + 1 <= E) by (Z.div_mod_to_equations; nia).
    assert ((sig + 3) / 4 <= E) by (Z.div_mod_to_equations; nia). lia. }
  cbn [sigBytes]. split; [nia|].
  assert (sig <= 4 * E - 1) by nia.
  assert (forall q, 0 <= q -> byte_at (or_byte (or_byte (words d) sig 0x01) (4 * E - 1) 0x80) q =
    if q =? 4 * E - 1 then (if q =? sig then 0x81 else 0x80)
    else if q =? sig then 0x01 else byte_at (words d) q) as Hbyte.
  { intros k Hk. rewrite or_byte_lor, !or_byte_spec by (try apply Hz; unfold is_byte; lia).
    destruct (Z.eqb_spec k (4 * E - 1)) as [->|]; [|done].
    destruct (Z.eqb_spec (4 * E - 1) sig); [done|]. by rewrite Hz by lia. }
  apply bytes_of_app; [done|fold sig; unfold trailer|..]; fold sig.
  - destruct (Z.eqb_spec r (bs * 4 - 1)); [simpl; nia|].
    rewrite !length_app, length_replicate. simpl length. nia.
  - intros k Hk. rewrite Hbyte by lia. zbool (k =? 4 * E - 1) false. by zbool (k =? sig) false.
  - intros k Hk. rewrite Hbyte by lia. unfold trailer in *. destruct (Z.eqb_spec r (bs * 4 - 1)).
    + simpl length in Hk. assert (k = 0) as -> by lia. rewrite Z.add_0_r, Z.eqb_refl.
      by zbool (sig =? 4 * E - 1) true.
    + rewrite !length_app, length_replicate in Hk. simpl length in Hk.
      destruct (decide (k = 0)) as [->|].
      { rewrite Z.add_0_r, Z.eqb_refl. by zbool (sig =? 4 * E - 1) false. }
      zbool (sig + k =? sig) false. rewrite lookup_app_r by (simpl; lia). simpl length.
      destruct (Z.eqb_spec (sig + k) (4 * E - 1)) as [E1|E1].
      * rewrite lookup_app_r by (rewrite length_replicate; nia). rewrite length_replicate.
        by replace (Z.to_nat k - 1 - Z.to_nat (bs * 4 - r - 2))%nat with 0%nat by nia.
      * rewrite lookup_app_l by (rewrite length_replicate; nia). rewrite lookup_replicate_2 by nia.
        by rewrite Hz by lia.
Qed.

Lemma sha3_block_local M M' off off' s :
  (forall i, 0 <= i < bs -> u32 (get_word M (off + i)) = u32 (get_word M' (off' + i))) ->
  (doProcessBlock outputLength off (s, M)).1 = (doProcessBlock outputLength off' (s, M')).1.
Proof using Hout.
  intros Heq. destruct s as [A T]. unfold doProcessBlock, fst.
  rewrite (loop_ext _ (absorb_lane M off) (absorb_lane M' off')); [reflexivity|]. intros i x Hi. unfold absorb_lane.
  assert (2 * (bs / 2) <= bs) by (Z.div_mod_to_equations; lia).
  rewrite (js_ops_u32 (get_word M (off + 2 * i)) (get_word M' (off' + 2 * i))) by (apply Heq; lia).
  rewrite (js_ops_u32 (get_word M (off + 2 * i + 1)) (get_word M' (off' + 2 * i + 1))); [reflexivity|].
  rewrite <- !Z.add_assoc. apply Heq. lia.
Qed.

Lemma sha3_block_words M off s : (doProcessBlock outputLength off (s, M)).2 = M.
Proof using Type. by destruct s. Qed.

Lemma sha3_block_pos : 0 < bs.
Proof using Hout. lia. Qed.
Definition SHA3_laws : AlgorithmLaws (list x64 * list x64) (H := SHA3 outputLength) :=
  @Build_AlgorithmLaws _ (SHA3 outputLength) sha3_block_pos
    (fun M M' off off' s _ _ Heq => sha3_block_local M M' off off' s Heq)
    (fun M off s i _ _ => f_equal (fun M => get_word M i) (sha3_block_words M off s))
    (fun M off s _ _ => f_equal length (sha3_block_words M off s)) sha3_pad_law.
End Laws.

(** * The sponge *)

Definition le_bytes (v : Z) : list Z := (fun j => (v / 2 ^ (8 * j)) mod 256) <$> seqZ 0 8.

Section Sponge.
Variable outputLength : Z.
#[local] Abbreviation bs := (sha3_blockSize outputLength).

(** Padding with a one, zeros and a one; absorbing blocks of the rate's lanes
    with the permutation after each; the digest is the beginning of the state. *)
Definition spec_padded (m : list Z) : list Z :=
  m ++ trailer outputLength (Z.of_nat (length m)) (Z.of_nat (length m) mod (bs * 4)).
Definition spec_sponge (p : list Z) : list Z :=
  loop (Z.to_nat (Z.of_nat (length p) / (bs * 4)))
    (fun t A => keccak_f (spec_absorb (bs / 2) (fun i => le_lane p (t * (bs / 2) + i)) A)) (replicate 25 0).
Definition keccak (m : list Z) : list Z :=
  take (Z.to_nat (outputLength / 8)) (spec_sponge (spec_padded m) ≫= le_bytes).

Lemma sha3_trailer_valid n r : Forall is_byte (trailer outputLength n r).
Proof.
  unfold trailer. destruct (_ =? _).
  - repeat constructor; unfold is_byte; lia.
  - apply Forall_app_2; [|apply Forall_app_2; [apply Forall_replicate|]]; repeat constructor; unfold is_byte; lia.
Qed.
End Sponge.

Lemma be32_swap w : be32 (swap w) = (fun j => (u32 w / 2 ^ (8 * j)) mod 256) <$> [0; 1; 2; 3].
Proof.
  unfold be32. apply list_fmap_ext. intros k j Hj. apply list_elem_of_lookup_2 in Hj.
  rewrite !elem_of_cons, elem_of_nil in Hj. rewrite swap_byte, byte_div by lia. do 3 f_equal. lia.
Qed.

Lemma le_bytes_v64 x : be32 (swap (low x)) ++ be32 (swap (high x)) = le_bytes (v64 x).
Proof.
  rewrite !be32_swap. unfold v64. pose proof (u32_range (low x)). pose proof (u32_range (high x)).
  set (l := u32 (low x)) in *. set (h := u32 (high x)) in *. unfold le_bytes.
  change (seqZ 0 8) with [0; 1; 2; 3; 4; 5; 6; 7]. rewrite !fmap_cons, !fmap_nil. cbn [app].
  cbn [Z.mul Pos.mul]. change (2 ^ 0) with 1. change (2 ^ 8) with 256. change (2 ^ 16) with 65536.
  change (2 ^ 24) with 16777216. change (2 ^ 32) with 4294967296. change (2 ^ 40) with 1099511627776.
  change (2 ^ 48) with 281474976710656. change (2 ^ 56) with 72057594037927936.
  repeat (apply f_equal2; [Z.div_mod_to_equations; lia|]). done.
Qed.

Lemma output_squeeze outputLength st :
  length st.1 = 25%nat -> 0 <= outputLength <= 1600 ->
  bytes_of (output outputLength st) =
  take (Z.to_nat (outputLength / 8)) ((v64 <$> st.1) ≫= le_bytes).
Proof.
  intros HA Hout. destruct st as [A T]. cbn [fst] in *. unfold output. cbv zeta. cbn [fst].
  set (n := Z.to_nat ((outputLength / 8 + 7) / 8)).
  assert (n <= 25)%nat as Hn by (unfold n; Z.div_mod_to_equations; lia).
  assert (loop n (fun i ws => ws ++ [swap (low (get_at (W64 0 0) A i)); swap (high (get_at (W64 0 0) A i))]) [] =
          take n A ≫= (fun x => [swap (low x); swap (high x)])) as ->.
  { clearbody n. induction n as [|n IH]; [done|]. rewrite loop_S, IH by lia.
    destruct (lookup_lt_is_Some_2 A n) as [x Hx]; [lia|].
    rewrite (take_S_r A n x) by done. rewrite bind_app, bind_singleton. unfold get_at.
    by rewrite Nat2Z.id, Hx. }
  assert (forall B, (B ≫= (fun x => [swap (low x); swap (high x)])) ≫= be32 = (v64 <$> B) ≫= le_bytes) as Hb.
  { induction B as [|x B IH]; [done|]. rewrite fmap_cons, !bind_cons, bind_app, IH, <- le_bytes_v64.
    rewrite bind_cons, bind_singleton. done. }
  assert (forall B, length ((v64 <$> B) ≫= le_bytes) = 8 * length B)%nat as Hl.
  { induction B as [|x B IH]; [done|]. rewrite fmap_cons, bind_cons, length_app, IH. simpl. lia. }
  rewrite words_bytes, Hb.
  - rewrite <- (take_drop n A) at 2. rewrite fmap_app, bind_app, take_app_le; [done|].
    rewrite Hl, length_take. unfold n. Z.div_mod_to_equations; lia.
  - assert (forall B : list x64, length (B ≫= (fun x => [swap (low x); swap (high x)])) = 2 * length B)%nat as ->.
    { induction B as [|x B IH]; [done|]. rewrite bind_cons, length_app, IH. simpl. lia. }
    rewrite length_take. unfold n. Z.div_mod_to_equations; lia.
Qed.

Section Sponge_proof.
Context (outputLength : Z) (Hout : 0 < sha3_blockSize outputLength <= 50).
Context (Hev : sha3_blockSize outputLength = 2 * (sha3_blockSize outputLength / 2)).
#[local] Abbreviation bs := (sha3_blockSize outputLength).

Lemma sha3_blocks_spec k p :
  Forall is_byte p ->
  let x := loop k (fun i => doProcessBlock outputLength (0 + i * bs))
             ((replicate 25 (W64 0 0), replicate 25 (W64 0 0)), words (of_bytes p)) in
  length x.1.1 = 25%nat /\ length x.1.2 = 25%nat /\ x.2 = words (of_bytes p) /\
  v64 <$> x.1.1 =
    loop k (fun t A => keccak_f (spec_absorb (bs / 2) (fun i => le_lane p (t * (bs / 2) + i)) A)) (replicate 25 0).
Proof using Hout Hev.
  intros Hp. cbv zeta. induction k as [|k IH]; [by split_and!|]. rewrite !loop_S.
  set (f := fun i : Z => doProcessBlock _ _) in *. destruct (loop k f _) as [[A T] M]. cbn [fst snd] in IH.
  destruct IH as (HA & HT & -> & <-). unfold f, doProcessBlock. set (n := Z.to_nat (bs / 2)).
  pose proof (absorb_length n (words (of_bytes p)) (0 + Z.of_nat k * bs) A) as Hl.
  set (A' := loop n _ A) in *. cbn [fst snd].
  destruct (rounds_spec A' T) as (E & H1 & H2); [by rewrite Hl|done|].
  split; [done|]. split; [done|]. split; [done|]. rewrite E, v64_keccak. unfold A'. f_equal.
  rewrite v64_absorb by (rewrite HA; unfold n; lia).
  assert (Z.of_nat n = bs / 2) as -> by (unfold n; lia).
  apply imap_ext. intros i a Hi. destruct (Z.ltb_spec (Z.of_nat i) (bs / 2)); [|done]. f_equal.
  unfold le_lane, v64. cbn [high low].
  rewrite (swap_le_word p (0 + Z.of_nat k * bs + 2 * Z.of_nat i + 1)), (swap_le_word p (0 + Z.of_nat k * bs + 2 * Z.of_nat i)) by first [exact Hp|nia].
  replace (2 * (Z.of_nat k * (bs / 2) + Z.of_nat i)) with (0 + Z.of_nat k * bs + 2 * Z.of_nat i) by lia. lia.
Qed.

Lemma sha3_digest m :
  Forall is_byte m -> 0 <= outputLength <= 1600 ->
  bytes_of (digest (H := SHA3 outputLength) m) = keccak outputLength m.
Proof using Hout Hev.
  intros Hm Hol. unfold digest, absorb, blocks, full.
  cbn [_output blockSize _doReset _doProcessBlock _trailer SHA3].
  assert (Forall is_byte (spec_padded outputLength m)) as Hp.
  { apply Forall_app_2; [done|apply sha3_trailer_valid]. }
  unfold keccak, spec_sponge. fold (spec_padded outputLength m).
  set (k := Z.to_nat _). destruct (sha3_blocks_spec k _ Hp) as (HA & HT & _ & <-).
  apply output_squeeze; done.
Qed.
End Sponge_proof.

(** C11. For each of the permitted output lengths the hasher computes the Keccak
    sponge of the message's bytes, however they arrive in updates. *)
Theorem sha3_standard outputLength ds d :
  outputLength ∈ [224; 256; 384; 512] ->
  Forall clean ds -> clean d -> Z.of_nat (length ((ds ≫= bytes_of) ++ bytes_of d)) < 2 ^ 28 ->
  bytes_of (finalize (H := SHA3 outputLength) (Some d)
    (fold_left (fun h d => update (H := SHA3 outputLength) d h) ds (reset (H := SHA3 outputLength)))) =
  keccak outputLength ((ds ≫= bytes_of) ++ bytes_of d).
Proof.
  intros Ho Hds Hd Hsz.
  assert (0 < sha3_blockSize outputLength <= 50 /\
          sha3_blockSize outputLength = 2 * (sha3_blockSize outputLength / 2) /\ 0 <= outputLength <= 1600)
    as (Hb & Hev & Hol).
  { rewrite !elem_of_cons, elem_of_nil in Ho. destruct_or! Ho; subst; try done; vm_compute; split_and!; discriminate || done. }
  rewrite (finalize_updates (H0 := SHA3_laws outputLength Hb)) by done.
  apply sha3_digest; [done|done|apply updates_valid|done].
Qed.

Lemma sha3_standard_witness :
  bytes_of (finalize (H := SHA3 256) (Some (of_bytes [99]))
    (fold_left (fun h d => update (H := SHA3 256) d h) [of_bytes [97]; of_bytes [98]] (reset (H := SHA3 256)))) =
  keccak 256 [97; 98; 99].
Proof.
  apply (sha3_standard 256 [of_bytes [97]; of_bytes [98]] (of_bytes [99])).
  - set_solver.
  - apply Forall_cons. split; [|apply Forall_singleton];
      apply of_bytes_clean; repeat constructor; unfold is_byte; lia.
  - apply of_bytes_clean. repeat constructor; unfold is_byte; lia.
  - vm_compute. reflexivity.
Defined.
