(* ===== verification/Utf8.v ===== *)
(** UTF-8, the bundled utf8.js (web3.js 13362-13608): strings of UTF-16 code
    units are decoded to code points, these encoded as bytes, and back. Every
    well-formed string round-trips, lone surrogates are refused, and the decoder
    accepts nothing but encodings. *)
From Stdlib Require Import ZArith Lia.
From S2P Require Import Prelude Words WordArray.
Open Scope Z_scope.
Open Scope word_scope.

(** * Definitions *)

Fixpoint ucs2decode (s : jsstr) : list Z :=
  match s with
  | [] => []
  | value :: s' =>
      if (0xD800 <=? value) && (value <=? 0xDBFF) then
        match s' with
        | extra :: s'' =>
            if (extra &w 0xFC00) =? 0xDC00
            then (((value &w 0x3FF) <<w 10) + (extra &w 0x3FF) + 0x10000) :: ucs2decode s''
            else value :: ucs2decode s'
        | [] => [value]
        end
      else value :: ucs2decode s'
  end.

Definition ucs2encode (array : list Z) : jsstr :=
  array ≫= (fun value =>
    if 0xFFFF <? value then
      let value := value - 0x10000 in
      [((value >>>w 10) &w 0x3FF) |w 0xD800; 0xDC00 |w (value &w 0x3FF)]
    else [value]).

(** [checkScalarValue] throws on these. *)
Definition lone_surrogate (codePoint : Z) : bool := (0xD800 <=? codePoint) && (codePoint <=? 0xDFFF).

Definition createByte (codePoint shift : Z) : Z := ((codePoint >>w shift) &w 0x3F) |w 0x80.

Definition encodeCodePoint (codePoint : Z) : option jsstr :=
  if (codePoint &w 0xFFFFFF80) =? 0 then Some [codePoint]
  else
    let final symbol := Some (symbol ++ [(codePoint &w 0x3F) |w 0x80]) in
    if (codePoint &w 0xFFFFF800) =? 0 then final [((codePoint >>w 6) &w 0x1F) |w 0xC0]
    else if (codePoint &w 0xFFFF0000) =? 0 then
      if lone_surrogate codePoint then None
      else final [((codePoint >>w 12) &w 0x0F) |w 0xE0; createByte codePoint 6]
    else if (codePoint &w 0xFFE00000) =? 0 then
      final [((codePoint >>w 18) &w 0x07) |w 0xF0; createByte codePoint 12; createByte codePoint 6]
    else final [].

Fixpoint encode_all (codePoints : list Z) : option jsstr :=
  match codePoints with
  | [] => Some []
  | c :: cs => b ← encodeCodePoint c; bs ← encode_all cs; Some (b ++ bs)
  end.
Definition utf8encode (s : jsstr) : option jsstr := encode_all (ucs2decode s).

(** The bytes from [byteIndex] on; [None] is a throw. *)
Definition readContinuationByte (bs : list Z) : option (Z * list Z) :=
  match bs with
  | [] => None
  | b :: bs =>
      let continuationByte := b &w 0xFF in
      if (continuationByte &w 0xC0) =? 0x80 then Some (continuationByte &w 0x3F, bs) else None
  end.

(** [Some None] is the result [false]. *)
Definition decodeSymbol (bs : list Z) : option (option (Z * list Z)) :=
  match bs with
  | [] => Some None
  | b :: bs =>
      let byte1 := b &w 0xFF in
      if (byte1 &w 0x80) =? 0 then Some (Some (byte1, bs))
      else if (byte1 &w 0xE0) =? 0xC0 then
        '(byte2, bs) ← readContinuationByte bs;
        let codePoint := ((byte1 &w 0x1F) <<w 6) |w byte2 in
        if 0x80 <=? codePoint then Some (Some (codePoint, bs)) else None
      else if (byte1 &w 0xF0) =? 0xE0 then
        '(byte2, bs) ← readContinuationByte bs;
        '(byte3, bs) ← readContinuationByte bs;
        let codePoint := ((byte1 &w 0x0F) <<w 12) |w (byte2 <<w 6) |w byte3 in
        if 0x0800 <=? codePoint then
          if lone_surrogate codePoint then None else Some (Some (codePoint, bs))
        else None
      else if (byte1 &w 0xF8) =? 0xF0 then
        '(byte2, bs) ← readContinuationByte bs;
        '(byte3, bs) ← readContinuationByte bs;
        '(byte4, bs) ← readContinuationByte bs;
        let codePoint := ((byte1 &w 0x07) <<w 0x12) |w (byte2 <<w 0x0C) |w (byte3 <<w 0x06) |w byte4 in
        if (0x010000 <=? codePoint) && (codePoint <=? 0x10FFFF) then Some (Some (codePoint, bs)) else None
      else None
  end.

(** Each symbol takes a byte, so the number of bytes bounds the loop. *)
Fixpoint decode_loop (fuel : nat) (bs : list Z) : option (list Z) :=
  match fuel with
  | O => None
  | S fuel =>
      r ← decodeSymbol bs;
      match r with
      | None => Some []
      | Some (c, bs) => cs ← decode_loop fuel bs; Some (c :: cs)
      end
  end.
Definition utf8decode (byteString : jsstr) : option jsstr :=
  let byteArray := ucs2decode byteString in
  ucs2encode <$> decode_loop (S (length byteArray)) byteArray.

Example encode_euro : utf8encode [0x20AC; 0xD83D; 0xDE00] = Some [0xE2; 0x82; 0xAC; 0xF0; 0x9F; 0x98; 0x80].
Proof. reflexivity. Qed.
Example decode_overlong : utf8decode [0xC0; 0x80] = None.
Proof. reflexivity. Qed.

(** * Arithmetic *)

Lemma or_tag a x t k :
  0 <= k < 31 -> 0 <= a -> t < 2 ^ 31 -> t = a * 2 ^ k -> 0 <= x < 2 ^ k -> x |w t = t + x.
Proof.
  intros Hk Ha Ht E Hx. subst t. rewrite <- (or_add a x k) by lia. unfold js_or. apply Z.lor_comm.
Qed.

(** The four shapes of an encoding. *)
Lemma encode_spec c :
  0 <= c < 0x110000 ->
  encodeCodePoint c =
    if c <? 0x80 then Some [c]
    else if c <? 0x800 then Some [192 + c / 64; 128 + c mod 64]
    else if c <? 0x10000 then
      if lone_surrogate c then None else Some [224 + c / 4096; 128 + c / 64 mod 64; 128 + c mod 64]
    else Some [240 + c / 262144; 128 + c / 4096 mod 64; 128 + c / 64 mod 64; 128 + c mod 64].
Proof.
  intros Hc. unfold encodeCodePoint, createByte.
  rewrite (and_high_mask c 7 0xFFFFFF80), (and_high_mask c 11 0xFFFFF800), (and_high_mask c 16 0xFFFF0000),
    (and_high_mask c 21 0xFFE00000) by lia.
  rewrite !shr_div by lia. rewrite (and_mask c 6) by lia.
  assert (forall n, 0 <= n < 31 -> 0 <= c / 2 ^ n < 2 ^ 31) as Hr.
  { intros n Hn. pose proof (Z.pow_pos_nonneg 2 n ltac:(lia) ltac:(lia)).
    split; [apply Z.div_pos; lia|]. apply Z.div_lt_upper_bound; nia. }
  rewrite (and_mask (c / 2 ^ 6) 5 0x1F), (and_mask (c / 2 ^ 6) 6 0x3F), (and_mask (c / 2 ^ 12) 4 0x0F),
    (and_mask (c / 2 ^ 12) 6 0x3F), (and_mask (c / 2 ^ 18) 3 0x07) by first [apply Hr; lia|lia].
  change (2 ^ 7) with 128. change (2 ^ 11) with 2048. change (2 ^ 16) with 65536. change (2 ^ 21) with 2097152.
  change (2 ^ 6) with 64. change (2 ^ 12) with 4096. change (2 ^ 18) with 262144. change (2 ^ 5) with 32.
  change (2 ^ 4) with 16. change (2 ^ 3) with 8.
  assert (forall x, 0 <= x mod 64 < 64) as Hm by (intros x; apply Z.mod_pos_bound; lia).
  rewrite !(or_tag 2 _ 0x80 6) by (try apply Hm; lia).
  rewrite (or_tag 3 (c / 64 mod 32) 0xC0 6) by (Z.div_mod_to_equations; lia).
  rewrite (or_tag 7 (c / 4096 mod 16) 0xE0 5) by (Z.div_mod_to_equations; lia).
  rewrite (or_tag 15 (c / 262144 mod 8) 0xF0 4) by (Z.div_mod_to_equations; lia).
  assert (forall n, 0 < n -> (c - c mod n =? 0) = (c <? n)) as Hlt.
  { intros n Hn. pose proof (Z.mod_pos_bound c n Hn). destruct (Z.ltb_spec c n).
    - rewrite Z.mod_small by lia. lia.
    - pose proof (Z.mod_le c n ltac:(lia) Hn). lia. }
  rewrite !Hlt by lia. cbv zeta. cbn [app].
  destruct (Z.ltb_spec c 128); [done|]. destruct (Z.ltb_spec c 2048).
  { do 3 f_equal. Z.div_mod_to_equations; lia. }
  zbool (c <? 2097152) true. change 0x10000 with 65536. destruct (Z.ltb_spec c 65536).
  - destruct (lone_surrogate c); [done|]. do 3 f_equal. Z.div_mod_to_equations; lia.
  - do 3 f_equal. Z.div_mod_to_equations; lia.
Qed.

(** * Decoding one symbol *)

Lemma byte_masks b :
  is_byte b ->
  b &w 0xFF = b /\ (b &w 0x80 =? 0) = (b <? 128) /\ (b &w 0xC0 =? 0x80) = (128 <=? b) && (b <? 192) /\
  (b &w 0xE0 =? 0xC0) = (192 <=? b) && (b <? 224) /\ (b &w 0xF0 =? 0xE0) = (224 <=? b) && (b <? 240) /\
  (b &w 0xF8 =? 0xF0) = (240 <=? b) && (b <? 248).
Proof.
  apply (byte_forall (fun b =>
    b &w 0xFF = b /\ (b &w 0x80 =? 0) = (b <? 128) /\ (b &w 0xC0 =? 0x80) = (128 <=? b) && (b <? 192) /\
    (b &w 0xE0 =? 0xC0) = (192 <=? b) && (b <? 224) /\ (b &w 0xF0 =? 0xE0) = (224 <=? b) && (b <? 240) /\
    (b &w 0xF8 =? 0xF0) = (240 <=? b) && (b <? 248))).
  vm_compute. reflexivity.
Qed.

Lemma read_byte b bs :
  is_byte b ->
  readContinuationByte (b :: bs) = if (128 <=? b) && (b <? 192) then Some (b mod 64, bs) else None.
Proof.
  intros Hb. cbn [readContinuationByte]. destruct (byte_masks b Hb) as (E1 & _ & E2 & _). rewrite E1, E2.
  unfold is_byte in Hb. by rewrite (and_mask b 6) by lia.
Qed.

Lemma read_continuation x rest : 0 <= x < 64 -> readContinuationByte ((128 + x) :: rest) = Some (x, rest).
Proof.
  intros Hx. rewrite read_byte by (unfold is_byte; lia).
  zbool (128 <=? 128 + x) true. zbool (128 + x <? 192) true. simpl. do 2 f_equal. Z.div_mod_to_equations; lia.
Qed.

Lemma read_continuation_inv bs x rest :
  Forall is_byte bs -> readContinuationByte bs = Some (x, rest) -> bs = (128 + x) :: rest /\ 0 <= x < 64.
Proof.
  intros Hbs. destruct Hbs as [|b bs Hb Hbs]; [done|]. rewrite read_byte by done. unfold is_byte in Hb.
  destruct (Z.leb_spec 128 b), (Z.ltb_spec b 192); simpl; try discriminate. intros [= <- <-].
  split; [f_equal|]; Z.div_mod_to_equations; lia.
Qed.

(** Joining the bits of two, three and four bytes. *)
Lemma join2 a x : 0 <= a < 2 ^ 20 -> 0 <= x < 64 -> (a <<w 6) |w x = a * 64 + x.
Proof. intros Ha Hx. rewrite shl_mul by lia. apply (or_add a x 6); lia. Qed.
Lemma join3 a x y :
  0 <= a < 2 ^ 15 -> 0 <= x < 64 -> 0 <= y < 64 -> (a <<w 12) |w (x <<w 6) |w y = a * 4096 + x * 64 + y.
Proof.
  intros Ha Hx Hy. rewrite !shl_mul by lia. rewrite (or_add a (x * 2 ^ 6) 12) by lia.
  replace (a * 2 ^ 12 + x * 2 ^ 6) with ((a * 64 + x) * 2 ^ 6) by lia. rewrite or_add by lia. lia.
Qed.
Lemma join4 a x y z :
  0 <= a < 2 ^ 10 -> 0 <= x < 64 -> 0 <= y < 64 -> 0 <= z < 64 ->
  (a <<w 0x12) |w (x <<w 0x0C) |w (y <<w 0x06) |w z = a * 262144 + x * 4096 + y * 64 + z.
Proof.
  intros Ha Hx Hy Hz. rewrite !shl_mul by lia. rewrite (or_add a (x * 2 ^ 12) 18) by lia.
  replace (a * 2 ^ 18 + x * 2 ^ 12) with ((a * 64 + x) * 2 ^ 12) by lia.
  rewrite (or_add (a * 64 + x) (y * 2 ^ 6) 12) by lia.
  replace ((a * 64 + x) * 2 ^ 12 + y * 2 ^ 6) with ((a * 4096 + x * 64 + y) * 2 ^ 6) by lia.
  rewrite or_add by lia. lia.
Qed.

(** The first byte decides the length. *)
Lemma decode_lead b bs :
  is_byte b ->
  decodeSymbol (b :: bs) =
    if b <? 128 then Some (Some (b, bs))
    else if (192 <=? b) && (b <? 224) then
      '(x, bs) ← readContinuationByte bs;
      let c := ((b mod 32) <<w 6) |w x in if 0x80 <=? c then Some (Some (c, bs)) else None
    else if (224 <=? b) && (b <? 240) then
      '(x, bs) ← readContinuationByte bs; '(y, bs) ← readContinuationByte bs;
      let c := ((b mod 16) <<w 12) |w (x <<w 6) |w y in
      if 0x800 <=? c then if lone_surrogate c then None else Some (Some (c, bs)) else None
    else if (240 <=? b) && (b <? 248) then
      '(x, bs) ← readContinuationByte bs; '(y, bs) ← readContinuationByte bs;
      '(z, bs) ← readContinuationByte bs;
      let c := ((b mod 8) <<w 0x12) |w (x <<w 0x0C) |w (y <<w 0x06) |w z in
      if (0x10000 <=? c) && (c <=? 0x10FFFF) then Some (Some (c, bs)) else None
    else None.
Proof.
  intros Hb. destruct (byte_masks b Hb) as (E1 & E2 & _ & E3 & E4 & E5). unfold is_byte in Hb.
  cbn [decodeSymbol]. cbv zeta. rewrite E1, E2, E3, E4, E5.
  rewrite (and_mask b 5 0x1F), (and_mask b 4 0x0F), (and_mask b 3 0x07) by lia. reflexivity.
Qed.

Ltac lead b :=
  rewrite (decode_lead b) by (unfold is_byte; lia);
  repeat match goal with
  | |- context [b <? ?n] => first [zbool (b <? n) true | zbool (b <? n) false]
  | |- context [?n <=? b] => first [zbool (n <=? b) true | zbool (n <=? b) false]
  end; cbn [andb]; repeat (rewrite read_continuation by lia; cbn [mbind option_bind]); cbv zeta.

Lemma decode2 a x rest :
  2 <= a < 32 -> 0 <= x < 64 -> decodeSymbol ([192 + a; 128 + x] ++ rest) = Some (Some (a * 64 + x, rest)).
Proof.
  intros Ha Hx. cbn [app]. lead (192 + a). replace ((192 + a) mod 32) with a by (Z.div_mod_to_equations; lia).
  rewrite join2 by lia. by zbool (0x80 <=? a * 64 + x) true.
Qed.

Lemma decode3 a x y rest :
  0 <= a < 16 -> 0 <= x < 64 -> 0 <= y < 64 ->
  0x800 <= a * 4096 + x * 64 + y -> lone_surrogate (a * 4096 + x * 64 + y) = false ->
  decodeSymbol ([224 + a; 128 + x; 128 + y] ++ rest) = Some (Some (a * 4096 + x * 64 + y, rest)).
Proof.
  intros Ha Hx Hy Hc Hs. cbn [app]. lead (224 + a).
  replace ((224 + a) mod 16) with a by (Z.div_mod_to_equations; lia). rewrite join3 by lia.
  zbool (0x800 <=? a * 4096 + x * 64 + y) true. by rewrite Hs.
Qed.

Lemma decode4 a x y z rest :
  0 <= a < 8 -> 0 <= x < 64 -> 0 <= y < 64 -> 0 <= z < 64 ->
  0x10000 <= a * 262144 + x * 4096 + y * 64 + z <= 0x10FFFF ->
  decodeSymbol ([240 + a; 128 + x; 128 + y; 128 + z] ++ rest) =
  Some (Some (a * 262144 + x * 4096 + y * 64 + z, rest)).
Proof.
  intros Ha Hx Hy Hz Hc. cbn [app]. lead (240 + a).
  replace ((240 + a) mod 8) with a by (Z.div_mod_to_equations; lia). rewrite join4 by lia.
  zbool (0x10000 <=? a * 262144 + x * 4096 + y * 64 + z) true.
  by zbool (a * 262144 + x * 4096 + y * 64 + z <=? 0x10FFFF) true.
Qed.

Lemma decode_encoded c e rest :
  0 <= c < 0x110000 -> encodeCodePoint c = Some e -> decodeSymbol (e ++ rest) = Some (Some (c, rest)).
Proof.
  intros Hc. rewrite encode_spec by done. intros He.
  assert (forall x, 0 <= x mod 64 < 64) as Hm by (intros x; apply Z.mod_pos_bound; lia).
  destruct (Z.ltb_spec c 0x80); [|destruct (Z.ltb_spec c 0x800); [|destruct (Z.ltb_spec c 0x10000)]].
  - injection He as <-. cbn [app]. by lead c.
  - injection He as <-. rewrite decode2; [|Z.div_mod_to_equations; lia|apply Hm].
    do 3 f_equal. Z.div_mod_to_equations; lia.
  - destruct (lone_surrogate c) eqn:Hs; [done|]. injection He as <-.
    assert (c / 4096 * 4096 + c / 64 mod 64 * 64 + c mod 64 = c) as E by (Z.div_mod_to_equations; lia).
    rewrite decode3; rewrite ?E; [done|Z.div_mod_to_equations; lia|apply Hm|apply Hm|lia|done].
  - injection He as <-.
    assert (c / 262144 * 262144 + c / 4096 mod 64 * 4096 + c / 64 mod 64 * 64 + c mod 64 = c) as E
      by (Z.div_mod_to_equations; lia).
    rewrite decode4; rewrite ?E; [done|Z.div_mod_to_equations; lia|apply Hm|apply Hm|apply Hm|lia].
Qed.

Lemma encoded_bytes c e :
  0 <= c < 0x110000 -> encodeCodePoint c = Some e -> Forall is_byte e /\ (0 < length e)%nat.
Proof.
  intros Hc. rewrite encode_spec by done. intros He.
  assert (forall x, is_byte (128 + x mod 64)) as Hm
    by (intros x; pose proof (Z.mod_pos_bound x 64); unfold is_byte; lia).
  destruct (Z.ltb_spec c 0x80); [|destruct (Z.ltb_spec c 0x800); [|destruct (Z.ltb_spec c 0x10000)]];
    try (destruct (lone_surrogate c); [discriminate He|]); injection He as <-; (split; [|simpl; lia]);
    repeat apply Forall_cons_2; try apply Hm; try apply Forall_nil_2;
    unfold is_byte; Z.div_mod_to_equations; lia.
Qed.

(** What is decoded is an encoding. *)
Lemma read_inv {A} bs (k : Z * list Z -> option A) r :
  Forall is_byte bs -> (p ← readContinuationByte bs; k p) = Some r ->
  exists x bs', bs = (128 + x) :: bs' /\ 0 <= x < 64 /\ Forall is_byte bs' /\ k (x, bs') = Some r.
Proof.
  intros Hbs Hk. destruct (readContinuationByte bs) as [[x bs']|] eqn:E; [|discriminate].
  destruct (read_continuation_inv _ _ _ Hbs E) as [-> Hx]. exists x, bs'. apply Forall_cons in Hbs as [_ Hbs]. done.
Qed.

Lemma encode2 a x :
  2 <= a < 32 -> 0 <= x < 64 -> encodeCodePoint (a * 64 + x) = Some [192 + a; 128 + x].
Proof.
  intros Ha Hx. rewrite encode_spec by lia. zbool (a * 64 + x <? 0x80) false. zbool (a * 64 + x <? 0x800) true.
  do 2 f_equal; [|f_equal]; Z.div_mod_to_equations; lia.
Qed.
Lemma encode3 a x y :
  0 <= a < 16 -> 0 <= x < 64 -> 0 <= y < 64 ->
  0x800 <= a * 4096 + x * 64 + y -> lone_surrogate (a * 4096 + x * 64 + y) = false ->
  encodeCodePoint (a * 4096 + x * 64 + y) = Some [224 + a; 128 + x; 128 + y].
Proof.
  intros Ha Hx Hy Hc Hs. rewrite encode_spec, Hs by lia. set (c := a * 4096 + x * 64 + y) in *.
  zbool (c <? 0x80) false. zbool (c <? 0x800) false. zbool (c <? 0x10000) true. unfold c.
  do 2 f_equal; [|f_equal; [|f_equal]]; Z.div_mod_to_equations; lia.
Qed.
Lemma encode4 a x y z :
  0 <= a < 8 -> 0 <= x < 64 -> 0 <= y < 64 -> 0 <= z < 64 ->
  0x10000 <= a * 262144 + x * 4096 + y * 64 + z <= 0x10FFFF ->
  encodeCodePoint (a * 262144 + x * 4096 + y * 64 + z) = Some [240 + a; 128 + x; 128 + y; 128 + z].
Proof.
  intros Ha Hx Hy Hz Hc. rewrite encode_spec by lia. set (c := a * 262144 + x * 4096 + y * 64 + z) in *.
  zbool (c <? 0x80) false. zbool (c <? 0x800) false. zbool (c <? 0x10000) false. unfold c.
  do 2 f_equal; [|f_equal; [|f_equal; [|f_equal]]]; Z.div_mod_to_equations; lia.
Qed.

(** A code point that is not a surrogate. *)
Definition scalar (c : Z) : Prop := 0 <= c < 0x110000 /\ lone_surrogate c = false.

Lemma decode_inv bs c rest :
  Forall is_byte bs -> decodeSymbol bs = Some (Some (c, rest)) ->
  exists e, encodeCodePoint c = Some e /\ bs = e ++ rest /\ scalar c.
Proof.
  intros Hbs. destruct Hbs as [|b bs Hb Hbs]; [done|]. rewrite decode_lead by done. unfold is_byte in Hb.
  assert (forall c, c < 0xD800 \/ 0xDFFF < c -> lone_surrogate c = false) as Hls.
  { intros c' Hc'. unfold lone_surrogate. lia. }
  destruct (Z.ltb_spec b 128) as [?|?]; [|destruct (((192 <=? b) && (b <? 224))) eqn:E2;
    [|destruct ((224 <=? b) && (b <? 240)) eqn:E3; [|destruct ((240 <=? b) && (b <? 248)) eqn:E4; [|done]]]];
    intros Hd.
  - injection Hd as <- <-. exists [b]. rewrite encode_spec by lia. zbool (b <? 0x80) true.
    split; [done|split; [done|split; [lia|apply Hls; lia]]].
  - apply read_inv in Hd as (x & bs' & -> & Hx & Hbs' & Hd); [|done]. cbv zeta in Hd.
    rewrite join2 in Hd by (Z.div_mod_to_equations; lia).
    destruct (Z.leb_spec 0x80 (b mod 32 * 64 + x)); [|done]. injection Hd as <- <-.
    exists [192 + b mod 32; 128 + x]. rewrite encode2 by (Z.div_mod_to_equations; lia).
    replace (192 + b mod 32) with b by (Z.div_mod_to_equations; lia).
    split; [done|split; [done|split; [|apply Hls]]]; Z.div_mod_to_equations; lia.
  - apply read_inv in Hd as (x & bs1 & -> & Hx & Hbs1 & Hd); [|done].
    apply read_inv in Hd as (y & bs' & -> & Hy & Hbs' & Hd); [|done]. cbv zeta in Hd.
    rewrite join3 in Hd by (Z.div_mod_to_equations; lia). set (c' := _ + y) in Hd.
    destruct (Z.leb_spec 0x800 c'); [|done]. destruct (lone_surrogate c') eqn:Hs; [done|]. injection Hd as <- <-.
    exists [224 + b mod 16; 128 + x; 128 + y]. unfold c' in *. rewrite encode3 by (done || Z.div_mod_to_equations; lia).
    replace (224 + b mod 16) with b by (Z.div_mod_to_equations; lia).
    split; [done|split; [done|split; [Z.div_mod_to_equations; lia|done]]].
  - apply read_inv in Hd as (x & bs1 & -> & Hx & Hbs1 & Hd); [|done].
    apply read_inv in Hd as (y & bs2 & -> & Hy & Hbs2 & Hd); [|done].
    apply read_inv in Hd as (z & bs' & -> & Hz & Hbs' & Hd); [|done]. cbv zeta in Hd.
    rewrite join4 in Hd by (Z.div_mod_to_equations; lia). set (c' := _ + z) in Hd.
    destruct (Z.leb_spec 0x10000 c'), (Z.leb_spec c' 0x10FFFF); try done. injection Hd as <- <-.
    exists [240 + b mod 8; 128 + x; 128 + y; 128 + z]. unfold c' in *.
    rewrite encode4 by (done || Z.div_mod_to_equations; lia).
    replace (240 + b mod 8) with b by (Z.div_mod_to_equations; lia).
    split; [done|split; [done|split; [lia|apply Hls; lia]]].
Qed.

(** * Code units and code points *)

Definition unit16 (c : Z) : Prop := 0 <= c < 0x10000.

Lemma low_surrogate e : unit16 e -> (e &w 0xFC00 =? 0xDC00) = (0xDC00 <=? e) && (e <=? 0xDFFF).
Proof.
  unfold unit16. intros He.
  assert (e &w 0xFC00 = e - e mod 1024) as ->.
  { unfold js_and. rewrite !s32_id by lia. change 0xFC00 with (Z.land (Z.ones 16) (Z.lnot (Z.ones 10))).
    rewrite Z.land_assoc, Z.land_ones, (Z.mod_small e) by lia.
    rewrite <- Z.ldiff_land, Z.ldiff_ones_r, Z.shiftr_div_pow2, Z.shiftl_mul_pow2 by lia.
    change (2 ^ 10) with 1024. Z.div_mod_to_equations; lia. }
  destruct (Z.leb_spec 0xDC00 e), (Z.leb_spec e 0xDFFF); cbn [andb];
    [apply Z.eqb_eq|apply Z.eqb_neq..]; Z.div_mod_to_equations; lia.
Qed.

(** A surrogate pair. *)
Lemma pair_value v e :
  0xD800 <= v <= 0xDBFF -> 0xDC00 <= e <= 0xDFFF ->
  ((v &w 0x3FF) <<w 10) + (e &w 0x3FF) + 0x10000 = (v - 0xD800) * 1024 + (e - 0xDC00) + 0x10000.
Proof.
  intros Hv He. rewrite (and_mask v 10), (and_mask e 10) by lia. change (2 ^ 10) with 1024.
  rewrite shl_mul by (Z.div_mod_to_equations; lia). change (2 ^ 10) with 1024. Z.div_mod_to_equations; lia.
Qed.

Lemma encode_unit c : c <= 0xFFFF -> ucs2encode [c] = [c].
Proof. intros Hc. unfold ucs2encode. rewrite bind_singleton. by zbool (0xFFFF <? c) false. Qed.

Lemma encode_pair c :
  0x10000 <= c < 0x110000 ->
  ucs2encode [c] = [0xD800 + (c - 0x10000) / 1024; 0xDC00 + (c - 0x10000) mod 1024].
Proof.
  intros Hc. unfold ucs2encode. rewrite bind_singleton. zbool (0xFFFF <? c) true. cbv zeta.
  set (d := c - 0x10000). assert (0 <= d < 0x100000) by lia.
  rewrite ushr_div by lia. rewrite (and_mask (d / 2 ^ 10) 10) by (Z.div_mod_to_equations; lia).
  rewrite (and_mask d 10) by lia. change (2 ^ 10) with 1024.
  rewrite (Z.mod_small (d / 1024)) by (Z.div_mod_to_equations; lia).
  rewrite (or_tag 27 (d / 1024) 0xD800 11) by (Z.div_mod_to_equations; lia).
  change (0xDC00 |w (d mod 1024)) with ((55 * 2 ^ 10) |w (d mod 1024)).
  rewrite or_add by (Z.div_mod_to_equations; lia).
  do 2 f_equal.
Qed.

Lemma ucs2encode_cons c cs : ucs2encode (c :: cs) = ucs2encode [c] ++ ucs2encode cs.
Proof. unfold ucs2encode. by rewrite bind_cons, bind_singleton. Qed.

Lemma wf_length {A} : well_founded (fun s t : list A => length s < length t)%nat.
Proof. apply (wf_projected lt length); [done|apply lt_wf]. Qed.

Lemma ucs2_units s :
  Forall unit16 s -> Forall (fun c => 0 <= c < 0x110000) (ucs2decode s) /\ ucs2encode (ucs2decode s) = s.
Proof.
  induction s as [s IH] using (well_founded_ind (wf_length (A := Z))). intros Hs. destruct Hs as [|v s Hv Hs]; [done|].
  unfold unit16 in Hv. cbn [ucs2decode].
  assert (Forall (fun c => 0 <= c < 0x110000) (v :: ucs2decode s) /\ ucs2encode (v :: ucs2decode s) = v :: s) as Hsimple.
  { destruct (IH s) as [H1 H2]; [simpl; lia|done|]. split; [constructor; [lia|done]|].
    by rewrite ucs2encode_cons, encode_unit, H2 by lia. }
  destruct (Z.leb_spec 0xD800 v), (Z.leb_spec v 0xDBFF); try done. cbn [andb].
  destruct Hs as [|e s He Hs]; [done|]. rewrite low_surrogate by done.
  destruct (Z.leb_spec 0xDC00 e), (Z.leb_spec e 0xDFFF); try done. cbn [andb].
  rewrite pair_value by lia. destruct (IH s) as [Hr Hu]; [simpl; lia|done|].
  split; [constructor; [lia|done]|]. rewrite ucs2encode_cons, encode_pair, Hu by lia.
  set (c := _ + 0x10000). assert ((c - 0x10000) / 1024 = v - 0xD800) as -> by (unfold c; Z.div_mod_to_equations; lia).
  assert ((c - 0x10000) mod 1024 = e - 0xDC00) as -> by (unfold c; Z.div_mod_to_equations; lia).
  cbn [app]. f_equal; [lia|f_equal; lia].
Qed.

Lemma ucs2_points cs : Forall scalar cs -> ucs2decode (ucs2encode cs) = cs /\ Forall unit16 (ucs2encode cs).
Proof.
  induction 1 as [|c cs [Hc Hs] _ [IH IHu]]; [done|]. rewrite ucs2encode_cons. unfold lone_surrogate in Hs.
  destruct (Z.leb_spec 0x10000 c).
  - rewrite encode_pair by lia. set (h := 0xD800 + _). set (l := 0xDC00 + _).
    assert (0xD800 <= h <= 0xDBFF /\ 0xDC00 <= l <= 0xDFFF) as [Hh Hl] by (unfold h, l; Z.div_mod_to_equations; lia).
    split; [|repeat apply Forall_cons_2; unfold unit16; lia || done]. cbn [app ucs2decode].
    zbool (0xD800 <=? h) true. zbool (h <=? 0xDBFF) true. cbn [andb]. rewrite low_surrogate by (unfold unit16; lia).
    zbool (0xDC00 <=? l) true. zbool (l <=? 0xDFFF) true. cbn [andb]. rewrite IH, pair_value by lia. f_equal.
    unfold h, l. Z.div_mod_to_equations; lia.
  - rewrite encode_unit by lia. split; [|repeat apply Forall_cons_2; unfold unit16; lia || done].
    cbn [app ucs2decode].
    assert ((0xD800 <=? c) && (c <=? 0xDBFF) = false) as -> by lia. by rewrite IH.
Qed.

Lemma ucs2_bytes bs : Forall is_byte bs -> ucs2decode bs = bs.
Proof.
  induction 1 as [|b bs Hb _ IH]; [done|]. unfold is_byte in Hb. cbn [ucs2decode].
  zbool (0xD800 <=? b) false. cbn [andb]. by rewrite IH.
Qed.

(** * Whole strings *)

Lemma encode_all_decode cs bs n :
  Forall (fun c => 0 <= c < 0x110000) cs -> encode_all cs = Some bs -> (length bs < n)%nat ->
  Forall is_byte bs /\ decode_loop n bs = Some cs.
Proof.
  intros Hcs. revert bs n. induction Hcs as [|c cs Hc _ IH]; intros bs n He Hn.
  { injection He as <-. split; [done|]. by destruct n; [simpl in Hn; lia|]. }
  cbn [encode_all] in He. destruct (encodeCodePoint c) as [e|] eqn:Ec; [|done].
  destruct (encode_all cs) as [bs'|]; [|done]. injection He as <-.
  destruct (encoded_bytes c e Hc Ec) as [Hb He]. rewrite length_app in Hn. destruct n as [|n]; [lia|].
  destruct (IH bs' n) as [Hb' Hd]; [done|lia|]. split; [by apply Forall_app_2|].
  cbn [decode_loop]. rewrite (decode_encoded c e bs' Hc Ec). cbn [mbind option_bind]. by rewrite Hd.
Qed.

Lemma decode_more b bs : decodeSymbol (b :: bs) <> Some None.
Proof.
  cbn [decodeSymbol]. cbv zeta.
  repeat match goal with
  | |- context [if ?c then _ else _] => destruct c
  | |- context [readContinuationByte ?l] => destruct (readContinuationByte l) as [[? ?]|]; cbn [mbind option_bind]
  end; discriminate.
Qed.

Lemma decode_loop_encode n bs cs :
  Forall is_byte bs -> decode_loop n bs = Some cs -> encode_all cs = Some bs /\ Forall scalar cs.
Proof.
  revert bs cs. induction n as [|n IH]; intros bs cs Hbs; [done|]. cbn [decode_loop].
  destruct (decodeSymbol bs) as [[[c rest]|]|] eqn:E; cbn [mbind option_bind]; [|intros [= <-]|done].
  - destruct (decode_inv _ _ _ Hbs E) as (e & Ee & -> & Hc). apply Forall_app in Hbs as [_ Hr].
    destruct (decode_loop n rest) as [cs'|] eqn:Ed; [|done]. intros [= <-].
    destruct (IH rest cs' Hr Ed) as [Ha Hs]. split; [|by constructor].
    cbn [encode_all]. rewrite Ee. cbn [mbind option_bind]. by rewrite Ha.
  - split; [|done]. destruct bs; [done|]. by apply decode_more in E.
Qed.

Lemma encode_all_none cs :
  Forall (fun c => 0 <= c < 0x110000) cs ->
  encode_all cs = None <-> Exists (fun c => lone_surrogate c = true) cs.
Proof.
  induction 1 as [|c cs Hc _ IH]; cbn [encode_all]; [split; [done|inversion 1]|].
  rewrite Exists_cons. destruct (encodeCodePoint c) as [e|] eqn:E; cbn [mbind option_bind].
  - rewrite <- IH. rewrite encode_spec in E by done. unfold lone_surrogate in *.
    destruct (encode_all cs); cbn [mbind option_bind].
    + split; [done|]. intros [Hs|?]; [|done]. by repeat (case_match; try lia).
    + split; [by right|done].
  - split; [|done]. intros _. left. rewrite encode_spec in E by done. by repeat (case_match; try done).
Qed.

Lemma ucs2decode_length s : (length (ucs2decode s) <= length s)%nat.
Proof.
  induction s as [s IH] using (well_founded_ind (wf_length (A := Z))). destruct s as [|v s]; [done|].
  cbn [ucs2decode]. assert (length (v :: ucs2decode s) <= length (v :: s))%nat
    by (specialize (IH s ltac:(simpl; lia)); simpl; lia).
  destruct (_ && _); [|done]. destruct s as [|e s]; [done|]. destruct (_ =? _); [|done].
  specialize (IH s ltac:(simpl; lia)). simpl. lia.
Qed.

Lemma encode_all_length cs b : encode_all cs = Some b -> (length b <= 4 * length cs)%nat.
Proof.
  revert b. induction cs as [|c cs IH]; intros b Hb; [injection Hb as <-; simpl; lia|].
  cbn [encode_all] in Hb. destruct (encodeCodePoint c) as [e|] eqn:E; [|done].
  destruct (encode_all cs) as [b'|]; [|done]. injection Hb as <-. specialize (IH b' eq_refl).
  assert (length e <= 4)%nat; [|rewrite length_app; simpl; lia].
  unfold encodeCodePoint in E. by repeat (case_match; simplify_eq/=; try lia).
Qed.

Lemma utf8_inverse s bytes :
  Forall unit16 s -> utf8encode s = Some bytes -> Forall is_byte bytes /\ utf8decode bytes = Some s.
Proof.
  intros Hs E. destruct (ucs2_units s Hs) as [Hr Hu].
  destruct (encode_all_decode _ bytes (S (length bytes)) Hr E ltac:(lia)) as [Hb Hd]. split; [done|].
  unfold utf8decode. rewrite ucs2_bytes by done. rewrite Hd. simpl. by rewrite Hu.
Qed.

(** Zero bytes come from zero characters only. *)
Lemma ucs2decode_nonzero s : Forall unit16 s -> 0 ∉ s -> 0 ∉ ucs2decode s.
Proof.
  intros Hu Hz Hin. apply Hz. rewrite <-(proj2 (ucs2_units s Hu)). unfold ucs2encode.
  apply list_elem_of_bind. exists 0. split; [left|done].
Qed.

Lemma encode_nonzero cs bs :
  Forall (fun c => 0 <= c < 0x110000) cs -> 0 ∉ cs -> encode_all cs = Some bs -> 0 ∉ bs.
Proof.
  intros Hcs. revert bs. induction Hcs as [|c cs Hc _ IH]; intros bs Hz Hb; [by injection Hb as <-|].
  cbn [encode_all] in Hb. destruct (encodeCodePoint c) as [e|] eqn:E; [|done].
  destruct (encode_all cs) as [bs'|]; [|done]. injection Hb as <-. rewrite elem_of_app.
  apply not_elem_of_cons in Hz as [Hc0 Hz]. intros [Hin|Hin]; [|by eapply IH].
  rewrite encode_spec in E by done. revert Hin.
  repeat (case_match; simplify_eq/=; rewrite ?elem_of_cons, ?elem_of_nil; try (Z.div_mod_to_equations; lia)).
Qed.

Lemma utf8_nonzero s bs : Forall unit16 s -> 0 ∉ s -> utf8encode s = Some bs -> 0 ∉ bs.
Proof.
  intros Hu Hz. apply encode_nonzero; [by apply ucs2_units|by apply ucs2decode_nonzero].
Qed.

(** C32. A string has an encoding exactly when it has no lone surrogate, and its
    encoding is a byte string that decodes to it. *)
Theorem utf8_roundtrip s :
  Forall unit16 s ->
  match utf8encode s with
  | Some bytes => Forall is_byte bytes /\ utf8decode bytes = Some s
  | None => Exists (fun c => lone_surrogate c = true) (ucs2decode s)
  end.
Proof.
  intros Hs. destruct (utf8encode s) as [bs|] eqn:E; [by apply utf8_inverse|].
  destruct (ucs2_units s Hs) as [Hr _]. by apply encode_all_none.
Qed.

Lemma utf8_roundtrip_witness :
  Forall is_byte [0xE2; 0x82; 0xAC; 0xF0; 0x9F; 0x98; 0x80] /\
  utf8decode [0xE2; 0x82; 0xAC; 0xF0; 0x9F; 0x98; 0x80] = Some [0x20AC; 0xD83D; 0xDE00].
Proof. apply (utf8_roundtrip [0x20AC; 0xD83D; 0xDE00]). repeat constructor; unfold unit16; lia. Defined.

(** C33. The decoder accepts only encodings: overlong forms, surrogates and values
    past the last code point are errors. *)
Theorem utf8_strict bytes s :
  Forall is_byte bytes -> utf8decode bytes = Some s -> utf8encode s = Some bytes.
Proof.
  intros Hb. unfold utf8decode. rewrite ucs2_bytes by done. intros Hd.
  apply fmap_Some in Hd as (cs & Hd & ->). destruct (decode_loop_encode _ _ _ Hb Hd) as [He Hs].
  unfold utf8encode. by rewrite (proj1 (ucs2_points cs Hs)).
Qed.

Lemma utf8_strict_witness : utf8encode [0x20AC] = Some [0xE2; 0x82; 0xAC].
Proof. apply utf8_strict; [repeat constructor; unfold is_byte; lia|reflexivity]. Defined.
