(* ===== verification/Encoders.v ===== *)
(** The other encoders of the bundled crypto-js: Base64 (web3.js 8651-8754) and
    UTF-16 (8761-8911). The UTF-8 encoder (8324-8362) goes through the host's
    [encodeURIComponent], which is UTF-8 of the code points. *)
From Stdlib Require Import ZArith Lia.
From S2P Require Import Prelude Words WordArray Utf8.
Open Scope Z_scope.
Open Scope word_scope.

(** * Base64 *)

Module Base64.
Definition _map : jsstr := str "ABCDEFGHIJKLMNOPQRSTUVWXYZabcdefghijklmnopqrstuvwxyz0123456789+/=".
Definition charAt (i : Z) : Z := default 0 (_map !! Z.to_nat i).
Definition paddingChar : Z := charAt 64.

(** [i + j * 0.75 < sigBytes], which stays false once it is. *)
Definition group (w : wordarray) (i : Z) (chars : jsstr) : jsstr :=
  let byte1 := byte_at (words w) i in
  let byte2 := byte_at (words w) (i + 1) in
  let byte3 := byte_at (words w) (i + 2) in
  let triplet := (byte1 <<w 16) |w (byte2 <<w 8) |w byte3 in
  loop 4 (fun j chars =>
    if 4 * i + 3 * j <? 4 * sigBytes w
    then chars ++ [charAt ((triplet >>>w (6 * (3 - j))) &w 0x3f)] else chars) chars.

Definition stringify (w : wordarray) : jsstr :=
  let w := clamp w in
  let chars := loop (Z.to_nat ((sigBytes w + 2) / 3)) (fun k => group w (3 * k)) [] in
  chars ++ replicate (Z.to_nat ((- js_len chars) mod 4)) paddingChar.

(** [reverseMap[c]]; characters outside the map read as 0 under the shifts. *)
Fixpoint index_of (c : Z) (s : jsstr) (i : Z) : option Z :=
  match s with
  | [] => None
  | x :: s => if x =? c then Some i else index_of c s (i + 1)
  end.
Definition reverse (c : Z) : Z := default 0 (index_of c _map 0).

Definition parse_step (s : jsstr) (i : Z) (st : list Z * Z) : list Z * Z :=
  let '(ws, nBytes) := st in
  if negb (i mod 4 =? 0) then
    let bits1 := reverse (default 0 (s !! Z.to_nat (i - 1))) <<w ((i mod 4) * 2) in
    let bits2 := reverse (default 0 (s !! Z.to_nat i)) >>>w (6 - (i mod 4) * 2) in
    (or_byte ws nBytes (bits1 |w bits2), nBytes + 1)
  else (ws, nBytes).
Definition parseLoop (s : jsstr) (length : Z) : wordarray :=
  let '(ws, nBytes) := loop (Z.to_nat length) (parse_step s) ([], 0) in WA ws nBytes.
Definition parse (s : jsstr) : wordarray :=
  parseLoop s (default (js_len s) (index_of paddingChar s 0)).
End Base64.

Example base64_hello : Base64.stringify (of_bytes (str "hello")) = str "aGVsbG8=".
Proof. vm_compute. reflexivity. Qed.
Example base64_hello_parse : bytes_of (Base64.parse (str "aGVsbG8=")) = str "hello".
Proof. vm_compute. reflexivity. Qed.

(** * UTF-16 *)

Module Utf16.
(** [(words[i >>> 2] >>> (16 - (i % 4) * 8)) & 0xffff], for even [i]. *)
Definition code_at (ws : list Z) (i : Z) : Z := (get_word ws (i / 4) >>>w (16 - (i mod 4) * 8)) &w 0xffff.
Definition swapEndian (w : Z) : Z := ((w <<w 8) &w 0xff00ff00) |w ((w >>>w 8) &w 0x00ff00ff).

Definition stringifyBE (w : wordarray) : jsstr :=
  loop (Z.to_nat ((sigBytes w + 1) / 2)) (fun k cs => cs ++ [code_at (words w) (2 * k)]) [].
Definition parseBE (s : jsstr) : wordarray :=
  WA (loop (length s) (fun i ws =>
        set_word ws (i / 2) (get_word ws (i / 2) |w (default 0 (s !! Z.to_nat i) <<w (16 - (i mod 2) * 16)))) [])
     (js_len s * 2).

Definition stringifyLE (w : wordarray) : jsstr :=
  loop (Z.to_nat ((sigBytes w + 1) / 2)) (fun k cs => cs ++ [swapEndian (code_at (words w) (2 * k))]) [].
Definition parseLE (s : jsstr) : wordarray :=
  WA (loop (length s) (fun i ws =>
        set_word ws (i / 2)
          (get_word ws (i / 2) |w swapEndian (default 0 (s !! Z.to_nat i) <<w (16 - (i mod 2) * 16)))) [])
     (js_len s * 2).
End Utf16.

Example utf16_le : bytes_of (Utf16.parseLE (str "hi")) = [104; 0; 105; 0].
Proof. reflexivity. Qed.

(** * UTF-8 *)

(** [unescape(encodeURIComponent(s))] is the string of the UTF-8 bytes, with a
    throw on lone surrogates; [decodeURIComponent(escape(b))] is its strict
    inverse. *)
Definition Utf8_parse (s : jsstr) : option wordarray := Latin1_parse <$> utf8encode s.
Definition Utf8_stringify (w : wordarray) : option jsstr := utf8decode (Latin1_stringify w).

(** * Base64 round trip *)

Section Base64_roundtrip.
Variable B : Z -> Z.
Hypothesis B_byte : forall q, is_byte (B q).

(** The bits of three bytes, and the four sextets they are cut into. *)
Definition triplet (t : Z) : Z := (B (3 * t) <<w 16) |w (B (3 * t + 1) <<w 8) |w B (3 * t + 2).
Definition sextet (k : Z) : Z := (triplet (k / 4) >>>w (6 * (3 - k mod 4))) &w 0x3f.

Lemma triplet_bits t i n :
  0 <= i < 3 -> 0 <= n < 8 -> Z.testbit (triplet t) (8 * (2 - i) + n) = Z.testbit (B (3 * t + i)) n.
Proof using B_byte.
  intros Hi Hn. unfold triplet. rewrite !or_bits, !shl_bits by lia.
  assert (forall q j, 8 <= j -> Z.testbit (B q) j = false) as Hhi by (intros; by apply byte_bits_high).
  assert (i = 0 \/ i = 1 \/ i = 2) as Hc by lia. destruct_or! Hc; subst.
  - zbool (16 <=? 8 * (2 - 0) + n) true. zbool (8 <=? 8 * (2 - 0) + n) true. cbn [andb].
    rewrite (Hhi (3 * t + 1)), (Hhi (3 * t + 2)), !orb_false_r, Z.add_0_r by lia. f_equal. lia.
  - zbool (16 <=? 8 * (2 - 1) + n) false. zbool (8 <=? 8 * (2 - 1) + n) true. cbn [andb orb].
    rewrite (Hhi (3 * t + 2)), !orb_false_r by lia. f_equal. lia.
  - zbool (16 <=? 8 * (2 - 2) + n) false. zbool (8 <=? 8 * (2 - 2) + n) false. cbn [andb orb]. f_equal.
Qed.

Lemma sextet_bits t m i :
  0 <= m < 4 -> 0 <= i < 6 -> Z.testbit (sextet (4 * t + m)) i = Z.testbit (triplet t) (18 - 6 * m + i).
Proof.
  intros Hm Hi. unfold sextet. replace ((4 * t + m) / 4) with t by (Z.div_mod_to_equations; lia).
  replace ((4 * t + m) mod 4) with m by (Z.div_mod_to_equations; lia).
  rewrite and_bits, ushr_bits by lia. change 0x3f with (Z.ones 6). rewrite Z.ones_spec_low, andb_true_r by lia.
  zbool (i + 6 * (3 - m) <? 32) true. cbn [andb]. f_equal. lia.
Qed.

Lemma sextet_range k : 0 <= sextet k < 64.
Proof. unfold sextet. pose proof (and_range (triplet (k / 4) >>>w (6 * (3 - k mod 4))) 0x3f). lia. Qed.

Lemma sextet_bits_high k i : 6 <= i -> Z.testbit (sextet k) i = false.
Proof.
  intros Hi. pose proof (sextet_range k). rewrite <- (Z.mod_small (sextet k) (2 ^ 6)) by lia.
  apply Z.mod_pow2_bits_high. lia.
Qed.

(** The bits that [parseLoop] joins at a character: those of a byte, with bits
    of the byte before it above them. *)
Definition joined (k : Z) : Z :=
  (sextet (k - 1) <<w ((k mod 4) * 2)) |w (sextet k >>>w (6 - (k mod 4) * 2)).

Lemma joined_bits t m j :
  0 < m < 4 -> 0 <= j < 32 ->
  Z.testbit (joined (4 * t + m)) j = (j <? 2 * m + 6) && Z.testbit (triplet t) (24 - 8 * m + j).
Proof.
  intros Hm Hj. unfold joined. replace ((4 * t + m) mod 4) with m by (Z.div_mod_to_equations; lia).
  replace (4 * t + m - 1) with (4 * t + (m - 1)) by lia.
  rewrite or_bits, shl_bits, ushr_bits by lia. destruct (Z.leb_spec (m * 2) j); cbn [andb].
  - rewrite (sextet_bits_high _ (j + _)), andb_false_r, orb_false_r by lia.
    destruct (Z.ltb_spec j (2 * m + 6)); cbn [andb].
    + rewrite sextet_bits by lia. f_equal. lia.
    + apply sextet_bits_high. lia.
  - zbool (j <? 2 * m + 6) true. zbool (j + (6 - m * 2) <? 32) true. cbn [andb orb].
    rewrite sextet_bits by lia. f_equal. lia.
Qed.

(** Adding a byte with bits of the byte before it above. *)
Lemma or_wide ws N v q :
  0 <= N -> 0 <= q ->
  (forall q, 0 <= q -> byte_at ws q = if q <? N then B q else 0) ->
  (forall j, 0 <= j < 8 -> Z.testbit v j = Z.testbit (B N) j) ->
  (forall j, 8 <= j < 32 -> Z.testbit v j = true -> j < 16 /\ Z.testbit (B (N - 1)) (j - 8) = true) ->
  byte_at (or_byte ws N v) q = if q <? N + 1 then B q else 0.
Proof using B_byte.
  intros HN Hq Hws Hlo Hhi. unfold or_byte. destruct (decide (q / 4 = N / 4)) as [E|E].
  2: { rewrite byte_at_set_other, Hws by (try apply Z.div_pos; lia).
       assert (q <> N) by (by intros ->). destruct (Z.ltb_spec q N).
       - by zbool (q <? N + 1) true.
       - by zbool (q <? N + 1) false. }
  pose proof (Z.mod_pos_bound N 4 ltac:(lia)). pose proof (Z.mod_pos_bound q 4 ltac:(lia)).
  pose proof (Z.div_mod N 4 ltac:(lia)). pose proof (Z.div_mod q 4 ltac:(lia)).
  apply byte_ext; [apply byte_at_range|destruct (q <? N + 1); [apply B_byte|unfold is_byte; lia]|].
  intros j Hj. rewrite byte_at_bits by lia. rewrite get_set_word by (apply Z.div_pos; lia).
  rewrite E, Z.eqb_refl, or_bits, shl_bits by lia. rewrite <- E, <- byte_at_bits, Hws by lia.
  destruct (Z.ltb_spec q N); [|destruct (Z.eqb_spec q N) as [->|]].
  - zbool (q <? N + 1) true. destruct (Z.leb_spec (24 - N mod 4 * 8) (24 - q mod 4 * 8 + j)); [|apply orb_false_r].
    cbn [andb]. set (i := 24 - q mod 4 * 8 + j - (24 - N mod 4 * 8)).
    destruct (Z.testbit v i) eqn:Ev; [|apply orb_false_r]. rewrite orb_true_r.
    destruct (Hhi i) as [Hi Hb]; [unfold i; lia|done|]. replace q with (N - 1) by (unfold i in *; lia).
    rewrite <- Hb. f_equal. unfold i. lia.
  - zbool (N <? N + 1) true. rewrite Z.bits_0. zbool (24 - N mod 4 * 8 <=? 24 - N mod 4 * 8 + j) true. cbn [andb orb].
    rewrite <- Hlo by lia. f_equal. lia.
  - zbool (q <? N + 1) false. zbool (24 - N mod 4 * 8 <=? 24 - q mod 4 * 8 + j) false. by rewrite Z.bits_0.
Qed.

(** The number of bytes in the first [k] characters. *)
Definition bytes_in (k : Z) : Z := k - (k + 3) / 4.

Lemma parse_chars s n k :
  (forall i, 0 <= i < n -> Base64.reverse (default 0 (s !! Z.to_nat i)) = sextet i) -> Z.of_nat k <= n ->
  let st := loop k (Base64.parse_step s) ([], 0) in
  st.2 = bytes_in (Z.of_nat k) /\
  forall q, 0 <= q -> byte_at st.1 q = if q <? bytes_in (Z.of_nat k) then B q else 0.
Proof using B_byte.
  intros Hs. cbv zeta. induction k as [|k IH]; intros Hk.
  { split; [done|]. intros q Hq. change (bytes_in (Z.of_nat 0)) with 0. zbool (q <? 0) false. by apply byte_at_zero_word. }
  rewrite loop_S. destruct (IH ltac:(lia)) as [IH1 IH2]. destruct (loop k _ _) as [ws N]. cbn [fst snd] in *. subst N.
  unfold Base64.parse_step. set (i := Z.of_nat k) in *.
  pose proof (Z.div_mod i 4 ltac:(lia)) as Hdm. pose proof (Z.mod_pos_bound i 4 ltac:(lia)) as Hm.
  set (t := i / 4) in *. set (m := i mod 4) in *.
  destruct (Z.eqb_spec m 0) as [E|E]; cbn [negb fst snd].
  - assert (bytes_in (Z.of_nat (S k)) = bytes_in i) as -> by (unfold bytes_in; Z.div_mod_to_equations; lia). done.
  - assert (bytes_in i = 3 * t + m - 1) as EN by (unfold bytes_in; Z.div_mod_to_equations; lia).
    assert (bytes_in (Z.of_nat (S k)) = bytes_in i + 1) as -> by (unfold bytes_in; Z.div_mod_to_equations; lia).
    split; [done|]. intros q Hq. rewrite !Hs by lia.
    replace (_ |w _) with (joined (4 * t + m)).
    2: { unfold joined. replace (4 * t + m) with i by lia. fold m. done. }
    rewrite EN. apply or_wide; [lia|done|by rewrite <- EN| |].
    + intros j Hj. rewrite joined_bits by lia. zbool (j <? 2 * m + 6) true. cbn [andb].
      replace (24 - 8 * m + j) with (8 * (2 - (m - 1)) + j) by lia. rewrite triplet_bits by lia. f_equal. f_equal. lia.
    + intros j Hj. rewrite joined_bits by lia. destruct (Z.ltb_spec j (2 * m + 6)); [|done]. cbn [andb].
      intros Hb. split; [lia|]. rewrite <- Hb.
      replace (24 - 8 * m + j) with (8 * (2 - (m - 2)) + (j - 8)) by lia. rewrite triplet_bits by lia.
      f_equal. f_equal. lia.
Qed.
End Base64_roundtrip.

Lemma reverse_charAt v : 0 <= v < 64 -> Base64.reverse (Base64.charAt v) = v /\ Base64.charAt v <> Base64.paddingChar.
Proof.
  intros Hv. assert (forallb (fun v => (Base64.reverse (Base64.charAt v) =? v) &&
    negb (Base64.charAt v =? Base64.paddingChar)) (seqZ 0 64) = true) as H by (vm_compute; reflexivity).
  rewrite forallb_forall in H. specialize (H v). rewrite <- list_elem_of_In, elem_of_seqZ in H.
  specialize (H ltac:(lia)). lia.
Qed.

Lemma seqZ_snoc n : 0 <= n -> seqZ 0 (n + 1) = seqZ 0 n ++ [n].
Proof. intros Hn. by rewrite seqZ_app, Z.add_0_l by lia. Qed.

(** The characters before the padding. *)
Definition nchars (L : Z) : Z := (4 * L + 2) / 3.

Lemma stringify_chars w :
  0 <= sigBytes w ->
  exists p, Base64.stringify w =
    ((fun k => Base64.charAt (sextet (byte_at (words (clamp w))) k)) <$> seqZ 0 (nchars (sigBytes w))) ++
    replicate p Base64.paddingChar.
Proof.
  intros Hs. unfold Base64.stringify. set (v := clamp w). change (sigBytes w) with (sigBytes v) in *.
  set (c := fun k => Base64.charAt (sextet (byte_at (words v)) k)). set (L := sigBytes v) in *. eexists. f_equal.
  assert (forall k j : nat, (j <= 4)%nat ->
    loop j (fun j chars => if 4 * (3 * Z.of_nat k) + 3 * j <? 4 * L
      then chars ++ [c (4 * Z.of_nat k + j)] else chars) (c <$> seqZ 0 (Z.min (4 * Z.of_nat k) (nchars L))) =
    c <$> seqZ 0 (Z.min (4 * Z.of_nat k + Z.of_nat j) (nchars L))) as Hg.
  { intros k j Hj. induction j as [|j IH]; [by rewrite Z.add_0_r|]. rewrite loop_S, IH by lia. unfold nchars.
    destruct (Z.ltb_spec (4 * (3 * Z.of_nat k) + 3 * Z.of_nat j) (4 * L)).
    - rewrite (Z.min_l (4 * Z.of_nat k + Z.of_nat j)) by (Z.div_mod_to_equations; lia).
      rewrite Z.min_l by (Z.div_mod_to_equations; lia).
      replace (4 * Z.of_nat k + Z.of_nat (S j)) with (4 * Z.of_nat k + Z.of_nat j + 1) by lia.
      by rewrite seqZ_snoc, fmap_app by lia.
    - rewrite !Z.min_r by (Z.div_mod_to_equations; lia). done. }
  assert (forall k, loop k (fun k => Base64.group v (3 * k)) [] = c <$> seqZ 0 (Z.min (4 * Z.of_nat k) (nchars L))) as Hl.
  { induction k as [|k IH].
    { rewrite Z.min_l; [done|]. unfold nchars. Z.div_mod_to_equations; lia. }
    rewrite loop_S, IH. unfold Base64.group. fold L. cbv zeta.
    replace (4 * Z.of_nat (S k)) with (4 * Z.of_nat k + Z.of_nat 4) by lia. rewrite <- (Hg k 4%nat) by lia.
    apply loop_ext. intros j x Hj. destruct (_ <? _); [|done]. do 2 f_equal. unfold c, sextet, triplet.
    replace ((4 * Z.of_nat k + j) / 4) with (Z.of_nat k) by (Z.div_mod_to_equations; lia).
    by replace ((4 * Z.of_nat k + j) mod 4) with j by (Z.div_mod_to_equations; lia). }
  rewrite Hl. do 2 f_equal. unfold nchars. Z.div_mod_to_equations; lia.
Qed.

Lemma index_of_fresh c s t i :
  Forall (fun x => x <> c) s -> Base64.index_of c (s ++ t) i = Base64.index_of c t (i + js_len s).
Proof.
  intros Hs. revert i. induction Hs as [|x s Hx _ IH]; intros i; [unfold js_len; simpl; by rewrite Z.add_0_r|].
  simpl. zbool (x =? c) false. rewrite IH. f_equal. unfold js_len. simpl length. lia.
Qed.

(** What [parseLoop] builds: as many words as the bytes need, each a signed
    32-bit number. *)
Definition is_s32 (x : Z) : Prop := - 2 ^ 31 <= x < 2 ^ 31.

Lemma is_s32_shiftr x : is_s32 x <-> Z.shiftr x 31 = 0 \/ Z.shiftr x 31 = -1.
Proof. unfold is_s32. rewrite Z.shiftr_div_pow2 by lia. Z.div_mod_to_equations; lia. Qed.

Lemma or_s32 a b : is_s32 (a |w b).
Proof.
  apply is_s32_shiftr. unfold js_or. rewrite Z.shiftr_lor.
  pose proof (proj1 (is_s32_shiftr (s32 a)) (s32_range a)) as [-> | ->];
  pose proof (proj1 (is_s32_shiftr (s32 b)) (s32_range b)) as [-> | ->]; (left; reflexivity) || (right; reflexivity).
Qed.

Lemma set_word_Forall (P : Z -> Prop) ws i v : P 0 -> P v -> Forall P ws -> Forall P (set_word ws i v).
Proof.
  intros H0 Hv Hws. unfold set_word. destruct (_ <? _)%nat; [by apply Forall_insert|].
  apply Forall_app; split; [done|]. apply Forall_app; split; [by apply Forall_replicate|by repeat constructor].
Qed.

Lemma parse_words s k :
  let st := loop k (Base64.parse_step s) ([], 0) in
  0 <= st.2 /\ Z.of_nat (length st.1) = (st.2 + 3) / 4 /\ Forall is_s32 st.1.
Proof.
  cbv zeta. induction k as [|k IH]; [done|]. rewrite loop_S. destruct (loop k _ _) as [ws N]. cbn [fst snd] in *.
  destruct IH as (HN & Hl & Hw). unfold Base64.parse_step. destruct (negb _); cbn [fst snd]; [|done].
  split; [lia|]. unfold or_byte. split.
  - rewrite length_set_word, Hl by (apply Z.div_pos; lia). Z.div_mod_to_equations; lia.
  - apply set_word_Forall; [unfold is_s32; lia|apply or_s32|done].
Qed.

(** Decoding an encoded array. *)
Lemma parse_stringify w :
  0 <= sigBytes w ->
  let p := Base64.parse (Base64.stringify w) in
  sigBytes p = sigBytes w /\ bytes_of p = bytes_of w /\ clean p /\ Forall is_s32 (words p).
Proof.
  intros Hs. destruct (stringify_chars w Hs) as [p ->]. set (B := byte_at (words (clamp w))).
  set (chars := _ <$> seqZ 0 (nchars (sigBytes w))).
  assert (0 <= nchars (sigBytes w)) as Hn by (unfold nchars; Z.div_mod_to_equations; lia).
  assert (js_len chars = nchars (sigBytes w)) as Hlen.
  { unfold js_len, chars. rewrite length_fmap, length_seqZ. lia. }
  unfold Base64.parse. rewrite index_of_fresh.
  2: { unfold chars. apply Forall_fmap, Forall_forall. intros k _. apply reverse_charAt, sextet_range. }
  assert (default (js_len (chars ++ replicate p Base64.paddingChar))
    (Base64.index_of Base64.paddingChar (replicate p Base64.paddingChar) (0 + js_len chars)) = nchars (sigBytes w)) as ->.
  { destruct p as [|p]; simpl; rewrite ?app_nil_r, ?Hlen; lia. }
  unfold Base64.parseLoop.
  destruct (parse_chars B (fun q => byte_at_range _ q) (chars ++ replicate p Base64.paddingChar)
    (nchars (sigBytes w)) (Z.to_nat (nchars (sigBytes w)))) as [H1 H2]; [|lia|].
  { intros i Hi. rewrite lookup_app_l by (unfold js_len in Hlen; lia). unfold chars.
    rewrite list_lookup_fmap, lookup_seqZ_lt by lia. simpl. rewrite Z2Nat.id by lia. apply reverse_charAt, sextet_range. }
  pose proof (parse_words (chars ++ replicate p Base64.paddingChar) (Z.to_nat (nchars (sigBytes w)))) as (H3 & H4 & H5).
  destruct (loop _ _ _) as [ws N]. cbn [fst snd] in *.
  assert (bytes_in (Z.of_nat (Z.to_nat (nchars (sigBytes w)))) = sigBytes w) as E.
  { unfold bytes_in, nchars. Z.div_mod_to_equations; lia. }
  rewrite E in *. subst N. split; [done|]. split; [|split; [split; [by split|]|done]].
  - unfold bytes_of. cbn [words sigBytes]. apply list_fmap_ext.
    intros k q Hq. apply lookup_seqZ in Hq as [-> Hq]. rewrite H2 by lia. unfold B. rewrite clamp_byte by lia.
    by zbool (0 + Z.of_nat k <? sigBytes w) true.
  - cbn [words sigBytes]. intros q Hq. rewrite H2 by lia. by zbool (q <? sigBytes w) false.
Qed.

(** Decoding an encoded array gives its bytes back, although the decoder ors
    up to twelve bits into place for each byte. *)
Theorem base64_roundtrip w :
  0 <= sigBytes w -> bytes_of (Base64.parse (Base64.stringify w)) = bytes_of w.
Proof. intros Hs. by apply parse_stringify. Qed.

Lemma base64_roundtrip_witness :
  bytes_of (Base64.parse (Base64.stringify (WA [0x68656c6c; 0x6fffffff] 5))) = str "hello".
Proof. rewrite (base64_roundtrip (WA [0x68656c6c; 0x6fffffff] 5)); [reflexivity|simpl; lia]. Defined.

(** * UTF-16 round trip *)

Lemma unit_bits_high x j : unit16 x -> 16 <= j -> Z.testbit x j = false.
Proof.
  unfold unit16. intros Hx Hj. rewrite <- (Z.mod_small x (2 ^ 16)) by lia. apply Z.mod_pow2_bits_high. lia.
Qed.

Lemma unit_ext a b :
  unit16 a -> unit16 b -> (forall j, 0 <= j < 16 -> Z.testbit a j = Z.testbit b j) -> a = b.
Proof.
  intros Ha Hb H. apply Z.bits_inj_iff'. intros j Hj. destruct (decide (j < 16)); [apply H; lia|].
  by rewrite !unit_bits_high by (done || lia).
Qed.

Lemma and_ffff_bits a j : 0 <= j < 16 -> Z.testbit (a &w 0xffff) j = Z.testbit a j.
Proof.
  intros Hj. rewrite and_bits by lia. change 0xffff with (Z.ones 16). by rewrite Z.ones_spec_low, andb_true_r by lia.
Qed.

Lemma code_unit ws i : unit16 (Utf16.code_at ws i).
Proof. unfold Utf16.code_at, unit16. pose proof (and_range (get_word ws (i / 4) >>>w (16 - (i mod 4) * 8)) 0xffff). lia. Qed.

Lemma code_bits ws k j :
  0 <= k -> 0 <= j < 16 ->
  Z.testbit (Utf16.code_at ws (2 * k)) j = Z.testbit (get_word ws (k / 2)) (16 - (k mod 2) * 16 + j).
Proof.
  intros Hk Hj. unfold Utf16.code_at. replace (2 * k / 4) with (k / 2) by (Z.div_mod_to_equations; lia).
  replace ((2 * k) mod 4) with (2 * (k mod 2)) by (Z.div_mod_to_equations; lia).
  pose proof (Z.mod_pos_bound k 2 ltac:(lia)). rewrite and_ffff_bits, ushr_bits by lia.
  zbool (j + (16 - 2 * (k mod 2) * 8) <? 32) true. cbn [andb]. f_equal. lia.
Qed.

(** Writing the half [i] of an array of words. *)
Lemma or_half ws i h x k :
  0 <= i -> 0 <= k -> unit16 x -> Utf16.code_at ws (2 * i) = 0 ->
  (forall j, 0 <= j < 32 -> Z.testbit h j = (16 - (i mod 2) * 16 <=? j) && Z.testbit x (j - (16 - (i mod 2) * 16))) ->
  Utf16.code_at (set_word ws (i / 2) (get_word ws (i / 2) |w h)) (2 * k) =
  if k =? i then x else Utf16.code_at ws (2 * k).
Proof.
  intros Hi Hk Hx Hz Hh. pose proof (Z.mod_pos_bound i 2 ltac:(lia)). pose proof (Z.mod_pos_bound k 2 ltac:(lia)).
  apply unit_ext; [apply code_unit|destruct (k =? i); [done|apply code_unit]|]. intros j Hj.
  rewrite code_bits by lia. rewrite get_set_word by (apply Z.div_pos; lia).
  destruct (Z.eqb_spec (k / 2) (i / 2)) as [E|E].
  2: { assert (k <> i) by (by intros ->). zbool (k =? i) false. by rewrite code_bits by lia. }
  rewrite or_bits, Hh by lia. destruct (Z.eqb_spec k i) as [->|Hne].
  - rewrite <- code_bits, Hz, Z.bits_0 by lia. zbool (16 - i mod 2 * 16 <=? 16 - i mod 2 * 16 + j) true.
    cbn [andb orb]. f_equal. lia.
  - rewrite <- E, <- code_bits by lia.
    assert (k mod 2 <> i mod 2) by (intros Hm; apply Hne; rewrite (Z.div_mod k 2), (Z.div_mod i 2) by lia; lia).
    destruct (Z.leb_spec (16 - i mod 2 * 16) (16 - k mod 2 * 16 + j)); cbn [andb]; [|apply orb_false_r].
    rewrite (unit_bits_high x) by (done || lia). apply orb_false_r.
Qed.

Lemma swapEndian_bits w i :
  0 <= i < 32 -> Z.testbit (Utf16.swapEndian w) i = Z.testbit w (if i mod 16 <? 8 then i + 8 else i - 8).
Proof.
  intros Hi. unfold Utf16.swapEndian. rewrite or_bits, !and_bits, shl_bits, ushr_bits by lia.
  assert (i = Z.of_nat (Z.to_nat i)) as E by lia. assert (Z.to_nat i < 32)%nat as Hk by lia.
  revert E Hk. generalize (Z.to_nat i) as k. intros k -> Hk. clear Hi.
  do 32 (destruct k as [|k]; [cbn; rewrite ?andb_false_r, ?andb_true_r, ?orb_false_r, ?orb_false_l; reflexivity|]).
  lia.
Qed.

Lemma swapEndian_range x : unit16 x -> 0 <= Utf16.swapEndian x < 2 ^ 32.
Proof.
  unfold unit16, Utf16.swapEndian. intros Hx. rewrite shl_mul by lia.
  pose proof (and_range (x >>>w 8) 0xff00ff ltac:(lia)) as Hr. set (r := _ &w 0xff00ff) in *.
  assert (0 <= (x * 2 ^ 8) &w 0xff00ff00 <= x * 2 ^ 8) as Hl.
  { unfold js_and. rewrite (s32_id (x * 2 ^ 8)) by lia. split; [apply Z.land_nonneg; lia|].
    pose proof (Z.add_lor_land (x * 2 ^ 8) (s32 0xff00ff00)). apply Z.ldiff_le; [lia|].
    apply Z.bits_inj_iff'. intros i Hi. rewrite Z.ldiff_spec, Z.land_spec, Z.bits_0.
    by destruct (Z.testbit (x * 2 ^ 8) i), (Z.testbit (s32 0xff00ff00) i). }
  set (l := _ &w 0xff00ff00) in *. unfold js_or. rewrite !s32_id by lia.
  pose proof (Z.add_lor_land l r). pose proof (proj2 (Z.land_nonneg l r) ltac:(lia)).
  pose proof (proj2 (Z.lor_nonneg l r) ltac:(lia)). lia.
Qed.

Lemma swapEndian_unit x : unit16 x -> unit16 (Utf16.swapEndian x) /\ Utf16.swapEndian (Utf16.swapEndian x) = x.
Proof.
  intros Hx. assert (forall x, unit16 x -> unit16 (Utf16.swapEndian x)) as Hu.
  { clear. intros x Hx. pose proof (swapEndian_range x Hx) as Hr.
    assert (Utf16.swapEndian x = Utf16.swapEndian x mod 2 ^ 16) as ->.
    { apply Z.bits_inj_iff'. intros i Hi. destruct (decide (i < 16)); [by rewrite Z.mod_pow2_bits_low by lia|].
      rewrite Z.mod_pow2_bits_high by lia. destruct (decide (i < 32)).
      - rewrite swapEndian_bits by lia. apply unit_bits_high; [done|]. destruct (Z.ltb_spec (i mod 16) 8); [lia|].
        Z.div_mod_to_equations; lia.
      - rewrite <- (u32_id (Utf16.swapEndian x)) by lia. apply u32_bits_high. lia. }
    pose proof (Z.mod_pos_bound (Utf16.swapEndian x) (2 ^ 16)). unfold unit16. lia. }
  split; [by apply Hu|]. apply unit_ext; [by apply Hu, Hu|done|]. intros j Hj.
  rewrite swapEndian_bits by lia. destruct (Z.ltb_spec (j mod 16) 8).
  - rewrite swapEndian_bits by (Z.div_mod_to_equations; lia).
    assert (((j + 8) mod 16 <? 8) = false) as -> by (Z.div_mod_to_equations; lia). f_equal. lia.
  - rewrite swapEndian_bits by (Z.div_mod_to_equations; lia).
    assert (((j - 8) mod 16 <? 8) = true) as -> by (Z.div_mod_to_equations; lia). f_equal. lia.
Qed.

(** An array filled half by half. *)
Lemma halves_fill f (x : Z -> Z) n k :
  (forall i, 0 <= i -> unit16 (x i)) ->
  (forall i j, 0 <= i < Z.of_nat n -> 0 <= j < 32 ->
    Z.testbit (f i) j = (16 - (i mod 2) * 16 <=? j) && Z.testbit (x i) (j - (16 - (i mod 2) * 16))) ->
  0 <= k ->
  Utf16.code_at (loop n (fun i ws => set_word ws (i / 2) (get_word ws (i / 2) |w f i)) []) (2 * k) =
  if k <? Z.of_nat n then x k else 0.
Proof.
  intros Hx Hf. revert k. induction n as [|n IH]; intros k Hk.
  { destruct (Z.ltb_spec k (Z.of_nat 0)); [lia|]. unfold Utf16.code_at, js_ushr. cbn [loop].
    change (get_word [] (2 * k / 4)) with 0. change (u32 0) with 0. by rewrite Z.shiftr_0_l. }
  assert (forall k, 0 <= k -> _) as IH' by (intros k' Hk'; apply (IH ltac:(intros; apply Hf; lia) k' Hk')).
  rewrite loop_S, (or_half _ _ _ (x (Z.of_nat n))); [|lia|lia|apply Hx; lia| |].
  - rewrite IH' by lia. destruct (Z.eqb_spec k (Z.of_nat n)) as [->|].
    + by zbool (Z.of_nat n <? Z.of_nat (S n)) true.
    + destruct (Z.ltb_spec k (Z.of_nat n)).
      * by zbool (k <? Z.of_nat (S n)) true.
      * by zbool (k <? Z.of_nat (S n)) false.
  - rewrite IH' by lia. by zbool (Z.of_nat n <? Z.of_nat n) false.
  - intros j Hj. apply Hf; lia.
Qed.

Lemma stringify_halves (g : Z -> Z) n s :
  length s = n -> (forall i, 0 <= i < Z.of_nat n -> s !! Z.to_nat i = Some (g i)) ->
  loop n (fun k cs => cs ++ [g k]) [] = s.
Proof.
  intros <- Hg. assert (forall n, (n <= length s)%nat -> loop n (fun k cs => cs ++ [g k]) [] = take n s) as H.
  { induction n as [|n IH]; intros Hn; [done|]. rewrite loop_S, IH by lia.
    rewrite (take_S_r s n (g (Z.of_nat n))); [done|]. rewrite <- Hg by lia. by rewrite Nat2Z.id. }
  rewrite H by lia. by rewrite firstn_all.
Qed.

Lemma unit_default s i : Forall unit16 s -> unit16 (default 0 (s !! Z.to_nat i)).
Proof.
  intros Hs. destruct (s !! Z.to_nat i) as [x|] eqn:E; simpl; [|unfold unit16; lia].
  by apply (Forall_lookup_1 _ _ _ _ Hs E).
Qed.

Lemma swapped_half i x j :
  unit16 x -> 0 <= j < 32 ->
  Z.testbit (Utf16.swapEndian (x <<w (16 - (i mod 2) * 16))) j =
  (16 - (i mod 2) * 16 <=? j) && Z.testbit (Utf16.swapEndian x) (j - (16 - (i mod 2) * 16)).
Proof.
  intros Hx Hj. pose proof (Z.mod_pos_bound i 2 ltac:(lia)). assert (i mod 2 = 0 \/ i mod 2 = 1) as Hm by lia.
  rewrite swapEndian_bits by lia. rewrite shl_bits by (destruct (j mod 16 <? 8) eqn:E; Z.div_mod_to_equations; lia).
  pose proof (Z.div_mod j 16 ltac:(lia)). pose proof (Z.mod_pos_bound j 16 ltac:(lia)).
  destruct Hm as [-> | ->].
  - change (16 - 0 * 16) with 16. destruct (Z.leb_spec 16 j); cbn [andb].
    + rewrite swapEndian_bits by lia. assert ((j - 16) mod 16 = j mod 16) as -> by (Z.div_mod_to_equations; lia).
      destruct (Z.ltb_spec (j mod 16) 8); [zbool (16 <=? j + 8) true|zbool (16 <=? j - 8) true];
        cbn [andb]; f_equal; lia.
    + destruct (Z.ltb_spec (j mod 16) 8); [zbool (16 <=? j + 8) false|zbool (16 <=? j - 8) false]; done.
  - change (16 - 1 * 16) with 0. zbool (0 <=? j) true. cbn [andb]. rewrite !Z.sub_0_r, swapEndian_bits by lia.
    destruct (Z.ltb_spec (j mod 16) 8); [zbool (0 <=? j + 8) true|zbool (0 <=? j - 8) true];
      done.
Qed.

(** Both UTF-16 codecs give every string back. *)
Theorem utf16_roundtrip s :
  Forall unit16 s ->
  Utf16.stringifyBE (Utf16.parseBE s) = s /\ Utf16.stringifyLE (Utf16.parseLE s) = s.
Proof.
  intros Hs.
  assert (Z.to_nat ((js_len s * 2 + 1) / 2) = length s) as E by (unfold js_len; Z.div_mod_to_equations; lia).
  assert (forall i, 0 <= i < Z.of_nat (length s) -> s !! Z.to_nat i = Some (default 0 (s !! Z.to_nat i))) as Hget.
  { intros i Hi. destruct (lookup_lt_is_Some_2 s (Z.to_nat i)) as [x Hx]; [lia|]. by rewrite Hx. }
  split.
  - unfold Utf16.stringifyBE, Utf16.parseBE. cbn [sigBytes words]. rewrite E.
    apply stringify_halves; [done|]. intros i Hi.
    rewrite (halves_fill _ (fun i => default 0 (s !! Z.to_nat i))); [|intros; by apply unit_default| |lia].
    + zbool (i <? Z.of_nat (length s)) true. by apply Hget.
    + intros k j Hk Hj. pose proof (Z.mod_pos_bound k 2 ltac:(lia)). by rewrite shl_bits by lia.
  - unfold Utf16.stringifyLE, Utf16.parseLE. cbn [sigBytes words]. rewrite E.
    apply stringify_halves; [done|]. intros i Hi.
    rewrite (halves_fill _ (fun i => Utf16.swapEndian (default 0 (s !! Z.to_nat i))));
      [|intros; by apply swapEndian_unit, unit_default| |lia].
    + zbool (i <? Z.of_nat (length s)) true. rewrite (proj2 (swapEndian_unit _ (unit_default s i Hs))). by apply Hget.
    + intros k j Hk Hj. apply swapped_half; [by apply unit_default|done].
Qed.

Lemma utf16_roundtrip_witness :
  Utf16.stringifyBE (Utf16.parseBE [0x20AC; 0x68; 0xD83D]) = [0x20AC; 0x68; 0xD83D] /\
  Utf16.stringifyLE (Utf16.parseLE [0x20AC; 0x68; 0xD83D]) = [0x20AC; 0x68; 0xD83D].
Proof. apply utf16_roundtrip. repeat constructor; unfold unit16; lia. Defined.

(** UTF-8 through a word array. *)
Lemma utf8_words s :
  Forall unit16 s ->
  match Utf8_parse s with
  | Some w => Utf8_stringify w = Some s
  | None => Exists (fun c => lone_surrogate c = true) (ucs2decode s)
  end.
Proof.
  intros Hs. unfold Utf8_parse, Utf8_stringify. destruct (ucs2_units s Hs) as [Hr Hu].
  destruct (utf8encode s) as [bs|] eqn:E; cbn [fmap option_fmap option_map]; [|by apply encode_all_none].
  destruct (encode_all_decode _ bs (S (length bs)) Hr E ltac:(lia)) as [Hb Hd].
  rewrite Latin1_parse_of_bytes, Latin1_stringify_bytes, of_bytes_id by done.
  unfold utf8decode. rewrite ucs2_bytes by done. rewrite Hd. simpl. by rewrite Hu.
Qed.
