(* ===== verification/Kdf.v ===== *)
(** Keyed hashes and key derivation of the bundled crypto-js: HMAC (web3.js
    9139-9250), PBKDF2 (10213-10302) and EvpKDF (8940-9016), over any hasher.
    They compute RFC 2104's and RFC 2898's functions of the bytes. *)
From Stdlib Require Import ZArith Lia.
From S2P Require Import Prelude Words WordArray Hasher.
Open Scope Z_scope.
Open Scope word_scope.

(** * HMAC *)

Record hmac (S : Type) := Hmac { _hasher : hasher S; _oKey : wordarray; _iKey : wordarray }.
Arguments Hmac {S}.
Arguments _hasher {S}.
Arguments _oKey {S}.
Arguments _iKey {S}.

(** [for (i < n) words[i] ^= c(i)] *)
Definition xor_words (n : nat) (c : Z -> Z) (ws : list Z) : list Z :=
  loop n (fun i ws => set_word ws i (get_word ws i ^w c i)) ws.

(** The loop of the key derivations, [while (derivedKeyWords.length < keySize)]:
    [step] gives the next block. Each turn adds at least a word, so [keySize]
    turns are enough. *)
Fixpoint derive_loop {X} (fuel : nat) (keySize : Z) (step : X -> wordarray * X) (x : X) (derivedKey : wordarray) :
    wordarray :=
  match fuel with
  | O => derivedKey
  | S fuel =>
      if Z.of_nat (length (words derivedKey)) <? keySize then
        let '(block, x) := step x in derive_loop fuel keySize step x (concat derivedKey block)
      else derivedKey
  end.
Definition derive {X} (keySize : Z) (step : X -> wordarray * X) (x : X) : wordarray :=
  WA (words (derive_loop (Z.to_nat keySize) keySize step x wa_empty)) (keySize * 4).

Section Definitions.
Context {S : Type} `{Algorithm S}.

Definition hmac_reset (h : hmac S) : hmac S :=
  Hmac (update (_iKey h) reset) (_oKey h) (_iKey h).

Definition hmac_init (key : wordarray) : hmac S :=
  let hasherBlockSizeBytes := blockSize * 4 in
  let key := if hasherBlockSizeBytes <? sigBytes key then finalize (Some key) reset else key in
  let key := clamp key in
  let n := Z.to_nat blockSize in
  hmac_reset (Hmac reset (WA (xor_words n (fun _ => 0x5c5c5c5c) (words key)) hasherBlockSizeBytes)
                         (WA (xor_words n (fun _ => 0x36363636) (words key)) hasherBlockSizeBytes)).

Definition hmac_update (d : wordarray) (h : hmac S) : hmac S :=
  Hmac (update d (_hasher h)) (_oKey h) (_iKey h).

(** The hasher is left reset and finalized, as in the code. *)
Definition hmac_finalize (d : wordarray) (h : hmac S) : wordarray :=
  let innerHash := finalize (Some d) (_hasher h) in
  finalize (Some (concat (_oKey h) innerHash)) reset.

(** * PBKDF2 *)

(** One block: [iterations - 1] further HMACs are xored into it. *)
Definition pbkdf2_block (h : hmac S) (salt : wordarray) (iterations blockIndex : Z) : wordarray :=
  let block := hmac_finalize (wa_init [blockIndex]) (hmac_update salt h) in
  let '(ws, _) := loop (Z.to_nat (iterations - 1)) (fun _ st =>
      let '(ws, intermediate) := st in
      let intermediate := hmac_finalize intermediate h in
      (xor_words (length (words block)) (get_word (words intermediate)) ws,
       intermediate)) (words block, block) in
  WA ws (sigBytes block).

(** [h] is the HMAC after [hmac.reset()]. *)
Definition pbkdf2 (keySize iterations : Z) (password salt : wordarray) : wordarray :=
  let h := hmac_init password in
  derive keySize (fun blockIndex => (pbkdf2_block h salt iterations blockIndex, blockIndex + 1)) 1.

(** * EvpKDF *)

Definition evpkdf_block (iterations : Z) (password salt : wordarray) (block : option wordarray) : wordarray :=
  let h := match block with Some b => update b reset | None => reset end in
  let block := finalize (Some salt) (update password h) in
  loop (Z.to_nat (iterations - 1)) (fun _ b => finalize (Some b) reset) block.
Definition evpkdf (keySize iterations : Z) (password salt : wordarray) : wordarray :=
  derive keySize (fun block => let b := evpkdf_block iterations password salt block in (b, Some b)) None.
End Definitions.

(** * Word arrays of whole words *)

Lemma concat_clean_words a b :
  0 <= sigBytes a -> sigBytes a mod 4 = 0 -> 0 <= sigBytes b -> sigBytes b mod 4 = 0 -> clean (concat a b).
Proof.
  intros Ha Ha4 Hb Hb4. pose proof (concat_sized a b Ha Hb) as Hsz. split; [done|]. intros q Hq.
  apply byte_at_beyond. destruct Hsz as [_ ->]. change (sigBytes (concat a b)) with (sigBytes a + sigBytes b) in *.
  Z.div_mod_to_equations; lia.
Qed.

Lemma xor_words_get n c ws i :
  0 <= i -> get_word (xor_words n c ws) i = if i <? Z.of_nat n then get_word ws i ^w c i else get_word ws i.
Proof.
  intros Hi. unfold xor_words. induction n as [|n IH].
  { cbn [loop]. by zbool (i <? Z.of_nat 0) false. }
  rewrite loop_S, get_set_word by lia. destruct (Z.eqb_spec i (Z.of_nat n)) as [->|Hne].
  - rewrite IH. zbool (Z.of_nat n <? Z.of_nat n) false. by zbool (Z.of_nat n <? Z.of_nat (Datatypes.S n)) true.
  - rewrite IH. destruct (Z.ltb_spec i (Z.of_nat n)).
    + by zbool (i <? Z.of_nat (Datatypes.S n)) true.
    + by zbool (i <? Z.of_nat (Datatypes.S n)) false.
Qed.

Lemma xor_words_length n c ws : length (xor_words n c ws) = Nat.max n (length ws).
Proof.
  unfold xor_words. assert (forall k, length (loop k (fun i ws => set_word ws i (get_word ws i ^w c i)) ws) = Nat.max k (length ws)) as Hk.
  { induction k as [|k IH]; [done|]. rewrite loop_S.
    match goal with |- context [set_word ?w ?i ?v] => pose proof (length_set_word w i v ltac:(lia)) as E end.
    rewrite IH in E by lia. lia. }
  apply Hk.
Qed.

(** The words that count of an array of whole words. *)
Definition whole (d : wordarray) : wordarray := WA (take (Z.to_nat (sigBytes d / 4)) (words d)) (sigBytes d).
Definition whole_words (d : wordarray) : Prop :=
  0 <= sigBytes d /\ sigBytes d mod 4 = 0 /\ sigBytes d <= 4 * Z.of_nat (length (words d)).

Lemma whole_get d i : 0 <= i < sigBytes d / 4 -> get_word (words (whole d)) i = get_word (words d) i.
Proof. intros Hi. unfold whole, get_word. cbn [words]. by rewrite lookup_take_lt by lia. Qed.

Lemma whole_byte d q :
  whole_words d -> 0 <= q < sigBytes d -> byte_at (words (whole d)) q = byte_at (words d) q.
Proof.
  intros (Hs & Hm & _) Hq. unfold byte_at. by rewrite whole_get by (Z.div_mod_to_equations; lia).
Qed.

Lemma whole_clean d : whole_words d -> clean (whole d) /\ bytes_of (whole d) = bytes_of d.
Proof.
  intros Hd. pose proof Hd as (Hs & Hm & Hl).
  assert (Z.of_nat (length (words (whole d))) = sigBytes d / 4) as Hlen.
  { unfold whole. cbn [words]. rewrite length_take. Z.div_mod_to_equations; lia. }
  split; [split; [split|]|].
  - exact Hs.
  - rewrite Hlen. change (sigBytes (whole d)) with (sigBytes d). Z.div_mod_to_equations; lia.
  - intros q Hq. change (sigBytes (whole d)) with (sigBytes d) in Hq. apply byte_at_beyond. rewrite Hlen.
    Z.div_mod_to_equations; lia.
  - unfold bytes_of. change (sigBytes (whole d)) with (sigBytes d). apply list_fmap_ext.
    intros k q Hq. apply lookup_seqZ in Hq as [-> Hq]. apply whole_byte; [done|lia].
Qed.

Lemma concat_whole a d : whole_words d -> concat a d = concat a (whole d).
Proof.
  intros Hd. pose proof Hd as (Hs & Hm & _). unfold concat. change (sigBytes (whole d)) with (sigBytes d).
  cbv zeta. f_equal. destruct (negb _); apply loop_ext; intros i ws Hi.
  - by rewrite whole_byte by (done || lia).
  - by rewrite whole_get by (Z.div_mod_to_equations; lia).
Qed.

(** Xor with a word of four equal bytes. *)
Lemma byte_xor w c n :
  0 <= n < 4 -> ((w ^w c) >>>w (24 - n * 8)) &w 0xff =
    Z.lxor ((w >>>w (24 - n * 8)) &w 0xff) ((c >>>w (24 - n * 8)) &w 0xff).
Proof.
  intros Hn. assert (forall w, is_byte ((w >>>w (24 - n * 8)) &w 0xff)) as Hb.
  { intros v. pose proof (and_range (v >>>w (24 - n * 8)) 0xff). unfold is_byte. lia. }
  apply Z.bits_inj_iff'. intros j Hj. rewrite Z.lxor_spec. destruct (decide (j < 8)).
  - rewrite !and_bits, !ushr_bits, testbit_255 by lia. zbool (j <? 8) true.
    zbool (j + (24 - n * 8) <? 32) true. cbn [andb]. rewrite xor_bits, !andb_true_r by lia. done.
  - by rewrite !byte_bits_high by (apply Hb || lia).
Qed.

(** [n] blocks of [ds] bytes, and the loop that collects them. *)
Fixpoint unfold_blocks {X} (n : nat) (step : X -> list Z * X) (x : X) : list Z :=
  match n with
  | O => []
  | S n => let '(b, x) := step x in b ++ unfold_blocks n step x
  end.

Section Derive.
Context {X Y : Type} (step : X -> wordarray * X) (spec : Y -> list Z * Y) (R : X -> Y -> Prop) (ds : Z).
Hypothesis ds_pos : 4 <= ds.
Hypothesis ds_words : ds mod 4 = 0.
Hypothesis step_spec : forall x y, R x y ->
  whole_words (step x).1 /\ sigBytes (step x).1 = ds /\
  bytes_of (step x).1 = (spec y).1 /\ R (step x).2 (spec y).2.

Lemma derive_loop_blocks fuel keySize x y dk :
  R x y -> clean dk -> sigBytes dk mod ds = 0 -> keySize <= Z.of_nat fuel + sigBytes dk / 4 ->
  let need := Z.to_nat ((4 * keySize - sigBytes dk + ds - 1) / ds) in
  let r := derive_loop fuel keySize step x dk in
  whole_words r /\ 4 * keySize <= sigBytes r /\ bytes_of r = bytes_of dk ++ unfold_blocks need spec y.
Proof using ds_pos ds_words step_spec.
  revert x y dk. induction fuel as [|fuel IH]; intros x y dk Hxy Hdk Hmod Hf; cbv zeta.
  all: pose proof Hdk as [[Hs Hl] _].
  all: assert (sigBytes dk mod 4 = 0) as Hm4
    by (rewrite (Z.div_mod (sigBytes dk) ds), Hmod by lia; rewrite (Z.div_mod ds 4), ds_words by lia;
        replace ((4 * (ds / 4) + 0) * (sigBytes dk / (4 * (ds / 4) + 0)) + 0) with
          ((ds / 4) * (sigBytes dk / (4 * (ds / 4) + 0)) * 4) by lia; by rewrite Z.mod_mul).
  all: assert (whole_words dk) as Hw by (split; [done|split; [done|rewrite Hl; Z.div_mod_to_equations; lia]]).
  - cbn [derive_loop]. assert (4 * keySize <= sigBytes dk) by (Z.div_mod_to_equations; lia).
    split; [done|]. split; [done|]. replace (Z.to_nat _) with 0%nat; [by rewrite app_nil_r|].
    assert ((4 * keySize - sigBytes dk + ds - 1) / ds <= 0); [|lia].
    apply Z.lt_succ_r, Z.div_lt_upper_bound; lia.
  - cbn [derive_loop]. rewrite Hl. destruct (Z.ltb_spec ((sigBytes dk + 3) / 4) keySize).
    + destruct (step_spec x y Hxy) as (Hb & Hbs & Hbb & Hxy'). destruct (step x) as [b x']. cbn [fst snd] in *.
      pose proof Hb as (Hb0 & Hb4 & _).
      assert (clean (concat dk b)) as Hc by (by apply concat_clean_words).
      destruct (IH x' (spec y).2 (concat dk b) Hxy' Hc) as (H1 & H2 & H3).
      { change (sigBytes (concat dk b)) with (sigBytes dk + sigBytes b). rewrite Hbs.
        replace (sigBytes dk + ds) with (sigBytes dk + 1 * ds) by lia. by rewrite Z.mod_add by lia. }
      { change (sigBytes (concat dk b)) with (sigBytes dk + sigBytes b). rewrite Hbs. Z.div_mod_to_equations; lia. }
      split; [done|]. split; [done|]. rewrite H3, concat_bytes, Hbb by done.
      change (sigBytes (concat dk b)) with (sigBytes dk + sigBytes b). rewrite Hbs, <- app_assoc. f_equal.
      assert (4 * keySize - sigBytes dk > 0) by (Z.div_mod_to_equations; lia).
      replace ((4 * keySize - sigBytes dk + ds - 1) / ds) with
        ((4 * keySize - (sigBytes dk + ds) + ds - 1) / ds + 1).
      2: { rewrite <- Z.div_add by lia. f_equal. lia. }
      rewrite Z2Nat.inj_add by (try apply Z.div_pos; lia). rewrite Nat.add_1_r. cbn [unfold_blocks].
      by destruct (spec y).
    + assert (4 * keySize <= sigBytes dk) by (Z.div_mod_to_equations; lia).
      split; [done|]. split; [done|]. replace (Z.to_nat _) with 0%nat; [by rewrite app_nil_r|].
      assert ((4 * keySize - sigBytes dk + ds - 1) / ds <= 0); [|lia].
      apply Z.lt_succ_r, Z.div_lt_upper_bound; lia.
Qed.

(** The derived key is the beginning of the blocks. *)
Lemma derive_blocks keySize x y :
  0 <= keySize -> R x y ->
  bytes_of (derive keySize step x) =
  take (Z.to_nat (4 * keySize)) (unfold_blocks (Z.to_nat ((4 * keySize + ds - 1) / ds)) spec y).
Proof using ds_pos ds_words step_spec.
  intros Hk Hxy. destruct (derive_loop_blocks (Z.to_nat keySize) keySize x y wa_empty Hxy) as ((Hs & Hm & Hl) & H2 & H3).
  - apply (of_bytes_clean []). done.
  - done.
  - change (sigBytes wa_empty) with 0. rewrite Z.div_0_l by lia. lia.
  - change (sigBytes wa_empty) with 0 in *. rewrite Z.sub_0_r in H3. change (bytes_of wa_empty) with (@nil Z) in H3.
    rewrite app_nil_l in H3. rewrite <- H3. unfold derive.
    set (r := derive_loop _ _ _ _ _) in *. apply bytes_eq; cbn [words sigBytes]; [lia|rewrite length_take, bytes_length; lia|].
    intros i Hi. rewrite lookup_take_lt by lia. apply lookup_bytes. lia.
Qed.
End Derive.

(** * RFC 2104 *)

Section Correctness.
Context {S : Type} {A : Algorithm S} {AL : AlgorithmLaws S} {DL : DigestLaws S}.

(** The hash of some bytes, as bytes. *)
Definition H (m : list Z) : list Z := bytes_of (digest m).

Definition hmac_key (k : list Z) : list Z :=
  let k := if blockSize * 4 <? Z.of_nat (length k) then H k else k in
  k ++ replicate (Z.to_nat (blockSize * 4) - length k) 0.
Definition hmac_message (k m : list Z) : list Z :=
  (Z.lxor 0x5c <$> hmac_key k) ++ H ((Z.lxor 0x36 <$> hmac_key k) ++ m).
Definition hmac_spec (k m : list Z) : list Z := H (hmac_message k m).

Lemma H_length m : Z.of_nat (length (H m)) = digestSize.
Proof using DL.
  unfold H. rewrite bytes_length. destruct (digest_size m) as [-> _]. pose proof digestSize_range. lia.
Qed.

Lemma H_valid m : Forall is_byte (H m).
Proof using Type. apply bytes_valid. Qed.

Lemma pad_key c b key :
  0 <= sigBytes key <= blockSize * 4 -> is_byte b ->
  (forall n, 0 <= n < 4 -> (c >>>w (24 - n * 8)) &w 0xff = b) ->
  let k := WA (xor_words (Z.to_nat blockSize) (fun _ => c) (words (clamp key))) (blockSize * 4) in
  clean k /\ bytes_of k =
    Z.lxor b <$> (bytes_of key ++ replicate (Z.to_nat (blockSize * 4) - length (bytes_of key)) 0).
Proof using AL.
  intros Hs Hb Hc k. pose proof blockSize_pos.
  assert (length (words k) = Z.to_nat blockSize) as Hl.
  { unfold k. cbn [words]. rewrite xor_words_length. pose proof (clamp_sized key ltac:(lia)). Z.div_mod_to_equations; lia. }
  split.
  - split; [split|]; cbn [k sigBytes]; [lia|rewrite Hl; Z.div_mod_to_equations; lia|].
    intros q Hq. apply byte_at_beyond. rewrite Hl. lia.
  - apply bytes_eq; cbn [k sigBytes].
    + lia.
    + rewrite length_fmap, length_app, length_replicate, bytes_length. lia.
    + intros q Hq. pose proof (div_4_bounds q). pose proof (Z.mod_pos_bound q 4 ltac:(lia)).
      assert (byte_at (words k) q = Z.lxor b (byte_at (words (clamp key)) q)) as ->.
      { unfold byte_at at 1. unfold k. cbn [words]. rewrite xor_words_get by lia.
        zbool (q / 4 <? Z.of_nat (Z.to_nat blockSize)) true. rewrite byte_xor, Hc by lia. apply Z.lxor_comm. }
      rewrite list_lookup_fmap, clamp_byte by lia. destruct (Z.ltb_spec q (sigBytes key)).
      * rewrite lookup_app_l by (rewrite bytes_length; lia). by rewrite lookup_bytes by lia.
      * rewrite lookup_app_r by (rewrite bytes_length; lia). rewrite lookup_replicate_2; [done|].
        rewrite !bytes_length. lia.
Qed.

(** The key of the code, hashed when it is too long. *)
Lemma hashed_key key :
  clean key -> sigBytes key < 2 ^ 28 ->
  let k := if blockSize * 4 <? sigBytes key then finalize (Some key) reset else key in
  0 <= sigBytes k <= blockSize * 4 /\
  bytes_of k ++ replicate (Z.to_nat (blockSize * 4) - length (bytes_of k)) 0 = hmac_key (bytes_of key).
Proof using AL DL.
  intros Hk Hsz. cbv zeta. unfold hmac_key. pose proof Hk as [[Hs _] _].
  assert (Z.of_nat (length (bytes_of key)) = sigBytes key) as -> by (rewrite bytes_length; lia).
  destruct (Z.ltb_spec (blockSize * 4) (sigBytes key)); [|by split; [lia|]].
  rewrite (finalize_digest reset [] key given_reset Hk) by (simpl; rewrite bytes_length; lia). simpl app.
  destruct (digest_size (bytes_of key)) as [E _]. pose proof digestSize_range. rewrite E. split; [lia|done].
Qed.

Lemma hmac_keys key :
  clean key -> sigBytes key < 2 ^ 28 ->
  let h := hmac_init key in
  _hasher h = update (_iKey h) reset /\ clean (_iKey h) /\ clean (_oKey h) /\
  sigBytes (_oKey h) = blockSize * 4 /\ sigBytes (_iKey h) = blockSize * 4 /\
  bytes_of (_iKey h) = Z.lxor 0x36 <$> hmac_key (bytes_of key) /\
  bytes_of (_oKey h) = Z.lxor 0x5c <$> hmac_key (bytes_of key).
Proof using AL DL.
  intros Hk Hsz. destruct (hashed_key key Hk Hsz) as [Hr E]. unfold hmac_init, hmac_reset. cbv zeta.
  cbn [_hasher _oKey _iKey sigBytes]. set (k := if _ <? _ then _ else key) in *.
  assert (forall c n, 0 <= n < 4 -> c ∈ [0x36; 0x5c] -> ((c * 0x1010101) >>>w (24 - n * 8)) &w 0xff = c) as Hc.
  { intros c n Hn Hin. rewrite !elem_of_cons, elem_of_nil in Hin.
    assert (n = 0 \/ n = 1 \/ n = 2 \/ n = 3) as Hn' by lia. destruct_or! Hin; destruct_or! Hn'; subst; reflexivity || done. }
  destruct (pad_key 0x36363636 0x36 k Hr) as [Hi1 Hi2]; [unfold is_byte; lia|intros; apply (Hc 0x36); [lia|set_solver]|].
  destruct (pad_key 0x5c5c5c5c 0x5c k Hr) as [Ho1 Ho2]; [unfold is_byte; lia|intros; apply (Hc 0x5c); [lia|set_solver]|].
  rewrite <- E. done.
Qed.

(** HMAC of a message that arrives in updates. *)
Lemma hmac_updates key ds d :
  clean key -> sigBytes key < 2 ^ 28 -> Forall clean ds -> clean d ->
  blockSize * 4 + Z.of_nat (length ((ds ≫= bytes_of) ++ bytes_of d)) < 2 ^ 28 - 64 ->
  hmac_finalize d (fold_left (fun h d => hmac_update d h) ds (hmac_init key)) =
  digest (hmac_message (bytes_of key) ((ds ≫= bytes_of) ++ bytes_of d)).
Proof using AL DL.
  intros Hk Hsz Hds Hd Hlen. destruct (hmac_keys key Hk Hsz) as (Eh & Hi & Ho & So & Si & Bi & Bo).
  set (h := hmac_init key) in *. pose proof blockSize_pos. pose proof digestSize_range. pose proof digestSize_words.
  assert (forall ds h, _hasher (fold_left (fun h d => hmac_update d h) ds h) =
            fold_left (fun h d => update d h) ds (_hasher h) /\
          _oKey (fold_left (fun h d => hmac_update d h) ds h) = _oKey h) as Hf.
  { clear. induction ds as [|d ds IH]; intros h; [done|]. cbn [fold_left]. destruct (IH (hmac_update d h)) as [-> ->]. done. }
  destruct (Hf ds h) as [Eh' Eo]. unfold hmac_finalize. rewrite Eh', Eo, Eh.
  set (I := Z.lxor 0x36 <$> hmac_key (bytes_of key)) in *. set (m := (ds ≫= bytes_of) ++ bytes_of d) in *.
  assert (Z.of_nat (length I) = blockSize * 4) as HI by (rewrite <- Bi, bytes_length; lia).
  assert (given (update (_iKey h) reset) I) as Hg.
  { rewrite <- Bi. apply (given_update reset [] _ given_reset Hi). }
  pose proof (given_updates ds _ _ Hg Hds) as Hg'.
  assert (finalize (Some d) (fold_left (fun h d => update d h) ds (update (_iKey h) reset)) = digest (I ++ m)) as ->.
  { rewrite (finalize_digest _ _ d Hg' Hd); unfold m; rewrite <- app_assoc; [done|].
    rewrite length_app. fold m. lia. }
  destruct (digest_size (I ++ m)) as [E _].
  rewrite (finalize_digest reset [] _ given_reset).
  - unfold hmac_message. rewrite app_nil_l. rewrite concat_bytes, Bo by (rewrite ?So, ?E; lia). done.
  - apply concat_clean_words; rewrite ?So, ?E; try lia. by rewrite Z.mod_mul.
  - rewrite app_nil_l. rewrite bytes_length. change (sigBytes (concat _ _)) with (sigBytes (_oKey h) + sigBytes (digest (I ++ m))).
    rewrite E, So. lia.
Qed.

(** * RFC 2898 *)

Lemma digest_whole m : whole_words (digest m).
Proof using DL.
  destruct (digest_size m) as [E Hl]. pose proof digestSize_range. pose proof digestSize_words.
  split; [|split]; rewrite E; lia || done.
Qed.

Lemma finalize_whole d h : whole_words d -> finalize (Some d) h = finalize (Some (whole d)) h.
Proof using Type. intros Hd. unfold finalize, _append. by rewrite concat_whole. Qed.
Lemma update_whole d h : whole_words d -> update d h = update (whole d) h.
Proof using Type. intros Hd. unfold update, _append. by rewrite concat_whole. Qed.


Definition xor_bytes (a b : list Z) : list Z := zip_with Z.lxor a b.
(** The number of bytes of a digest. *)
Definition hash_size : Z := sigBytes (digest []).
Lemma hash_size_eq : hash_size = digestSize.
Proof using DL. apply (digest_size []). Qed.

(** The iterated function of a block: [F(P, S, c, i)]. *)
Definition pbkdf2_F (P S : list Z) (c i : Z) : list Z :=
  let u := hmac_spec P (S ++ be32 i) in
  (loop (Z.to_nat (c - 1)) (fun _ st => let u := hmac_spec P st.2 in (xor_bytes st.1 u, u)) (u, u)).1.
Definition pbkdf2_spec (P S : list Z) (c keySize : Z) : list Z :=
  take (Z.to_nat (4 * keySize))
    (unfold_blocks (Z.to_nat ((4 * keySize + hash_size - 1) / hash_size)) (fun i => (pbkdf2_F P S c i, i + 1)) 1).

(** Further HMACs of a digest. *)
Lemma hmac_again key m :
  clean key -> sigBytes key < 2 ^ 28 -> blockSize * 4 < 2 ^ 27 ->
  hmac_finalize (digest m) (hmac_init key) = digest (hmac_message (bytes_of key) (H m)).
Proof using AL DL.
  intros Hk Hsz Hbs. pose proof (digest_whole m) as Hw. destruct (whole_clean _ Hw) as [Hc Hb].
  unfold hmac_finalize. rewrite (finalize_whole _ _ Hw). fold (hmac_finalize (whole (digest m)) (hmac_init key)).
  rewrite (hmac_updates key [] (whole (digest m)) Hk Hsz) by (done || (simpl; rewrite bytes_length;
    change (sigBytes (whole (digest m))) with (sigBytes (digest m)); destruct (digest_size m) as [-> _];
    pose proof digestSize_range; lia)).
  simpl. by rewrite Hb.
Qed.

Lemma xor_words_bytes n (v w : wordarray) :
  sigBytes w <= sigBytes v -> sigBytes w <= 4 * Z.of_nat n ->
  bytes_of (WA (xor_words n (get_word (words v)) (words w)) (sigBytes w)) = xor_bytes (bytes_of w) (bytes_of v).
Proof using Type.
  intros Hwv Hn. destruct (decide (sigBytes w < 0)).
  { unfold bytes_of, xor_bytes. cbn [sigBytes]. by rewrite (seqZ_nil _ (sigBytes w)) by lia. }
  apply bytes_eq; cbn [words sigBytes]; [lia|unfold xor_bytes; rewrite length_zip_with, !bytes_length; lia|].
  intros q Hq. unfold xor_bytes. rewrite lookup_zip_with, !lookup_bytes by lia. simpl. f_equal.
  pose proof (div_4_bounds q). pose proof (Z.mod_pos_bound q 4 ltac:(lia)).
  unfold byte_at at 3. rewrite xor_words_get by lia. zbool (q / 4 <? Z.of_nat n) true. by rewrite byte_xor by lia.
Qed.

Lemma pbkdf2_block_spec key salt c i :
  clean key -> sigBytes key < 2 ^ 28 -> clean salt -> sigBytes salt < 2 ^ 27 -> blockSize * 4 < 2 ^ 26 ->
  let b := pbkdf2_block (hmac_init key) salt c i in
  whole_words b /\ sigBytes b = digestSize /\ bytes_of b = pbkdf2_F (bytes_of key) (bytes_of salt) c i.
Proof using AL DL.
  intros Hk Hsz Hs Hss Hbs. cbv zeta. unfold pbkdf2_block, pbkdf2_F. set (h := hmac_init key).
  assert (clean (wa_init [i])) as Hi.
  { split; [split|]; cbn; [lia|done|]. intros q Hq. apply byte_at_beyond. simpl. lia. }
  assert (bytes_of (wa_init [i]) = be32 i) as Ei by (unfold wa_init; rewrite words_bytes; simpl; [done|lia]).
  assert (hmac_finalize (wa_init [i]) (hmac_update salt h) =
          digest (hmac_message (bytes_of key) (bytes_of salt ++ be32 i))) as E0.
  { pose proof Hs as [[Hs0 _] _].
    assert (([salt] ≫= bytes_of) ++ bytes_of (wa_init [i]) = bytes_of salt ++ be32 i) as Em
      by (rewrite bind_singleton, Ei; done).
    rewrite <- Em. apply (hmac_updates key [salt] (wa_init [i])); [done|done|by apply Forall_singleton|done|].
    rewrite Em, length_app, bytes_length. simpl. lia. }
  cbv zeta. rewrite E0. set (m := hmac_message _ _). change (hmac_spec (bytes_of key) (bytes_of salt ++ be32 i)) with (H m).
  destruct (digest_size m) as [Em Hlm].
  assert (forall k, exists ws m',
    loop k (fun _ st => let '(ws, inter) := st in let inter := hmac_finalize inter h in
      (xor_words (length (words (digest m))) (get_word (words inter)) ws, inter)) (words (digest m), digest m) = (ws, digest m') /\
    (length (words (digest m)) <= length ws)%nat /\
    loop k (fun _ st => let u := hmac_spec (bytes_of key) st.2 in (xor_bytes st.1 u, u)) (H m, H m) =
      (bytes_of (WA ws digestSize), H m')) as Hloop.
  { induction k as [|k (ws & m' & E1 & Hl & E2)].
    - exists (words (digest m)), m. split; [done|]. split; [done|]. cbn [loop].
      replace (WA (words (digest m)) digestSize) with (digest m); [done|]. rewrite <- Em. by destruct (digest m).
    - rewrite !loop_S, E1, E2. cbv zeta. cbn [fst snd]. unfold h. rewrite hmac_again by (done || lia).
      eexists _, _. split; [reflexivity|]. rewrite xor_words_length. split; [lia|].
      change (hmac_spec (bytes_of key) (H m')) with (H (hmac_message (bytes_of key) (H m'))).
      set (v := digest (hmac_message _ _)). change (H (hmac_message _ _)) with (bytes_of v).
      destruct (digest_size (hmac_message (bytes_of key) (H m'))) as [Ev _]. fold v in Ev.
      f_equal. rewrite <- (xor_words_bytes (length (words (digest m))) v (WA ws digestSize)); [done|..]; cbn [sigBytes]; lia. }
  cbv zeta in Hloop. destruct (Hloop (Z.to_nat (c - 1))) as (ws & m' & -> & Hl & ->). cbn [fst]. rewrite Em.
  pose proof digestSize_range. pose proof digestSize_words.
  split; [|done]. split; [cbn; lia|split; [done|cbn; lia]].
Qed.

Lemma pbkdf2_correct keySize c password salt :
  clean password -> sigBytes password < 2 ^ 28 -> clean salt -> sigBytes salt < 2 ^ 27 -> blockSize * 4 < 2 ^ 26 ->
  0 <= keySize ->
  bytes_of (pbkdf2 keySize c password salt) = pbkdf2_spec (bytes_of password) (bytes_of salt) c keySize.
Proof using AL DL.
  intros Hp Hps Hs Hss Hb Hk. unfold pbkdf2, pbkdf2_spec. rewrite hash_size_eq. pose proof digestSize_range.
  apply (derive_blocks _ _ eq digestSize); [lia|apply digestSize_words| |done|done].
  intros i ? <-. cbn [fst snd].
  destruct (pbkdf2_block_spec password salt c i Hp Hps Hs Hss Hb) as (H1 & H2 & H3). done.
Qed.

(** * The key derivation of OpenSSL *)

(** [D_i = H^c(D_(i-1) || password || salt)] *)
Definition evpkdf_D (P S : list Z) (c : Z) (prev : list Z) : list Z :=
  loop (Z.to_nat (c - 1)) (fun _ => H) (H (prev ++ P ++ S)).
Definition evpkdf_spec (P S : list Z) (c keySize : Z) : list Z :=
  take (Z.to_nat (4 * keySize))
    (unfold_blocks (Z.to_nat ((4 * keySize + hash_size - 1) / hash_size))
       (fun prev => let d := evpkdf_D P S c prev in (d, d)) []).

(** The hasher after the previous block. *)
Definition evpkdf_prev (prev : option wordarray) (m : list Z) : Prop :=
  match prev with None => m = [] | Some b => exists m0, b = digest m0 /\ m = H m0 end.

Lemma evpkdf_given prev m :
  evpkdf_prev prev m ->
  given (match prev with Some b => update b reset | None => reset end) m /\ Z.of_nat (length m) <= 64.
Proof using AL DL.
  pose proof digestSize_range. intros Hprev. destruct prev as [b|]; [|cbn in Hprev; subst m; split; [apply given_reset|simpl; lia]].
  destruct Hprev as (m0 & -> & ->). pose proof (digest_whole m0) as Hw. destruct (whole_clean _ Hw) as [Hc Hb].
  split; [|rewrite H_length; lia]. rewrite (update_whole _ _ Hw). unfold H. rewrite <- Hb.
  apply (given_update reset [] _ given_reset Hc).
Qed.

Lemma evpkdf_block_digest c password salt prev m :
  clean password -> clean salt -> sigBytes password < 2 ^ 26 -> sigBytes salt < 2 ^ 26 ->
  evpkdf_prev prev m ->
  exists m', evpkdf_block c password salt prev = digest m' /\
    evpkdf_D (bytes_of password) (bytes_of salt) c m = H m'.
Proof using AL DL.
  intros Hp Hs Hps Hss Hprev. pose proof Hp as [[Hp0 _] _]. pose proof Hs as [[Hs0 _] _].
  pose proof digestSize_range. unfold evpkdf_block, evpkdf_D.
  set (P := bytes_of password) in *. set (S0 := bytes_of salt) in *.
  set (h := match prev with Some b => update b reset | None => reset end).
  destruct (evpkdf_given prev m Hprev) as [Hg Hm]. fold h in Hg.
  pose proof (given_update h m password Hg Hp) as Hg'. fold P in Hg'.
  rewrite (finalize_digest _ _ salt Hg' Hs).
  2: { rewrite !length_app. fold S0. unfold P, S0. rewrite !bytes_length. lia. }
  fold S0. rewrite <- app_assoc. generalize (m ++ P ++ S0) as x. clear - AL DL.
  intros x. induction (Z.to_nat (c - 1)) as [|k (m' & E1 & E2)]; [by exists x|].
  exists (H m'). rewrite !loop_S, E1, E2. split; [|done]. pose proof (digest_whole m') as Hw.
  destruct (whole_clean _ Hw) as [Hc Hb]. rewrite (finalize_whole _ _ Hw).
  rewrite (finalize_digest reset [] _ given_reset Hc); rewrite app_nil_l, Hb; [done|].
  fold (H m'). rewrite H_length. pose proof digestSize_range. lia.
Qed.

Lemma evpkdf_correct keySize c password salt :
  clean password -> clean salt -> sigBytes password < 2 ^ 26 -> sigBytes salt < 2 ^ 26 -> 0 <= keySize ->
  bytes_of (evpkdf keySize c password salt) = evpkdf_spec (bytes_of password) (bytes_of salt) c keySize.
Proof using AL DL.
  intros Hp Hs Hps Hss Hk. unfold evpkdf, evpkdf_spec. rewrite hash_size_eq. pose proof digestSize_range.
  apply (derive_blocks _ _ evpkdf_prev digestSize); [lia|apply digestSize_words| |done|done].
  intros prev m Hprev. destruct (evpkdf_block_digest c password salt prev m Hp Hs Hps Hss Hprev) as (m' & E1 & E2).
  cbv zeta. cbn [fst snd]. rewrite E1, E2. destruct (digest_size m') as [Em _].
  split; [apply digest_whole|]. split; [done|]. split; [done|]. by exists m'.
Qed.

(** Only the bytes of the salt count, for the words of the key too. *)
Lemma derive_loop_ext {X} (R : X -> Prop) fuel keySize (f g : X -> wordarray * X) x dk :
  (forall x, R x -> f x = g x /\ R (f x).2) -> R x ->
  derive_loop fuel keySize f x dk = derive_loop fuel keySize g x dk.
Proof using Type.
  intros Hfg. revert x dk. induction fuel as [|fuel IH]; intros x dk Hx; [done|]. cbn [derive_loop].
  destruct (Hfg x Hx) as [<- Hx']. destruct (_ <? _); [|done]. destruct (f x) as [b y]. by apply IH.
Qed.

Lemma evpkdf_salt keySize c password salt salt' :
  clean password -> sigBytes password < 2 ^ 26 -> clean salt -> clean salt' -> sigBytes salt < 2 ^ 26 ->
  bytes_of salt = bytes_of salt' ->
  evpkdf keySize c password salt = evpkdf keySize c password salt'.
Proof using AL DL.
  intros Hp Hps Hs Hs' Hss Hb. unfold evpkdf, derive. f_equal. f_equal.
  assert (sigBytes salt' = sigBytes salt) as Hsz.
  { apply (f_equal length) in Hb. rewrite !bytes_length in Hb. destruct Hs as [[? _] _], Hs' as [[? _] _]. lia. }
  apply (derive_loop_ext (fun prev => prev = None \/ exists m0, prev = Some (digest m0))); [|by left].
  intros prev Hprev.
  assert (exists m, evpkdf_prev prev m) as [m Hm].
  { destruct Hprev as [-> | [m0 ->]]; [by exists []|exists (H m0); by exists m0]. }
  destruct (evpkdf_block_digest c password salt prev m Hp Hs Hps Hss Hm) as (m1 & E1 & _).
  cbv zeta. cbn [snd]. split; [|right; exists m1; by rewrite E1].
  enough (evpkdf_block c password salt prev = evpkdf_block c password salt' prev) as -> by done.
  clear E1. unfold evpkdf_block. apply (f_equal (loop _ _)).
  destruct (evpkdf_given prev m Hm) as [Hg Hlm].
  pose proof (given_update _ m password Hg Hp) as Hg'. pose proof Hs as [[? ?] ?]. pose proof Hp as [[? ?] ?].
  rewrite !(finalize_digest _ _ _ Hg') by (done || rewrite !length_app, !bytes_length; lia). by rewrite Hb.
Qed.
End Correctness.
