(* ===== verification/Digests.v ===== *)
(** The hash functions of the bundled crypto-js as instances of the hasher's
    interface, with what follows for all of them: hashing in pieces, HMAC,
    PBKDF2 and EvpKDF, and web3's [sha3] (web3.js 1831-1842). *)
From Stdlib Require Import ZArith Lia.
From S2P Require Import Prelude Words WordArray Hasher Hashes Sha256 X64 Sha512 Sha3 Kdf Utf8 Encoders.
Open Scope Z_scope.
Open Scope word_scope.

(** * Sizes of the digests *)

Lemma md5_block_length M off s : length (Hashes.Md5.doProcessBlock off (s, M)).1 = 4%nat.
Proof. unfold Hashes.Md5.doProcessBlock. by destruct (Hashes.Md5.rounds _ _). Qed.
Lemma sha1_block_length M off s : length (Hashes.Sha1.doProcessBlock off (s, M)).1 = 5%nat.
Proof. unfold Hashes.Sha1.doProcessBlock. destruct (loop 80 _ _) as [W [a b c d e]]. reflexivity. Qed.
Lemma ripemd160_block_length M off s : length (Hashes.Ripemd160.doProcessBlock off (s, M)).1 = 5%nat.
Proof. unfold Hashes.Ripemd160.doProcessBlock. by destruct (loop 80 _ _) as [[] []]. Qed.

(** States that are lists of a fixed length. *)
Definition list_digest {T} (A : Algorithm (list T)) (n : nat) (size : Z)
    (Hreset : length (_doReset (Algorithm := A)) = n)
    (Hblock : forall M off s, length (_doProcessBlock (Algorithm := A) off (s, M)).1 = n)
    (Hout : forall h, length h = n -> sigBytes (_output (Algorithm := A) h) = size /\
              size <= 4 * Z.of_nat (length (words (_output (Algorithm := A) h))))
    (Hsize : 4 <= size <= blockSize (Algorithm := A) * 4 /\ size <= 64) (Hwords : size mod 4 = 0) :
    DigestLaws (list T) (H := A) :=
  @Build_DigestLaws (list T) A (fun h => length h = n) size Hreset (fun M off s _ => Hblock M off s) Hout Hsize Hwords.

Ltac digest_sizes := (split; [split|]; vm_compute; discriminate) || reflexivity.

Definition MD5_digest : DigestLaws (list Z) (H := MD5).
Proof.
  refine (list_digest MD5 4 16 eq_refl md5_block_length _ _ eq_refl); [|digest_sizes].
  intros h Hh. cbn [_output MD5]. unfold Md5.output, wa_init. cbn [words sigBytes]. rewrite length_fmap, Hh. done.
Defined.
Definition SHA1_digest : DigestLaws (list Z) (H := SHA1).
Proof.
  refine (list_digest SHA1 5 20 eq_refl sha1_block_length _ _ eq_refl); [|digest_sizes].
  intros h Hh. cbn [_output SHA1]. unfold wa_init. cbn [words sigBytes]. rewrite Hh. done.
Defined.
Definition RIPEMD160_digest : DigestLaws (list Z) (H := RIPEMD160).
Proof.
  refine (list_digest RIPEMD160 5 20 eq_refl ripemd160_block_length _ _ eq_refl); [|digest_sizes].
  intros h Hh. cbn [_output RIPEMD160]. unfold Ripemd160.output, wa_init. cbn [words sigBytes].
  rewrite length_fmap, Hh. done.
Defined.
Definition SHA256_digest : DigestLaws (list Z) (H := SHA256).
Proof.
  refine (list_digest SHA256 8 32 eq_refl (fun _ _ _ => eq_refl) _ _ eq_refl); [|digest_sizes].
  intros h Hh. cbn [_output SHA256]. unfold wa_init. cbn [words sigBytes]. rewrite Hh. done.
Defined.
Definition SHA224_digest : DigestLaws (list Z) (H := SHA224).
Proof.
  refine (list_digest SHA224 8 28 eq_refl (fun _ _ _ => eq_refl) _ _ eq_refl); [|digest_sizes].
  intros h Hh. cbn [_output SHA224 words sigBytes]. rewrite Hh. done.
Defined.

Lemma toX32_length h n : length (words (toX32 h n)) = (2 * length h)%nat.
Proof. unfold toX32. cbn [words]. induction h as [|x h IH]; [done|]. rewrite bind_cons, length_app, IH. simpl. lia. Qed.
Definition SHA512_digest : DigestLaws (list x64) (H := SHA512).
Proof.
  refine (list_digest SHA512 8 64 eq_refl (fun _ _ _ => eq_refl) _ _ eq_refl); [|digest_sizes].
  intros h Hh. cbn [_output SHA512]. rewrite toX32_length. cbn [toX32 sigBytes]. rewrite Hh. done.
Defined.
Definition SHA384_digest : DigestLaws (list x64) (H := SHA384).
Proof.
  refine (list_digest SHA384 8 48 eq_refl (fun _ _ _ => eq_refl) _ _ eq_refl); [|digest_sizes].
  intros h Hh. cbn [_output SHA384]. rewrite toX32_length. cbn [toX32 sigBytes]. rewrite Hh. done.
Defined.

Lemma sha3_block_ok n M off st :
  (length st.1 = 25%nat /\ length st.2 = 25%nat) ->
  length (Sha3.doProcessBlock n off (st, M)).1.1 = 25%nat /\ length (Sha3.doProcessBlock n off (st, M)).1.2 = 25%nat.
Proof.
  destruct st as [A T]. cbn [fst snd]. intros [HA HT]. unfold Sha3.doProcessBlock. cbn [fst].
  pose proof (absorb_length (Z.to_nat (sha3_blockSize n / 2)) M off A) as Hl.
  set (A' := loop _ (absorb_lane M off) A) in *. clearbody A'. rewrite HA in Hl.
  destruct (rounds_spec A' T Hl HT) as (_ & H1 & H2). exact (conj H1 H2).
Qed.

Lemma sha3_output_size n st :
  0 <= n -> sigBytes (Sha3.output n st) = n / 8 /\ n / 8 <= 4 * Z.of_nat (length (words (Sha3.output n st))).
Proof.
  intros Hn. split; [done|]. unfold Sha3.output. cbv zeta. cbn [words].
  assert (forall k, length (loop k (fun i ws => ws ++ [swap (low (get_at (W64 0 0) st.1 i)); swap (high (get_at (W64 0 0) st.1 i))]) [])
            = (2 * k)%nat) as ->.
  { induction k as [|k IH]; [done|]. rewrite loop_S, length_app, IH. simpl. lia. }
  Z.div_mod_to_equations; lia.
Qed.

Definition SHA3_digest (n : Z) (Hn : n ∈ [224; 256; 384; 512]) : DigestLaws (list x64 * list x64) (H := SHA3 n).
Proof.
  refine (@Build_DigestLaws _ (SHA3 n) (fun st => length st.1 = 25%nat /\ length st.2 = 25%nat) (n / 8)
            (conj eq_refl eq_refl) (fun M off st => sha3_block_ok n M off st) _ _ _);
    rewrite !elem_of_cons, elem_of_nil in Hn.
  - intros st _. apply sha3_output_size. lia.
  - cbn [blockSize SHA3]. unfold sha3_blockSize. Z.div_mod_to_equations; lia.
  - destruct_or! Hn; subst; done.
Defined.

(** * All the hash functions *)

Inductive hash_function : Type :=
  | HashFunction (S : Type) (A : Algorithm S).
Arguments HashFunction {S}.
Definition hash_functions : list hash_function :=
  [HashFunction MD5; HashFunction SHA1; HashFunction RIPEMD160; HashFunction SHA224; HashFunction SHA256;
   HashFunction SHA384; HashFunction SHA512;
   HashFunction (SHA3 224); HashFunction (SHA3 256); HashFunction (SHA3 384); HashFunction (SHA3 512)].

Lemma sha3_block_range n : n ∈ [224; 256; 384; 512] -> 0 < sha3_blockSize n <= 50.
Proof. rewrite !elem_of_cons, elem_of_nil. unfold sha3_blockSize. Z.div_mod_to_equations; lia. Qed.

(** What holds under the laws holds of each of them. *)
Lemma all_hash_functions (P : forall S, Algorithm S -> Prop) f :
  (forall S (A : Algorithm S), AlgorithmLaws S -> DigestLaws S -> blockSize * 4 < 2 ^ 26 -> P S A) ->
  f ∈ hash_functions -> match f with HashFunction A => P _ A end.
Proof.
  intros HP Hf.
  assert (forall n, n ∈ [224; 256; 384; 512] -> P _ (SHA3 n)) as H3.
  { intros n Hn. apply HP; [apply SHA3_laws, sha3_block_range, Hn|apply SHA3_digest, Hn|].
    cbn [blockSize SHA3]. pose proof (sha3_block_range n Hn). lia. }
  unfold hash_functions in Hf. rewrite !elem_of_cons, elem_of_nil in Hf. destruct_or! Hf; subst; try done.
  - by apply (HP _ MD5 MD5_laws MD5_digest).
  - by apply (HP _ SHA1 SHA1_laws SHA1_digest).
  - by apply (HP _ RIPEMD160 RIPEMD160_laws RIPEMD160_digest).
  - by apply (HP _ SHA224 SHA224_laws SHA224_digest).
  - by apply (HP _ SHA256 SHA256_laws SHA256_digest).
  - by apply (HP _ SHA384 SHA384_laws SHA384_digest).
  - by apply (HP _ SHA512 SHA512_laws SHA512_digest).
  - apply H3. set_solver.
  - apply H3. set_solver.
  - apply H3. set_solver.
  - apply H3. set_solver.
Qed.

(** C23. Every hash function is a function of the message's bytes: given in any
    number of updates, the digest is that of the whole message. *)
Theorem hashers_incremental f ds d :
  f ∈ hash_functions -> Forall clean ds -> clean d ->
  Z.of_nat (length ((ds ≫= bytes_of) ++ bytes_of d)) < 2 ^ 28 ->
  match f with HashFunction A =>
    finalize (H := A) (Some d) (fold_left (fun h d => update (H := A) d h) ds (reset (H := A))) =
    hash (H := A) (of_bytes ((ds ≫= bytes_of) ++ bytes_of d))
  end.
Proof.
  intros Hf Hds Hd Hsz. revert Hf. apply (all_hash_functions (fun S A => _)). intros S A L D Hb. by apply incremental.
Qed.

Lemma abc_clean : Forall clean [of_bytes [97]; of_bytes [98]] /\ clean (of_bytes [99]) /\ clean (of_bytes (str "key")).
Proof.
  assert (forall l, forallb (fun b => (0 <=? b) && (b <? 256)) l = true -> clean (of_bytes l)) as H.
  { intros l Hl. apply of_bytes_clean, Forall_forall. intros b Hb. rewrite forallb_forall in Hl.
    apply list_elem_of_In, Hl in Hb. unfold is_byte. lia. }
  split; [repeat apply Forall_cons_2; [by apply H|by apply H|apply Forall_nil_2]|split; by apply H].
Qed.

Lemma hashers_incremental_witness :
  finalize (H := MD5) (Some (of_bytes [99]))
    (fold_left (fun h d => update (H := MD5) d h) [of_bytes [97]; of_bytes [98]] (reset (H := MD5))) =
  hash (H := MD5) (of_bytes [97; 98; 99]).
Proof.
  apply (hashers_incremental (HashFunction MD5) [of_bytes [97]; of_bytes [98]] (of_bytes [99])).
  - set_solver.
  - apply abc_clean.
  - apply abc_clean.
  - vm_compute. reflexivity.
Defined.

(** C27. HMAC over every hash function is RFC 2104's, however the message arrives:
    the hash of the outer pad and the hash of the inner pad and the message. *)
Theorem hmac_rfc2104 f key ds d :
  f ∈ hash_functions -> clean key -> sigBytes key < 2 ^ 28 -> Forall clean ds -> clean d ->
  Z.of_nat (length ((ds ≫= bytes_of) ++ bytes_of d)) < 2 ^ 27 ->
  match f with HashFunction A =>
    bytes_of (hmac_finalize (H := A) d (fold_left (fun h d => hmac_update (H := A) d h) ds (hmac_init (H := A) key))) =
    hmac_spec (A := A) (bytes_of key) ((ds ≫= bytes_of) ++ bytes_of d)
  end.
Proof.
  intros Hf Hk Hks Hds Hd Hsz. revert Hf. apply (all_hash_functions (fun S A => _)).
  intros S A L D Hb. by rewrite hmac_updates by (done || lia).
Qed.

Lemma hmac_rfc2104_witness :
  bytes_of (hmac_finalize (H := SHA256) (of_bytes [99])
    (fold_left (fun h d => hmac_update (H := SHA256) d h) [of_bytes [97]; of_bytes [98]]
       (hmac_init (H := SHA256) (of_bytes (str "key"))))) =
  hmac_spec (A := SHA256) (str "key") [97; 98; 99].
Proof.
  apply (hmac_rfc2104 (HashFunction SHA256) (of_bytes (str "key")) [of_bytes [97]; of_bytes [98]] (of_bytes [99])).
  - set_solver.
  - apply abc_clean.
  - vm_compute. reflexivity.
  - apply abc_clean.
  - apply abc_clean.
  - vm_compute. reflexivity.
Defined.

(** PBKDF2 over every hash function derives RFC 2898's key. *)
Theorem pbkdf2_rfc2898 f keySize c password salt :
  f ∈ hash_functions -> clean password -> sigBytes password < 2 ^ 28 -> clean salt -> sigBytes salt < 2 ^ 27 ->
  0 <= keySize ->
  match f with HashFunction A =>
    bytes_of (pbkdf2 (H := A) keySize c password salt) =
    pbkdf2_spec (A := A) (bytes_of password) (bytes_of salt) c keySize
  end.
Proof.
  intros Hf Hp Hps Hs Hss Hk. revert Hf. apply (all_hash_functions (fun S A => _)).
  intros S A L D Hb. by apply pbkdf2_correct.
Qed.

Lemma pbkdf2_rfc2898_witness :
  bytes_of (pbkdf2 (H := SHA1) 6 3 (of_bytes (str "key")) (of_bytes [99])) =
  pbkdf2_spec (A := SHA1) (str "key") [99] 3 6.
Proof.
  apply (pbkdf2_rfc2898 (HashFunction SHA1) 6 3 (of_bytes (str "key")) (of_bytes [99])).
  - set_solver.
  - apply abc_clean.
  - vm_compute. reflexivity.
  - apply abc_clean.
  - vm_compute. reflexivity.
  - lia.
Defined.

(** EvpKDF over every hash function is OpenSSL's iteration of hashes. *)
Theorem evpkdf_openssl f keySize c password salt :
  f ∈ hash_functions -> clean password -> clean salt -> sigBytes password < 2 ^ 26 -> sigBytes salt < 2 ^ 26 ->
  0 <= keySize ->
  match f with HashFunction A =>
    bytes_of (evpkdf (H := A) keySize c password salt) =
    evpkdf_spec (A := A) (bytes_of password) (bytes_of salt) c keySize
  end.
Proof.
  intros Hf Hp Hs Hps Hss Hk. revert Hf. apply (all_hash_functions (fun S A => _)).
  intros S A L D Hb. by apply evpkdf_correct.
Qed.

Lemma evpkdf_openssl_witness :
  bytes_of (evpkdf (H := MD5) 12 1 (of_bytes (str "key")) (of_bytes [99])) =
  evpkdf_spec (A := MD5) (str "key") [99] 1 12.
Proof.
  apply (evpkdf_openssl (HashFunction MD5) 12 1 (of_bytes (str "key")) (of_bytes [99])).
  - set_solver.
  - apply abc_clean.
  - apply abc_clean.
  - vm_compute. reflexivity.
  - vm_compute. reflexivity.
  - lia.
Defined.

Example pbkdf2_vector : Hex_stringify (pbkdf2 (H := SHA1) 5 2 (of_bytes (str "password")) (of_bytes (str "salt"))) =
  str "ea6c014dc72d6f8ccd1ed92ace1d41f0d8de8957".
Proof. vm_compute. reflexivity. Qed.
Example hmac_vector :
  Hex_stringify (hmac_finalize (H := SHA256) (of_bytes (str "The quick brown fox jumps over the lazy dog"))
    (hmac_init (H := SHA256) (of_bytes (str "key")))) =
  str "f7bc83f430538424b13298e6aa6fb143ef4d59a14946175997479dbc2d1a3cd8".
Proof. vm_compute. reflexivity. Qed.

(** * web3's sha3 *)

(** [hex] is [options.encoding === 'hex']. A string that is not hexadecimal is
    hashed in UTF-8, where lone surrogates throw; the empty string is no update. *)
Definition sha3 (value : jsstr) (hex : bool) : option jsstr :=
  data ← (if hex then
      let value := if (2 <? js_len value) && bool_decide (js_substr value 0 2 = str "0x")
                   then js_substr_from value 2 else value in
      Some <$> Hex_parse value
    else match value with [] => Some None | _ => Some <$> Utf8_parse value end);
  Some (Hex_stringify (finalize (H := SHA3 256) data (reset (H := SHA3 256)))).

(** The result is 64 hexadecimal digits. *)
Lemma hex_byte_digits b : is_byte b -> exists d, hex_byte b = digit_char <$> d /\ Forall (is_digit 16) d.
Proof.
  unfold is_byte. intros Hb. exists [b / 16; b mod 16]. split; [done|].
  repeat constructor; unfold is_digit; Z.div_mod_to_equations; lia.
Qed.
Lemma hex_bytes_digits bs :
  Forall is_byte bs -> exists ds, bs ≫= hex_byte = digit_char <$> ds /\ Forall (is_digit 16) ds.
Proof.
  induction 1 as [|b bs Hb _ (ds & E & Hds)]; [by exists []|].
  destruct (hex_byte_digits b Hb) as (d & Ed & Hd). exists (d ++ ds).
  rewrite bind_cons, fmap_app, E, Ed. split; [done|]. by apply Forall_app.
Qed.
Lemma sha3_result value hex h :
  sha3 value hex = Some h -> exists ds, h = digit_char <$> ds /\ Forall (is_digit 16) ds /\ length ds = 64%nat.
Proof.
  unfold sha3. set (data := if hex then _ else _). destruct data as [d|]; [|done].
  cbn [mbind option_bind]. intros [= <-]. rewrite Hex_stringify_bytes.
  assert (sigBytes (finalize (H := SHA3 256) d (reset (H := SHA3 256))) = 32) as Hs by reflexivity.
  destruct (hex_bytes_digits _ (bytes_valid (finalize (H := SHA3 256) d (reset (H := SHA3 256))))) as (ds & E & Hds).
  exists ds. split; [done|]. split; [done|].
  apply (f_equal length) in E. by rewrite hex_bytes_length, bytes_length, Hs, length_fmap in E.
Qed.

Lemma sha3_text s : is_Some (utf8encode s) -> is_Some (sha3 s false).
Proof.
  intros [b Hb]. unfold sha3, Utf8_parse.
  destruct s; [|rewrite Hb]; cbn [fmap option_fmap option_map mbind option_bind]; eapply mk_is_Some, eq_refl.
Qed.

Lemma sha3_256_bytes h m :
  given (H := SHA3 256) h m -> Z.of_nat (length m) < 2 ^ 28 ->
  (forall d, clean d -> Z.of_nat (length (m ++ bytes_of d)) < 2 ^ 28 ->
     bytes_of (finalize (H := SHA3 256) (Some d) h) = keccak 256 (m ++ bytes_of d)) /\
  bytes_of (finalize (H := SHA3 256) None h) = keccak 256 m.
Proof.
  intros Hg Hsz. assert (256 ∈ [224; 256; 384; 512]) as Hin by set_solver.
  pose proof (SHA3_laws 256 (sha3_block_range 256 Hin)) as L. pose proof Hg as (Hm & _).
  assert (forall m, Forall is_byte m -> bytes_of (digest (H := SHA3 256) m) = keccak 256 m) as Hd.
  { intros x Hx. apply sha3_digest; [apply sha3_block_range, Hin|reflexivity|done|lia]. }
  split.
  - intros d Hdc Hl. rewrite (finalize_digest h m d Hg Hdc Hl). apply Hd, Forall_app_2; [done|apply bytes_valid].
  - rewrite (finalize_none h m Hg Hsz). by apply Hd.
Qed.

(** web3's [sha3] is Keccak-256 of the bytes a hexadecimal string spells, and
    of the UTF-8 bytes of any other string, which throws on a lone surrogate. *)
Theorem web3_sha3_keccak m s :
  Forall is_byte m -> m <> [] -> Z.of_nat (length m) < 2 ^ 28 -> Forall unit16 s -> Z.of_nat (length s) < 2 ^ 26 ->
  sha3 (str "0x" ++ (m ≫= hex_byte)) true = Some (keccak 256 m ≫= hex_byte) /\
  sha3 s false = (fun b => keccak 256 b ≫= hex_byte) <$> utf8encode s.
Proof.
  intros Hm Hne Hml Hs Hsl.
  assert (given (H := SHA3 256) (reset (H := SHA3 256)) []) as Hg.
  { assert (256 ∈ [224; 256; 384; 512]) as Hin by set_solver.
    apply (@given_reset _ (SHA3 256) (SHA3_laws 256 (sha3_block_range 256 Hin))). }
  destruct (sha3_256_bytes _ _ Hg) as [Hd Hn]; [simpl; lia|]. split.
  - unfold sha3. assert ((2 <? js_len (str "0x" ++ (m ≫= hex_byte))) = true) as ->.
    { unfold js_len. rewrite length_app, hex_bytes_length. destruct m; [by destruct Hne|]. change (length (str "0x")) with 2%nat. rewrite length_cons. apply Z.ltb_lt. lia. }
    rewrite js_substr_nonneg by lia. cbn [andb]. rewrite bool_decide_true by reflexivity.
    rewrite js_substr_from_nonneg by lia. change (drop (Z.to_nat 2) (str "0x" ++ (m ≫= hex_byte))) with (m ≫= hex_byte).
    rewrite Hex_parse_of_bytes by done. cbn [fmap option_fmap option_map mbind option_bind].
    rewrite Hex_stringify_bytes, Hd by (apply of_bytes_clean, Hm || by rewrite app_nil_l, of_bytes_id).
    by rewrite app_nil_l, of_bytes_id.
  - unfold sha3. destruct s as [|c s].
    { cbn [fmap option_fmap option_map mbind option_bind]. rewrite Hex_stringify_bytes, Hn. reflexivity. }
    unfold Utf8_parse. destruct (ucs2_units _ Hs) as [Hr _].
    destruct (utf8encode (c :: s)) as [b|] eqn:E; cbn [fmap option_fmap option_map mbind option_bind]; [|done].
    assert (Forall is_byte b) as Hb by (apply (encode_all_decode _ b (S (length b)) Hr E); lia).
    rewrite Latin1_parse_of_bytes, Hex_stringify_bytes, Hd, app_nil_l, of_bytes_id; [done|done|by apply of_bytes_clean| |done].
    rewrite app_nil_l, of_bytes_id by done. pose proof (encode_all_length _ _ E).
    pose proof (ucs2decode_length (c :: s)). lia.
Qed.

Lemma web3_sha3_keccak_witness :
  sha3 (str "0x" ++ ([0xab; 0xcd] ≫= hex_byte)) true = Some (keccak 256 [0xab; 0xcd] ≫= hex_byte) /\
  sha3 [0x20AC] false = (fun b => keccak 256 b ≫= hex_byte) <$> utf8encode [0x20AC].
Proof.
  apply (web3_sha3_keccak [0xab; 0xcd] [0x20AC]).
  - repeat constructor; unfold is_byte; lia.
  - done.
  - simpl. lia.
  - repeat constructor; unfold unit16; lia.
  - simpl. lia.
Defined.

(** The prefix alone is not removed: [sha3('0x', {encoding: 'hex'})] is the hash
    of a zero byte, not of the empty string. *)
Theorem sha3_empty_hex :
  sha3 (str "0x") true = Some (keccak 256 [0] ≫= hex_byte) /\
  sha3 (str "0x") true <> sha3 [] true /\ sha3 [] true = Some (keccak 256 [] ≫= hex_byte).
Proof. split_and!; vm_compute; (reflexivity || discriminate). Qed.
