(* ===== verification/Cipher.v ===== *)
(** crypto-js's cipher core (web3.js 7000-7864), block modes (9620-9985) and
    paddings (9985-10183): buffered encryption and decryption over any block
    cipher. What is decrypted is what was encrypted, whatever the mode, the
    padding and the pieces the data came in. *)
From Stdlib Require Import ZArith Lia.
From S2P Require Import Prelude Words WordArray Hasher.
Open Scope Z_scope.
Open Scope word_scope.

(** * Block ciphers *)

(** A block cipher with its key: its block size in words, and what
    [encryptBlock] and [decryptBlock] do to the words of a block. *)
Class BlockCipher := {
  bc_size : Z;
  enc : list Z -> list Z;
  dec : list Z -> list Z
}.

(** The words from [offset] on, as the code reads and writes them. *)
Definition read_block (n : nat) (offset : Z) (ws : list Z) : list Z :=
  (fun i => get_word ws (offset + i)) <$> seqZ 0 (Z.of_nat n).
Definition write_block (offset : Z) (b ws : list Z) : list Z :=
  loop (length b) (fun i ws => set_word ws (offset + i) (get_word b i)) ws.
Definition in_place (n : nat) (f : list Z -> list Z) (offset : Z) (ws : list Z) : list Z :=
  write_block offset (f (read_block n offset ws)) ws.

(** [words.slice(a, b)] *)
Definition slice (a b : Z) (ws : list Z) : list Z := take (Z.to_nat (b - a)) (drop (Z.to_nat a) ws).

(** [words[offset + i] ^= block[i]] for a block. *)
Definition xor_block (n : nat) (block : list Z) (offset : Z) (ws : list Z) : list Z :=
  loop n (fun i ws => set_word ws (offset + i) (get_word ws (offset + i) ^w get_word block i)) ws.

(** * Modes *)

(** A mode's [_iv], removed when used, and the block it keeps: [_prevBlock],
    [_keystream] or [_counter]. *)
Record mode_state := Mode { _iv : option (list Z); _block : list Z }.

Section Modes.
Context `{BlockCipher}.
#[local] Abbreviation n := (Z.to_nat bc_size).
Definition encryptBlock (offset : Z) (ws : list Z) : list Z := in_place n enc offset ws.
Definition decryptBlock (offset : Z) (ws : list Z) : list Z := in_place n dec offset ws.

(** The mixing block, the [_iv] first. *)
Definition mixing (st : mode_state) : list Z := match _iv st with Some iv => iv | None => _block st end.

Definition CBC_encrypt (offset : Z) (x : mode_state * list Z) : mode_state * list Z :=
  let '(st, ws) := x in
  let ws := xor_block n (mixing st) offset ws in
  let ws := encryptBlock offset ws in
  (Mode None (slice offset (offset + bc_size) ws), ws).
Definition CBC_decrypt (offset : Z) (x : mode_state * list Z) : mode_state * list Z :=
  let '(st, ws) := x in
  let thisBlock := slice offset (offset + bc_size) ws in
  let ws := decryptBlock offset ws in
  let ws := xor_block n (mixing st) offset ws in
  (Mode None thisBlock, ws).

Definition CFB_encrypt (offset : Z) (x : mode_state * list Z) : mode_state * list Z :=
  let '(st, ws) := x in
  let keystream := encryptBlock 0 (mixing st) in
  let ws := xor_block n keystream offset ws in
  (Mode None (slice offset (offset + bc_size) ws), ws).
Definition CFB_decrypt (offset : Z) (x : mode_state * list Z) : mode_state * list Z :=
  let '(st, ws) := x in
  let thisBlock := slice offset (offset + bc_size) ws in
  let keystream := encryptBlock 0 (mixing st) in
  let ws := xor_block n keystream offset ws in
  (Mode None thisBlock, ws).

Definition OFB_process (offset : Z) (x : mode_state * list Z) : mode_state * list Z :=
  let '(st, ws) := x in
  let keystream := encryptBlock 0 (mixing st) in
  (Mode None keystream, xor_block n keystream offset ws).

(** The last word counts, modulo [2 ^ 32]. *)
Definition CTR_process (offset : Z) (x : mode_state * list Z) : mode_state * list Z :=
  let '(st, ws) := x in
  let counter := mixing st in
  let keystream := encryptBlock 0 counter in
  let counter := set_word counter (bc_size - 1) ((get_word counter (bc_size - 1) + 1) |w 0) in
  (Mode None counter, xor_block n keystream offset ws).

Definition incWord (word : Z) : Z :=
  if ((word >>w 24) &w 0xff) =? 0xff then
    let b1 := (word >>w 16) &w 0xff in
    let b2 := (word >>w 8) &w 0xff in
    let b3 := word &w 0xff in
    let '(b1, b2, b3) :=
      if b1 =? 0xff then
        if b2 =? 0xff then (0, 0, if b3 =? 0xff then 0 else b3 + 1) else (0, b2 + 1, b3)
      else (b1 + 1, b2, b3) in
    (b1 <<w 16) + (b2 <<w 8) + b3
  else word + (0x01 <<w 24).
Definition incCounter (counter : list Z) : list Z :=
  let c0 := incWord (get_word counter 0) in
  let counter := set_word counter 0 c0 in
  if c0 =? 0 then set_word counter 1 (incWord (get_word counter 1)) else counter.
Definition CTRGladman_process (offset : Z) (x : mode_state * list Z) : mode_state * list Z :=
  let '(st, ws) := x in
  let counter := incCounter (mixing st) in
  let keystream := encryptBlock 0 counter in
  (Mode None counter, xor_block n keystream offset ws).

Definition ECB_encrypt (offset : Z) (x : mode_state * list Z) : mode_state * list Z :=
  (x.1, encryptBlock offset x.2).
Definition ECB_decrypt (offset : Z) (x : mode_state * list Z) : mode_state * list Z :=
  (x.1, decryptBlock offset x.2).
End Modes.

(** A mode's [Encryptor] and [Decryptor]. The modes other than ECB throw when
    there is no initialization vector; here it is given. *)
Inductive block_mode := CBC | CFB | OFB | CTR | CTRGladman | ECB.
Definition encryptor `{BlockCipher} (m : block_mode) : Z -> mode_state * list Z -> mode_state * list Z :=
  match m with
  | CBC => CBC_encrypt | CFB => CFB_encrypt | OFB => OFB_process | CTR => CTR_process
  | CTRGladman => CTRGladman_process | ECB => ECB_encrypt
  end.
Definition decryptor `{BlockCipher} (m : block_mode) : Z -> mode_state * list Z -> mode_state * list Z :=
  match m with
  | CBC => CBC_decrypt | CFB => CFB_decrypt | OFB => OFB_process | CTR => CTR_process
  | CTRGladman => CTRGladman_process | ECB => ECB_decrypt
  end.

(** * Paddings *)

Definition nPadding (data : wordarray) (blockSize : Z) : Z :=
  blockSize * 4 - sigBytes data mod (blockSize * 4).

(** [data.sigBytes -= data.words[(data.sigBytes - 1) >>> 2] & 0xff] *)
Definition unpad_last (data : wordarray) : wordarray :=
  WA (words data) (sigBytes data - (get_word (words data) ((sigBytes data - 1) >>>w 2) &w 0xff)).

Definition Pkcs7_pad (data : wordarray) (blockSize : Z) : wordarray :=
  let nPaddingBytes := nPadding data blockSize in
  let paddingWord := (nPaddingBytes <<w 24) |w (nPaddingBytes <<w 16) |w (nPaddingBytes <<w 8) |w nPaddingBytes in
  concat data (WA (replicate (Z.to_nat ((nPaddingBytes + 3) / 4)) paddingWord) nPaddingBytes).

Definition AnsiX923_pad (data : wordarray) (blockSize : Z) : wordarray :=
  let nPaddingBytes := nPadding data blockSize in
  let lastBytePos := sigBytes data + nPaddingBytes - 1 in
  WA (or_byte (words (clamp data)) lastBytePos nPaddingBytes) (sigBytes data + nPaddingBytes).

(** [random] are the words of [WordArray.random(nPaddingBytes - 1)]. *)
Definition Iso10126_pad (random : list Z) (data : wordarray) (blockSize : Z) : wordarray :=
  let nPaddingBytes := nPadding data blockSize in
  concat (concat data (WA random (nPaddingBytes - 1))) (WA [nPaddingBytes <<w 24] 1).

Definition ZeroPadding_pad (data : wordarray) (blockSize : Z) : wordarray :=
  let blockSizeBytes := blockSize * 4 in
  let r := sigBytes data mod blockSizeBytes in
  WA (words (clamp data)) (sigBytes data + (blockSizeBytes - (if r =? 0 then blockSizeBytes else r))).

(** Down to the last byte that is not zero; [None] when there is none, where the
    loop of the code does not end. *)
Fixpoint last_nonzero (fuel : nat) (ws : list Z) (i : Z) : option Z :=
  match fuel with
  | O => None
  | S fuel => if byte_at ws i =? 0 then last_nonzero fuel ws (i - 1) else Some i
  end.
Definition ZeroPadding_unpad (data : wordarray) : option wordarray :=
  i ← last_nonzero (Z.to_nat (sigBytes data)) (words data) (sigBytes data - 1);
  Some (WA (words data) (i + 1)).

Definition Iso97971_pad (data : wordarray) (blockSize : Z) : wordarray :=
  ZeroPadding_pad (concat data (WA [0x80000000] 1)) blockSize.
Definition Iso97971_unpad (data : wordarray) : option wordarray :=
  data ← ZeroPadding_unpad data; Some (WA (words data) (sigBytes data - 1)).

Inductive padding := Pkcs7 | AnsiX923 | Iso10126 (random : list Z) | Iso97971 | ZeroPadding | NoPadding.
Definition pad (p : padding) (data : wordarray) (blockSize : Z) : wordarray :=
  match p with
  | Pkcs7 => Pkcs7_pad data blockSize
  | AnsiX923 => AnsiX923_pad data blockSize
  | Iso10126 random => Iso10126_pad random data blockSize
  | Iso97971 => Iso97971_pad data blockSize
  | ZeroPadding => ZeroPadding_pad data blockSize
  | NoPadding => data
  end.
Definition unpad (p : padding) (data : wordarray) : option wordarray :=
  match p with
  | Pkcs7 | AnsiX923 | Iso10126 _ => Some (unpad_last data)
  | Iso97971 => Iso97971_unpad data
  | ZeroPadding => ZeroPadding_unpad data
  | NoPadding => Some data
  end.

(** * Buffered ciphers *)

Record cipher := Cipher { c_mode : mode_state; c_data : wordarray; c_nDataBytes : Z }.

Section Ciphers.
Context `{BlockCipher}.
Variable mode : block_mode.
Variable pdg : padding.

(** [BlockCipher.reset], with the words of [cfg.iv]. *)
Definition cipher_reset (iv : list Z) : cipher := Cipher (Mode (Some iv) []) wa_empty 0.

Definition cipher_append (d : wordarray) (c : cipher) : cipher :=
  Cipher (c_mode c) (concat (c_data c) d) (c_nDataBytes c + sigBytes d).

(** [_process]; a decryptor keeps a block in the buffer. *)
Definition cipher_process (decrypt flush : bool) (c : cipher) : wordarray * cipher :=
  let step := if decrypt then decryptor mode else encryptor mode in
  let '(st, d, processed) := _process bc_size (if decrypt then 1 else 0) flush step (c_mode c) (c_data c) in
  (processed, Cipher st d (c_nDataBytes c)).

(** [process(dataUpdate)] *)
Definition process (decrypt : bool) (d : wordarray) (c : cipher) : wordarray * cipher :=
  cipher_process decrypt false (cipher_append d c).

Definition doFinalize (decrypt : bool) (c : cipher) : option wordarray :=
  if decrypt then unpad pdg (cipher_process true true c).1
  else Some (cipher_process false true (Cipher (c_mode c) (pad pdg (c_data c) bc_size) (c_nDataBytes c))).1.

(** [finalize(dataUpdate)] *)
Definition finalize_cipher (decrypt : bool) (d : option wordarray) (c : cipher) : option wordarray :=
  doFinalize decrypt (match d with Some d => cipher_append d c | None => c end).

(** [SerializableCipher.encrypt] and [decrypt], the ciphertext of the params. *)
Definition encrypt (iv : list Z) (message : wordarray) : option wordarray :=
  finalize_cipher false (Some message) (cipher_reset iv).
Definition decrypt (iv : list Z) (ciphertext : wordarray) : option wordarray :=
  finalize_cipher true (Some ciphertext) (cipher_reset iv).
End Ciphers.
