(* ===== verification/CipherBlocks.v ===== *)
(** A mode's step as a function of its state and one block: what the loops in
    place do to an array, and that decryption undoes encryption block by block. *)
From Stdlib Require Import ZArith Lia.
From S2P Require Import Prelude Words WordArray Hasher Cipher.
Open Scope Z_scope.
Open Scope word_scope.

(** * Arrays and blocks *)

Lemma words_ext a b :
  length a = length b -> (forall i, 0 <= i < Z.of_nat (length a) -> get_word a i = get_word b i) -> a = b.
Proof.
  intros Hl Hg. apply list_eq_same_length with (length a); [done|done|]. intros i x y Hi Hx Hy.
  specialize (Hg (Z.of_nat i) ltac:(lia)). unfold get_word in Hg. rewrite Nat2Z.id, Hx, Hy in Hg. done.
Qed.

Lemma read_length n off ws : length (read_block n off ws) = n.
Proof. unfold read_block. by rewrite length_fmap, length_seqZ, Nat2Z.id. Qed.

Lemma read_get n off ws i :
  0 <= i < Z.of_nat n -> get_word (read_block n off ws) i = get_word ws (off + i).
Proof.
  intros Hi. unfold read_block, get_word at 1. rewrite list_lookup_fmap, lookup_seqZ_lt by lia. simpl.
  f_equal. lia.
Qed.

Lemma write_get off b ws i :
  0 <= off -> 0 <= i ->
  get_word (write_block off b ws) i =
  if (off <=? i) && (i <? off + Z.of_nat (length b)) then get_word b (i - off) else get_word ws i.
Proof. intros Ho Hi. unfold write_block. by apply copy_words_get. Qed.

(** A loop that writes the words of a block one after the other. *)
Lemma fill_length n off f ws :
  0 <= off ->
  Z.of_nat (length (loop n (fun i ws => set_word ws (off + i) (f i ws)) ws)) =
  if (n =? 0)%nat then Z.of_nat (length ws) else Z.max (off + Z.of_nat n) (Z.of_nat (length ws)).
Proof.
  intros Ho. induction n as [|n IH]; [done|]. rewrite loop_S, length_set_word, IH by lia.
  destruct n as [|n]; cbn [Nat.eqb]; lia.
Qed.

Lemma write_length off b ws :
  0 <= off -> b <> [] -> Z.of_nat (length (write_block off b ws)) = Z.max (off + Z.of_nat (length b)) (Z.of_nat (length ws)).
Proof.
  intros Ho Hb. unfold write_block. rewrite fill_length by done. destruct b; [done|]. done.
Qed.

Definition xor_list (a b : list Z) : list Z := zip_with js_xor a b.

Lemma xor_get n block off ws i :
  0 <= off -> 0 <= i ->
  get_word (xor_block n block off ws) i =
  if (off <=? i) && (i <? off + Z.of_nat n) then get_word ws i ^w get_word block (i - off) else get_word ws i.
Proof.
  intros Ho Hi. unfold xor_block. induction n as [|n IH].
  { cbn [loop]. destruct (Z.leb_spec off i), (Z.ltb_spec i (off + Z.of_nat 0)); cbn [andb]; lia || done. }
  rewrite loop_S, get_set_word by lia. destruct (Z.eqb_spec i (off + Z.of_nat n)) as [->|Hne].
  - rewrite IH. zbool (off <=? off + Z.of_nat n) true. zbool (off + Z.of_nat n <? off + Z.of_nat n) false.
    zbool (off + Z.of_nat n <? off + Z.of_nat (S n)) true. cbn [andb]. do 2 f_equal. lia.
  - rewrite IH. destruct (Z.leb_spec off i); cbn [andb]; [|done].
    destruct (Z.ltb_spec i (off + Z.of_nat n)).
    + by zbool (i <? off + Z.of_nat (S n)) true.
    + by zbool (i <? off + Z.of_nat (S n)) false.
Qed.

Lemma xor_list_length a b n : length a = n -> length b = n -> length (xor_list a b) = n.
Proof. intros Ha Hb. unfold xor_list. rewrite length_zip_with. lia. Qed.

Lemma xor_list_get a b i :
  length a = length b -> 0 <= i < Z.of_nat (length a) ->
  get_word (xor_list a b) i = get_word a i ^w get_word b i.
Proof.
  intros Hl Hi. unfold xor_list, get_word. rewrite lookup_zip_with.
  destruct (lookup_lt_is_Some_2 a (Z.to_nat i)) as [x ->]; [lia|].
  destruct (lookup_lt_is_Some_2 b (Z.to_nat i)) as [y ->]; [lia|]. done.
Qed.

(** Xoring in place is writing the xored block. *)
Lemma xor_block_write n block off ws :
  0 <= off -> (0 < n)%nat ->
  xor_block n block off ws = write_block off (xor_list (read_block n off ws) (read_block n 0 block)) ws.
Proof.
  intros Ho Hn. set (b := xor_list _ _).
  assert (length b = n) as Hb by (apply xor_list_length; apply read_length).
  apply words_ext.
  - apply Nat2Z.inj. rewrite write_length by (try done; intros E; rewrite E in Hb; simpl in Hb; lia).
    unfold xor_block. rewrite fill_length, Hb by done. destruct n; [lia|done].
  - intros i Hi. rewrite write_get, xor_get, Hb by lia. destruct (Z.leb_spec off i); cbn [andb]; [|done].
    destruct (Z.ltb_spec i (off + Z.of_nat n)); [|done]. unfold b.
    rewrite xor_list_get, !read_get by (rewrite ?read_length; lia). do 2 f_equal; lia.
Qed.

Lemma read_write n off b ws : 0 <= off -> length b = n -> read_block n off (write_block off b ws) = b.
Proof.
  intros Ho Hb. apply words_ext; [by rewrite read_length|]. rewrite read_length. intros i Hi.
  rewrite read_get, write_get by lia. zbool (off <=? off + i) true. zbool (off + i <? off + Z.of_nat (length b)) true.
  cbn [andb]. f_equal. lia.
Qed.

Lemma write_write off b b' ws :
  0 <= off -> length b = length b' -> b <> [] -> write_block off b' (write_block off b ws) = write_block off b' ws.
Proof.
  intros Ho Hb Hne. assert (b' <> []) by (by intros ->; destruct b). apply words_ext.
  - apply Nat2Z.inj. rewrite !write_length by done. lia.
  - intros i Hi. rewrite !write_get by lia. rewrite Hb. by destruct ((off <=? i) && _).
Qed.

Lemma slice_write off b ws :
  0 <= off -> b <> [] -> slice off (off + Z.of_nat (length b)) (write_block off b ws) = b.
Proof.
  intros Ho Hb. unfold slice. replace (off + Z.of_nat (length b) - off) with (Z.of_nat (length b)) by lia.
  rewrite Nat2Z.id. pose proof (write_length off b ws Ho Hb) as Hl. apply words_ext.
  - rewrite length_take, length_drop. lia.
  - intros i Hi. rewrite length_take, length_drop in Hi. unfold get_word at 1. rewrite lookup_take_lt, lookup_drop by lia.
    replace (Z.to_nat off + Z.to_nat i)%nat with (Z.to_nat (off + i)) by lia.
    fold (get_word (write_block off b ws) (off + i)). rewrite write_get by lia.
    zbool (off <=? off + i) true. zbool (off + i <? off + Z.of_nat (length b)) true. cbn [andb]. f_equal. lia.
Qed.

Lemma slice_read n off ws :
  0 <= off -> off + Z.of_nat n <= Z.of_nat (length ws) -> slice off (off + Z.of_nat n) ws = read_block n off ws.
Proof.
  intros Ho Hl. unfold slice. replace (off + Z.of_nat n - off) with (Z.of_nat n) by lia. rewrite Nat2Z.id.
  apply words_ext.
  - rewrite length_take, length_drop, read_length. lia.
  - intros i Hi. rewrite length_take, length_drop in Hi. rewrite read_get by lia.
    unfold get_word. rewrite lookup_take_lt, lookup_drop by lia. do 2 f_equal. lia.
Qed.

(** * One block at a time *)

(** What a block cipher promises: blocks keep their size, only the bits of the
    words count, and decryption undoes encryption. *)
Class BlockCipherLaws `{BlockCipher} := {
  bc_range : 0 < bc_size <= 63;
  enc_length b : length b = Z.to_nat bc_size -> length (enc b) = Z.to_nat bc_size;
  dec_length b : length b = Z.to_nat bc_size -> length (dec b) = Z.to_nat bc_size;
  enc_weq b b' : weq b b' -> enc b = enc b';
  dec_weq b b' : weq b b' -> dec b = dec b';
  dec_enc b : length b = Z.to_nat bc_size -> weq (dec (enc b)) b
}.

Section Steps.
Context `{L : BlockCipherLaws}.
#[local] Abbreviation n := (Z.to_nat bc_size).

Definition mix (st : mode_state) : list Z := read_block n 0 (mixing st).

(** The counter of a CTR mode after a block. *)
Definition next_counter (st : mode_state) : list Z :=
  set_word (mixing st) (bc_size - 1) ((get_word (mixing st) (bc_size - 1) + 1) |w 0).

Definition enc_fun (m : block_mode) (st : mode_state) (b : list Z) : mode_state * list Z :=
  match m with
  | CBC => let c := enc (xor_list b (mix st)) in (Mode None c, c)
  | CFB => let c := xor_list b (enc (mix st)) in (Mode None c, c)
  | OFB => (Mode None (encryptBlock 0 (mixing st)), xor_list b (enc (mix st)))
  | CTR => (Mode None (next_counter st), xor_list b (enc (mix st)))
  | CTRGladman =>
      (Mode None (incCounter (mixing st)), xor_list b (enc (read_block n 0 (incCounter (mixing st)))))
  | ECB => (st, enc b)
  end.
Definition dec_fun (m : block_mode) (st : mode_state) (b : list Z) : mode_state * list Z :=
  match m with
  | CBC => (Mode None b, xor_list (dec b) (mix st))
  | CFB => (Mode None b, xor_list b (enc (mix st)))
  | ECB => (st, dec b)
  | m => enc_fun m st b
  end.

Lemma n_pos : (0 < n)%nat.
Proof using L. pose proof bc_range. lia. Qed.
Lemma not_nil (b : list Z) : length b = n -> b <> [].
Proof using L. intros Hb ->. pose proof n_pos. simpl in Hb. lia. Qed.

Lemma keystream_read off ws ks :
  0 <= off -> xor_block n (encryptBlock 0 ks) off ws =
  write_block off (xor_list (read_block n off ws) (enc (read_block n 0 ks))) ws.
Proof using L.
  intros Ho. pose proof n_pos. rewrite xor_block_write by lia. unfold encryptBlock, in_place.
  by rewrite read_write by (lia || apply enc_length, read_length).
Qed.

Lemma enc_step m off st ws :
  0 <= off ->
  encryptor m off (st, ws) =
  let '(st', b) := enc_fun m st (read_block n off ws) in (st', write_block off b ws).
Proof using L.
  intros Ho. pose proof n_pos. pose proof bc_range.
  assert (forall b, length b = n -> slice off (off + bc_size) (write_block off b ws) = b) as Hs.
  { intros b Hb. replace bc_size with (Z.of_nat (length b)) by lia. apply slice_write; [done|by apply not_nil]. }
  assert (length (xor_list (read_block n off ws) (mix st)) = n) as Hx by (apply xor_list_length; apply read_length).
  destruct m; cbn [encryptor enc_fun].
  - unfold CBC_encrypt. rewrite xor_block_write by lia. fold (mix st). set (x := xor_list _ _) in *.
    assert (encryptBlock off (write_block off x ws) = write_block off (enc x) ws) as ->.
    { unfold encryptBlock, in_place. rewrite read_write by done.
      apply write_write; [done|by rewrite enc_length|by apply not_nil]. }
    rewrite Hs by (by apply enc_length). done.
  - unfold CFB_encrypt. rewrite keystream_read by done. fold (mix st).
    rewrite Hs; [done|]. apply xor_list_length; [apply read_length|apply enc_length, read_length].
  - unfold OFB_process. by rewrite keystream_read.
  - unfold CTR_process. cbv zeta. by rewrite keystream_read.
  - unfold CTRGladman_process. cbv zeta. by rewrite keystream_read.
  - done.
Qed.

Lemma dec_step m off st ws :
  0 <= off -> off + bc_size <= Z.of_nat (length ws) ->
  decryptor m off (st, ws) =
  let '(st', b) := dec_fun m st (read_block n off ws) in (st', write_block off b ws).
Proof using L.
  intros Ho Hl. pose proof n_pos. pose proof bc_range.
  assert (slice off (off + bc_size) ws = read_block n off ws) as Hs.
  { pose proof (slice_read n off ws Ho) as E. rewrite Z2Nat.id in E by lia. by apply E. }
  destruct m; cbn [decryptor dec_fun]; [| |apply (enc_step OFB off st ws Ho)|apply (enc_step CTR off st ws Ho)
    |apply (enc_step CTRGladman off st ws Ho)|done].
  - unfold CBC_decrypt. rewrite Hs. unfold decryptBlock, in_place. set (b := read_block n off ws).
    assert (length (dec b) = n) as Hd by (apply dec_length, read_length).
    rewrite xor_block_write, read_write by lia. fold (mix st).
    rewrite write_write; [done|done| |by apply not_nil].
    rewrite (xor_list_length _ _ n); [done|done|apply read_length].
  - unfold CFB_decrypt. rewrite Hs. by rewrite keystream_read.
Qed.

(** * Decrypting a block *)

Lemma xor_u32 a a' b b' : u32 a = u32 a' -> u32 b = u32 b' -> a ^w b = a' ^w b'.
Proof using Type.
  intros Ha Hb. unfold js_xor. by rewrite (proj1 (u32_eq_s32 a a') Ha), (proj1 (u32_eq_s32 b b') Hb).
Qed.

Lemma xor_list_weq a a' b b' : weq a a' -> weq b b' -> xor_list a b = xor_list a' b'.
Proof using Type.
  revert a' b b'. unfold weq, xor_list. induction a as [|x a IH]; intros [|x' a'] [|y b] [|y' b'] Ha Hb; try done.
  rewrite !fmap_cons in *. injection Ha as Hx Ha. injection Hb as Hy Hb. simpl.
  f_equal; [by apply xor_u32|by apply IH].
Qed.

Lemma xor_list_cancel a b : length a = length b -> weq (xor_list (xor_list a b) b) a.
Proof using Type.
  revert b. unfold weq, xor_list. induction a as [|x a IH]; intros [|y b] Hl; try done. simpl in Hl.
  simpl. f_equal; [|apply IH; lia]. rewrite !u32_xor, Z.lxor_assoc, Z.lxor_nilpotent, Z.lxor_0_r. done.
Qed.

(** States of which the mode makes the same use. *)
Definition st_eq (m : block_mode) (st st' : mode_state) : Prop :=
  match m with
  | CBC | CFB => weq (mix st) (mix st')
  | ECB => True
  | _ => mixing st = mixing st'
  end.

#[export] Instance st_eq_equiv m : Equivalence (st_eq m).
Proof using Type.
  split; destruct m; cbn; repeat intro; try done; try congruence; try reflexivity; try (by symmetry); by etrans.
Qed.

Lemma mix_block b : length b = n -> mix (Mode None b) = b.
Proof using Type.
  intros Hb. unfold mix, mixing. cbn. apply words_ext; [by rewrite read_length|]. rewrite read_length.
  intros i Hi. rewrite read_get by lia. f_equal.
Qed.

Lemma xor_enc_length b st : length b = n -> length (xor_list b (enc (mix st))) = n.
Proof using L. intros Hb. apply xor_list_length; [done|apply enc_length, read_length]. Qed.

Lemma enc_fun_length m st b : length b = n -> length (enc_fun m st b).2 = n.
Proof using L.
  intros Hb. destruct m; cbn [enc_fun snd]; try (by apply xor_enc_length).
  - apply enc_length, xor_list_length; [done|apply read_length].
  - apply xor_list_length; [done|apply enc_length, read_length].
  - by apply enc_length.
Qed.
Lemma dec_fun_length m st b : length b = n -> length (dec_fun m st b).2 = n.
Proof using L.
  intros Hb. destruct m; try (by apply (enc_fun_length _ st b Hb)); cbn [dec_fun snd].
  - apply xor_list_length; [by apply dec_length|apply read_length].
  - by apply xor_enc_length.
  - by apply dec_length.
Qed.

Lemma enc_fun_proper m st st' b b' :
  st_eq m st st' -> weq b b' ->
  (enc_fun m st b).2 = (enc_fun m st' b').2 /\ st_eq m (enc_fun m st b).1 (enc_fun m st' b').1.
Proof using L.
  intros Hst Hb. destruct m; cbn [st_eq enc_fun fst snd] in *.
  - rewrite (xor_list_weq b b' (mix st) (mix st')) by done. done.
  - rewrite (enc_weq _ _ Hst), (xor_list_weq b b' (enc (mix st')) (enc (mix st'))) by done. done.
  - unfold mix in *. rewrite Hst. by rewrite (xor_list_weq b b' (enc _) (enc (read_block n 0 (mixing st')))) by done.
  - unfold mix, next_counter in *. rewrite Hst.
    by rewrite (xor_list_weq b b' (enc _) (enc (read_block n 0 (mixing st')))) by done.
  - rewrite Hst. by rewrite (xor_list_weq b b' (enc _) (enc (read_block n 0 (incCounter (mixing st'))))) by done.
  - by rewrite (enc_weq b b').
Qed.

Lemma dec_fun_proper m st st' b b' :
  length b = n -> st_eq m st st' -> weq b b' ->
  (dec_fun m st b).2 = (dec_fun m st' b').2 /\ st_eq m (dec_fun m st b).1 (dec_fun m st' b').1.
Proof using L.
  intros Hl Hst Hb. assert (length b' = n) as Hl'.
  { apply (f_equal length) in Hb. rewrite !length_fmap in Hb. lia. }
  destruct m; try (by apply (enc_fun_proper _ st st' b b' Hst Hb)); cbn [st_eq dec_fun fst snd] in *.
  - rewrite !mix_block, (dec_weq b b') by done. split; [by apply xor_list_weq|done].
  - rewrite !mix_block, (enc_weq _ _ Hst) by done. split; [by apply xor_list_weq|done].
  - by rewrite (dec_weq b b').
Qed.

(** Decrypting the block just encrypted. *)
Lemma dec_enc_fun m st st' b c :
  st_eq m st st' -> length b = n -> weq c (enc_fun m st b).2 ->
  weq (dec_fun m st' c).2 b /\ st_eq m (enc_fun m st b).1 (dec_fun m st' c).1.
Proof using L.
  intros Hst Hb Hc. pose proof (weq_length _ _ Hc) as Hlc. rewrite enc_fun_length in Hlc by done.
  assert (forall ks, length ks = n -> weq c (xor_list b ks) -> weq (xor_list c ks) b) as Hx.
  { intros ks Hk Hw. rewrite (xor_list_weq c (xor_list b ks) ks ks) by done. apply xor_list_cancel. lia. }
  destruct m; cbn [st_eq enc_fun dec_fun fst snd] in *.
  - assert (length (xor_list b (mix st)) = n) as Hlx by (apply xor_list_length; [done|apply read_length]).
    rewrite !mix_block by (done || by apply enc_length). split; [|by symmetry].
    rewrite (dec_weq _ _ Hc). rewrite (xor_list_weq _ _ (mix st') (mix st) (dec_enc _ Hlx)) by (by symmetry).
    apply xor_list_cancel. rewrite Hb. symmetry. apply read_length.
  - rewrite !mix_block by (done || by apply xor_enc_length). split; [|by symmetry].
    rewrite <- (enc_weq _ _ Hst). apply Hx; [apply enc_length, read_length|done].
  - unfold mix in *. rewrite <- Hst. split; [|done]. apply Hx; [apply enc_length, read_length|done].
  - unfold mix, next_counter in *. rewrite <- Hst. split; [|done]. apply Hx; [apply enc_length, read_length|done].
  - rewrite <- Hst. split; [|done]. apply Hx; [apply enc_length, read_length|done].
  - split; [|done]. rewrite (dec_weq _ _ Hc). by apply dec_enc.
Qed.
End Steps.

(** * Runs over the blocks of an array *)

Section Runs.
Context `{L : BlockCipherLaws}.
#[local] Abbreviation n := (Z.to_nat bc_size).

(** [F] on the blocks [B 0], ..., [B (k - 1)]: the state and the words out. *)
Definition run (F : mode_state -> list Z -> mode_state * list Z) (k : nat) (st : mode_state) (B : Z -> list Z) :
    mode_state * list Z :=
  loop k (fun i x => let '(st, b) := F x.1 (B i) in (st, x.2 ++ b)) (st, []).

Lemma run_length F k st B :
  (forall st b, length b = n -> length (F st b).2 = n) -> (forall i, length (B i) = n) ->
  length (run F k st B).2 = (k * n)%nat.
Proof using Type.
  intros HF HB. unfold run. induction k as [|k IH]; [done|]. rewrite loop_S.
  destruct (loop k _ _) as [st' o]. cbn [fst snd] in *. specialize (HF st' (B (Z.of_nat k)) (HB _)).
  destruct (F st' (B (Z.of_nat k))) as [st'' b]. cbn [snd] in *. rewrite length_app. lia.
Qed.

Lemma run_ext F k st B B' :
  (forall i, 0 <= i < Z.of_nat k -> B i = B' i) -> run F k st B = run F k st B'.
Proof using Type. intros HB. apply loop_ext. intros i x Hi. by rewrite HB. Qed.

Lemma run_add F j k st B :
  run F (j + k) st B =
  let '(st1, o1) := run F j st B in
  let '(st2, o2) := run F k st1 (fun i => B (Z.of_nat j + i)) in (st2, o1 ++ o2).
Proof using Type.
  unfold run. induction k as [|k IH].
  { rewrite Nat.add_0_r. destruct (loop j _ _) as [st1 o1]. cbn [loop]. by rewrite app_nil_r. }
  rewrite Nat.add_succ_r, !loop_S, IH. destruct (loop j _ _) as [st1 o1]. rewrite loop_S.
  destruct (loop k _ _) as [st2 o2]. cbn [fst snd]. replace (Z.of_nat (j + k)) with (Z.of_nat j + Z.of_nat k) by lia.
  destruct (F st2 _) as [st3 b]. by rewrite app_assoc.
Qed.

Lemma get_word_app a b i :
  0 <= i -> get_word (a ++ b) i = if i <? Z.of_nat (length a) then get_word a i else get_word b (i - Z.of_nat (length a)).
Proof using Type.
  intros Hi. unfold get_word. destruct (Z.ltb_spec i (Z.of_nat (length a))).
  - by rewrite lookup_app_l by lia.
  - rewrite lookup_app_r by lia. do 2 f_equal. lia.
Qed.

Lemma get_word_drop k ws i : 0 <= i -> get_word (drop k ws) i = get_word ws (Z.of_nat k + i).
Proof using Type. intros Hi. unfold get_word. rewrite lookup_drop. do 2 f_equal. lia. Qed.

(** The loop of [_process] over an array. *)
Lemma loop_run step F K st ws :
  (forall st b, length b = n -> length (F st b).2 = n) ->
  (forall i st ws', 0 <= i < Z.of_nat K -> (length ws <= length ws')%nat ->
    step (i * bc_size) (st, ws') =
    let '(st', b) := F st (read_block n (i * bc_size) ws') in (st', write_block (i * bc_size) b ws')) ->
  loop K (fun i => step (i * bc_size)) (st, ws) =
  let '(st', o) := run F K st (fun i => read_block n (i * bc_size) ws) in (st', o ++ drop (K * n) ws).
Proof using L.
  intros HF Hstep. pose proof bc_range. pose proof n_pos.
  set (B := fun i => read_block n (i * bc_size) ws).
  assert (forall i, length (B i) = n) as HB by (intros; apply read_length).
  induction K as [|K IH]; [by rewrite drop_0|]. rewrite loop_S, IH by (intros; apply Hstep; lia).
  pose proof (run_length F K st B HF HB) as Hlen.
  assert (run F (S K) st B = let '(st', b) := F (run F K st B).1 (B (Z.of_nat K)) in (st', (run F K st B).2 ++ b)) as ->
    by (unfold run; by rewrite loop_S).
  destruct (run F K st B) as [st' o]. cbn [fst snd] in *.
  rewrite Hstep; [|lia|rewrite length_app, length_drop; lia].
  assert (read_block n (Z.of_nat K * bc_size) (o ++ drop (K * n) ws) = B (Z.of_nat K)) as ->.
  { apply words_ext; [by rewrite HB, read_length|]. rewrite read_length. intros i Hi. unfold B.
    rewrite !read_get, get_word_app by lia. zbool (Z.of_nat K * bc_size + i <? Z.of_nat (length o)) false.
    rewrite get_word_drop by lia. f_equal. lia. }
  specialize (HF st' (B (Z.of_nat K)) (HB _)). destruct (F st' (B (Z.of_nat K))) as [st'' b]. cbn [snd] in HF.
  f_equal. apply words_ext.
  - apply Nat2Z.inj. rewrite write_length by (try lia; by apply not_nil).
    rewrite !length_app, !length_drop. lia.
  - intros i Hi. rewrite write_get by lia. rewrite !get_word_app by lia. rewrite !length_app, HF, Hlen.
    destruct (Z.leb_spec (Z.of_nat K * bc_size) i) as [Hge|Hlt]; cbn [andb].
    + destruct (Z.ltb_spec i (Z.of_nat K * bc_size + Z.of_nat n)).
      * zbool (i <? Z.of_nat (K * n + n)) true. zbool (i <? Z.of_nat (K * n)) false. f_equal. lia.
      * zbool (i <? Z.of_nat (K * n + n)) false. zbool (i <? Z.of_nat (K * n)) false.
        rewrite !get_word_drop by lia. f_equal. lia.
    + zbool (i <? Z.of_nat (K * n + n)) true. by zbool (i <? Z.of_nat (K * n)) true.
Qed.

(** Runs on the same bits. *)
Lemma run_proper F m k st st' B B' :
  (forall st st' b b', length b = n -> st_eq m st st' -> weq b b' ->
     (F st b).2 = (F st' b').2 /\ st_eq m (F st b).1 (F st' b').1) ->
  (forall i, length (B i) = n) -> st_eq m st st' ->
  (forall i, 0 <= i < Z.of_nat k -> weq (B i) (B' i)) ->
  (run F k st B).2 = (run F k st' B').2 /\ st_eq m (run F k st B).1 (run F k st' B').1.
Proof using Type.
  intros HF HB Hst Hw. unfold run. induction k as [|k IH]; [done|]. rewrite !loop_S.
  destruct IH as [IH1 IH2]; [intros; apply Hw; lia|].
  destruct (loop k _ (st, [])) as [s1 o1]. destruct (loop k _ (st', [])) as [s2 o2]. cbn [fst snd] in *. subst o2.
  destruct (HF s1 s2 (B (Z.of_nat k)) (B' (Z.of_nat k)) (HB _) IH2 (Hw (Z.of_nat k) ltac:(lia))) as [E1 E2].
  destruct (F s1 _), (F s2 _). cbn [fst snd] in *. by subst.
Qed.

(** Decrypting the blocks that were encrypted. *)
Lemma run_decrypt m k st st' B C :
  (forall i, length (B i) = n) -> st_eq m st st' ->
  (forall i, 0 <= i < Z.of_nat k -> weq (C i) (read_block n (i * bc_size) (run (enc_fun m) k st B).2)) ->
  weq (run (dec_fun m) k st' C).2 (run (fun s b => (s, b)) k st B).2 /\
  st_eq m (run (enc_fun m) k st B).1 (run (dec_fun m) k st' C).1.
Proof using L.
  intros HB Hst. pose proof bc_range. induction k as [|k IH]; [done|]. unfold run in *. rewrite !loop_S. intros HC.
  pose proof (run_length (enc_fun m) k st B (enc_fun_length m) HB) as Hlen. unfold run in Hlen.
  destruct (loop k (fun i x => let '(st, b) := enc_fun m _ _ in _) (st, [])) as [s1 o1].
  destruct (loop k (fun i x => let '(st, b) := dec_fun m _ _ in _) (st', [])) as [s2 o2].
  destruct (loop k _ (st, [])) as [s3 o3]. cbn [fst snd] in *.
  pose proof (enc_fun_length m s1 (B (Z.of_nat k)) (HB _)) as Hlb.
  destruct (enc_fun m s1 (B (Z.of_nat k))) as [s1' b1] eqn:E1. cbn [snd] in *.
  assert (forall i, 0 <= i < Z.of_nat k -> weq (C i) (read_block n (i * bc_size) o1)) as HC'.
  { intros i Hi. rewrite (HC i) by lia.
    enough (read_block n (i * bc_size) (o1 ++ b1) = read_block n (i * bc_size) o1) as -> by done.
    apply words_ext; [by rewrite !read_length|]. rewrite read_length. intros j Hj.
    assert ((i + 1) * bc_size <= Z.of_nat k * bc_size) by (apply Z.mul_le_mono_nonneg_r; lia).
    assert (0 <= i * bc_size) by (apply Z.mul_nonneg_nonneg; lia).
    assert (0 <= i * bc_size + j < Z.of_nat (length o1)) as Hij by (rewrite Hlen; lia).
    rewrite !read_get, get_word_app by lia. by zbool (i * bc_size + j <? Z.of_nat (length o1)) true. }
  destruct (IH HC') as [IH1 IH2].
  assert (weq (C (Z.of_nat k)) b1) as Hcb.
  { rewrite (HC (Z.of_nat k)) by lia.
    enough (read_block n (Z.of_nat k * bc_size) (o1 ++ b1) = b1) as -> by done.
    apply words_ext; [by rewrite read_length|]. rewrite read_length. intros j Hj.
    rewrite read_get, get_word_app by lia. zbool (Z.of_nat k * bc_size + j <? Z.of_nat (length o1)) false.
    f_equal. lia. }
  destruct (dec_enc_fun m s1 s2 (B (Z.of_nat k)) (C (Z.of_nat k)) IH2 (HB _)) as [D1 D2]; [by rewrite E1|].
  rewrite E1 in D2. destruct (dec_fun m s2 (C (Z.of_nat k))) as [s2' b2]. cbn [fst snd] in *.
  split; [|done]. unfold weq. rewrite !fmap_app. f_equal; [exact IH1|exact D1].
Qed.
End Runs.
