(* ===== verification/CipherRoundtrip.v ===== *)
(** Paddings and whole ciphers: unpadding undoes padding, and decrypting undoes
    encrypting, for every mode and padding. *)
From Stdlib Require Import ZArith Lia.
From S2P Require Import Prelude Words WordArray Hasher Cipher CipherBlocks.
Open Scope Z_scope.
Open Scope word_scope.

(** * Paddings *)

(** What can be padded so that unpadding finds the end: anything, except that
    zeros at the end are lost with zero padding, and that there must be whole
    blocks without padding. *)
Definition paddable (p : padding) (d : wordarray) (blockSize : Z) : Prop :=
  match p with
  | ZeroPadding => exists b, b <> 0 /\ last (bytes_of d) = Some b
  | NoPadding => sigBytes d mod (blockSize * 4) = 0
  | _ => True
  end.

(** The bytes that are added. *)
Definition padding_bytes (p : padding) (d : wordarray) (blockSize : Z) : list Z :=
  let k := nPadding d blockSize in
  match p with
  | Pkcs7 => replicate (Z.to_nat k) k
  | AnsiX923 => replicate (Z.to_nat (k - 1)) 0 ++ [k]
  | Iso10126 random => bytes_of (WA random (k - 1)) ++ [k]
  | Iso97971 => [0x80] ++ replicate (Z.to_nat (k - 1)) 0
  | ZeroPadding => replicate (Z.to_nat ((- sigBytes d) mod (blockSize * 4))) 0
  | NoPadding => []
  end.

Section Paddings.
Context (d : wordarray) (blockSize : Z).
Hypothesis Hd : clean d.
Hypothesis Hsz : sigBytes d < 2 ^ 28.
Hypothesis Hbs : 0 < blockSize <= 63.

Lemma nPadding_range : 0 < nPadding d blockSize <= blockSize * 4.
Proof using Hbs. unfold nPadding. pose proof (Z.mod_pos_bound (sigBytes d) (blockSize * 4)). lia. Qed.

Lemma nPadding_end : (sigBytes d + nPadding d blockSize) mod (blockSize * 4) = 0.
Proof using Hbs.
  unfold nPadding. set (B := blockSize * 4). pose proof (Z.div_mod (sigBytes d) B ltac:(lia)).
  replace (sigBytes d + (B - sigBytes d mod B)) with ((sigBytes d / B + 1) * B) by lia. apply Z.mod_mul. lia.
Qed.

Lemma pkcs7_word k :
  is_byte k -> forall j, 0 <= j < 4 ->
  (((k <<w 24) |w (k <<w 16) |w (k <<w 8) |w k) >>>w (24 - j * 8)) &w 0xff = k.
Proof using Type.
  intros Hk j Hj.
  assert (forallb (fun j => (((k <<w 24) |w (k <<w 16) |w (k <<w 8) |w k) >>>w (24 - j * 8)) &w 0xff =? k) [0; 1; 2; 3] = true)
    as H.
  { revert k Hk. intros k. apply (byte_forall (fun k => forallb (fun j =>
      (((k <<w 24) |w (k <<w 16) |w (k <<w 8) |w k) >>>w (24 - j * 8)) &w 0xff =? k) [0; 1; 2; 3] = true)).
    vm_compute. reflexivity. }
  rewrite forallb_forall in H. apply Z.eqb_eq, H, list_elem_of_In. rewrite !elem_of_cons. lia.
Qed.

Lemma replicate_bytes w k m :
  0 <= m <= 4 * Z.of_nat k -> (forall j, 0 <= j < 4 -> (w >>>w (24 - j * 8)) &w 0xff = m) ->
  bytes_of (WA (replicate k w) m) = replicate (Z.to_nat m) m.
Proof using Type.
  intros Hm Hw. apply bytes_eq; cbn [words sigBytes]; [lia|rewrite length_replicate; lia|].
  intros i Hi. rewrite lookup_replicate_2 by lia. f_equal. unfold byte_at. pose proof (div_4_bounds i).
  unfold get_word. rewrite lookup_replicate_2 by lia. simpl. rewrite Hw; [done|]. apply Z.mod_pos_bound. lia.
Qed.

Lemma bytes_zero_extend w m :
  0 <= sigBytes w <= m -> bytes_of (WA (words (clamp w)) m) = bytes_of w ++ replicate (Z.to_nat (m - sigBytes w)) 0.
Proof using Type.
  intros Hm. apply bytes_eq; cbn [words sigBytes]; [lia|rewrite length_app, length_replicate, bytes_length; lia|].
  intros i Hi. rewrite clamp_byte by lia. destruct (Z.ltb_spec i (sigBytes w)).
  - rewrite lookup_app_l by (rewrite bytes_length; lia). apply lookup_bytes. lia.
  - rewrite lookup_app_r by (rewrite bytes_length; lia). rewrite bytes_length. apply lookup_replicate_2. lia.
Qed.

Lemma zero_pad_bytes w :
  0 <= sigBytes w -> bytes_of (ZeroPadding_pad w blockSize) =
    bytes_of w ++ replicate (Z.to_nat ((- sigBytes w) mod (blockSize * 4))) 0 /\
  sigBytes (ZeroPadding_pad w blockSize) = sigBytes w + (- sigBytes w) mod (blockSize * 4).
Proof using Hbs.
  intros Hw. unfold ZeroPadding_pad. cbv zeta. set (B := blockSize * 4). cbn [sigBytes].
  assert ((B - (if sigBytes w mod B =? 0 then B else sigBytes w mod B)) = (- sigBytes w) mod B) as ->.
  { destruct (Z.eqb_spec (sigBytes w mod B) 0) as [E|E].
    - rewrite Z.mod_opp_l_z; lia.
    - rewrite Z.mod_opp_l_nz; lia. }
  split; [|done]. pose proof (Z.mod_pos_bound (- sigBytes w) B ltac:(lia)). rewrite bytes_zero_extend by lia.
  do 3 f_equal. lia.
Qed.

Lemma pad_bytes p :
  (p = NoPadding -> sigBytes d mod (blockSize * 4) = 0) ->
  bytes_of (pad p d blockSize) = bytes_of d ++ padding_bytes p d blockSize /\
  0 <= sigBytes (pad p d blockSize) < 2 ^ 28 + 512 /\ sigBytes (pad p d blockSize) mod (blockSize * 4) = 0.
Proof using Hd Hsz Hbs.
  intros Hp. pose proof Hd as [[Hs Hl] Hz]. pose proof nPadding_range as Hk. pose proof nPadding_end as He.
  set (k := nPadding d blockSize) in *. unfold pad, padding_bytes. fold k. destruct p.
  - unfold Pkcs7_pad. fold k. cbv zeta. set (w := (_ |w _) |w k).
    rewrite concat_bytes by (cbn; lia). rewrite replicate_bytes; [|Z.div_mod_to_equations; lia|].
    2: { apply pkcs7_word. unfold is_byte. lia. }
    cbn [sigBytes concat]. split; [done|]. split; [lia|done].
  - unfold AnsiX923_pad. fold k. cbv zeta. cbn [sigBytes]. split; [|split; [lia|done]].
    apply bytes_eq; cbn [words sigBytes]; [lia|rewrite !length_app, length_replicate, bytes_length; simpl; lia|].
    intros i Hi. assert (byte_at (words (clamp d)) (sigBytes d + k - 1) = 0) as H0.
    { rewrite clamp_byte by lia. by zbool (sigBytes d + k - 1 <? sigBytes d) false. }
    rewrite or_byte_spec by (unfold is_byte; lia || done).
    destruct (Z.eqb_spec i (sigBytes d + k - 1)) as [->|].
    + rewrite lookup_app_r, lookup_app_r by (rewrite ?length_replicate, ?bytes_length; lia).
      rewrite length_replicate, bytes_length.
      by replace (Z.to_nat (sigBytes d + k - 1) - Z.to_nat (sigBytes d) - Z.to_nat (k - 1))%nat with 0%nat by lia.
    + rewrite clamp_byte by lia. destruct (Z.ltb_spec i (sigBytes d)).
      * rewrite lookup_app_l by (rewrite bytes_length; lia). apply lookup_bytes. lia.
      * rewrite lookup_app_r by (rewrite bytes_length; lia).
        rewrite lookup_app_l by (rewrite length_replicate, bytes_length; lia). rewrite bytes_length.
        apply lookup_replicate_2. lia.
  - unfold Iso10126_pad. fold k. cbv zeta. rewrite !concat_bytes by (cbn; lia).
    assert (bytes_of (WA [k <<w 24] 1) = [k]) as ->.
    { unfold bytes_of. cbn [words sigBytes]. change (seqZ 0 1) with [0]. cbn [fmap list_fmap]. f_equal.
      assert (is_byte k) as Hkb by (unfold is_byte; lia).
      apply (byte_forall (fun k => byte_at [k <<w 24] 0 = k)); [vm_compute; reflexivity|done]. }
    cbn [sigBytes concat]. rewrite <- app_assoc. split; [done|].
    replace (sigBytes d + (k - 1) + 1) with (sigBytes d + k) by lia. split; [lia|done].
  - unfold Iso97971_pad. set (w := concat d (WA [0x80000000] 1)).
    assert (sigBytes w = sigBytes d + 1) as Ew by done.
    destruct (zero_pad_bytes w ltac:(lia)) as [-> E]. rewrite E, Ew.
    assert ((- (sigBytes d + 1)) mod (blockSize * 4) = k - 1) as ->.
    { symmetry. apply (Z.mod_unique_pos _ _ (- ((sigBytes d + k) / (blockSize * 4)))); [lia|].
      pose proof (Z.div_mod (sigBytes d + k) (blockSize * 4) ltac:(lia)). lia. }
    unfold w. rewrite concat_bytes by (cbn; lia). change (bytes_of (WA [0x80000000] 1)) with [0x80].
    rewrite <- app_assoc. split; [done|]. replace (sigBytes d + 1 + (k - 1)) with (sigBytes d + k) by lia. split; [lia|done].
  - destruct (zero_pad_bytes d Hs) as [-> ->]. pose proof (Z.mod_pos_bound (- sigBytes d) (blockSize * 4) ltac:(lia)).
    split; [done|]. split; [lia|]. rewrite Z.add_mod_idemp_r by lia. by rewrite Z.add_opp_diag_r.
  - rewrite app_nil_r. split; [done|]. split; [lia|]. by apply Hp.
Qed.
End Paddings.

(** * Unpadding *)

Lemma bytes_take w m : 0 <= m <= sigBytes w -> bytes_of (WA (words w) m) = take (Z.to_nat m) (bytes_of w).
Proof.
  intros Hm. apply bytes_eq; cbn [words sigBytes]; [lia|rewrite length_take, bytes_length; lia|].
  intros i Hi. rewrite lookup_take_lt by lia. apply lookup_bytes. lia.
Qed.

Lemma last_byte_word ws k : 0 <= k -> get_word ws k &w 0xff = byte_at ws (4 * k + 3).
Proof.
  intros Hk. rewrite byte_at_word by lia. change (24 - 3 * 8) with 0.
  apply byte_ext; [pose proof (and_range (get_word ws k) 0xff); unfold is_byte; lia
    |pose proof (and_range (get_word ws k >>>w 0) 0xff); unfold is_byte; lia|].
  intros j Hj. rewrite !and_bits, ushr_bits by lia. zbool (j + 0 <? 32) true. cbn [andb]. by rewrite Z.add_0_r.
Qed.

(** The last byte tells how many to remove. *)
Lemma unpad_last_bytes e m t k :
  bytes_of e = m ++ t -> last t = Some k -> k = Z.of_nat (length t) -> 0 <= sigBytes e < 2 ^ 32 -> sigBytes e mod 4 = 0 ->
  bytes_of (unpad_last e) = m.
Proof.
  intros He Ht Hk Hs Hm. pose proof (f_equal length He) as Hl. rewrite bytes_length, length_app in Hl.
  assert (0 < length t)%nat by (destruct t; [done|simpl; lia]).
  assert (get_word (words e) ((sigBytes e - 1) >>>w 2) &w 0xff = k) as E.
  { rewrite ushr_div by lia. change (2 ^ 2) with 4.
    rewrite last_byte_word by (apply Z.div_pos; lia).
    replace (4 * ((sigBytes e - 1) / 4) + 3) with (sigBytes e - 1) by (Z.div_mod_to_equations; lia).
    enough (Some (byte_at (words e) (sigBytes e - 1)) = Some k) by congruence.
    rewrite <- lookup_bytes, He, <- Ht by lia. rewrite lookup_app_r by lia.
    rewrite last_lookup. f_equal. lia. }
  unfold unpad_last. rewrite E, bytes_take by lia. rewrite He. rewrite take_app_le by lia.
  apply firstn_all2. lia.
Qed.

Lemma last_nonzero_find ws i k :
  0 <= i -> byte_at ws i <> 0 -> (forall q, i < q <= i + Z.of_nat k -> byte_at ws q = 0) ->
  forall fuel, (k < fuel)%nat -> last_nonzero fuel ws (i + Z.of_nat k) = Some i.
Proof.
  intros Hi Hb Hz. induction k as [|k IH]; intros [|fuel] Hf; try lia; cbn [last_nonzero].
  - rewrite Z.add_0_r. by zbool (byte_at ws i =? 0) false.
  - rewrite Hz by lia. cbn [Z.eqb]. replace (i + Z.of_nat (S k) - 1) with (i + Z.of_nat k) by lia.
    apply IH; [|lia]. intros q Hq. apply Hz. lia.
Qed.

Lemma zero_unpad_bytes e m b k :
  bytes_of e = m ++ [b] ++ replicate k 0 -> b <> 0 -> 0 <= sigBytes e ->
  ZeroPadding_unpad e = Some (WA (words e) (Z.of_nat (length m) + 1)) /\ 
  bytes_of (WA (words e) (Z.of_nat (length m) + 1)) = m ++ [b].
Proof.
  intros He Hb Hs. pose proof (f_equal length He) as Hl. rewrite bytes_length, !length_app, length_replicate in Hl.
  simpl length in Hl.
  assert (forall q, 0 <= q < sigBytes e -> Some (byte_at (words e) q) = (m ++ [b] ++ replicate k 0) !! Z.to_nat q) as Hq.
  { intros q Hq. by rewrite <- He, lookup_bytes. }
  set (i := Z.of_nat (length m)). split.
  - unfold ZeroPadding_unpad. replace (sigBytes e - 1) with (i + Z.of_nat k) by lia.
    rewrite (last_nonzero_find (words e) i k); [done|lia| | |lia].
    + specialize (Hq i ltac:(lia)). rewrite lookup_app_r in Hq by lia.
      replace (Z.to_nat i - length m)%nat with 0%nat in Hq by lia. simpl in Hq. congruence.
    + intros q Hiq. specialize (Hq q ltac:(lia)). rewrite !lookup_app_r in Hq by (simpl; lia).
      rewrite lookup_replicate_2 in Hq by (simpl; lia). congruence.
  - rewrite bytes_take, He by lia. rewrite app_assoc, take_app_le by (rewrite length_app; simpl; lia).
    apply firstn_all2. rewrite length_app. simpl. lia.
Qed.

(** Unpadding what has the padded bytes. *)
Lemma unpad_bytes p d blockSize e :
  clean d -> sigBytes d < 2 ^ 28 -> 0 < blockSize <= 63 -> paddable p d blockSize ->
  sigBytes e = sigBytes (pad p d blockSize) -> bytes_of e = bytes_of (pad p d blockSize) ->
  exists e', unpad p e = Some e' /\ bytes_of e' = bytes_of d.
Proof.
  intros Hd Hsz Hbs Hp Hse Hbe. destruct (pad_bytes d blockSize Hd Hsz Hbs p) as (Hb & Hr & Hm);
    [by intros ->|].
  rewrite <- Hse in Hr, Hm. rewrite Hb in Hbe. pose proof (nPadding_range d blockSize Hbs) as Hk.
  assert (sigBytes e mod 4 = 0) as Hm4.
  { rewrite (Z.div_mod (sigBytes e) (blockSize * 4)), Hm by lia.
    replace (blockSize * 4 * (sigBytes e / (blockSize * 4)) + 0) with (blockSize * (sigBytes e / (blockSize * 4)) * 4) by lia.
    apply Z.mod_mul. lia. }
  unfold padding_bytes in Hbe. cbv zeta in Hbe. set (k := nPadding d blockSize) in *.
  destruct p; cbn [unpad].
  - exists (unpad_last e). split; [done|]. eapply unpad_last_bytes; [exact Hbe| |reflexivity|lia|done].
    rewrite last_lookup, length_replicate, lookup_replicate_2 by lia. f_equal. lia.
  - exists (unpad_last e). split; [done|]. eapply unpad_last_bytes; [exact Hbe|apply last_snoc| |lia|done].
    rewrite length_app, length_replicate. simpl. lia.
  - exists (unpad_last e). split; [done|]. eapply unpad_last_bytes; [exact Hbe|apply last_snoc| |lia|done].
    rewrite length_app, bytes_length. cbn [sigBytes]. simpl. lia.
  - unfold Iso97971_unpad. destruct (zero_unpad_bytes e _ 0x80 _ Hbe) as [E Hb']; [done|lia|]. rewrite E. cbn [mbind option_bind words sigBytes].
    eexists. split; [done|]. rewrite Z.add_simpl_r. pose proof Hd as [[Hs _] _].
    rewrite bytes_length, Z2Nat.id by done. rewrite bytes_length in Hb'. rewrite Z2Nat.id in Hb' by done.
    pose proof (bytes_take (WA (words e) (sigBytes d + 1)) (sigBytes d)) as Ht. cbn [words sigBytes] in Ht.
    rewrite Ht, Hb' by lia. rewrite take_app_le by (rewrite bytes_length; lia).
    apply firstn_all2. rewrite bytes_length. lia.
  - destruct Hp as (b & Hb0 & Hlast). apply last_Some in Hlast as [m' Hm']. rewrite Hm', <- app_assoc in Hbe.
    destruct (zero_unpad_bytes e m' b _ Hbe Hb0 ltac:(lia)) as [E Hb']. exists (WA (words e) (Z.of_nat (length m') + 1)).
    split; [exact E|]. by rewrite Hb', Hm'.
  - exists e. split; [done|]. by rewrite Hbe, app_nil_r.
Qed.

(** * Data in pieces *)

Section Pieces.
Context `{L : BlockCipherLaws}.
Variable mode : block_mode.
Variable pdg : padding.
#[local] Abbreviation n := (Z.to_nat bc_size).

(** A client that calls [process] on the pieces [ds], then [finalize] with
    [d] or with nothing, and keeps the bytes that come out. *)
Fixpoint process_all (decrypt : bool) (ds : list wordarray) (c : cipher) : list Z * cipher :=
  match ds with
  | [] => ([], c)
  | d :: ds =>
      let '(o, c) := process mode decrypt d c in
      let '(os, c) := process_all decrypt ds c in (bytes_of o ++ os, c)
  end.
Definition transform (decrypt : bool) (iv : list Z) (ds : list wordarray) (d : option wordarray) : option (list Z) :=
  let '(o, c) := process_all decrypt ds (cipher_reset iv) in
  f ← finalize_cipher mode pdg decrypt d c; Some (o ++ bytes_of f).
Definition pieces (ds : list wordarray) (d : option wordarray) : list Z :=
  (ds ≫= bytes_of) ++ match d with Some d => bytes_of d | None => [] end.

#[local] Abbreviation B := (bc_size * 4).
Definition blocks (w : wordarray) (i : Z) : list Z := read_block n (i * bc_size) (words w).
Definition fn (decrypt : bool) : mode_state -> list Z -> mode_state * list Z :=
  if decrypt then dec_fun mode else enc_fun mode.

Lemma fn_length decrypt st b : length b = n -> length (fn decrypt st b).2 = n.
Proof using L. destruct decrypt; [apply dec_fun_length|apply enc_fun_length]. Qed.
Lemma fn_proper decrypt st st' b b' :
  length b = n -> st_eq mode st st' -> weq b b' ->
  (fn decrypt st b).2 = (fn decrypt st' b').2 /\ st_eq mode (fn decrypt st b).1 (fn decrypt st' b').1.
Proof using L. intros. destruct decrypt; [by apply dec_fun_proper|by apply enc_fun_proper]. Qed.

(** One [_process] that takes [k] whole blocks. *)
Lemma process_run (decrypt flush : bool) (c : cipher) (k : nat) :
  let d := c_data c in
  (if flush then (sigBytes d + B - 1) / B else Z.max (sigBytes d / B - (if decrypt then 1 else 0)) 0) = Z.of_nat k ->
  Z.of_nat k * B <= sigBytes d ->
  (decrypt = true -> Z.of_nat k * bc_size <= Z.of_nat (length (words d))) ->
  cipher_process mode decrypt flush c =
  let '(st, o) := run (fn decrypt) k (c_mode c) (blocks d) in
  (WA o (Z.of_nat k * B), Cipher st (WA (drop (k * n) (words d)) (sigBytes d - Z.of_nat k * B)) (c_nDataBytes c)).
Proof using L.
  intros d Hk Hle Hlen. pose proof bc_range. unfold cipher_process, _process. fold d. rewrite Hk, Nat2Z.id.
  rewrite (loop_run (if decrypt then decryptor mode else encryptor mode) (fn decrypt));
    [|by apply fn_length|].
  - fold (blocks d). pose proof (run_length (fn decrypt) k (c_mode c) (blocks d) (fn_length decrypt)
      (fun i => read_length _ (i * bc_size) _)) as Hl.
    fold (blocks d). destruct (run (fn decrypt) k (c_mode c) _) as [st o]. cbn [snd] in Hl.
    replace (Z.to_nat (Z.of_nat k * bc_size)) with (k * n)%nat by lia.
    rewrite <- Hl, take_app_length, drop_app_length.
    replace (Z.min (Z.of_nat k * bc_size * 4) (sigBytes d)) with (Z.of_nat k * B) by lia. done.
  - intros i st ws' Hi Hl. destruct decrypt; cbn [fn].
    + apply dec_step; [lia|]. specialize (Hlen eq_refl).
      assert ((i + 1) * bc_size <= Z.of_nat k * bc_size) by (apply Z.mul_le_mono_nonneg_r; lia). lia.
    + apply enc_step. lia.
Qed.

(** What has come out and what is held after some pieces of the bytes of [P]:
    [k] blocks of them are processed. *)
Definition held (decrypt : bool) (st0 : mode_state) (P : wordarray) (k : nat) (o : list Z) (c : cipher) : Prop :=
  st_eq mode (run (fn decrypt) k st0 (blocks P)).1 (c_mode c) /\
  o = bytes_of (WA (run (fn decrypt) k st0 (blocks P)).2 (Z.of_nat k * B)) /\
  0 <= sigBytes (c_data c) /\ Z.of_nat k * B + sigBytes (c_data c) <= sigBytes P /\
  bytes_of (c_data c) = take (Z.to_nat (sigBytes (c_data c))) (drop (Z.to_nat (Z.of_nat k * B)) (bytes_of P)).

Lemma held_byte decrypt st0 P k o c q :
  held decrypt st0 P k o c -> 0 <= q < sigBytes (c_data c) ->
  byte_at (words (c_data c)) q = byte_at (words P) (Z.of_nat k * B + q).
Proof using L.
  intros (_ & _ & Hs & Hle & Hb) Hq. pose proof bc_range. apply (inj Some).
  assert (0 <= Z.of_nat k * B) by (apply Z.mul_nonneg_nonneg; lia).
  rewrite <- lookup_bytes, Hb by lia. rewrite lookup_take_lt, lookup_drop by lia.
  rewrite <- (lookup_bytes P) by lia. f_equal. lia.
Qed.

(** The blocks held are the next blocks of [P]. *)
Lemma held_blocks decrypt st0 P k o c i :
  held decrypt st0 P k o c -> 0 <= i -> (i + 1) * B <= sigBytes (c_data c) ->
  weq (blocks P (Z.of_nat k + i)) (blocks (c_data c) i).
Proof using L.
  intros Hh Hi Hle. pose proof bc_range. assert (0 <= i * B) by (apply Z.mul_nonneg_nonneg; lia).
  apply weq_intro; [unfold blocks; by rewrite !read_length|]. intros j Hj.
  destruct (decide (j < Z.of_nat n)) as [Hlt|Hge].
  - unfold blocks. rewrite !read_get by lia. apply word_ext; [lia|lia|]. intros t Ht. symmetry.
    rewrite (held_byte _ _ _ _ _ _ _ Hh) by lia. f_equal. lia.
  - unfold get_word. rewrite !lookup_ge_None_2; [done|unfold blocks; rewrite read_length; lia..].
Qed.

Lemma bytes_app_words a b p q :
  Z.of_nat (length a) * 4 = p -> 0 <= q -> bytes_of (WA (a ++ b) (p + q)) = bytes_of (WA a p) ++ bytes_of (WA b q).
Proof using Type.
  intros Hp Hq. apply bytes_eq; cbn [words sigBytes]; [lia|rewrite length_app, !bytes_length; cbn; lia|].
  intros i Hi. assert (byte_at (a ++ b) i = if i <? p then byte_at a i else byte_at b (i - p)) as ->.
  { unfold byte_at. rewrite get_word_app by (apply Z.div_pos; lia). destruct (Z.ltb_spec i p).
    - assert (i / 4 < Z.of_nat (length a)) by (Z.div_mod_to_equations; lia).
      by zbool (i / 4 <? Z.of_nat (length a)) true.
    - assert (Z.of_nat (length a) <= i / 4) by (Z.div_mod_to_equations; lia).
      zbool (i / 4 <? Z.of_nat (length a)) false.
      assert (i / 4 - Z.of_nat (length a) = (i - p) / 4) as -> by (Z.div_mod_to_equations; lia).
      by assert (i mod 4 = (i - p) mod 4) as -> by (Z.div_mod_to_equations; lia). }
  destruct (Z.ltb_spec i p).
  - rewrite lookup_app_l by (rewrite bytes_length; cbn; lia). apply lookup_bytes. cbn. lia.
  - rewrite lookup_app_r by (rewrite bytes_length; cbn; lia). rewrite bytes_length. cbn [sigBytes].
    replace (Z.to_nat i - Z.to_nat p)%nat with (Z.to_nat (i - p)) by lia. apply lookup_bytes. cbn. lia.
Qed.

(** Taking [j] blocks of what is held. *)
Lemma held_run decrypt flush st0 P k o c j :
  let d := c_data c in
  held decrypt st0 P k o c ->
  (if flush : bool then (sigBytes d + B - 1) / B else Z.max (sigBytes d / B - (if decrypt then 1 else 0)) 0) = Z.of_nat j ->
  Z.of_nat j * B <= sigBytes d ->
  (decrypt = true -> Z.of_nat j * bc_size <= Z.of_nat (length (words d))) ->
  let '(out, c') := cipher_process mode decrypt flush c in
  held decrypt st0 P (k + j) (o ++ bytes_of out) c' /\ sigBytes (c_data c') = sigBytes d - Z.of_nat j * B /\
  words (c_data c') = drop (j * n) (words d) /\ sigBytes out = Z.of_nat j * B.
Proof using L.
  intros d Hh Hj Hle Hlen. pose proof bc_range. pose proof Hh as (Hst & Ho & Hs & HP & Hb).
  rewrite (process_run decrypt flush c j Hj Hle Hlen). fold d.
  destruct (run_proper (fn decrypt) mode j (run (fn decrypt) k st0 (blocks P)).1 (c_mode c)
    (fun i => blocks P (Z.of_nat k + i)) (blocks d)) as [E1 E2]; [apply fn_proper|intros; apply read_length|done| |].
  { intros i Hi. apply (held_blocks _ _ _ _ _ _ _ Hh); [lia|]. fold d.
    assert ((i + 1) * B <= Z.of_nat j * B) by (apply Z.mul_le_mono_nonneg_r; lia). lia. }
  pose proof (run_length (fn decrypt) k st0 (blocks P) (fn_length decrypt) (fun i => read_length _ (i * bc_size) _)) as Hl.
  destruct (run (fn decrypt) j (c_mode c) (blocks d)) as [st' o']. cbn [fst snd] in *.
  split; [|by cbn]. unfold held. cbn [c_mode c_data words sigBytes]. rewrite run_add.
  destruct (run (fn decrypt) k st0 (blocks P)) as [s1 o1]. cbn [fst snd] in *.
  destruct (run (fn decrypt) j s1 _) as [s2 o2]. cbn [fst snd] in *. subst o2 o.
  assert (0 <= Z.of_nat j * B) by (apply Z.mul_nonneg_nonneg; lia).
  assert (0 <= Z.of_nat k * B) by (apply Z.mul_nonneg_nonneg; lia).
  fold d in Hs, HP, Hb. split; [done|]. split; [|split; [|split]]; [|lia|lia|].
  - rewrite <- bytes_app_words by lia. do 2 f_equal. lia.
  - apply bytes_eq; cbn [words sigBytes]; [lia|rewrite length_take, length_drop, bytes_length; lia|].
    intros i Hi. rewrite lookup_take_lt, lookup_drop by lia.
    replace (Z.to_nat (Z.of_nat (k + j) * B) + Z.to_nat i)%nat with (Z.to_nat (Z.of_nat k * B + (Z.of_nat j * B + i))) by lia.
    rewrite lookup_bytes by lia. f_equal. rewrite <- (held_byte _ _ _ _ _ _ _ Hh) by (fold d; lia). fold d.
    unfold byte_at. rewrite get_word_drop by (apply Z.div_pos; lia).
    replace (Z.of_nat j * B + i) with (i + Z.of_nat (j * n) * 4) by lia.
    rewrite Z.div_add, Z.mod_add by lia. by rewrite (Z.add_comm (i / 4)).
Qed.

(** Whole words can be dropped from the front. *)
Lemma drop_clean w j :
  clean w -> Z.of_nat j * 4 <= sigBytes w -> clean (WA (drop j (words w)) (sigBytes w - Z.of_nat j * 4)).
Proof using Type.
  intros [[Hs Hl] Hz] Hj. split; [split|]; cbn [words sigBytes]; [lia|rewrite length_drop; Z.div_mod_to_equations; lia|].
  intros q Hq. unfold byte_at. rewrite get_word_drop by (apply Z.div_pos; lia).
  specialize (Hz (q + Z.of_nat j * 4) ltac:(lia)). unfold byte_at in Hz.
  rewrite Z.div_add, Z.mod_add in Hz by lia. by rewrite (Z.add_comm (Z.of_nat j)).
Qed.

Lemma held_append decrypt st0 P k o c d rest :
  held decrypt st0 P k o c -> 0 <= sigBytes d ->
  drop (Z.to_nat (Z.of_nat k * B + sigBytes (c_data c))) (bytes_of P) = bytes_of d ++ rest ->
  held decrypt st0 P k o (cipher_append d c).
Proof using L.
  intros (Hst & Ho & Hs & HP & Hb) Hd Hdr. pose proof bc_range.
  assert (0 <= Z.of_nat k * B) by (apply Z.mul_nonneg_nonneg; lia).
  pose proof (f_equal length Hdr) as Hl. rewrite length_drop, length_app, !bytes_length in Hl.
  unfold held. cbn [cipher_append c_mode c_data]. change (sigBytes (concat ?a ?b)) with (sigBytes a + sigBytes b).
  split; [done|]. split; [done|]. split; [lia|]. split; [lia|].
  rewrite concat_bytes, Hb, Z2Nat.inj_add by done.
  rewrite <- (take_drop (Z.to_nat (sigBytes (c_data c))) (drop (Z.to_nat (Z.of_nat k * B)) (bytes_of P))) at 2.
  rewrite take_app_add' by (rewrite length_take, length_drop, bytes_length; lia). f_equal.
  rewrite drop_drop, <- Z2Nat.inj_add, Hdr by lia. rewrite take_app_le by (rewrite bytes_length; lia).
  symmetry. apply firstn_all2. rewrite bytes_length. lia.
Qed.

(** After all pieces: everything given is out or held, and a decryptor holds a
    block. *)
Definition holding (decrypt : bool) (st0 : mode_state) (P : wordarray) (k : nat) (o : list Z) (c : cipher) : Prop :=
  held decrypt st0 P k o c /\ clean (c_data c) /\ (decrypt = true -> k = 0%nat \/ B <= sigBytes (c_data c)).

Lemma holding_process decrypt st0 P k o c d rest :
  holding decrypt st0 P k o c -> clean d ->
  drop (Z.to_nat (Z.of_nat k * B + sigBytes (c_data c))) (bytes_of P) = bytes_of d ++ rest ->
  let '(out, c') := process mode decrypt d c in
  exists k', holding decrypt st0 P k' (o ++ bytes_of out) c' /\
    Z.of_nat k' * B + sigBytes (c_data c') = Z.of_nat k * B + sigBytes (c_data c) + sigBytes d.
Proof using L.
  intros (Hh & Hc & Hk) Hd Hdr. pose proof bc_range. pose proof Hc as [[Hs _] _]. pose proof Hd as [[Hsd _] _].
  pose proof (held_append _ _ _ _ _ _ _ _ Hh Hsd Hdr) as Hh'. unfold process. set (c1 := cipher_append d c) in *.
  assert (clean (c_data c1)) as Hc1 by (by apply concat_clean).
  assert (sigBytes (c_data c1) = sigBytes (c_data c) + sigBytes d) as Hs1 by done.
  set (s := sigBytes (c_data c1)) in *.
  set (j := Z.to_nat (Z.max (s / B - (if decrypt then 1 else 0)) 0)).
  assert (0 < B) as HB by lia. assert (0 <= s) as Hs0 by lia.
  pose proof (Z.div_pos s B Hs0 HB). pose proof (Z.mul_div_le s B HB).
  assert (Z.of_nat j * B <= s).
  { etrans; [|done]. rewrite (Z.mul_comm B). apply Z.mul_le_mono_nonneg_r; destruct decrypt; lia. }
  pose proof (held_run decrypt false st0 P k o c1 j Hh') as Hr. cbv zeta in Hr. fold s in Hr.
  destruct (cipher_process mode decrypt false c1) as [out c'].
  destruct Hr as (Hr & Hs' & Hw & Ho); [lia|done| |].
  { intros _. destruct Hc1 as [[_ Hl] _]. rewrite Hl. fold s. apply Z.div_le_lower_bound; lia. }
  exists (k + j)%nat. split; [|lia]. split; [done|]. split.
  - destruct (c_data c') as [w' s']. cbn [words sigBytes] in *. subst w' s'.
    replace (Z.of_nat j * B) with (Z.of_nat (j * n) * 4) by lia. apply drop_clean; [done|]. fold s. lia.
  - intros ->. destruct (decide (j = 0%nat)) as [->|Hj].
    + destruct (Hk eq_refl) as [->|Hk']; [by left|right; lia].
    + right. rewrite Hs'. assert ((s / B - 1) * B = Z.of_nat j * B) by (f_equal; lia). lia.
Qed.

Lemma holding_all decrypt st0 P ds k o c rest :
  holding decrypt st0 P k o c -> Forall clean ds ->
  drop (Z.to_nat (Z.of_nat k * B + sigBytes (c_data c))) (bytes_of P) = (ds ≫= bytes_of) ++ rest ->
  let '(os, c') := process_all decrypt ds c in
  exists k', holding decrypt st0 P k' (o ++ os) c' /\
    Z.of_nat k' * B + sigBytes (c_data c') =
    Z.of_nat k * B + sigBytes (c_data c) + Z.of_nat (length (ds ≫= bytes_of)).
Proof using L.
  intros Hh Hds. pose proof bc_range. revert k o c Hh. induction Hds as [|d ds Hd Hds IH]; intros k o c Hh Hdr.
  { cbn. exists k. rewrite app_nil_r. split; [done|]. simpl. lia. }
  rewrite bind_cons, <- app_assoc in Hdr. cbn [process_all].
  pose proof (holding_process decrypt st0 P k o c d _ Hh Hd Hdr) as Hp.
  destruct (process mode decrypt d c) as [out c1]. destruct Hp as (k1 & Hh1 & Hs1).
  assert (0 <= Z.of_nat k * B + sigBytes (c_data c)) by (destruct Hh as [(_ & _ & ? & _) _]; lia).
  pose proof Hd as [[Hsd _] _].
  specialize (IH k1 _ c1 Hh1). rewrite Hs1 in IH.
  assert (drop (Z.to_nat (Z.of_nat k * B + sigBytes (c_data c) + sigBytes d)) (bytes_of P) = (ds ≫= bytes_of) ++ rest) as E.
  { rewrite Z2Nat.inj_add by lia. rewrite <- drop_drop, Hdr.
    rewrite drop_app_ge, bytes_length, Nat.sub_diag by (rewrite bytes_length; lia). done. }
  specialize (IH E). destruct (process_all decrypt ds c1) as [os c']. destruct IH as (k' & Hh' & Hs').
  exists k'. rewrite app_assoc. split; [done|]. rewrite Hs', bind_cons, length_app, bytes_length. lia.
Qed.

Lemma all_pieces decrypt iv P ds dl rest :
  Forall clean ds -> (forall d, dl = Some d -> clean d) -> 0 <= sigBytes P ->
  bytes_of P = pieces ds dl ++ rest ->
  let '(os, c) := process_all decrypt ds (cipher_reset iv) in
  let c := match dl with Some d => cipher_append d c | None => c end in
  exists k, holding decrypt (Mode (Some iv) []) P k os c /\
    Z.of_nat k * B + sigBytes (c_data c) = Z.of_nat (length (pieces ds dl)).
Proof using L.
  intros Hds Hdl HP Hb. pose proof bc_range.
  assert (holding decrypt (Mode (Some iv) []) P 0 [] (cipher_reset iv)) as Hz.
  { split; [|split; [|by left]].
    - split; [reflexivity|]. split; [done|]. split; [cbn; lia|]. split; [cbn; lia|done].
    - split; [done|]. intros q Hq. unfold byte_at, js_ushr. cbn. by rewrite Z.shiftr_0_l. }
  unfold pieces in *. rewrite <- app_assoc in Hb. pose proof (holding_all decrypt _ P ds _ _ _ _ Hz Hds Hb) as Ha.
  destruct (process_all decrypt ds (cipher_reset iv)) as [os c]. destruct Ha as (k & Hh & Hk).
  assert (Z.of_nat k * B + sigBytes (c_data c) = Z.of_nat (length (ds ≫= bytes_of))) as Hk' by exact Hk.
  exists k. destruct dl as [d|]; [|by rewrite app_nil_r].
  specialize (Hdl d eq_refl). pose proof Hdl as [[Hsd _] _]. destruct Hh as (Hh & Hc & Hm).
  pose proof Hc as [[Hs _] _]. rewrite length_app, bytes_length. split; [|cbn [cipher_append c_data concat sigBytes]; lia].
  split; [|split].
  - eapply held_append; [done|done|]. rewrite Hk', Nat2Z.id, Hb. apply drop_app_length.
  - by apply concat_clean.
  - intros E. destruct (Hm E) as [?|?]; [by left|right]. cbn [cipher_append c_data concat sigBytes]. lia.
Qed.

(** The last blocks. *)
Lemma flush_all decrypt st0 P k o c :
  held decrypt st0 P k o c -> Z.of_nat k * B + sigBytes (c_data c) = sigBytes P -> sigBytes P mod B = 0 ->
  (decrypt = true -> sized (c_data c)) ->
  let out := (cipher_process mode decrypt true c).1 in
  o ++ bytes_of out = bytes_of (WA (run (fn decrypt) (Z.to_nat (sigBytes P / B)) st0 (blocks P)).2 (sigBytes P)) /\
  sigBytes out = sigBytes P - Z.of_nat k * B.
Proof using L.
  intros Hh Hk Hm Hsz. pose proof bc_range. pose proof Hh as (_ & _ & Hs & _).
  assert (0 < B) as HB by lia. assert (B <> 0) as HB0 by lia. pose proof (Z.div_mod (sigBytes P) B HB0) as Hdm. rewrite Hm, Z.add_0_r in Hdm.
  set (T := sigBytes P / B) in *. set (j := Z.to_nat (T - Z.of_nat k)).
  assert (sigBytes (c_data c) = (T - Z.of_nat k) * B) as Hsc by lia.
  assert (0 <= T - Z.of_nat k) as HT by (rewrite Hsc in Hs; by apply Z.mul_nonneg_cancel_r in Hs).
  pose proof (held_run decrypt true st0 P k o c j Hh) as Hr. cbv zeta iota in Hr.
  assert ((sigBytes (c_data c) + B - 1) / B = Z.of_nat j) as Hj.
  { rewrite Hsc. replace ((T - Z.of_nat k) * B + B - 1) with ((B - 1) + (T - Z.of_nat k) * B) by lia.
    rewrite Z.div_add, Z.div_small by lia. lia. }
  destruct (cipher_process mode decrypt true c) as [out c']. cbn [fst].
  destruct Hr as (Hr & _ & _ & Ho); [done|rewrite Hsc; apply Z.mul_le_mono_nonneg_r; lia| |].
  { intros E. destruct (Hsz E) as [_ Hl]. rewrite Hl, Hsc. apply Z.div_le_lower_bound; [lia|].
    replace (Z.of_nat j) with (T - Z.of_nat k) by lia. lia. }
  replace (k + j)%nat with (Z.to_nat T) in Hr by lia. destruct Hr as (_ & -> & _).
  rewrite Z2Nat.id by lia. replace (T * B) with (sigBytes P) by lia. split; [done|].
  rewrite Ho. replace (Z.of_nat j) with (T - Z.of_nat k) by lia. lia.
Qed.

(** The end of the data is padded like the data. *)
Lemma padding_tail w d k :
  sigBytes w = sigBytes d - Z.of_nat k * B -> padding_bytes pdg w bc_size = padding_bytes pdg d bc_size /\
  sigBytes w mod B = sigBytes d mod B.
Proof using L.
  intros Hw. pose proof bc_range.
  assert (sigBytes w mod B = sigBytes d mod B) as E.
  { rewrite Hw. replace (sigBytes d - Z.of_nat k * B) with (sigBytes d + (- Z.of_nat k) * B) by lia. apply Z.mod_add. lia. }
  assert ((- sigBytes w) mod B = (- sigBytes d) mod B) as E'.
  { rewrite Hw. replace (- (sigBytes d - Z.of_nat k * B)) with (- sigBytes d + Z.of_nat k * B) by lia. apply Z.mod_add. lia. }
  split; [|done]. unfold padding_bytes, nPadding. by rewrite E, E'.
Qed.

Lemma encrypt_pieces iv d ds dl :
  clean d -> sigBytes d < 2 ^ 28 -> (pdg = NoPadding -> sigBytes d mod B = 0) ->
  Forall clean ds -> (forall x, dl = Some x -> clean x) -> pieces ds dl = bytes_of d ->
  let P := pad pdg d bc_size in
  transform false iv ds dl =
  Some (bytes_of (WA (run (enc_fun mode) (Z.to_nat (sigBytes P / B)) (Mode (Some iv) []) (blocks P)).2 (sigBytes P))).
Proof using L.
  intros Hd Hsz Hnp Hds Hdl Hp P. pose proof bc_range as Hbc.
  destruct (pad_bytes d bc_size Hd Hsz Hbc pdg Hnp) as (HPb & HPr & HPm). fold P in HPb, HPr, HPm.
  pose proof (all_pieces false iv P ds dl _ Hds Hdl ltac:(lia) ltac:(rewrite Hp; exact HPb)) as Ha.
  unfold transform, finalize_cipher. destruct (process_all false ds (cipher_reset iv)) as [os c0]. cbv zeta in Ha.
  set (c := match dl with Some d => cipher_append d c0 | None => c0 end) in *.
  destruct Ha as (k & (Hh & Hc & _) & Hk). rewrite Hp, bytes_length in Hk. pose proof Hd as [[Hsd _] _].
  rewrite Z2Nat.id in Hk by done. unfold doFinalize. cbn [mbind option_bind].
  set (w := c_data c) in *. pose proof Hh as (Hst & Ho & Hs & HP & Hb). fold w in Hs, HP, Hb.
  destruct (padding_tail w d k ltac:(lia)) as [Ep Em].
  destruct (pad_bytes w bc_size Hc ltac:(lia) Hbc pdg ltac:(by rewrite Em)) as (Hwb & Hwr & Hwm).
  assert (sigBytes (pad pdg w bc_size) = sigBytes P - Z.of_nat k * B) as Hws.
  { apply (f_equal length) in HPb, Hwb. rewrite Ep, length_app, !bytes_length in *. lia. }
  destruct (flush_all false (Mode (Some iv) []) P k os (Cipher (c_mode c) (pad pdg w bc_size) (c_nDataBytes c))) as [E _];
    [|cbn [c_data]; lia|done|done|by rewrite E].
  unfold held. cbn [c_data c_mode]. split; [done|]. split; [done|]. split; [lia|]. split; [lia|].
  rewrite Hwb, Ep, Hb, HPb, Hws. rewrite drop_app_le, take_app_le by (rewrite ?length_drop, bytes_length; lia).
  rewrite firstn_all2 by (rewrite length_drop, bytes_length; lia). symmetry. apply firstn_all2.
  rewrite length_app, length_drop. apply (f_equal length) in HPb. rewrite length_app, !bytes_length in *. lia.
Qed.

Lemma run_id k st P : (run (fun s b => (s, b)) k st (blocks P)).2 = read_block (k * n) 0 (words P).
Proof using L.
  pose proof bc_range. unfold run. induction k as [|k IH]; [done|]. rewrite loop_S.
  destruct (loop k _ (st, [])) as [st' o]. cbn [fst snd] in *. subst o. unfold blocks. apply words_ext.
  - rewrite length_app, !read_length. lia.
  - rewrite length_app, !read_length. intros i Hi.
    rewrite get_word_app, read_length by lia. destruct (Z.ltb_spec i (Z.of_nat (k * n))).
    + by rewrite !read_get by lia.
    + rewrite !read_get by lia. f_equal. lia.
Qed.

Lemma weq_bytes a b m : weq a b -> bytes_of (WA a m) = bytes_of (WA b m).
Proof using Type.
  intros Hw. unfold bytes_of. cbn [words sigBytes]. apply list_fmap_ext. intros i x _.
  unfold byte_at, js_ushr. by rewrite (weq_get a b _ Hw).
Qed.

(** Decrypting, before unpadding. *)
Lemma decrypted_bytes st0 P :
  0 <= sigBytes P -> sigBytes P mod B = 0 ->
  let T := Z.to_nat (sigBytes P / B) in
  let C := WA (run (enc_fun mode) T st0 (blocks P)).2 (sigBytes P) in
  bytes_of (WA (run (dec_fun mode) T st0 (blocks C)).2 (sigBytes P)) = bytes_of P.
Proof using L.
  intros Hs Hm T C. pose proof bc_range. assert (B <> 0) as HB by lia.
  pose proof (Z.div_mod (sigBytes P) B HB) as Hdm. rewrite Hm, Z.add_0_r in Hdm.
  assert (0 <= sigBytes P / B) by (apply Z.div_pos; lia).
  destruct (run_decrypt mode T st0 st0 (blocks P) (blocks C)) as [Hw _].
  { intros i. apply read_length. } { reflexivity. } { done. }
  rewrite (weq_bytes _ _ _ Hw), run_id. apply bytes_eq; cbn [words sigBytes]; [lia|rewrite bytes_length; lia|].
  intros i Hi. rewrite lookup_bytes by lia. f_equal. unfold byte_at. rewrite read_get; [done|].
  split; [apply Z.div_pos; lia|]. apply Z.div_lt_upper_bound; [lia|]. rewrite Nat2Z.inj_mul, !Z2Nat.id by lia. lia.
Qed.

(** A last block reaches into the data, or ends where they do. *)
Lemma tail_start d k :
  let P := pad pdg d bc_size in
  clean d -> sigBytes d < 2 ^ 28 -> paddable pdg d bc_size ->
  k = 0%nat \/ Z.of_nat k * B + B <= sigBytes P ->
  Z.of_nat k * B <= sigBytes d /\ (pdg = ZeroPadding -> Z.of_nat k * B < sigBytes d).
Proof using L.
  intros P Hd Hsz Hp Hk. pose proof bc_range as Hbc. pose proof Hd as [[Hsd _] _].
  destruct (pad_bytes d bc_size Hd Hsz Hbc pdg) as (HPb & HPr & HPm); [intros E; by rewrite E in Hp|].
  fold P in HPb, HPr, HPm. apply (f_equal length) in HPb. rewrite length_app, !bytes_length in HPb.
  assert (0 < B) as HB by lia.
  pose proof (nPadding_range d bc_size Hbc). pose proof (Z.mod_pos_bound (- sigBytes d) B HB).
  assert (pdg = ZeroPadding -> 0 < sigBytes d) as Hz.
  { intros E. rewrite E in Hp. destruct Hp as (b & _ & Hl).
    destruct (decide (sigBytes d = 0)) as [E0|]; [|lia]. unfold bytes_of in Hl. by rewrite E0 in Hl. }
  unfold padding_bytes in HPb. cbv zeta in HPb.
  destruct Hk as [->|Hk]; [split; [lia|intros E; specialize (Hz E); lia]|]. destruct pdg; rewrite ?length_app, ?length_replicate, ?bytes_length in HPb;
    cbn [length sigBytes] in HPb; split; intros; try lia; done.
Qed.

(** What a decryptor still holds is the padding of the rest of the data. *)
Lemma tail_paddable d k :
  clean d -> sigBytes d < 2 ^ 28 -> paddable pdg d bc_size ->
  k = 0%nat \/ Z.of_nat k * B + B <= sigBytes (pad pdg d bc_size) ->
  let t := WA (drop (k * n) (words d)) (sigBytes d - Z.of_nat k * B) in
  clean t /\ paddable pdg t bc_size /\ bytes_of t = drop (Z.to_nat (Z.of_nat k * B)) (bytes_of d).
Proof using L.
  intros Hd Hsz Hp Hk t. pose proof bc_range as Hbc. pose proof Hd as [[Hsd _] _].
  assert (0 <= Z.of_nat k * B) by (apply Z.mul_nonneg_nonneg; lia).
  destruct (tail_start d k Hd Hsz Hp Hk) as [Hle Hlt].
  assert (bytes_of t = drop (Z.to_nat (Z.of_nat k * B)) (bytes_of d)) as Hb.
  { apply bytes_eq; unfold t; cbn [words sigBytes]; [lia|rewrite length_drop, bytes_length; lia|].
    intros i Hi. rewrite lookup_drop.
    replace (Z.to_nat (Z.of_nat k * B) + Z.to_nat i)%nat with (Z.to_nat (i + Z.of_nat (k * n) * 4)) by lia.
    rewrite lookup_bytes by lia. f_equal. unfold byte_at. rewrite get_word_drop by (apply Z.div_pos; lia).
    rewrite Z.div_add, Z.mod_add by lia. by rewrite (Z.add_comm (Z.of_nat (k * n))). }
  split; [|split; [|done]].
  - unfold t. replace (Z.of_nat k * B) with (Z.of_nat (k * n) * 4) by lia. apply drop_clean; [done|lia].
  - destruct (padding_tail t d k eq_refl) as [_ E]. destruct pdg; try done; cbn [paddable] in *.
    + destruct Hp as (b & Hb0 & Hl). exists b. split; [done|]. rewrite Hb.
      specialize (Hlt eq_refl). rewrite <- Hl, !last_lookup, length_drop, lookup_drop, bytes_length. f_equal. lia.
    + by rewrite E.
Qed.

Lemma decrypt_pieces iv d cs cl :
  let P := pad pdg d bc_size in
  clean d -> sigBytes d < 2 ^ 28 -> paddable pdg d bc_size ->
  Forall clean cs -> (forall x, cl = Some x -> clean x) ->
  pieces cs cl =
    bytes_of (WA (run (enc_fun mode) (Z.to_nat (sigBytes P / B)) (Mode (Some iv) []) (blocks P)).2 (sigBytes P)) ->
  transform true iv cs cl = Some (bytes_of d).
Proof using L.
  intros P Hd Hsz Hp Hcs Hcl Hc. pose proof bc_range as Hbc. pose proof Hd as [[Hsd _] _].
  destruct (pad_bytes d bc_size Hd Hsz Hbc pdg) as (HPb & HPr & HPm); [intros E; by rewrite E in Hp|].
  fold P in HPb, HPr, HPm. set (C := WA _ (sigBytes P)) in Hc.
  pose proof (all_pieces true iv C cs cl [] Hcs Hcl ltac:(cbn; lia) ltac:(by rewrite app_nil_r)) as Ha.
  unfold transform, finalize_cipher. destruct (process_all true cs (cipher_reset iv)) as [os c0]. cbv zeta in Ha.
  set (c := match cl with Some d => cipher_append d c0 | None => c0 end) in *.
  destruct Ha as (k & (Hh & Hcc & Hkb) & Hk). rewrite Hc, bytes_length in Hk. cbn [sigBytes C] in Hk.
  rewrite Z2Nat.id in Hk by lia. unfold doFinalize.
  destruct (flush_all true (Mode (Some iv) []) C k os c Hh) as [E Hso]; [done|done|by intros _; apply Hcc|].
  cbn [sigBytes C fn] in E, Hso.
  pose proof (decrypted_bytes (Mode (Some iv) []) P (proj1 HPr) HPm) as Hdb. cbv zeta in Hdb. fold C in Hdb.
  rewrite Hdb in E.
  set (out := (cipher_process mode true true c).1) in *.
  assert (0 <= Z.of_nat k * B) by (apply Z.mul_nonneg_nonneg; lia).
  destruct (tail_paddable d k Hd Hsz Hp) as (Ht & Hpt & Hbt); [fold P; destruct (Hkb eq_refl); [by left|right; lia]|].
  destruct (tail_start d k Hd Hsz Hp) as [Hle _]; [fold P; destruct (Hkb eq_refl); [by left|right; lia]|].
  set (t := WA _ _) in Ht, Hpt, Hbt. destruct (padding_tail t d k eq_refl) as [Ept _].
  destruct (pad_bytes t bc_size Ht ltac:(cbn; lia) Hbc pdg) as (Htb & Htr & _); [intros E'; by rewrite E' in Hpt|].
  assert (length os = Z.to_nat (Z.of_nat k * B)) as Hlo.
  { apply (f_equal length) in E. rewrite length_app, !bytes_length in E. lia. }
  assert (bytes_of out = bytes_of (pad pdg t bc_size)) as Hob.
  { rewrite Htb, Ept, Hbt. rewrite <- drop_app_le, <- HPb, <- E by (rewrite bytes_length; lia).
    rewrite <- Hlo. symmetry. apply drop_app_length. }
  destruct (unpad_bytes pdg t bc_size out Ht ltac:(cbn; lia) Hbc Hpt) as (f & Hf & Hfb); [|done|].
  { apply (f_equal length) in Hob. rewrite !bytes_length in Hob. lia. }
  rewrite Hf. cbn [mbind option_bind]. f_equal. rewrite Hfb, Hbt.
  rewrite <- (take_drop (Z.to_nat (Z.of_nat k * B)) (bytes_of d)) at 2. f_equal.
  apply (f_equal (take (length os))) in E. rewrite take_app_length in E. rewrite E, HPb, Hlo.
  apply take_app_le. rewrite bytes_length. lia.
Qed.
End Pieces.
