(* ===== verification/Aes.v ===== *)
(** The AES block cipher of the bundled crypto-js, web3.js 6755-6988: lookup
    tables computed by a walk of GF(2^8), the key schedule and its inverse, and
    the rounds by table. Encrypting a block is the cipher of FIPS 197, and
    decrypting undoes it. *)
From Stdlib Require Import ZArith Lia.
From S2P Require Import Prelude Words WordArray Hasher Cipher CipherBlocks.
Open Scope Z_scope.
Open Scope word_scope.

Module AES.

(** * Lookup tables *)

Record tables := Tables {
  SBOX : list Z; INV_SBOX : list Z;
  SUB_MIX_0 : list Z; SUB_MIX_1 : list Z; SUB_MIX_2 : list Z; SUB_MIX_3 : list Z;
  INV_SUB_MIX_0 : list Z; INV_SUB_MIX_1 : list Z; INV_SUB_MIX_2 : list Z; INV_SUB_MIX_3 : list Z
}.

Definition double_table : list Z :=
  loop 256 (fun i d => set_word d i (if i <? 128 then i <<w 1 else (i <<w 1) ^w 0x11b)) [].

(** One element of the walk. *)
Definition walk (d : list Z) (s : Z * Z * tables) : Z * Z * tables :=
  let '(x, xi, T) := s in
  let sx := xi ^w (xi <<w 1) ^w (xi <<w 2) ^w (xi <<w 3) ^w (xi <<w 4) in
  let sx := (sx >>>w 8) ^w (sx &w 0xff) ^w 0x63 in
  let x2 := get_word d x in
  let x4 := get_word d x2 in
  let x8 := get_word d x4 in
  let t := (get_word d sx * 0x101) ^w (sx * 0x1010100) in
  let t' := (x8 * 0x1010101) ^w (x4 * 0x10001) ^w (x2 * 0x101) ^w (x * 0x1010100) in
  let T := Tables (set_word (SBOX T) x sx) (set_word (INV_SBOX T) sx x)
    (set_word (SUB_MIX_0 T) x ((t <<w 24) |w (t >>>w 8))) (set_word (SUB_MIX_1 T) x ((t <<w 16) |w (t >>>w 16)))
    (set_word (SUB_MIX_2 T) x ((t <<w 8) |w (t >>>w 24))) (set_word (SUB_MIX_3 T) x t)
    (set_word (INV_SUB_MIX_0 T) sx ((t' <<w 24) |w (t' >>>w 8)))
    (set_word (INV_SUB_MIX_1 T) sx ((t' <<w 16) |w (t' >>>w 16)))
    (set_word (INV_SUB_MIX_2 T) sx ((t' <<w 8) |w (t' >>>w 24))) (set_word (INV_SUB_MIX_3 T) sx t') in
  if x =? 0 then (1, 1, T)
  else (x2 ^w get_word d (get_word d (get_word d (x8 ^w x2))), xi ^w get_word d (get_word d xi), T).

Definition T : tables := Eval vm_compute in
  (loop 256 (fun _ => walk double_table) (0, 0, Tables [] [] [] [] [] [] [] [] [] [])).2.

Definition RCON : list Z := [0x00; 0x01; 0x02; 0x04; 0x08; 0x10; 0x20; 0x40; 0x80; 0x1b; 0x36].

(** * Keys *)

Record keys := Keys { _nRounds : Z; _keySchedule : list Z; _invKeySchedule : list Z }.

Definition sub_word (t : Z) : Z :=
  (get_word (SBOX T) (t >>>w 24) <<w 24) |w (get_word (SBOX T) ((t >>>w 16) &w 0xff) <<w 16) |w
  (get_word (SBOX T) ((t >>>w 8) &w 0xff) <<w 8) |w get_word (SBOX T) (t &w 0xff).

Definition schedule_row (keySize : Z) (keyWords : list Z) (ksRow : Z) (keySchedule : list Z) : list Z :=
  if ksRow <? keySize then set_word keySchedule ksRow (get_word keyWords ksRow)
  else
    let t := get_word keySchedule (ksRow - 1) in
    let t :=
      if ksRow mod keySize =? 0 then
        sub_word ((t <<w 8) |w (t >>>w 24)) ^w (get_word RCON ((ksRow / keySize) |w 0) <<w 24)
      else if (6 <? keySize) && (ksRow mod keySize =? 4) then sub_word t else t in
    set_word keySchedule ksRow (get_word keySchedule (ksRow - keySize) ^w t).

Definition inv_mix (t : Z) : Z :=
  get_word (INV_SUB_MIX_0 T) (get_word (SBOX T) (t >>>w 24)) ^w
  get_word (INV_SUB_MIX_1 T) (get_word (SBOX T) ((t >>>w 16) &w 0xff)) ^w
  get_word (INV_SUB_MIX_2 T) (get_word (SBOX T) ((t >>>w 8) &w 0xff)) ^w
  get_word (INV_SUB_MIX_3 T) (get_word (SBOX T) (t &w 0xff)).

Definition inv_row (ksRows : Z) (keySchedule : list Z) (invKsRow : Z) : Z :=
  let ksRow := ksRows - invKsRow in
  let t := if negb (invKsRow mod 4 =? 0) then get_word keySchedule ksRow else get_word keySchedule (ksRow - 4) in
  if (invKsRow <? 4) || (ksRow <=? 4) then t else inv_mix t.

(** [_doReset]; a second reset with the same key would find the schedules in
    place. A key has whole words. *)
Definition _doReset (key : wordarray) : keys :=
  let keySize := sigBytes key / 4 in
  let nRounds := keySize + 6 in
  let ksRows := (nRounds + 1) * 4 in
  let keySchedule := loop (Z.to_nat ksRows) (schedule_row keySize (words key)) [] in
  let invKeySchedule :=
    loop (Z.to_nat ksRows) (fun invKsRow ks => set_word ks invKsRow (inv_row ksRows keySchedule invKsRow)) [] in
  Keys nRounds keySchedule invKeySchedule.

(** * Blocks *)

Record columns := Columns { s0 : Z; s1 : Z; s2 : Z; s3 : Z }.

Section Crypt.
Variables SUB0 SUB1 SUB2 SUB3 SB ks : list Z.

(** A column of a round, and of the last one. *)
Definition mix_column (a b c d row : Z) : Z :=
  get_word SUB0 (a >>>w 24) ^w get_word SUB1 ((b >>>w 16) &w 0xff) ^w get_word SUB2 ((c >>>w 8) &w 0xff) ^w
  get_word SUB3 (d &w 0xff) ^w get_word ks row.
Definition last_column (a b c d row : Z) : Z :=
  ((get_word SB (a >>>w 24) <<w 24) |w (get_word SB ((b >>>w 16) &w 0xff) <<w 16) |w
   (get_word SB ((c >>>w 8) &w 0xff) <<w 8) |w get_word SB (d &w 0xff)) ^w get_word ks row.

Definition shift_columns (col : Z -> Z -> Z -> Z -> Z -> Z) (ksRow : Z) (s : columns) : columns :=
  let '(Columns s0 s1 s2 s3) := s in
  Columns (col s0 s1 s2 s3 ksRow) (col s1 s2 s3 s0 (ksRow + 1))
          (col s2 s3 s0 s1 (ksRow + 2)) (col s3 s0 s1 s2 (ksRow + 3)).

(** [_doCryptBlock] on the four words of a block. *)
Definition _doCryptBlock (nRounds : Z) (M : list Z) : list Z :=
  let s := Columns (get_word M 0 ^w get_word ks 0) (get_word M 1 ^w get_word ks 1)
                   (get_word M 2 ^w get_word ks 2) (get_word M 3 ^w get_word ks 3) in
  let s := loop (Z.to_nat (nRounds - 1)) (fun r => shift_columns mix_column (4 + 4 * r)) s in
  let '(Columns t0 t1 t2 t3) := shift_columns last_column (4 * nRounds) s in
  [t0; t1; t2; t3].
End Crypt.

(** Swap 2nd and 4th rows. *)
Definition swap_rows (M : list Z) : list Z := [get_word M 0; get_word M 3; get_word M 2; get_word M 1].

Definition encrypt_block (k : keys) (M : list Z) : list Z :=
  _doCryptBlock (SUB_MIX_0 T) (SUB_MIX_1 T) (SUB_MIX_2 T) (SUB_MIX_3 T) (SBOX T) (_keySchedule k) (_nRounds k) M.
Definition decrypt_block (k : keys) (M : list Z) : list Z :=
  swap_rows (_doCryptBlock (INV_SUB_MIX_0 T) (INV_SUB_MIX_1 T) (INV_SUB_MIX_2 T) (INV_SUB_MIX_3 T) (INV_SBOX T)
    (_invKeySchedule k) (_nRounds k) (swap_rows M)).

Definition cipher (key : wordarray) : BlockCipher :=
  let k := _doReset key in {| bc_size := 4; enc := encrypt_block k; dec := decrypt_block k |}.

(** * FIPS 197 *)

(** Bytes as elements of GF(2^8) modulo [x^8 + x^4 + x^3 + x + 1]. *)
Definition xtime (b : Z) : Z := if b <? 128 then 2 * b else Z.lxor (2 * b) 0x11b.
Fixpoint gmul_bits (n : nat) (a b : Z) : Z :=
  match n with
  | O => 0
  | S n => Z.lxor (if Z.odd a then b else 0) (gmul_bits n (a / 2) (xtime b))
  end.
Definition gmul (a b : Z) : Z := gmul_bits 8 a b.

(** [b ^ 254], the inverse. *)
Definition ginv (b : Z) : Z :=
  let b2 := gmul b b in let b4 := gmul b2 b2 in let b8 := gmul b4 b4 in let b16 := gmul b8 b8 in
  let b32 := gmul b16 b16 in let b64 := gmul b32 b32 in let b128 := gmul b64 b64 in
  gmul b128 (gmul b64 (gmul b32 (gmul b16 (gmul b8 (gmul b4 b2))))).
Definition rotl8 (b n : Z) : Z := Z.lor (Z.land (Z.shiftl b n) 255) (Z.shiftr b (8 - n)).
Definition sbox (b : Z) : Z :=
  let i := ginv b in
  Z.lxor (Z.lxor (Z.lxor (Z.lxor (Z.lxor i (rotl8 i 1)) (rotl8 i 2)) (rotl8 i 3)) (rotl8 i 4)) 0x63.

(** A state is 16 bytes, the byte at row [r] and column [c] at [r + 4 * c]. *)
Definition state16 (f : Z -> Z) : list Z := f <$> [0; 1; 2; 3; 4; 5; 6; 7; 8; 9; 10; 11; 12; 13; 14; 15].
Definition SubBytes (sb : Z -> Z) (s : list Z) : list Z := state16 (fun i => sb (get_word s i)).
Definition ShiftRows (s : list Z) : list Z :=
  state16 (fun i => get_word s (i mod 4 + 4 * ((i / 4 + i mod 4) mod 4))).
Definition InvShiftRows (s : list Z) : list Z :=
  state16 (fun i => get_word s (i mod 4 + 4 * ((i / 4 - i mod 4) mod 4))).

(** Columns times the circulant matrix of a row. *)
Definition xor4 (f : Z -> Z) : Z := Z.lxor (Z.lxor (Z.lxor (f 0) (f 1)) (f 2)) (f 3).
Definition MixColumns_with (coef : list Z) (s : list Z) : list Z :=
  state16 (fun i => xor4 (fun k => gmul (get_word coef ((k - i) mod 4)) (get_word s (4 * (i / 4) + k)))).
Definition MixColumns : list Z -> list Z := MixColumns_with [2; 3; 1; 1].
Definition InvMixColumns : list Z -> list Z := MixColumns_with [14; 11; 13; 9].

Definition AddRoundKey (k s : list Z) : list Z := state16 (fun i => Z.lxor (get_word s i) (get_word k i)).
Definition round_key (w : list Z) (r : Z) : list Z := state16 (fun i => byte_at w (16 * r + i)).

Definition Cipher (Nr : Z) (w : list Z) (input : list Z) : list Z :=
  let s := AddRoundKey (round_key w 0) input in
  let s := loop (Z.to_nat (Nr - 1))
    (fun r s => AddRoundKey (round_key w (r + 1)) (MixColumns (ShiftRows (SubBytes sbox s)))) s in
  AddRoundKey (round_key w Nr) (ShiftRows (SubBytes sbox s)).

(** * Bytes of words *)

Definition bt (j x : Z) : Z := (x >>>w (24 - j * 8)) &w 0xff.

Lemma bt_byte j x : is_byte (bt j x).
Proof. pose proof (and_range (x >>>w (24 - j * 8)) 0xff). unfold is_byte, bt. lia. Qed.

Lemma bt_bits j x i : 0 <= j < 4 -> 0 <= i < 8 -> Z.testbit (bt j x) i = Z.testbit x (24 - j * 8 + i).
Proof.
  intros Hj Hi. unfold bt. rewrite and_bits, testbit_255, ushr_bits by lia.
  zbool (i <? 8) true. zbool (i + (24 - j * 8) <? 32) true. rewrite andb_true_r. cbn [andb]. f_equal. lia.
Qed.

Lemma bt_0 x : x >>>w 24 = bt 0 x.
Proof.
  unfold bt. change (24 - 0 * 8) with 24. unfold js_and. change (s32 255) with (Z.ones 8).
  unfold js_ushr. change (24 mod 32) with 24. rewrite Z.shiftr_div_pow2, Z.land_ones by lia. pose proof (u32_range x).
  assert (0 <= u32 x / 2 ^ 24 < 2 ^ 8) by (Z.div_mod_to_equations; lia).
  rewrite s32_id by lia. by rewrite Z.mod_small.
Qed.
Lemma bt_3 x : x &w 0xff = bt 3 x.
Proof.
  apply byte_ext; [pose proof (and_range x 0xff); unfold is_byte; lia|apply bt_byte|].
  intros i Hi. rewrite bt_bits, and_bits, testbit_255 by lia. zbool (i <? 8) true. by rewrite andb_true_r.
Qed.

Lemma lxor_byte a b : is_byte a -> is_byte b -> is_byte (Z.lxor a b).
Proof.
  intros Ha Hb. enough (Z.lxor a b = Z.lxor a b mod 2 ^ 8) as -> by (unfold is_byte; apply Z.mod_pos_bound; lia).
  apply Z.bits_inj_iff'. intros i Hi. destruct (decide (i < 8)).
  - by rewrite Z.mod_pow2_bits_low by lia.
  - by rewrite Z.mod_pow2_bits_high, Z.lxor_spec, !byte_bits_high by (done || lia).
Qed.

Lemma bt_xor j x y : 0 <= j < 4 -> bt j (x ^w y) = Z.lxor (bt j x) (bt j y).
Proof.
  intros Hj. apply byte_ext; [apply bt_byte|apply lxor_byte; apply bt_byte|].
  intros i Hi. rewrite Z.lxor_spec, !bt_bits, xor_bits by lia. done.
Qed.

Lemma bt_join a b c d j :
  is_byte a -> is_byte b -> is_byte c -> is_byte d -> 0 <= j < 4 ->
  bt j ((a <<w 24) |w (b <<w 16) |w (c <<w 8) |w d) = get_word [a; b; c; d] j.
Proof.
  intros Ha Hb Hc Hd Hj.
  assert (j = 0 \/ j = 1 \/ j = 2 \/ j = 3) as Hcase by lia.
  apply byte_ext; [apply bt_byte|destruct Hcase as [-> | [-> | [-> | ->]]]; done|].
  intros i Hi. rewrite bt_bits, !or_bits, !shl_bits by lia.
  assert (forall x, is_byte x -> forall t, 8 <= t -> Z.testbit x t = false) as Hh by (intros; by apply byte_bits_high).
  assert (forall x t, t < 0 -> Z.testbit x t = false) as Hn by (intros; by apply Z.testbit_neg_r).
  destruct Hcase as [-> | [-> | [-> | ->]]]; cbn [Z.sub Z.mul Z.opp].
  - change (get_word [a; b; c; d] 0) with a. rewrite (Hh b), (Hh c), (Hh d) by (done || lia). rewrite !andb_false_r, !orb_false_r.
    zbool (24 <=? 24 - 0 * 8 + i) true. cbn [andb]. f_equal. lia.
  - change (get_word [a; b; c; d] 1) with b. rewrite (Hn a), (Hh c), (Hh d) by (done || lia). rewrite !andb_false_r, !orb_false_r.
    zbool (16 <=? 24 - 1 * 8 + i) true. cbn [andb orb]. f_equal. lia.
  - change (get_word [a; b; c; d] 2) with c. rewrite (Hn a), (Hn b), (Hh d) by (done || lia). rewrite !andb_false_r, !orb_false_r.
    zbool (8 <=? 24 - 2 * 8 + i) true. cbn [andb orb]. f_equal. lia.
  - change (get_word [a; b; c; d] 3) with d. rewrite (Hn a), (Hn b), (Hn c) by lia. rewrite !andb_false_r.
    cbn [orb]. f_equal.
Qed.

(** Words with the same bytes. *)
Lemma bt_ext x y : (forall j, 0 <= j < 4 -> bt j x = bt j y) -> u32 x = u32 y.
Proof.
  intros Hb. apply u32_ext. intros t Ht.
  pose proof (Hb (3 - t / 8) ltac:(Z.div_mod_to_equations; lia)) as E.
  apply (f_equal (fun z => Z.testbit z (t mod 8))) in E.
  rewrite !bt_bits in E by (Z.div_mod_to_equations; lia).
  by replace (24 - (3 - t / 8) * 8 + t mod 8) with t in E by (Z.div_mod_to_equations; lia).
Qed.

Lemma bt_at ws i j : 0 <= i -> 0 <= j < 4 -> bt j (get_word ws i) = byte_at ws (4 * i + j).
Proof. intros Hi Hj. unfold bt. symmetry. by apply byte_at_word. Qed.

(** * The tables *)

Definition bytes_all (p : Z -> bool) : bool := forallb p (seqZ 0 256).
Lemma bytes_all_true p x : bytes_all p = true -> is_byte x -> p x = true.
Proof.
  intros Hp Hx. unfold bytes_all in Hp. rewrite forallb_forall in Hp. apply Hp, list_elem_of_In, elem_of_seqZ.
  unfold is_byte in Hx. lia.
Qed.
Definition coefs (p : Z -> Z -> bool) : bool := forallb (fun j => forallb (p j) [0; 1; 2; 3]) [0; 1; 2; 3].
Lemma coefs_true p j k : coefs p = true -> 0 <= j < 4 -> 0 <= k < 4 -> p j k = true.
Proof.
  intros Hp Hj Hk. unfold coefs in Hp. rewrite forallb_forall in Hp. specialize (Hp j).
  rewrite forallb_forall in Hp. apply Hp; apply list_elem_of_In; rewrite !elem_of_cons; lia.
Qed.

Definition sub_mix (k : Z) : list Z :=
  if k =? 0 then SUB_MIX_0 T else if k =? 1 then SUB_MIX_1 T else if k =? 2 then SUB_MIX_2 T else SUB_MIX_3 T.
Definition inv_sub_mix (k : Z) : list Z :=
  if k =? 0 then INV_SUB_MIX_0 T else if k =? 1 then INV_SUB_MIX_1 T else if k =? 2 then INV_SUB_MIX_2 T
  else INV_SUB_MIX_3 T.

(** The tables hold what FIPS 197 defines. *)
Lemma sbox_table x : is_byte x -> get_word (SBOX T) x = sbox x.
Proof.
  intros Hx. apply Z.eqb_eq. apply (bytes_all_true (fun x => get_word (SBOX T) x =? sbox x)); [|done].
  vm_compute. reflexivity.
Qed.
Lemma sbox_inv x : is_byte x -> get_word (INV_SBOX T) (sbox x) = x /\ is_byte (sbox x).
Proof.
  intros Hx. assert ((get_word (INV_SBOX T) (sbox x) =? x) && ((0 <=? sbox x) && (sbox x <? 256)) = true) as E.
  { apply (bytes_all_true (fun x => (get_word (INV_SBOX T) (sbox x) =? x) && ((0 <=? sbox x) && (sbox x <? 256)))); [|done].
    vm_compute. reflexivity. }
  generalize dependent (sbox x). intros y E. apply andb_prop in E as [E1 E2]. apply andb_prop in E2 as [E2 E3].
  unfold is_byte. lia.
Qed.
Lemma inv_sbox_byte x : is_byte x -> is_byte (get_word (INV_SBOX T) x).
Proof.
  intros Hx. assert ((0 <=? get_word (INV_SBOX T) x) && (get_word (INV_SBOX T) x <? 256) = true) as E.
  { apply (bytes_all_true (fun x => (0 <=? get_word (INV_SBOX T) x) && (get_word (INV_SBOX T) x <? 256))); [|done].
    vm_compute. reflexivity. }
  generalize dependent (get_word (INV_SBOX T) x). intros y E. apply andb_prop in E. unfold is_byte. lia.
Qed.
Lemma mix_table j k x :
  is_byte x -> 0 <= j < 4 -> 0 <= k < 4 ->
  bt j (get_word (sub_mix k) x) = gmul (get_word [2; 3; 1; 1] ((k - j) mod 4)) (sbox x).
Proof.
  intros Hx Hj Hk. apply Z.eqb_eq.
  apply (coefs_true (fun j k => bt j (get_word (sub_mix k) x) =? gmul (get_word [2; 3; 1; 1] ((k - j) mod 4)) (sbox x)));
    [|done|done].
  apply (bytes_all_true (fun x => coefs (fun j k => bt j (get_word (sub_mix k) x) =?
    gmul (get_word [2; 3; 1; 1] ((k - j) mod 4)) (sbox x)))); [|done].
  vm_compute. reflexivity.
Qed.
Lemma inv_mix_table j k x :
  is_byte x -> 0 <= j < 4 -> 0 <= k < 4 ->
  bt j (get_word (inv_sub_mix k) x) = gmul (get_word [14; 11; 13; 9] ((k - j) mod 4)) (get_word (INV_SBOX T) x).
Proof.
  intros Hx Hj Hk. apply Z.eqb_eq.
  apply (coefs_true (fun j k => bt j (get_word (inv_sub_mix k) x) =?
    gmul (get_word [14; 11; 13; 9] ((k - j) mod 4)) (get_word (INV_SBOX T) x))); [|done|done].
  apply (bytes_all_true (fun x => coefs (fun j k => bt j (get_word (inv_sub_mix k) x) =?
    gmul (get_word [14; 11; 13; 9] ((k - j) mod 4)) (get_word (INV_SBOX T) x)))); [|done].
  vm_compute. reflexivity.
Qed.

(** * Rounds *)

Definition state_of (s : columns) : list Z :=
  [bt 0 (s0 s); bt 1 (s0 s); bt 2 (s0 s); bt 3 (s0 s); bt 0 (s1 s); bt 1 (s1 s); bt 2 (s1 s); bt 3 (s1 s);
   bt 0 (s2 s); bt 1 (s2 s); bt 2 (s2 s); bt 3 (s2 s); bt 0 (s3 s); bt 1 (s3 s); bt 2 (s3 s); bt 3 (s3 s)].

(** A column of tables [M] for the matrix of [coef] after the box [sb]. *)
Definition table_column (M : Z -> list Z) (coef : list Z) (sb : Z -> Z) : Prop :=
  forall j k x, is_byte x -> 0 <= j < 4 -> 0 <= k < 4 ->
  bt j (get_word (M k) x) = gmul (get_word coef ((k - j) mod 4)) (sb x).

Lemma mix_column_byte M coef sb ks a b c d row j :
  table_column M coef sb -> 0 <= j < 4 ->
  bt j (mix_column (M 0) (M 1) (M 2) (M 3) ks a b c d row) =
  Z.lxor (Z.lxor (Z.lxor (Z.lxor (gmul (get_word coef ((0 - j) mod 4)) (sb (bt 0 a)))
    (gmul (get_word coef ((1 - j) mod 4)) (sb (bt 1 b)))) (gmul (get_word coef ((2 - j) mod 4)) (sb (bt 2 c))))
    (gmul (get_word coef ((3 - j) mod 4)) (sb (bt 3 d)))) (bt j (get_word ks row)).
Proof.
  intros HM Hj. unfold mix_column. rewrite !bt_xor, (bt_0 a), (bt_3 d) by done.
  change ((b >>>w 16) &w 0xff) with (bt 1 b). change ((c >>>w 8) &w 0xff) with (bt 2 c).
  rewrite !HM by (apply bt_byte || lia). done.
Qed.

Lemma last_column_byte SB sb ks a b c d row j :
  (forall x, is_byte x -> get_word SB x = sb x /\ is_byte (sb x)) -> 0 <= j < 4 ->
  bt j (last_column SB ks a b c d row) =
  Z.lxor (get_word [sb (bt 0 a); sb (bt 1 b); sb (bt 2 c); sb (bt 3 d)] j) (bt j (get_word ks row)).
Proof.
  intros HS Hj. unfold last_column. rewrite bt_xor, (bt_0 a), (bt_3 d) by done.
  change ((b >>>w 16) &w 0xff) with (bt 1 b). change ((c >>>w 8) &w 0xff) with (bt 2 c).
  rewrite bt_join by (done || apply HS || (destruct (HS (bt 0 a) (bt_byte _ _)) as [-> ?]; done)
    || (destruct (HS (bt 1 b) (bt_byte _ _)) as [-> ?]; done) || (destruct (HS (bt 2 c) (bt_byte _ _)) as [-> ?]; done)
    || (destruct (HS (bt 3 d) (bt_byte _ _)) as [-> ?]; done)).
  by rewrite !(proj1 (HS _ (bt_byte _ _))).
Qed.

Lemma round_key_words ks r : 0 <= r ->
  round_key ks r = state_of (Columns (get_word ks (4 * r)) (get_word ks (4 * r + 1))
    (get_word ks (4 * r + 2)) (get_word ks (4 * r + 3))).
Proof.
  intros Hr. unfold state_of. cbn [s0 s1 s2 s3]. rewrite !bt_at by lia. unfold round_key, state16. rewrite !fmap_cons, fmap_nil.
  repeat (apply f_equal2; [f_equal; lia|]). done.
Qed.

Lemma enc_round M coef sb ks r s :
  table_column M coef sb -> 0 <= r ->
  state_of (shift_columns (mix_column (M 0) (M 1) (M 2) (M 3) ks) (4 * r) s) =
  AddRoundKey (round_key ks r) (MixColumns_with coef (ShiftRows (SubBytes sb (state_of s)))).
Proof.
  intros HM Hr. rewrite round_key_words by done. destruct s as [a b c d]. unfold state_of at 1.
  cbn [shift_columns s0 s1 s2 s3]. rewrite !(mix_column_byte M coef sb) by (done || lia).
  unfold MixColumns_with, xor4, AddRoundKey, state_of. generalize gmul Z.lxor bt. intros g x e.
  cbn [s0 s1 s2 s3]. generalize (get_word coef). intros co. vm_compute. reflexivity.
Qed.

Lemma enc_last SB sb ks r s :
  (forall x, is_byte x -> get_word SB x = sb x /\ is_byte (sb x)) -> 0 <= r ->
  state_of (shift_columns (last_column SB ks) (4 * r) s) =
  AddRoundKey (round_key ks r) (ShiftRows (SubBytes sb (state_of s))).
Proof.
  intros HS Hr. rewrite round_key_words by done. destruct s as [a b c d]. unfold state_of at 1.
  cbn [shift_columns s0 s1 s2 s3]. rewrite !(last_column_byte SB sb) by (done || lia).
  reflexivity.
Qed.

(** * Encryption is the standard's *)

Definition block_bytes (M : list Z) : list Z := round_key M 0.

Lemma block_columns a b c d : block_bytes [a; b; c; d] = state_of (Columns a b c d).
Proof. unfold block_bytes. by rewrite round_key_words. Qed.

Lemma add_key_columns M ks :
  state_of (Columns (get_word M 0 ^w get_word ks 0) (get_word M 1 ^w get_word ks 1)
                    (get_word M 2 ^w get_word ks 2) (get_word M 3 ^w get_word ks 3)) =
  AddRoundKey (round_key ks 0) (block_bytes M).
Proof.
  unfold block_bytes. rewrite !round_key_words by done. unfold state_of at 1. cbn [s0 s1 s2 s3].
  rewrite !bt_xor by lia. reflexivity.
Qed.

(** The states of the rounds. *)
Definition enc_state (w input : list Z) (n : nat) : list Z :=
  loop n (fun r s => AddRoundKey (round_key w (r + 1)) (MixColumns (ShiftRows (SubBytes sbox s))))
    (AddRoundKey (round_key w 0) input).

Lemma sbox_table' x : is_byte x -> get_word (SBOX T) x = sbox x /\ is_byte (sbox x).
Proof. intros Hx. split; [by apply sbox_table|]. by apply sbox_inv. Qed.

Lemma encrypt_block_fips k M :
  1 <= _nRounds k ->
  block_bytes (encrypt_block k M) = Cipher (_nRounds k) (_keySchedule k) (block_bytes M).
Proof.
  intros HN. unfold encrypt_block, _doCryptBlock, Cipher. set (ks := _keySchedule k). set (Nr := _nRounds k) in *.
  set (init := Columns _ _ _ _).
  assert (forall n, state_of (loop n (fun r => shift_columns
      (mix_column (SUB_MIX_0 T) (SUB_MIX_1 T) (SUB_MIX_2 T) (SUB_MIX_3 T) ks) (4 + 4 * r)) init) =
    enc_state ks (block_bytes M) n) as Hl.
  { intros n. induction n as [|n IH]; [apply add_key_columns|]. unfold enc_state in *. rewrite !loop_S, <- IH.
    replace (4 + 4 * Z.of_nat n) with (4 * (Z.of_nat n + 1)) by lia.
    apply (enc_round sub_mix [2; 3; 1; 1] sbox); [exact mix_table|lia]. }
  specialize (Hl (Z.to_nat (Nr - 1))). unfold enc_state in Hl. rewrite <- Hl.
  set (s := loop _ _ init). rewrite <- (enc_last (SBOX T) sbox ks Nr s sbox_table') by lia.
  destruct (shift_columns (last_column (SBOX T) ks) (4 * Nr) s) as [a b c d]. apply block_columns.
Qed.

(** * Algebra of states *)

Lemma state16_get f i : 0 <= i < 16 -> get_word (state16 f) i = f i.
Proof.
  intros Hi. unfold state16, get_word. rewrite list_lookup_fmap.
  change [0; 1; 2; 3; 4; 5; 6; 7; 8; 9; 10; 11; 12; 13; 14; 15] with (seqZ 0 16).
  rewrite lookup_seqZ_lt by lia. simpl. f_equal. lia.
Qed.

Lemma state16_ext f s : length s = 16%nat -> (forall i, 0 <= i < 16 -> f i = get_word s i) -> state16 f = s.
Proof.
  intros Hl Hf. apply words_ext; [by rewrite Hl|]. change (length (state16 f)) with 16%nat. intros i Hi.
  rewrite state16_get by lia. apply Hf. lia.
Qed.

Definition bytes16 (s : list Z) : Prop := length s = 16%nat /\ forall i, 0 <= i < 16 -> is_byte (get_word s i).

Lemma bytes16_state f : (forall i, 0 <= i < 16 -> is_byte (f i)) -> bytes16 (state16 f).
Proof. intros Hf. split; [done|]. intros i Hi. rewrite state16_get by done. by apply Hf. Qed.

Lemma round_key_bytes w r : bytes16 (round_key w r).
Proof. apply bytes16_state. intros. apply byte_at_range. Qed.
Lemma AddRoundKey_bytes k s : bytes16 k -> bytes16 s -> bytes16 (AddRoundKey k s).
Proof. intros [_ Hk] [_ Hs]. apply bytes16_state. intros i Hi. apply lxor_byte; auto. Qed.
Lemma SubShift_bytes s : bytes16 s -> bytes16 (ShiftRows (SubBytes sbox s)).
Proof.
  intros [_ Hs]. apply bytes16_state. intros i Hi. unfold SubBytes. rewrite state16_get by (Z.div_mod_to_equations; lia).
  apply sbox_inv, Hs. Z.div_mod_to_equations; lia.
Qed.

Lemma xtime_byte b : is_byte b -> is_byte (xtime b).
Proof.
  intros Hb. enough ((0 <=? xtime b) && (xtime b <? 256) = true) as E by (apply andb_prop in E; unfold is_byte; lia).
  apply (bytes_all_true (fun b => (0 <=? xtime b) && (xtime b <? 256))); [|done]. vm_compute. reflexivity.
Qed.

Lemma xtime_bits b : is_byte b -> xtime b = Z.lxor (2 * b) (if Z.testbit b 7 then 0x11b else 0).
Proof.
  intros Hb. apply Z.eqb_eq.
  apply (bytes_all_true (fun b => xtime b =? Z.lxor (2 * b) (if Z.testbit b 7 then 0x11b else 0))); [|done].
  vm_compute. reflexivity.
Qed.

(** Multiplication is linear. *)
Lemma xtime_lxor a b : is_byte a -> is_byte b -> xtime (Z.lxor a b) = Z.lxor (xtime a) (xtime b).
Proof.
  intros Ha Hb. rewrite !xtime_bits by (done || by apply lxor_byte). rewrite Z.lxor_spec.
  rewrite !(Z.mul_comm 2), <- !(Z.shiftl_mul_pow2 _ 1), Z.shiftl_lxor by lia.
  apply Z.bits_inj_iff'. intros i Hi. rewrite !Z.lxor_spec.
  destruct (Z.testbit a 7), (Z.testbit b 7); cbn [xorb]; rewrite ?Z.bits_0; ring.
Qed.

Lemma gmul_bits_byte n a b : is_byte b -> is_byte (gmul_bits n a b).
Proof.
  revert a b. induction n as [|n IH]; intros a b Hb; [done|]. cbn [gmul_bits].
  apply lxor_byte; [by destruct (Z.odd a)|]. by apply IH, xtime_byte.
Qed.
Lemma gmul_bits_lxor n a b c : is_byte b -> is_byte c ->
  gmul_bits n a (Z.lxor b c) = Z.lxor (gmul_bits n a b) (gmul_bits n a c).
Proof.
  revert a b c. induction n as [|n IH]; intros a b c Hb Hc; [done|]. cbn [gmul_bits].
  rewrite xtime_lxor, IH by (done || by apply xtime_byte).
  apply Z.bits_inj_iff'. intros i Hi. rewrite !Z.lxor_spec.
  destruct (Z.odd a); rewrite ?Z.lxor_spec, ?Z.bits_0; ring.
Qed.
Lemma gmul_byte a b : is_byte b -> is_byte (gmul a b).
Proof. apply gmul_bits_byte. Qed.
Lemma gmul_lxor a b c : is_byte b -> is_byte c -> gmul a (Z.lxor b c) = Z.lxor (gmul a b) (gmul a c).
Proof. apply gmul_bits_lxor. Qed.

Lemma xor4_ext f g : (forall k, 0 <= k < 4 -> f k = g k) -> xor4 f = xor4 g.
Proof. intros H. unfold xor4. by rewrite !H. Qed.
Lemma xor4_byte f : (forall k, 0 <= k < 4 -> is_byte (f k)) -> is_byte (xor4 f).
Proof. intros H. unfold xor4. repeat apply lxor_byte; apply H; lia. Qed.
Lemma xor4_gmul c f : (forall k, 0 <= k < 4 -> is_byte (f k)) -> gmul c (xor4 f) = xor4 (fun k => gmul c (f k)).
Proof.
  intros H. unfold xor4. by rewrite !gmul_lxor by (repeat apply lxor_byte; apply H; lia).
Qed.
Lemma xor4_swap f : xor4 (fun k => xor4 (fun l => f k l)) = xor4 (fun l => xor4 (fun k => f k l)).
Proof. unfold xor4. apply Z.bits_inj_iff'. intros i Hi. rewrite !Z.lxor_spec. ring. Qed.
Lemma xor4_lxor f g : xor4 (fun k => Z.lxor (f k) (g k)) = Z.lxor (xor4 f) (xor4 g).
Proof. unfold xor4. apply Z.bits_inj_iff'. intros i Hi. rewrite !Z.lxor_spec. ring. Qed.

Lemma MixColumns_bytes coef s : bytes16 s -> bytes16 (MixColumns_with coef s).
Proof.
  intros [_ Hs]. apply bytes16_state. intros i Hi. apply xor4_byte. intros k Hk. apply gmul_byte, Hs.
  Z.div_mod_to_equations; lia.
Qed.

(** The two matrices are inverse. *)
Lemma matrices_inverse j l x :
  is_byte x -> 0 <= j < 4 -> 0 <= l < 4 ->
  xor4 (fun k => gmul (get_word [14; 11; 13; 9] ((k - j) mod 4)) (gmul (get_word [2; 3; 1; 1] ((l - k) mod 4)) x)) =
  if j =? l then x else 0.
Proof.
  intros Hx Hj Hl. apply Z.eqb_eq.
  apply (coefs_true (fun j l => xor4 (fun k => gmul (get_word [14; 11; 13; 9] ((k - j) mod 4))
    (gmul (get_word [2; 3; 1; 1] ((l - k) mod 4)) x)) =? if j =? l then x else 0)); [|done|done].
  apply (bytes_all_true (fun x => coefs (fun j l => xor4 (fun k => gmul (get_word [14; 11; 13; 9] ((k - j) mod 4))
    (gmul (get_word [2; 3; 1; 1] ((l - k) mod 4)) x)) =? if j =? l then x else 0))); [|done].
  vm_compute. reflexivity.
Qed.

Lemma InvMixColumns_MixColumns s : bytes16 s -> InvMixColumns (MixColumns s) = s.
Proof.
  intros [Hl Hs]. apply state16_ext; [done|]. intros i Hi. set (c := i / 4). set (j := i mod 4).
  assert (0 <= c < 4 /\ 0 <= j < 4 /\ i = 4 * c + j) as (Hc & Hj & Ei) by (unfold c, j; Z.div_mod_to_equations; lia).
  assert (forall l, 0 <= l < 4 -> is_byte (get_word s (4 * c + l))) as Hb by (intros; apply Hs; lia).
  rewrite (xor4_ext _ (fun k => xor4 (fun l => gmul (get_word [14; 11; 13; 9] ((k - j) mod 4))
    (gmul (get_word [2; 3; 1; 1] ((l - k) mod 4)) (get_word s (4 * c + l)))))).
  - rewrite xor4_swap, (xor4_ext _ (fun l => if j =? l then get_word s (4 * c + l) else 0)).
    + rewrite Ei. assert (j = 0 \/ j = 1 \/ j = 2 \/ j = 3) as [-> | [-> | [-> | ->]]] by lia; unfold xor4;
        rewrite ?Z.lxor_0_l, ?Z.lxor_0_r; done.
    + intros l Hl'. apply matrices_inverse; auto.
  - intros k Hk. unfold MixColumns, MixColumns_with. rewrite state16_get by lia.
    replace ((4 * c + k) / 4) with c by (Z.div_mod_to_equations; lia).
    rewrite xor4_gmul by (intros; apply gmul_byte, Hb; lia).
    replace ((k - i) mod 4) with ((k - j) mod 4) by (unfold j; apply Zminus_mod_idemp_r).
    apply xor4_ext. intros l Hl'.
    replace ((l - (4 * c + k)) mod 4) with ((l - k) mod 4); [done|].
    replace (l - (4 * c + k)) with ((l - k) + (- c) * 4) by lia. symmetry. apply Z.mod_add. lia.
Qed.

Lemma MixColumns_AddRoundKey coef k s :
  bytes16 k -> bytes16 s ->
  MixColumns_with coef (AddRoundKey k s) = AddRoundKey (MixColumns_with coef k) (MixColumns_with coef s).
Proof.
  intros [_ Hk] [_ Hs]. apply state16_ext; [done|]. intros i Hi. unfold AddRoundKey at 2, MixColumns_with.
  rewrite !state16_get by lia. rewrite <- xor4_lxor. apply xor4_ext. intros t Ht. unfold AddRoundKey.
  assert (0 <= 4 * (i / 4) + t < 16) by (Z.div_mod_to_equations; lia).
  rewrite state16_get by lia. apply gmul_lxor; auto.
Qed.

Lemma AddRoundKey_cancel k s : length s = 16%nat -> AddRoundKey k (AddRoundKey k s) = s.
Proof.
  intros Hl. apply state16_ext; [done|]. intros i Hi. unfold AddRoundKey. rewrite state16_get by done.
  by rewrite Z.lxor_assoc, Z.lxor_nilpotent, Z.lxor_0_r.
Qed.

Lemma InvSubShift s :
  bytes16 s -> InvShiftRows (SubBytes (get_word (INV_SBOX T)) (ShiftRows (SubBytes sbox s))) = s.
Proof.
  intros [Hl Hs]. apply state16_ext; [done|]. intros i Hi. unfold SubBytes, ShiftRows.
  set (q := i mod 4 + 4 * ((i / 4 - i mod 4) mod 4)).
  assert (0 <= q < 16 /\ q mod 4 + 4 * ((q / 4 + q mod 4) mod 4) = i) as [Hq Eq]
    by (unfold q; Z.div_mod_to_equations; lia).
  rewrite !state16_get, Eq by lia. apply sbox_inv. auto.
Qed.

(** * Decryption *)

(** The state with the 2nd and 4th columns swapped. *)
Definition swapped (s : columns) : list Z := state_of (Columns (s0 s) (s3 s) (s2 s) (s1 s)).
Definition key_columns (ks : list Z) (r : Z) : columns :=
  Columns (get_word ks (4 * r)) (get_word ks (4 * r + 1)) (get_word ks (4 * r + 2)) (get_word ks (4 * r + 3)).

Lemma dec_round M coef sb ks r s :
  table_column M coef sb ->
  swapped (shift_columns (mix_column (M 0) (M 1) (M 2) (M 3) ks) (4 * r) s) =
  AddRoundKey (swapped (key_columns ks r)) (MixColumns_with coef (InvShiftRows (SubBytes sb (swapped s)))).
Proof.
  intros HM. destruct s as [a b c d]. unfold swapped at 1, state_of, key_columns.
  cbn [shift_columns s0 s1 s2 s3]. rewrite !(mix_column_byte M coef sb) by (done || lia).
  unfold MixColumns_with, xor4, AddRoundKey, swapped, state_of. generalize gmul Z.lxor bt. intros g x e.
  cbn [s0 s1 s2 s3]. generalize (get_word coef) (get_word ks). intros co kw. vm_compute. reflexivity.
Qed.

Lemma dec_last SB sb ks r s :
  (forall x, is_byte x -> get_word SB x = sb x /\ is_byte (sb x)) ->
  swapped (shift_columns (last_column SB ks) (4 * r) s) =
  AddRoundKey (swapped (key_columns ks r)) (InvShiftRows (SubBytes sb (swapped s))).
Proof.
  intros HS. destruct s as [a b c d]. unfold swapped at 1, state_of, key_columns.
  cbn [shift_columns s0 s1 s2 s3]. rewrite !(last_column_byte SB sb) by (done || lia). reflexivity.
Qed.

(** The rows of a schedule filled in order. *)
Lemma fill_get f n i : 0 <= i < Z.of_nat n -> get_word (loop n (fun r ks => set_word ks r (f r)) []) i = f i.
Proof.
  induction n as [|n IH]; intros Hi; [lia|]. rewrite loop_S, get_set_word by lia.
  destruct (Z.eqb_spec i (Z.of_nat n)) as [->|]; [done|]. apply IH. lia.
Qed.

(** A word that is mixed back, by its bytes. *)
Lemma inv_mix_byte t j :
  0 <= j < 4 -> bt j (inv_mix t) = xor4 (fun k => gmul (get_word [14; 11; 13; 9] ((k - j) mod 4)) (bt k t)).
Proof.
  intros Hj. unfold inv_mix, xor4. rewrite !bt_xor, (bt_0 t), (bt_3 t) by done.
  change ((t >>>w 16) &w 0xff) with (bt 1 t). change ((t >>>w 8) &w 0xff) with (bt 2 t).
  rewrite !sbox_table by apply bt_byte.
  assert (forall k x, is_byte x -> 0 <= k < 4 -> bt j (get_word (inv_sub_mix k) (sbox x)) =
    gmul (get_word [14; 11; 13; 9] ((k - j) mod 4)) x) as E.
  { intros k x Hx Hk. destruct (sbox_inv x Hx) as [Ei Hb]. rewrite inv_mix_table by done. by rewrite Ei. }
  change (INV_SUB_MIX_0 T) with (inv_sub_mix 0). change (INV_SUB_MIX_1 T) with (inv_sub_mix 1).
  change (INV_SUB_MIX_2 T) with (inv_sub_mix 2). change (INV_SUB_MIX_3 T) with (inv_sub_mix 3).
  by rewrite !E by (apply bt_byte || lia).
Qed.

(** The round keys of decryption. *)
Section InvKeys.
Context (Nr : Z) (ks : list Z).
Hypothesis HN : 1 <= Nr.
#[local] Abbreviation rows := ((Nr + 1) * 4).
#[local] Abbreviation inv := (loop (Z.to_nat rows) (fun r k => set_word k r (inv_row rows ks r)) []).

Lemma inv_row_at r i : 0 <= r <= Nr -> 0 <= i < 4 ->
  get_word inv (4 * r + i) =
  let t := get_word ks (4 * (Nr - r) + (- i) mod 4) in if (r =? 0) || (r =? Nr) then t else inv_mix t.
Proof using HN.
  intros Hr Hi. rewrite fill_get by lia. unfold inv_row. cbv zeta.
  replace ((4 * r + i) mod 4) with i by (Z.div_mod_to_equations; lia).
  assert (((4 * r + i <? 4) || (rows - (4 * r + i) <=? 4)) = ((r =? 0) || (r =? Nr))) as ->.
  { destruct (Z.eqb_spec r 0), (Z.eqb_spec r Nr); cbn [orb].
    - zbool (4 * r + i <? 4) true. done.
    - zbool (4 * r + i <? 4) true. done.
    - zbool (rows - (4 * r + i) <=? 4) true. apply orb_true_r.
    - zbool (4 * r + i <? 4) false. by zbool (rows - (4 * r + i) <=? 4) false. }
  destruct (Z.eqb_spec i 0) as [->|Hne]; cbn [negb].
  - replace (rows - (4 * r + 0) - 4) with (4 * (Nr - r) + (- 0) mod 4) by (change ((- 0) mod 4) with 0; lia). done.
  - replace (rows - (4 * r + i)) with (4 * (Nr - r) + (- i) mod 4); [done|]. Z.div_mod_to_equations; lia.
Qed.

Lemma inv_keys r : 0 <= r <= Nr ->
  swapped (key_columns inv r) =
  if (r =? 0) || (r =? Nr) then round_key ks (Nr - r) else InvMixColumns (round_key ks (Nr - r)).
Proof using HN.
  intros Hr. unfold swapped, key_columns. cbn [s0 s1 s2 s3]. rewrite !inv_row_at by lia.
  pose proof (inv_row_at r 0 Hr ltac:(lia)) as E0. rewrite Z.add_0_r in E0. rewrite E0.
  rewrite round_key_words by lia. cbv zeta. change ((- 0) mod 4) with 0. change ((- (1)) mod 4) with 3.
  change ((- (2)) mod 4) with 2. change ((- (3)) mod 4) with 1. rewrite Z.add_0_r.
  destruct ((r =? 0) || (r =? Nr)); [done|]. unfold state_of at 1. cbn [s0 s1 s2 s3].
  rewrite !inv_mix_byte by lia. unfold InvMixColumns, MixColumns_with, xor4, state_of.
  generalize gmul Z.lxor bt (get_word [14; 11; 13; 9]). intros g x e co. cbn [s0 s1 s2 s3].
  generalize (get_word ks). intros kw. vm_compute. reflexivity.
Qed.
End InvKeys.

Lemma inv_sbox_table x :
  is_byte x -> get_word (INV_SBOX T) x = get_word (INV_SBOX T) x /\ is_byte (get_word (INV_SBOX T) x).
Proof. intros Hx. split; [done|by apply inv_sbox_byte]. Qed.

Lemma enc_state_bytes w input n : bytes16 input -> bytes16 (enc_state w input n).
Proof.
  intros Hi. induction n as [|n IH]; [apply AddRoundKey_bytes; [apply round_key_bytes|done]|].
  unfold enc_state in *. rewrite loop_S. apply AddRoundKey_bytes; [apply round_key_bytes|].
  by apply MixColumns_bytes, SubShift_bytes.
Qed.

Section Decrypt.
Context (key : wordarray) (M : list Z).
Hypothesis Hkey : 0 <= sigBytes key.
#[local] Abbreviation k := (_doReset key).
#[local] Abbreviation Nr := (_nRounds k).
#[local] Abbreviation ks := (_keySchedule k).
#[local] Abbreviation inv := (_invKeySchedule k).

Lemma rounds_pos : 1 <= Nr.
Proof using Hkey. cbn [_doReset _nRounds]. assert (0 <= sigBytes key / 4) by (apply Z.div_pos; lia). lia. Qed.

Lemma dec_keys r : 0 <= r <= Nr -> swapped (key_columns inv r) =
  if (r =? 0) || (r =? Nr) then round_key ks (Nr - r) else InvMixColumns (round_key ks (Nr - r)).
Proof using Hkey. intros Hr. apply (inv_keys Nr ks rounds_pos r Hr). Qed.

#[local] Abbreviation input := (block_bytes M).
#[local] Abbreviation SubShift n := (ShiftRows (SubBytes sbox (enc_state ks input n))).

(** After [n] rounds of decryption the state is that of encryption before its
    last [n] rounds, in the middle of a round. *)
Lemma dec_rounds init n :
  swapped init = SubShift (Z.to_nat (Nr - 1)) -> Z.of_nat n <= Nr - 1 ->
  swapped (loop n (fun r => shift_columns (mix_column (INV_SUB_MIX_0 T) (INV_SUB_MIX_1 T) (INV_SUB_MIX_2 T)
    (INV_SUB_MIX_3 T) inv) (4 + 4 * r)) init) = SubShift (Z.to_nat (Nr - 1 - Z.of_nat n)).
Proof using Hkey.
  intros Hi. pose proof rounds_pos as HN. set (N := Nr) in *. induction n as [|n IH]; intros Hn.
  { cbn [loop]. rewrite Hi. do 4 f_equal. lia. }
  rewrite loop_S. replace (4 + 4 * Z.of_nat n) with (4 * (Z.of_nat n + 1)) by lia.
  rewrite (dec_round inv_sub_mix [14; 11; 13; 9] (get_word (INV_SBOX T)) inv _ _ inv_mix_table), IH by lia.
  assert (forall q, bytes16 (enc_state ks input q)) as Hb by (intros; apply enc_state_bytes, round_key_bytes).
  rewrite InvSubShift, dec_keys by (done || (fold N; lia)). fold N.
  zbool (Z.of_nat n + 1 =? 0) false. zbool (Z.of_nat n + 1 =? N) false. cbn [orb].
  set (m := Z.to_nat (N - 1 - Z.of_nat (S n))). replace (Z.to_nat (N - 1 - Z.of_nat n)) with (S m) by lia.
  assert (enc_state ks input (S m) = AddRoundKey (round_key ks (N - (Z.of_nat n + 1))) (MixColumns (SubShift m))) as ->.
  { unfold enc_state. rewrite loop_S. do 2 f_equal. lia. }
  unfold InvMixColumns. rewrite MixColumns_AddRoundKey;
    [|apply round_key_bytes|by apply MixColumns_bytes, SubShift_bytes].
  fold InvMixColumns. rewrite AddRoundKey_cancel by done. apply InvMixColumns_MixColumns. by apply SubShift_bytes.
Qed.

Lemma decrypt_encrypt_bytes : block_bytes (decrypt_block k (encrypt_block k M)) = block_bytes M.
Proof using Hkey.
  pose proof rounds_pos as HN. pose proof (encrypt_block_fips k M HN) as He.
  unfold decrypt_block, _doCryptBlock. set (C := encrypt_block k M) in *. set (init := Columns _ _ _ _).
  assert (swapped init = SubShift (Z.to_nat (Nr - 1))) as Hi.
  { transitivity (AddRoundKey (swapped (key_columns inv 0)) (block_bytes C)).
    - unfold swapped, init, key_columns, block_bytes. rewrite round_key_words by done. cbn [s0 s1 s2 s3].
      unfold state_of at 1. cbn [s0 s1 s2 s3]. rewrite !bt_xor by lia. reflexivity.
    - rewrite dec_keys, He by lia. cbn [Z.eqb orb]. rewrite Z.sub_0_r. unfold Cipher. cbv zeta.
      by rewrite AddRoundKey_cancel. }
  pose proof (dec_rounds init (Z.to_nat (Nr - 1)) Hi ltac:(lia)) as Hl.
  set (s := loop _ _ init) in *. pose proof (dec_last (INV_SBOX T) (get_word (INV_SBOX T)) inv Nr s inv_sbox_table) as E.
  destruct (shift_columns (last_column (INV_SBOX T) inv) (4 * Nr) s) as [a b c d].
  transitivity (swapped (Columns a b c d)); [apply block_columns|].
  rewrite E, Hl, InvSubShift, dec_keys by (lia || apply enc_state_bytes, round_key_bytes).
  rewrite Z.eqb_refl, orb_true_r, Z.sub_diag. replace (Z.to_nat (Nr - 1 - _)) with 0%nat by lia.
  by apply AddRoundKey_cancel.
Qed.
End Decrypt.

Lemma block_bytes_weq a b : length a = 4%nat -> length b = 4%nat -> block_bytes a = block_bytes b -> weq a b.
Proof.
  intros Ha Hb E. apply weq_intro; [by rewrite Ha, Hb|]. intros i Hi. destruct (decide (i < 4)) as [Hlt|Hge].
  - apply word_ext; [done|done|]. intros j Hj. apply (f_equal (fun s => get_word s (4 * i + j))) in E.
    unfold block_bytes, round_key in E. rewrite !state16_get in E by lia. exact E.
  - unfold get_word. by rewrite !lookup_ge_None_2 by lia.
Qed.

Lemma aes_crypt_weq SUB0 SUB1 SUB2 SUB3 SB ks n a b :
  weq a b -> _doCryptBlock SUB0 SUB1 SUB2 SUB3 SB ks n a = _doCryptBlock SUB0 SUB1 SUB2 SUB3 SB ks n b.
Proof.
  intros Hw. unfold _doCryptBlock.
  rewrite !(fun i => xor_u32 (get_word a i) (get_word b i) (get_word ks i) (get_word ks i) (weq_get a b i Hw) eq_refl).
  done.
Qed.

Lemma swap_rows_weq a b : weq a b -> weq (swap_rows a) (swap_rows b).
Proof. intros Hw. unfold weq, swap_rows. cbn. by rewrite !(weq_get a b _ Hw). Qed.

Lemma aes_crypt_length SUB0 SUB1 SUB2 SUB3 SB ks n a : length (_doCryptBlock SUB0 SUB1 SUB2 SUB3 SB ks n a) = 4%nat.
Proof. unfold _doCryptBlock. by destruct (shift_columns _ _ _). Qed.

Lemma aes_laws key : 0 <= sigBytes key -> @BlockCipherLaws (cipher key).
Proof.
  intros Hk. split; cbn [cipher bc_size enc dec].
  - lia.
  - intros. apply aes_crypt_length.
  - done.
  - intros b b' Hw. by apply aes_crypt_weq.
  - intros b b' Hw. unfold decrypt_block. by rewrite (aes_crypt_weq _ _ _ _ _ _ _ _ _ (swap_rows_weq b b' Hw)).
  - intros b Hb. apply block_bytes_weq; [done|done|]. by apply decrypt_encrypt_bytes.
Qed.

(** FIPS 197, appendix C. *)
Example fips197_c3 :
  match Hex_parse (str "000102030405060708090a0b0c0d0e0f101112131415161718191a1b1c1d1e1f"),
        Hex_parse (str "00112233445566778899aabbccddeeff") with
  | Some key, Some m =>
      Hex_stringify (wa_init (encrypt_block (_doReset key) (words m))) = str "8ea2b7ca516745bfeafc49904b496089"
  | _, _ => False
  end.
Proof. vm_compute. reflexivity. Qed.


End AES.
