(* ===== verification/Des.v ===== *)
(** The DES and Triple-DES block ciphers of the bundled crypto-js, web3.js
    12286-13057: the subkeys, the permutations by exchange of bits and the
    Feistel rounds. Decrypting a block undoes encrypting it. *)
From Stdlib Require Import ZArith Lia.
From S2P Require Import Prelude Words WordArray Hasher Cipher CipherBlocks.
Open Scope Z_scope.
Open Scope word_scope.

Module DES.

(** * Constants *)

Definition PC1 : list Z :=
  [57; 49; 41; 33; 25; 17; 9;  1;
   58; 50; 42; 34; 26; 18; 10; 2;
   59; 51; 43; 35; 27; 19; 11; 3;
   60; 52; 44; 36; 63; 55; 47; 39;
   31; 23; 15; 7;  62; 54; 46; 38;
   30; 22; 14; 6;  61; 53; 45; 37;
   29; 21; 13; 5;  28; 20; 12; 4].

Definition PC2 : list Z :=
  [14; 17; 11; 24; 1;  5;
   3;  28; 15; 6;  21; 10;
   23; 19; 12; 4;  26; 8;
   16; 7;  27; 20; 13; 2;
   41; 52; 31; 37; 47; 55;
   30; 40; 51; 45; 33; 48;
   44; 49; 39; 56; 34; 53;
   46; 42; 50; 36; 29; 32].

Definition BIT_SHIFTS : list Z := [1; 2; 4; 6; 8; 10; 12; 14; 15; 17; 19; 21; 23; 25; 27; 28].

Definition SBOX_P_0 : list (Z * Z) :=
  [(0x0, 0x808200); (0x10000000, 0x8000); (0x20000000, 0x808002); (0x30000000, 0x2);
   (0x40000000, 0x200); (0x50000000, 0x808202); (0x60000000, 0x800202); (0x70000000, 0x800000);
   (0x80000000, 0x202); (0x90000000, 0x800200); (0xa0000000, 0x8200); (0xb0000000, 0x808000);
   (0xc0000000, 0x8002); (0xd0000000, 0x800002); (0xe0000000, 0x0); (0xf0000000, 0x8202);
   (0x8000000, 0x0); (0x18000000, 0x808202); (0x28000000, 0x8202); (0x38000000, 0x8000);
   (0x48000000, 0x808200); (0x58000000, 0x200); (0x68000000, 0x808002); (0x78000000, 0x2);
   (0x88000000, 0x800200); (0x98000000, 0x8200); (0xa8000000, 0x808000); (0xb8000000, 0x800202);
   (0xc8000000, 0x800002); (0xd8000000, 0x8002); (0xe8000000, 0x202); (0xf8000000, 0x800000);
   (0x1, 0x8000); (0x10000001, 0x2); (0x20000001, 0x808200); (0x30000001, 0x800000);
   (0x40000001, 0x808002); (0x50000001, 0x8200); (0x60000001, 0x200); (0x70000001, 0x800202);
   (0x80000001, 0x808202); (0x90000001, 0x808000); (0xa0000001, 0x800002); (0xb0000001, 0x8202);
   (0xc0000001, 0x202); (0xd0000001, 0x800200); (0xe0000001, 0x8002); (0xf0000001, 0x0);
   (0x8000001, 0x808202); (0x18000001, 0x808000); (0x28000001, 0x800000); (0x38000001, 0x200);
   (0x48000001, 0x8000); (0x58000001, 0x800002); (0x68000001, 0x2); (0x78000001, 0x8202);
   (0x88000001, 0x8002); (0x98000001, 0x800202); (0xa8000001, 0x202); (0xb8000001, 0x808200);
   (0xc8000001, 0x800200); (0xd8000001, 0x0); (0xe8000001, 0x8200); (0xf8000001, 0x808002)].
Definition SBOX_P_1 : list (Z * Z) :=
  [(0x0, 0x40084010); (0x1000000, 0x4000); (0x2000000, 0x80000); (0x3000000, 0x40080010);
   (0x4000000, 0x40000010); (0x5000000, 0x40084000); (0x6000000, 0x40004000); (0x7000000, 0x10);
   (0x8000000, 0x84000); (0x9000000, 0x40004010); (0xa000000, 0x40000000); (0xb000000, 0x84010);
   (0xc000000, 0x80010); (0xd000000, 0x0); (0xe000000, 0x4010); (0xf000000, 0x40080000);
   (0x800000, 0x40004000); (0x1800000, 0x84010); (0x2800000, 0x10); (0x3800000, 0x40004010);
   (0x4800000, 0x40084010); (0x5800000, 0x40000000); (0x6800000, 0x80000); (0x7800000, 0x40080010);
   (0x8800000, 0x80010); (0x9800000, 0x0); (0xa800000, 0x4000); (0xb800000, 0x40080000);
   (0xc800000, 0x40000010); (0xd800000, 0x84000); (0xe800000, 0x40084000); (0xf800000, 0x4010);
   (0x10000000, 0x0); (0x11000000, 0x40080010); (0x12000000, 0x40004010); (0x13000000, 0x40084000);
   (0x14000000, 0x40080000); (0x15000000, 0x10); (0x16000000, 0x84010); (0x17000000, 0x4000);
   (0x18000000, 0x4010); (0x19000000, 0x80000); (0x1a000000, 0x80010); (0x1b000000, 0x40000010);
   (0x1c000000, 0x84000); (0x1d000000, 0x40004000); (0x1e000000, 0x40000000); (0x1f000000, 0x40084010);
   (0x10800000, 0x84010); (0x11800000, 0x80000); (0x12800000, 0x40080000); (0x13800000, 0x4000);
   (0x14800000, 0x40004000); (0x15800000, 0x40084010); (0x16800000, 0x10); (0x17800000, 0x40000000);
   (0x18800000, 0x40084000); (0x19800000, 0x40000010); (0x1a800000, 0x40004010); (0x1b800000, 0x80010);
   (0x1c800000, 0x0); (0x1d800000, 0x4010); (0x1e800000, 0x40080010); (0x1f800000, 0x84000)].
Definition SBOX_P_2 : list (Z * Z) :=
  [(0x0, 0x104); (0x100000, 0x0); (0x200000, 0x4000100); (0x300000, 0x10104);
   (0x400000, 0x10004); (0x500000, 0x4000004); (0x600000, 0x4010104); (0x700000, 0x4010000);
   (0x800000, 0x4000000); (0x900000, 0x4010100); (0xa00000, 0x10100); (0xb00000, 0x4010004);
   (0xc00000, 0x4000104); (0xd00000, 0x10000); (0xe00000, 0x4); (0xf00000, 0x100);
   (0x80000, 0x4010100); (0x180000, 0x4010004); (0x280000, 0x0); (0x380000, 0x4000100);
   (0x480000, 0x4000004); (0x580000, 0x10000); (0x680000, 0x10004); (0x780000, 0x104);
   (0x880000, 0x4); (0x980000, 0x100); (0xa80000, 0x4010000); (0xb80000, 0x10104);
   (0xc80000, 0x10100); (0xd80000, 0x4000104); (0xe80000, 0x4010104); (0xf80000, 0x4000000);
   (0x1000000, 0x4010100); (0x1100000, 0x10004); (0x1200000, 0x10000); (0x1300000, 0x4000100);
   (0x1400000, 0x100); (0x1500000, 0x4010104); (0x1600000, 0x4000004); (0x1700000, 0x0);
   (0x1800000, 0x4000104); (0x1900000, 0x4000000); (0x1a00000, 0x4); (0x1b00000, 0x10100);
   (0x1c00000, 0x4010000); (0x1d00000, 0x104); (0x1e00000, 0x10104); (0x1f00000, 0x4010004);
   (0x1080000, 0x4000000); (0x1180000, 0x104); (0x1280000, 0x4010100); (0x1380000, 0x0);
   (0x1480000, 0x10004); (0x1580000, 0x4000100); (0x1680000, 0x100); (0x1780000, 0x4010004);
   (0x1880000, 0x10000); (0x1980000, 0x4010104); (0x1a80000, 0x10104); (0x1b80000, 0x4000004);
   (0x1c80000, 0x4000104); (0x1d80000, 0x4010000); (0x1e80000, 0x4); (0x1f80000, 0x10100)].
Definition SBOX_P_3 : list (Z * Z) :=
  [(0x0, 0x80401000); (0x10000, 0x80001040); (0x20000, 0x401040); (0x30000, 0x80400000);
   (0x40000, 0x0); (0x50000, 0x401000); (0x60000, 0x80000040); (0x70000, 0x400040);
   (0x80000, 0x80000000); (0x90000, 0x400000); (0xa0000, 0x40); (0xb0000, 0x80001000);
   (0xc0000, 0x80400040); (0xd0000, 0x1040); (0xe0000, 0x1000); (0xf0000, 0x80401040);
   (0x8000, 0x80001040); (0x18000, 0x40); (0x28000, 0x80400040); (0x38000, 0x80001000);
   (0x48000, 0x401000); (0x58000, 0x80401040); (0x68000, 0x0); (0x78000, 0x80400000);
   (0x88000, 0x1000); (0x98000, 0x80401000); (0xa8000, 0x400000); (0xb8000, 0x1040);
   (0xc8000, 0x80000000); (0xd8000, 0x400040); (0xe8000, 0x401040); (0xf8000, 0x80000040);
   (0x100000, 0x400040); (0x110000, 0x401000); (0x120000, 0x80000040); (0x130000, 0x0);
   (0x140000, 0x1040); (0x150000, 0x80400040); (0x160000, 0x80401000); (0x170000, 0x80001040);
   (0x180000, 0x80401040); (0x190000, 0x80000000); (0x1a0000, 0x80400000); (0x1b0000, 0x401040);
   (0x1c0000, 0x80001000); (0x1d0000, 0x400000); (0x1e0000, 0x40); (0x1f0000, 0x1000);
   (0x108000, 0x80400000); (0x118000, 0x80401040); (0x128000, 0x0); (0x138000, 0x401000);
   (0x148000, 0x400040); (0x158000, 0x80000000); (0x168000, 0x80001040); (0x178000, 0x40);
   (0x188000, 0x80000040); (0x198000, 0x1000); (0x1a8000, 0x80001000); (0x1b8000, 0x80400040);
   (0x1c8000, 0x1040); (0x1d8000, 0x80401000); (0x1e8000, 0x400000); (0x1f8000, 0x401040)].
Definition SBOX_P_4 : list (Z * Z) :=
  [(0x0, 0x80); (0x1000, 0x1040000); (0x2000, 0x40000); (0x3000, 0x20000000);
   (0x4000, 0x20040080); (0x5000, 0x1000080); (0x6000, 0x21000080); (0x7000, 0x40080);
   (0x8000, 0x1000000); (0x9000, 0x20040000); (0xa000, 0x20000080); (0xb000, 0x21040080);
   (0xc000, 0x21040000); (0xd000, 0x0); (0xe000, 0x1040080); (0xf000, 0x21000000);
   (0x800, 0x1040080); (0x1800, 0x21000080); (0x2800, 0x80); (0x3800, 0x1040000);
   (0x4800, 0x40000); (0x5800, 0x20040080); (0x6800, 0x21040000); (0x7800, 0x20000000);
   (0x8800, 0x20040000); (0x9800, 0x0); (0xa800, 0x21040080); (0xb800, 0x1000080);
   (0xc800, 0x20000080); (0xd800, 0x21000000); (0xe800, 0x1000000); (0xf800, 0x40080);
   (0x10000, 0x40000); (0x11000, 0x80); (0x12000, 0x20000000); (0x13000, 0x21000080);
   (0x14000, 0x1000080); (0x15000, 0x21040000); (0x16000, 0x20040080); (0x17000, 0x1000000);
   (0x18000, 0x21040080); (0x19000, 0x21000000); (0x1a000, 0x1040000); (0x1b000, 0x20040000);
   (0x1c000, 0x40080); (0x1d000, 0x20000080); (0x1e000, 0x0); (0x1f000, 0x1040080);
   (0x10800, 0x21000080); (0x11800, 0x1000000); (0x12800, 0x1040000); (0x13800, 0x20040080);
   (0x14800, 0x20000000); (0x15800, 0x1040080); (0x16800, 0x80); (0x17800, 0x21040000);
   (0x18800, 0x40080); (0x19800, 0x21040080); (0x1a800, 0x0); (0x1b800, 0x21000000);
   (0x1c800, 0x1000080); (0x1d800, 0x40000); (0x1e800, 0x20040000); (0x1f800, 0x20000080)].
Definition SBOX_P_5 : list (Z * Z) :=
  [(0x0, 0x10000008); (0x100, 0x2000); (0x200, 0x10200000); (0x300, 0x10202008);
   (0x400, 0x10002000); (0x500, 0x200000); (0x600, 0x200008); (0x700, 0x10000000);
   (0x800, 0x0); (0x900, 0x10002008); (0xa00, 0x202000); (0xb00, 0x8);
   (0xc00, 0x10200008); (0xd00, 0x202008); (0xe00, 0x2008); (0xf00, 0x10202000);
   (0x80, 0x10200000); (0x180, 0x10202008); (0x280, 0x8); (0x380, 0x200000);
   (0x480, 0x202008); (0x580, 0x10000008); (0x680, 0x10002000); (0x780, 0x2008);
   (0x880, 0x200008); (0x980, 0x2000); (0xa80, 0x10002008); (0xb80, 0x10200008);
   (0xc80, 0x0); (0xd80, 0x10202000); (0xe80, 0x202000); (0xf80, 0x10000000);
   (0x1000, 0x10002000); (0x1100, 0x10200008); (0x1200, 0x10202008); (0x1300, 0x2008);
   (0x1400, 0x200000); (0x1500, 0x10000000); (0x1600, 0x10000008); (0x1700, 0x202000);
   (0x1800, 0x202008); (0x1900, 0x0); (0x1a00, 0x8); (0x1b00, 0x10200000);
   (0x1c00, 0x2000); (0x1d00, 0x10002008); (0x1e00, 0x10202000); (0x1f00, 0x200008);
   (0x1080, 0x8); (0x1180, 0x202000); (0x1280, 0x200000); (0x1380, 0x10000008);
   (0x1480, 0x10002000); (0x1580, 0x2008); (0x1680, 0x10202008); (0x1780, 0x10200000);
   (0x1880, 0x10202000); (0x1980, 0x10200008); (0x1a80, 0x2000); (0x1b80, 0x202008);
   (0x1c80, 0x200008); (0x1d80, 0x0); (0x1e80, 0x10000000); (0x1f80, 0x10002008)].
Definition SBOX_P_6 : list (Z * Z) :=
  [(0x0, 0x100000); (0x10, 0x2000401); (0x20, 0x400); (0x30, 0x100401);
   (0x40, 0x2100401); (0x50, 0x0); (0x60, 0x1); (0x70, 0x2100001);
   (0x80, 0x2000400); (0x90, 0x100001); (0xa0, 0x2000001); (0xb0, 0x2100400);
   (0xc0, 0x2100000); (0xd0, 0x401); (0xe0, 0x100400); (0xf0, 0x2000000);
   (0x8, 0x2100001); (0x18, 0x0); (0x28, 0x2000401); (0x38, 0x2100400);
   (0x48, 0x100000); (0x58, 0x2000001); (0x68, 0x2000000); (0x78, 0x401);
   (0x88, 0x100401); (0x98, 0x2000400); (0xa8, 0x2100000); (0xb8, 0x100001);
   (0xc8, 0x400); (0xd8, 0x2100401); (0xe8, 0x1); (0xf8, 0x100400);
   (0x100, 0x2000000); (0x110, 0x100000); (0x120, 0x2000401); (0x130, 0x2100001);
   (0x140, 0x100001); (0x150, 0x2000400); (0x160, 0x2100400); (0x170, 0x100401);
   (0x180, 0x401); (0x190, 0x2100401); (0x1a0, 0x100400); (0x1b0, 0x1);
   (0x1c0, 0x0); (0x1d0, 0x2100000); (0x1e0, 0x2000001); (0x1f0, 0x400);
   (0x108, 0x100400); (0x118, 0x2000401); (0x128, 0x2100001); (0x138, 0x1);
   (0x148, 0x2000000); (0x158, 0x100000); (0x168, 0x401); (0x178, 0x2100400);
   (0x188, 0x2000001); (0x198, 0x2100000); (0x1a8, 0x0); (0x1b8, 0x2100401);
   (0x1c8, 0x100401); (0x1d8, 0x400); (0x1e8, 0x2000400); (0x1f8, 0x100001)].
Definition SBOX_P_7 : list (Z * Z) :=
  [(0x0, 0x8000820); (0x1, 0x20000); (0x2, 0x8000000); (0x3, 0x20);
   (0x4, 0x20020); (0x5, 0x8020820); (0x6, 0x8020800); (0x7, 0x800);
   (0x8, 0x8020000); (0x9, 0x8000800); (0xa, 0x20800); (0xb, 0x8020020);
   (0xc, 0x820); (0xd, 0x0); (0xe, 0x8000020); (0xf, 0x20820);
   (0x80000000, 0x800); (0x80000001, 0x8020820); (0x80000002, 0x8000820); (0x80000003, 0x8000000);
   (0x80000004, 0x8020000); (0x80000005, 0x20800); (0x80000006, 0x20820); (0x80000007, 0x20);
   (0x80000008, 0x8000020); (0x80000009, 0x820); (0x8000000a, 0x20020); (0x8000000b, 0x8020800);
   (0x8000000c, 0x0); (0x8000000d, 0x8020020); (0x8000000e, 0x8000800); (0x8000000f, 0x20000);
   (0x10, 0x20820); (0x11, 0x8020800); (0x12, 0x20); (0x13, 0x800);
   (0x14, 0x8000800); (0x15, 0x8000020); (0x16, 0x8020020); (0x17, 0x20000);
   (0x18, 0x0); (0x19, 0x20020); (0x1a, 0x8020000); (0x1b, 0x8000820);
   (0x1c, 0x8020820); (0x1d, 0x20800); (0x1e, 0x820); (0x1f, 0x8000000);
   (0x80000010, 0x20000); (0x80000011, 0x800); (0x80000012, 0x8020020); (0x80000013, 0x20820);
   (0x80000014, 0x20); (0x80000015, 0x8020000); (0x80000016, 0x8000000); (0x80000017, 0x8000820);
   (0x80000018, 0x8020820); (0x80000019, 0x8000020); (0x8000001a, 0x8000800); (0x8000001b, 0x0);
   (0x8000001c, 0x20800); (0x8000001d, 0x820); (0x8000001e, 0x20020); (0x8000001f, 0x8020800)].
Definition SBOX_P : list (list (Z * Z)) :=
  [SBOX_P_0; SBOX_P_1; SBOX_P_2; SBOX_P_3; SBOX_P_4; SBOX_P_5; SBOX_P_6; SBOX_P_7].

(** [SBOX_P[i][key]]; a key that is not there reads as 0 under [|=]. *)
Fixpoint property (o : list (Z * Z)) (key : Z) : Z :=
  match o with
  | [] => 0
  | (k, v) :: o => if k =? key then v else property o key
  end.
Definition sbox_p (i key : Z) : Z := property (default [] (SBOX_P !! Z.to_nat i)) key.

Definition SBOX_MASK : list Z :=
  [0xf8000001; 0x1f800000; 0x01f80000; 0x001f8000;
   0x0001f800; 0x00001f80; 0x000001f8; 0x8000001f].

(** * Keys *)

Definition keyBits (keyWords : list Z) : list Z :=
  loop 56 (fun i bits =>
    let keyBitPos := get_word PC1 i - 1 in
    set_word bits i ((get_word keyWords (keyBitPos >>>w 5) >>>w (31 - keyBitPos mod 32)) &w 1)) [].

(** [a[i] |= v] *)
Definition or_word (ws : list Z) (i v : Z) : list Z := set_word ws i (get_word ws i |w v).

Definition subKey (bits : list Z) (nSubKey : Z) : list Z :=
  let bitShift := get_word BIT_SHIFTS nSubKey in
  let sk := loop 24 (fun i sk =>
    let sk := or_word sk ((i / 6) |w 0) (get_word bits ((get_word PC2 i - 1 + bitShift) mod 28) <<w (31 - i mod 6)) in
    or_word sk (4 + ((i / 6) |w 0))
      (get_word bits (28 + (get_word PC2 (i + 24) - 1 + bitShift) mod 28) <<w (31 - i mod 6))) [] in
  let sk := set_word sk 0 ((get_word sk 0 <<w 1) |w (get_word sk 0 >>>w 31)) in
  let sk := loop 6 (fun i sk => set_word sk (i + 1) (get_word sk (i + 1) >>>w (i * 4 + 3))) sk in
  set_word sk 7 ((get_word sk 7 <<w 5) |w (get_word sk 7 >>>w 27)).

(** [_subKeys] and [_invSubKeys], set by [_doReset]. *)
Definition subKeys (keyWords : list Z) : list (list Z) :=
  (fun nSubKey => subKey (keyBits keyWords) nSubKey) <$> seqZ 0 16.
Definition invSubKeys (keyWords : list Z) : list (list Z) :=
  (fun i => default [] (subKeys keyWords !! Z.to_nat (15 - i))) <$> seqZ 0 16.

(** * Blocks *)

(** [_lBlock] and [_rBlock]. *)
Definition halves : Type := Z * Z.

Definition exchangeLR (offset mask : Z) (b : halves) : halves :=
  let '(l, r) := b in
  let t := ((l >>>w offset) ^w r) &w mask in
  (l ^w (t <<w offset), r ^w t).
Definition exchangeRL (offset mask : Z) (b : halves) : halves :=
  let '(l, r) := b in
  let t := ((r >>>w offset) ^w l) &w mask in
  (l ^w t, r ^w (t <<w offset)).

Definition initial_permutation (b : halves) : halves :=
  let b := exchangeLR 4 0x0f0f0f0f b in
  let b := exchangeLR 16 0x0000ffff b in
  let b := exchangeRL 2 0x33333333 b in
  let b := exchangeRL 8 0x00ff00ff b in
  exchangeLR 1 0x55555555 b.
Definition final_permutation (b : halves) : halves :=
  let b := exchangeLR 1 0x55555555 b in
  let b := exchangeRL 8 0x00ff00ff b in
  let b := exchangeRL 2 0x33333333 b in
  let b := exchangeLR 16 0x0000ffff b in
  exchangeLR 4 0x0f0f0f0f b.

Definition feistel (subKey : list Z) (rBlock : Z) : Z :=
  loop 8 (fun i f =>
    f |w sbox_p i (((rBlock ^w get_word subKey i) &w get_word SBOX_MASK i) >>>w 0)) 0.
Definition round (subKey : list Z) (b : halves) : halves :=
  let '(lBlock, rBlock) := b in (rBlock, lBlock ^w feistel subKey rBlock).

Definition _doCryptBlock (subKeys : list (list Z)) (M : list Z) : list Z :=
  let b := initial_permutation (get_word M 0, get_word M 1) in
  let b := loop 16 (fun r => round (default [] (subKeys !! Z.to_nat r))) b in
  let '(l, r) := final_permutation (b.2, b.1) in
  [l; r].

Definition encrypt_block (key : list Z) (M : list Z) : list Z := _doCryptBlock (subKeys key) M.
Definition decrypt_block (key : list Z) (M : list Z) : list Z := _doCryptBlock (invSubKeys key) M.
Definition cipher (key : wordarray) : BlockCipher :=
  {| bc_size := 2; enc := encrypt_block (words key); dec := decrypt_block (words key) |}.

(** A known answer. *)
Example des_vector :
  match Hex_parse (str "133457799bbcdff1"), Hex_parse (str "0123456789abcdef") with
  | Some key, Some m =>
      Hex_stringify (wa_init (encrypt_block (words key) (words m))) = str "85e813540f0ab405"
  | _, _ => False
  end.
Proof. vm_compute. reflexivity. Qed.

(** * Decryption *)

(** Halves equal as 32-bit words. *)
Definition heq (a b : halves) : Prop := u32 a.1 = u32 b.1 /\ u32 a.2 = u32 b.2.
#[export] Instance heq_equiv : Equivalence heq.
Proof. split; unfold heq; [done|intros a b []|intros a b c [] []]; split; congruence. Qed.

Lemma exchange_bits l r offset mask i :
  0 <= offset < 32 -> 0 <= i < 32 ->
  Z.testbit (((l >>>w offset) ^w r) &w mask) i =
  xorb ((i + offset <? 32) && Z.testbit l (i + offset)) (Z.testbit r i) && Z.testbit mask i.
Proof. intros Ho Hi. by rewrite and_bits, xor_bits, ushr_bits by lia. Qed.

(** The mask only selects bits that the shift keeps. *)
Definition mask_fits (offset mask : Z) : Prop :=
  0 <= offset < 32 /\ forall i, 0 <= i < 32 -> Z.testbit mask i = true -> i + offset < 32.

Lemma exchangeLR_inv offset mask b :
  mask_fits offset mask -> heq (exchangeLR offset mask (exchangeLR offset mask b)) b.
Proof.
  intros [Ho Hm]. destruct b as [l r]. unfold exchangeLR.
  set (t := ((l >>>w offset) ^w r) &w mask). set (l' := l ^w (t <<w offset)). set (r' := r ^w t).
  set (t' := ((l' >>>w offset) ^w r') &w mask).
  assert (forall i, 0 <= i < 32 -> Z.testbit t' i = Z.testbit t i) as Ht.
  { intros i Hi. unfold t'. rewrite exchange_bits by done. unfold t at 1. rewrite exchange_bits by done.
    destruct (Z.testbit mask i) eqn:Em; [|by rewrite !andb_false_r]. specialize (Hm i Hi Em). rewrite !andb_true_r.
    zbool (i + offset <? 32) true. cbn [andb]. unfold l', r'. rewrite !xor_bits, shl_bits by lia.
    zbool (offset <=? i + offset) true. replace (i + offset - offset) with i by lia. cbn [andb]. ring. }
  split; cbn [fst snd]; apply u32_ext; intros i Hi.
  - unfold l'. rewrite !xor_bits, !shl_bits by lia. destruct (Z.leb_spec offset i); cbn [andb]; [|ring].
    rewrite Ht by lia. ring.
  - unfold r'. rewrite !xor_bits, Ht by lia. ring.
Qed.

Lemma ushr_u32 a b n : u32 a = u32 b -> a >>>w n = b >>>w n.
Proof. intros E. unfold js_ushr. by rewrite E. Qed.

Lemma exchangeLR_heq offset mask a b : heq a b -> exchangeLR offset mask a = exchangeLR offset mask b.
Proof.
  destruct a as [l r], b as [l' r']. intros [El Er]. cbn [fst snd] in *. unfold exchangeLR.
  rewrite (ushr_u32 l l' offset El), (xor_u32 (l' >>>w offset) (l' >>>w offset) r r') by done.
  f_equal; by apply xor_u32.
Qed.

Definition swap (b : halves) : halves := (b.2, b.1).
Lemma exchangeRL_swap offset mask b : exchangeRL offset mask b = swap (exchangeLR offset mask (swap b)).
Proof. by destruct b. Qed.
Lemma swap_swap b : swap (swap b) = b.
Proof. by destruct b. Qed.
Lemma swap_heq a b : heq a b -> heq (swap a) (swap b).
Proof. intros []. by split. Qed.

Lemma exchangeRL_inv offset mask b :
  mask_fits offset mask -> heq (exchangeRL offset mask (exchangeRL offset mask b)) b.
Proof.
  intros Hm. rewrite !exchangeRL_swap, swap_swap. rewrite <- (swap_swap b) at 2.
  exact (swap_heq _ _ (exchangeLR_inv offset mask (swap b) Hm)).
Qed.
Lemma exchangeRL_heq offset mask a b : heq a b -> exchangeRL offset mask a = exchangeRL offset mask b.
Proof. intros Hb. rewrite !exchangeRL_swap. by rewrite (exchangeLR_heq _ _ _ _ (swap_heq a b Hb)). Qed.

Lemma masks_fit :
  mask_fits 4 0x0f0f0f0f /\ mask_fits 16 0x0000ffff /\ mask_fits 2 0x33333333 /\ mask_fits 8 0x00ff00ff /\
  mask_fits 1 0x55555555.
Proof.
  assert (forall offset mask, 0 <= offset < 32 ->
    forallb (fun i => negb (Z.testbit mask i) || (i + offset <? 32)) (seqZ 0 32) = true -> mask_fits offset mask) as Hf.
  { intros offset mask Ho Hf. split; [done|]. intros i Hi Hb. rewrite forallb_forall in Hf.
    specialize (Hf i). rewrite Hb in Hf. cbn [negb orb] in Hf. apply Z.ltb_lt, Hf, list_elem_of_In, elem_of_seqZ. lia. }
  split_and!; apply Hf; (lia || vm_compute; reflexivity).
Qed.

(** The final permutation undoes the initial one and is undone by it. *)
Lemma permutations_inv b : heq (initial_permutation (final_permutation b)) b /\
  heq (final_permutation (initial_permutation b)) b.
Proof.
  destruct masks_fit as (M4 & M16 & M2 & M8 & M1). unfold initial_permutation, final_permutation.
  rewrite (exchangeLR_heq 16 _ _ _ (exchangeLR_inv 4 _ _ M4)), (exchangeRL_heq 2 _ _ _ (exchangeLR_inv 16 _ _ M16)).
  rewrite (exchangeRL_heq 8 _ _ _ (exchangeRL_inv 2 _ _ M2)), (exchangeLR_heq 1 _ _ _ (exchangeRL_inv 8 _ _ M8)).
  rewrite (exchangeRL_heq 8 _ _ _ (exchangeLR_inv 1 _ _ M1)), (exchangeRL_heq 2 _ _ _ (exchangeRL_inv 8 _ _ M8)).
  rewrite (exchangeLR_heq 16 _ _ _ (exchangeRL_inv 2 _ _ M2)), (exchangeLR_heq 4 _ _ _ (exchangeLR_inv 16 _ _ M16)).
  split; [exact (exchangeLR_inv 1 _ b M1)|exact (exchangeLR_inv 4 _ b M4)].
Qed.

(** * Feistel rounds *)

Lemma feistel_u32 k r r' : u32 r = u32 r' -> feistel k r = feistel k r'.
Proof. intros E. unfold feistel. apply loop_ext. intros i f _. by rewrite (xor_u32 r r' (get_word k i) (get_word k i)). Qed.

(** A round on the swapped halves undoes it. *)
Lemma round_undo k b x : heq x (swap (round k b)) -> heq (round k x) (swap b).
Proof.
  destruct b as [l r], x as [l' r']. unfold round, swap. cbn [fst snd]. intros [E1 E2]. cbn [fst snd] in *.
  split; cbn [fst snd]; [done|]. rewrite (feistel_u32 k r' r) by done.
  rewrite u32_xor, E1, u32_xor, Z.lxor_assoc, Z.lxor_nilpotent. apply Z.lxor_0_r.
Qed.

Lemma rounds_undo (key : Z -> list Z) n b x j :
  heq x (swap (loop n (fun r => round (key r)) b)) -> (j <= n)%nat ->
  heq (loop j (fun r => round (key (Z.of_nat n - 1 - r))) x) (swap (loop (n - j) (fun r => round (key r)) b)).
Proof.
  intros Hx. induction j as [|j IH]; intros Hj; [by rewrite Nat.sub_0_r|]. rewrite loop_S. apply round_undo.
  rewrite IH by lia. replace (n - j)%nat with (S (n - S j)) by lia. rewrite loop_S.
  by replace (Z.of_nat n - 1 - Z.of_nat j) with (Z.of_nat (n - S j)) by lia.
Qed.

Lemma subkeys_at key r : 0 <= r < 16 -> default [] (invSubKeys key !! Z.to_nat r) = default [] (subKeys key !! Z.to_nat (15 - r)).
Proof. intros Hr. unfold invSubKeys. rewrite list_lookup_fmap, lookup_seqZ_lt by lia. simpl. do 3 f_equal. lia. Qed.

Lemma round_heq k a b : heq a b -> heq (round k a) (round k b).
Proof.
  destruct a as [l r], b as [l' r']. intros [E1 E2]. cbn [fst snd] in *. split; cbn [fst snd round]; [done|].
  by rewrite (feistel_u32 k r r'), !u32_xor, E1 by done.
Qed.

(** Crypting with the keys in one order, then in the other. *)
Lemma crypt_inverse (key key' : Z -> list Z) b :
  (forall r, 0 <= r < 16 -> key' r = key (15 - r)) ->
  let run k b := final_permutation (swap (loop 16 (fun r => round (k r)) (initial_permutation b))) in
  heq (run key' (run key b)) b.
Proof.
  intros Hk run. unfold run. set (e := loop 16 (fun r => round (key r)) (initial_permutation b)).
  set (x := initial_permutation (final_permutation (swap e))).
  pose proof (rounds_undo key 16 (initial_permutation b) x 16 (proj1 (permutations_inv (swap e))) ltac:(lia)) as Hu.
  rewrite (loop_ext 16 (fun r => round (key' r)) (fun r => round (key (Z.of_nat 16 - 1 - r)))).
  2:{ intros r y Hr. by rewrite Hk. }
  set (y := loop 16 (fun r => round (key (Z.of_nat 16 - 1 - r))) x) in *.
  apply swap_heq in Hu. rewrite swap_swap in Hu. unfold final_permutation at 1. rewrite (exchangeLR_heq 1 _ _ _ Hu).
  exact (proj2 (permutations_inv b)).
Qed.

Lemma crypt_run keys M :
  let b := final_permutation (swap (loop 16 (fun r => round (default [] (keys !! Z.to_nat r)))
    (initial_permutation (get_word M 0, get_word M 1)))) in
  _doCryptBlock keys M = [b.1; b.2].
Proof. unfold _doCryptBlock. cbv zeta. by destruct (final_permutation _). Qed.

Lemma des_crypt_length keys M : length (_doCryptBlock keys M) = 2%nat.
Proof. by rewrite crypt_run. Qed.

Lemma des_crypt_weq keys M M' : weq M M' -> _doCryptBlock keys M = _doCryptBlock keys M'.
Proof.
  intros Hw. rewrite !crypt_run. unfold initial_permutation.
  assert (heq (get_word M 0, get_word M 1) (get_word M' 0, get_word M' 1)) as Hh
    by (split; cbn; by apply weq_get).
  by rewrite (exchangeLR_heq 4 _ _ _ Hh).
Qed.

Lemma weq_2 a b M : length M = 2%nat -> heq (a, b) (get_word M 0, get_word M 1) -> weq [a; b] M.
Proof. destruct M as [|x [|y [|? ?]]]; try done. intros _ [E1 E2]. cbn in *. unfold weq. cbn. by rewrite E1, E2. Qed.

(** Both orders of the subkeys. *)
Lemma crypt_reverse keys keys' M :
  length M = 2%nat ->
  (forall r, 0 <= r < 16 -> default [] (keys' !! Z.to_nat r) = default [] (keys !! Z.to_nat (15 - r))) ->
  weq (_doCryptBlock keys' (_doCryptBlock keys M)) M.
Proof.
  intros HM Hk. pose proof (crypt_run keys M) as E. cbv zeta in E.
  pose proof (crypt_inverse (fun r => default [] (keys !! Z.to_nat r)) (fun r => default [] (keys' !! Z.to_nat r))
    (get_word M 0, get_word M 1) Hk) as Hi. cbv beta zeta in Hi.
  set (b := final_permutation _) in E, Hi. clearbody b. rewrite E. destruct b as [l r]. pose proof (crypt_run keys' [l; r]) as E'. cbv zeta in E'.
  cbn [get_word fst snd] in *. change (get_word [l; r] 0) with l in E'. change (get_word [l; r] 1) with r in E'.
  rewrite E'. apply weq_2; [done|]. by rewrite <- surjective_pairing.
Qed.
Lemma crypt_undo key M :
  length M = 2%nat ->
  weq (_doCryptBlock (invSubKeys key) (_doCryptBlock (subKeys key) M)) M /\
  weq (_doCryptBlock (subKeys key) (_doCryptBlock (invSubKeys key) M)) M.
Proof.
  intros HM. split; apply crypt_reverse; try done; [apply subkeys_at|].
  intros r Hr. rewrite subkeys_at by lia. do 3 f_equal. lia.
Qed.

Lemma des_laws key : @BlockCipherLaws (cipher key).
Proof.
  split; cbn [cipher bc_size enc dec]; unfold encrypt_block, decrypt_block.
  - lia.
  - intros. apply des_crypt_length.
  - intros. apply des_crypt_length.
  - intros. by apply des_crypt_weq.
  - intros. by apply des_crypt_weq.
  - intros b Hb. exact (proj1 (crypt_undo (words key) b Hb)).
Qed.
End DES.

Module TripleDES.
Definition encrypt_block (key M : list Z) : list Z :=
  DES.encrypt_block (slice 4 6 key) (DES.decrypt_block (slice 2 4 key) (DES.encrypt_block (slice 0 2 key) M)).
Definition decrypt_block (key M : list Z) : list Z :=
  DES.decrypt_block (slice 0 2 key) (DES.encrypt_block (slice 2 4 key) (DES.decrypt_block (slice 4 6 key) M)).
Definition cipher (key : wordarray) : BlockCipher :=
  {| bc_size := 2; enc := encrypt_block (words key); dec := decrypt_block (words key) |}.

Lemma tripledes_laws key : @BlockCipherLaws (cipher key).
Proof.
  split; cbn [cipher bc_size enc dec]; unfold encrypt_block, decrypt_block.
  - lia.
  - intros. apply DES.des_crypt_length.
  - intros. apply DES.des_crypt_length.
  - intros b b' Hw. unfold DES.encrypt_block at 1 3. do 2 f_equal. by apply DES.des_crypt_weq.
  - intros b b' Hw. unfold DES.decrypt_block at 1 3. do 2 f_equal. by apply DES.des_crypt_weq.
  - intros b Hb. unfold DES.decrypt_block, DES.encrypt_block. set (k3 := slice 4 6 _). set (k2 := slice 2 4 _).
    pose proof (fun M HM => proj1 (DES.crypt_undo k3 M HM)) as H3.
    pose proof (fun M HM => proj2 (DES.crypt_undo k2 M HM)) as H2.
    rewrite (DES.des_crypt_weq (DES.subKeys k2) _ _ (H3 _ (DES.des_crypt_length _ _))).
    rewrite (DES.des_crypt_weq _ _ _ (H2 _ (DES.des_crypt_length _ _))).
    exact (proj1 (DES.crypt_undo _ b Hb)).
Qed.
End TripleDES.
