(* ===== verification/Stream.v ===== *)
(** crypto-js's stream ciphers (web3.js 7205-7214, 10330-10854): data are
    xored with a keystream block by block. However the data are cut into
    pieces, what comes out is their bytes xored with the keystream, so that
    decrypting undoes encrypting. *)
From Stdlib Require Import ZArith Lia.
From S2P Require Import Prelude Words WordArray Hasher Cipher CipherBlocks CipherRoundtrip.
Open Scope Z_scope.
Open Scope word_scope.

(** * Stream ciphers *)

(** A stream cipher: its block size in words and how its state gives the next
    block of keystream. *)
Class StreamAlgorithm (S : Type) := {
  sc_size : Z;
  sc_next : S -> S * list Z
}.
Record stream (S : Type) := Stream { sc_state : S; sc_data : wordarray; sc_nDataBytes : Z }.
Arguments Stream {S}.
Arguments sc_state {S}.
Arguments sc_data {S}.
Arguments sc_nDataBytes {S}.

Section Stream.
Context {S : Type} `{StreamAlgorithm S}.

(** [_doProcessBlock] *)
Definition sc_block (offset : Z) (x : S * list Z) : S * list Z :=
  let '(s, ks) := sc_next x.1 in (s, xor_block (Z.to_nat sc_size) ks offset x.2).

Definition sc_append (d : wordarray) (c : stream S) : stream S :=
  Stream (sc_state c) (concat (sc_data c) d) (sc_nDataBytes c + sigBytes d).
Definition sc_process_data (flush : bool) (c : stream S) : wordarray * stream S :=
  let '(s, d, processed) := _process sc_size 0 flush sc_block (sc_state c) (sc_data c) in
  (processed, Stream s d (sc_nDataBytes c)).
Definition sc_process (d : wordarray) (c : stream S) : wordarray * stream S := sc_process_data false (sc_append d c).

(** [finalize(dataUpdate)], with [StreamCipher]'s [_doFinalize]. *)
Definition sc_finalize (d : option wordarray) (c : stream S) : wordarray :=
  (sc_process_data true (match d with Some d => sc_append d c | None => c end)).1.

(** A cipher just reset, in the state [s]; [encrypt] and [decrypt] are the same. *)
Definition sc_reset (s : S) : stream S := Stream s wa_empty 0.
Definition sc_crypt (s : S) (d : wordarray) : wordarray := sc_finalize (Some d) (sc_reset s).

(** A client that gives the pieces [ds] and then [d]. *)
Fixpoint sc_process_all (ds : list wordarray) (c : stream S) : list Z * stream S :=
  match ds with
  | [] => ([], c)
  | d :: ds =>
      let '(o, c) := sc_process d c in
      let '(os, c) := sc_process_all ds c in (bytes_of o ++ os, c)
  end.
Definition sc_transform (s : S) (ds : list wordarray) (d : option wordarray) : list Z :=
  let '(o, c) := sc_process_all ds (sc_reset s) in o ++ bytes_of (sc_finalize d c).

(** * The keystream *)

Definition sc_iter (k : nat) (s : S) : S := Nat.iter k (fun s => (sc_next s).1) s.
Definition ks_word (s : S) (i : Z) : Z :=
  get_word (sc_next (sc_iter (Z.to_nat (i / sc_size)) s)).2 (i mod sc_size).
Definition ks_byte (s : S) (q : Z) : Z := byte_at [ks_word s (q / 4)] (q mod 4).
Definition stream_bytes (s : S) (l : list Z) : list Z := imap (fun i b => Z.lxor b (ks_byte s (Z.of_nat i))) l.

Hypothesis Hsize : 0 < sc_size.

Lemma sc_iter_add j k s : sc_iter (j + k) s = sc_iter j (sc_iter k s).
Proof using Type. apply Nat.iter_add. Qed.

Lemma ks_word_shift k s i : 0 <= i -> ks_word (sc_iter k s) i = ks_word s (Z.of_nat k * sc_size + i).
Proof using Hsize.
  intros Hi. unfold ks_word. rewrite Z.add_comm, Z.div_add, Z.mod_add by lia.
  rewrite Z2Nat.inj_add, Nat2Z.id, sc_iter_add by (try apply Z.div_pos; lia). done.
Qed.

Lemma ks_byte_shift k s q : 0 <= q -> ks_byte (sc_iter k s) q = ks_byte s (Z.of_nat k * (sc_size * 4) + q).
Proof using Hsize.
  intros Hq. unfold ks_byte. rewrite ks_word_shift by (apply Z.div_pos; lia).
  replace (Z.of_nat k * (sc_size * 4) + q) with (q + Z.of_nat k * sc_size * 4) by lia.
  rewrite Z.div_add, Z.mod_add by lia. by rewrite (Z.add_comm (Z.of_nat k * sc_size)).
Qed.

(** The loop of [_process]. *)
Lemma sc_loop k s ws :
  let x := loop k (fun i => sc_block (i * sc_size)) (s, ws) in
  x.1 = sc_iter k s /\
  forall i, 0 <= i -> get_word x.2 i =
    if i <? Z.of_nat k * sc_size then get_word ws i ^w ks_word s i else get_word ws i.
Proof using Hsize.
  induction k as [|k IH]; cbv zeta in *.
  { split; [done|]. intros i Hi. by zbool (i <? Z.of_nat 0 * sc_size) false. }
  rewrite loop_S. destruct (loop k _ (s, ws)) as [s' ws']. cbn [fst snd] in IH. destruct IH as [-> IH].
  unfold sc_block. cbn [fst snd]. destruct (sc_next (sc_iter k s)) as [s' ks] eqn:E. cbn [fst snd]. split.
  { change (sc_iter (Datatypes.S k) s) with (sc_next (sc_iter k s)).1. by rewrite E. }
  assert (0 <= Z.of_nat k * sc_size) by (apply Z.mul_nonneg_nonneg; lia).
  intros i Hi. rewrite xor_get, IH by lia. rewrite Z2Nat.id by lia.
  replace (Z.of_nat (Datatypes.S k) * sc_size) with (Z.of_nat k * sc_size + sc_size) by lia.
  destruct (Z.leb_spec (Z.of_nat k * sc_size) i); cbn [andb].
  - zbool (i <? Z.of_nat k * sc_size) false. destruct (Z.ltb_spec i (Z.of_nat k * sc_size + sc_size)); [|done].
    f_equal. unfold ks_word.
    assert (i / sc_size = Z.of_nat k) as Ed by (symmetry; apply (Z.div_unique_pos _ _ _ (i - Z.of_nat k * sc_size)); lia).
    rewrite Ed, Nat2Z.id, E. cbn [snd]. f_equal. rewrite Z.mod_eq, Ed by lia. lia.
  - zbool (i <? Z.of_nat k * sc_size) true. by zbool (i <? Z.of_nat k * sc_size + sc_size) true.
Qed.

Lemma byte_at_bt ws q : byte_at ws q = (get_word ws (q / 4) >>>w (24 - q mod 4 * 8)) &w 0xff.
Proof using Type. done. Qed.

Lemma xor_byte a b q :
  ((a ^w b) >>>w (24 - q mod 4 * 8)) &w 0xff =
  Z.lxor ((a >>>w (24 - q mod 4 * 8)) &w 0xff) ((b >>>w (24 - q mod 4 * 8)) &w 0xff).
Proof using Type.
  pose proof (Z.mod_pos_bound q 4 ltac:(lia)). apply Z.bits_inj_iff'. intros i Hi. rewrite Z.lxor_spec.
  assert (forall x, is_byte (x &w 0xff)) as Hr by (intros x; pose proof (and_range x 0xff); unfold is_byte; lia).
  destruct (decide (i < 8)).
  - rewrite !and_bits, !ushr_bits, !xor_bits by lia. zbool (i + (24 - q mod 4 * 8) <? 32) true. cbn [andb]. ring.
  - by rewrite !byte_bits_high by (done || lia).
Qed.

Lemma sc_loop_length k s ws :
  Z.of_nat k * sc_size <= Z.of_nat (length ws) ->
  length (loop k (fun i => sc_block (i * sc_size)) (s, ws)).2 = length ws.
Proof using Hsize.
  induction k as [|k IH]; intros Hk; [done|]. rewrite loop_S. specialize (IH ltac:(lia)).
  destruct (loop k _ (s, ws)) as [s' ws']. unfold sc_block. cbn [fst snd] in *. destruct (sc_next s') as [s'' ks].
  cbn [snd]. unfold xor_block. apply Nat2Z.inj. rewrite fill_length by lia.
  destruct (Nat.eqb_spec (Z.to_nat sc_size) 0); lia.
Qed.

Lemma stream_lookup s l i : stream_bytes s l !! i = (fun b => Z.lxor b (ks_byte s (Z.of_nat i))) <$> l !! i.
Proof using Type. apply list_lookup_imap. Qed.
Lemma stream_length s l : length (stream_bytes s l) = length l.
Proof using Type. apply length_imap. Qed.

(** One [_process] over [k] blocks: what comes out, and what is kept. *)
Lemma sc_out c k :
  let d := sc_data c in
  let x := loop k (fun i => sc_block (i * sc_size)) (sc_state c, words d) in
  let nb := Z.min (Z.of_nat k * sc_size * 4) (sigBytes d) in
  0 <= sigBytes d ->
  bytes_of (WA (take (Z.to_nat (Z.of_nat k * sc_size)) x.2) nb) =
  stream_bytes (sc_state c) (take (Z.to_nat nb) (bytes_of d)).
Proof using Hsize.
  intros d x nb Hd. destruct (sc_loop k (sc_state c) (words d)) as [_ Hx]. fold x in Hx.
  assert (0 <= Z.of_nat k * sc_size) by (apply Z.mul_nonneg_nonneg; lia).
  apply bytes_eq; cbn [words sigBytes]; [lia|rewrite stream_length, length_take, bytes_length; lia|].
  intros i Hi. rewrite stream_lookup, lookup_take_lt by lia. rewrite lookup_bytes by lia. cbn [fmap option_fmap option_map].
  f_equal. unfold ks_byte. rewrite !byte_at_bt. rewrite Z.mod_mod by lia.
  assert (get_word (take (Z.to_nat (Z.of_nat k * sc_size)) x.2) (i / 4) =
    get_word (words d) (i / 4) ^w ks_word (sc_state c) (i / 4)) as ->.
  { assert (0 <= i / 4 < Z.of_nat k * sc_size) by (Z.div_mod_to_equations; lia).
    unfold get_word at 1. rewrite lookup_take_lt by lia. fold (get_word x.2 (i / 4)). rewrite Hx by lia.
    by zbool (i / 4 <? Z.of_nat k * sc_size) true. }
  rewrite xor_byte, Z2Nat.id by lia. by replace (i mod 4 / 4) with 0 by (Z.div_mod_to_equations; lia).
Qed.

Lemma sc_kept c k :
  let d := sc_data c in
  let x := loop k (fun i => sc_block (i * sc_size)) (sc_state c, words d) in
  clean d -> Z.of_nat k * (sc_size * 4) <= sigBytes d ->
  let d' := WA (drop (Z.to_nat (Z.of_nat k * sc_size)) x.2) (sigBytes d - Z.of_nat k * (sc_size * 4)) in
  clean d' /\ bytes_of d' = drop (Z.to_nat (Z.of_nat k * (sc_size * 4))) (bytes_of d).
Proof using Hsize.
  intros d x Hd Hk. pose proof Hd as [[Hs Hl] _]. destruct (sc_loop k (sc_state c) (words d)) as [_ Hx]. fold x in Hx.
  assert (0 <= Z.of_nat k * sc_size) by (apply Z.mul_nonneg_nonneg; lia).
  assert (Z.of_nat k * sc_size <= Z.of_nat (length (words d))) as Hkl.
  { rewrite Hl. apply Z.div_le_lower_bound; lia. }
  assert (drop (Z.to_nat (Z.of_nat k * sc_size)) x.2 = drop (Z.to_nat (Z.of_nat k * sc_size)) (words d)) as ->.
  { apply words_ext; [rewrite !length_drop; unfold x; by rewrite sc_loop_length|].
    intros i Hi. rewrite !get_word_drop, Hx by lia.
    by zbool (Z.of_nat (Z.to_nat (Z.of_nat k * sc_size)) + i <? Z.of_nat k * sc_size) false. }
  set (m := Z.to_nat (Z.of_nat k * sc_size)).
  replace (Z.of_nat k * (sc_size * 4)) with (Z.of_nat m * 4) by lia. split; [apply drop_clean; [done|lia]|].
  apply bytes_eq; cbn [words sigBytes]; [lia|rewrite length_drop, bytes_length; lia|].
  intros i Hi. rewrite lookup_drop.
  replace (Z.to_nat (Z.of_nat m * 4) + Z.to_nat i)%nat with (Z.to_nat (i + Z.of_nat m * 4)) by lia.
  rewrite lookup_bytes by lia. f_equal. unfold byte_at. rewrite get_word_drop by (apply Z.div_pos; lia).
  rewrite Z.div_add, Z.mod_add by lia. by rewrite (Z.add_comm (Z.of_nat m)).
Qed.

(** * Data in pieces *)

(** After the bytes [l]: whole blocks are out, the rest is held. *)
Definition streaming (s0 : S) (l o : list Z) (c : stream S) : Prop :=
  exists k, sc_state c = sc_iter k s0 /\ clean (sc_data c) /\
    Z.of_nat k * (sc_size * 4) <= Z.of_nat (length l) /\
    o = take (Z.to_nat (Z.of_nat k * (sc_size * 4))) (stream_bytes s0 l) /\
    bytes_of (sc_data c) = drop (Z.to_nat (Z.of_nat k * (sc_size * 4))) l.

Lemma streaming_append s0 l o c d :
  streaming s0 l o c -> clean d -> streaming s0 (l ++ bytes_of d) o (sc_append d c).
Proof using Hsize.
  intros (k & Hs & Hc & Hk & Ho & Hb) Hd. exists k. cbn [sc_append sc_state sc_data]. pose proof Hc as [[Hsc _] _].
  pose proof Hd as [[Hsd _] _].
  split; [done|]. split; [by apply concat_clean|]. rewrite length_app. split; [lia|]. split.
  - rewrite Ho. unfold stream_bytes. rewrite imap_app, take_app_le; [done|].
    rewrite length_imap. lia.
  - rewrite concat_bytes, Hb, drop_app_le by lia. done.
Qed.

Lemma stream_drop s l k :
  drop (Z.to_nat (Z.of_nat k * (sc_size * 4))) (stream_bytes s l) =
  stream_bytes (sc_iter k s) (drop (Z.to_nat (Z.of_nat k * (sc_size * 4))) l).
Proof using Hsize.
  assert (0 <= Z.of_nat k * (sc_size * 4)) by (apply Z.mul_nonneg_nonneg; lia).
  apply list_eq. intros i. rewrite lookup_drop, !stream_lookup, lookup_drop. f_equal.
  rewrite ks_byte_shift by lia.
  by replace (Z.of_nat (Z.to_nat (Z.of_nat k * (sc_size * 4)) + i)) with (Z.of_nat k * (sc_size * 4) + Z.of_nat i) by lia.
Qed.

Lemma stream_take s l m : take m (stream_bytes s l) = stream_bytes s (take m l).
Proof using Type.
  apply list_eq. intros i. rewrite stream_lookup. destruct (decide (i < m)%nat).
  - by rewrite !lookup_take_lt, stream_lookup by done.
  - by rewrite !lookup_take_ge by lia.
Qed.

Lemma streaming_process s0 l o c :
  streaming s0 l o c ->
  let '(out, c') := sc_process_data false c in streaming s0 l (o ++ bytes_of out) c'.
Proof using Hsize.
  intros (k & Hs & Hc & Hk & Ho & Hb). pose proof Hc as [[Hsc _] _]. set (d := sc_data c) in *.
  assert (0 < sc_size * 4) as HB by lia. assert (0 <= Z.of_nat k * (sc_size * 4)) by (apply Z.mul_nonneg_nonneg; lia).
  pose proof (Z.div_pos (sigBytes d) _ Hsc HB). pose proof (Z.mul_div_le (sigBytes d) _ HB).
  set (j := Z.to_nat (sigBytes d / (sc_size * 4))).
  assert (Z.of_nat j * (sc_size * 4) <= sigBytes d) as Hj by lia.
  assert (sigBytes d = Z.of_nat (length l) - Z.of_nat k * (sc_size * 4)) as Hsl.
  { apply (f_equal length) in Hb. rewrite bytes_length, length_drop in Hb. lia. }
  unfold sc_process_data, _process. fold d. replace (Z.max (sigBytes d / (sc_size * 4) - 0) 0) with (Z.of_nat j) by lia.
  rewrite Nat2Z.id. pose proof (sc_out c j Hsc) as Hout. pose proof (sc_kept c j Hc Hj) as [Hkc Hkb].
  pose proof (proj1 (sc_loop j (sc_state c) (words d))) as Hst. fold d in Hout, Hkc, Hkb. cbv zeta in *.
  destruct (loop j _ (sc_state c, words d)) as [s1 ws1]. cbn [fst snd] in *. subst s1.
  replace (Z.min (Z.of_nat j * sc_size * 4) (sigBytes d)) with (Z.of_nat j * (sc_size * 4)) in * by lia.
  exists (j + k)%nat. cbn [sc_state sc_data]. split; [by rewrite Hs, sc_iter_add|]. split; [done|]. split; [lia|].
  replace (Z.to_nat (Z.of_nat (j + k) * (sc_size * 4)))
    with (Z.to_nat (Z.of_nat k * (sc_size * 4)) + Z.to_nat (Z.of_nat j * (sc_size * 4)))%nat by lia.
  split.
  - rewrite Hout, Hs, Hb, <- stream_take, <- stream_drop, Ho. rewrite <- take_take_drop. done.
  - by rewrite Hkb, Hb, drop_drop.
Qed.

Lemma streaming_all s0 ds l o c :
  streaming s0 l o c -> Forall clean ds ->
  let '(os, c') := sc_process_all ds c in streaming s0 (l ++ (ds ≫= bytes_of)) (o ++ os) c'.
Proof using Hsize.
  intros Hc Hds. revert l o c Hc. induction Hds as [|d ds Hd Hds IH]; intros l o c Hc; cbn [sc_process_all].
  { by rewrite !app_nil_r. }
  pose proof (streaming_process _ _ _ _ (streaming_append _ _ _ _ d Hc Hd)) as Hp. unfold sc_process.
  destruct (sc_process_data false (sc_append d c)) as [out c1]. specialize (IH _ _ _ Hp).
  destruct (sc_process_all ds c1) as [os c']. by rewrite bind_cons, !app_assoc in *.
Qed.

(** What comes out in all. *)
Lemma sc_transform_bytes s0 ds d :
  Forall clean ds -> (forall x, d = Some x -> clean x) ->
  sc_transform s0 ds d = stream_bytes s0 (pieces ds d).
Proof using Hsize.
  intros Hds Hd. assert (streaming s0 [] [] (sc_reset s0)) as Hz.
  { exists 0%nat. split; [done|]. split; [|done]. split; [done|]. intros q Hq. unfold byte_at, js_ushr. cbn.
    by rewrite Z.shiftr_0_l. }
  unfold sc_transform, pieces. pose proof (streaming_all s0 ds [] [] _ Hz Hds) as Ha.
  destruct (sc_process_all ds (sc_reset s0)) as [o c]. rewrite app_nil_l in Ha. unfold sc_finalize.
  set (c' := match d with Some d => sc_append d c | None => c end). set (l := (ds ≫= bytes_of) ++ _).
  assert (streaming s0 l o c') as (k & Hs & Hc & Hk & Ho & Hb).
  { unfold l, c'. destruct d as [d|]; [by apply streaming_append, Hd|by rewrite app_nil_r]. }
  pose proof Hc as [[Hsc _] _]. set (x := sc_data c') in *.
  set (j := Z.to_nat ((sigBytes x + sc_size * 4 - 1) / (sc_size * 4))).
  assert (0 <= (sigBytes x + sc_size * 4 - 1) / (sc_size * 4)) by (apply Z.div_pos; lia).
  assert (sigBytes x <= Z.of_nat j * sc_size * 4) as Hj.
  { unfold j. rewrite Z2Nat.id by done. assert (0 < sc_size * 4) as HB by lia. assert (sc_size * 4 <> 0) as HB0 by lia.
    pose proof (Z.div_mod (sigBytes x + sc_size * 4 - 1) _ HB0).
    pose proof (Z.mod_pos_bound (sigBytes x + sc_size * 4 - 1) _ HB). lia. }
  pose proof (sc_out c' j Hsc) as Hout. cbv zeta in Hout. fold x in Hout.
  unfold sc_process_data, _process. fold x.
  replace ((sigBytes x + sc_size * 4 - 1) / (sc_size * 4)) with (Z.of_nat j) by lia. rewrite Nat2Z.id.
  destruct (loop j _ (sc_state c', words x)) as [s1 ws1]. cbn [fst snd] in *. rewrite Hout.
  replace (Z.min (Z.of_nat j * sc_size * 4) (sigBytes x)) with (sigBytes x) by lia.
  rewrite firstn_all2 by (rewrite bytes_length; lia). rewrite Hs, Hb, <- stream_drop, Ho. apply take_drop.
Qed.

Lemma stream_involutive s l : stream_bytes s (stream_bytes s l) = l.
Proof using Type.
  apply list_eq. intros i. rewrite !stream_lookup. destruct (l !! i); [|done]. simpl.
  by rewrite Z.lxor_assoc, Z.lxor_nilpotent, Z.lxor_0_r.
Qed.
End Stream.
