(* ===== verification/StreamCiphers.v ===== *)
(** The stream ciphers of the bundled crypto-js: Rabbit and its legacy variant
    (web3.js 10330-10714), RC4 and RC4Drop (10714-10854). Rabbit's iteration is
    that of RFC 4503, RC4's state stays a permutation, and decrypting undoes
    encrypting. *)
From Stdlib Require Import ZArith Lia.
From S2P Require Import Prelude Words WordArray Hasher Hashes Cipher CipherBlocks CipherRoundtrip Stream.
Open Scope Z_scope.
Open Scope word_scope.

(** * Rabbit *)

Module Rabbit.
Record rabbit := RState { _X : list Z; _C : list Z; _b : Z }.

(** [(x >>> 0) < (y >>> 0) ? 1 : 0] *)
Definition less (x y : Z) : Z := if (x >>>w 0) <? (y >>>w 0) then 1 else 0.

(** The new counters, and the new carry. *)
Definition A : list Z :=
  [0x4d34d34d; 0xd34d34d3; 0x34d34d34; 0x4d34d34d; 0xd34d34d3; 0x34d34d34; 0x4d34d34d; 0xd34d34d3].
Definition next_counters (C : list Z) (b : Z) : list Z * Z :=
  loop 8 (fun i x =>
    let c := (get_word C i + get_word A i + x.2) |w 0 in
    (x.1 ++ [c], less c (get_word C i))) ([], b).

Definition g_value (gx : Z) : Z :=
  let ga := gx &w 0xffff in
  let gb := gx >>>w 16 in
  let gh := ((((ga * ga) >>>w 17) + ga * gb) >>>w 15) + gb * gb in
  let gl := (((gx &w 0xffff0000) * gx) |w 0) + (((gx &w 0x0000ffff) * gx) |w 0) in
  gh ^w gl.

(** [(x << n) | (x >>> (32 - n))] *)
Definition rot (n x : Z) : Z := (x <<w n) |w (x >>>w (32 - n)).

Definition nextState (s : rabbit) : rabbit :=
  let '(C, b) := next_counters (_C s) (_b s) in
  let G := (fun i => g_value (get_word (_X s) i + get_word C i)) <$> seqZ 0 8 in
  let G := get_word G in
  RState
    [ (G 0 + rot 16 (G 7) + rot 16 (G 6)) |w 0; (G 1 + rot 8 (G 0) + G 7) |w 0;
      (G 2 + rot 16 (G 1) + rot 16 (G 0)) |w 0; (G 3 + rot 8 (G 2) + G 1) |w 0;
      (G 4 + rot 16 (G 3) + rot 16 (G 2)) |w 0; (G 5 + rot 8 (G 4) + G 3) |w 0;
      (G 6 + rot 16 (G 5) + rot 16 (G 4)) |w 0; (G 7 + rot 8 (G 6) + G 5) |w 0 ] C b.

(** The set-up of a key of four words, and of an initialization vector. *)
Definition key_setup (K : list Z) : rabbit :=
  let K := get_word K in
  let X := [ K 0; (K 3 <<w 16) |w (K 2 >>>w 16); K 1; (K 0 <<w 16) |w (K 3 >>>w 16);
             K 2; (K 1 <<w 16) |w (K 0 >>>w 16); K 3; (K 2 <<w 16) |w (K 1 >>>w 16) ] in
  let C := [ (K 2 <<w 16) |w (K 2 >>>w 16); (K 0 &w 0xffff0000) |w (K 1 &w 0x0000ffff);
             (K 3 <<w 16) |w (K 3 >>>w 16); (K 1 &w 0xffff0000) |w (K 2 &w 0x0000ffff);
             (K 0 <<w 16) |w (K 0 >>>w 16); (K 2 &w 0xffff0000) |w (K 3 &w 0x0000ffff);
             (K 1 <<w 16) |w (K 1 >>>w 16); (K 3 &w 0xffff0000) |w (K 0 &w 0x0000ffff) ] in
  let s := loop 4 (fun _ => nextState) (RState X C 0) in
  RState (_X s) (loop 8 (fun i C => set_word C i (get_word C i ^w get_word (_X s) ((i + 4) &w 7))) (_C s)) (_b s).
Definition iv_setup (IV : list Z) (s : rabbit) : rabbit :=
  let i0 := swap (get_word IV 0) in
  let i2 := swap (get_word IV 1) in
  let i1 := (i0 >>>w 16) |w (i2 &w 0xffff0000) in
  let i3 := (i2 <<w 16) |w (i0 &w 0x0000ffff) in
  let I := [i0; i1; i2; i3; i0; i1; i2; i3] in
  let C := loop 8 (fun i C => set_word C i (get_word C i ^w get_word I i)) (_C s) in
  loop 4 (fun _ => nextState) (RState (_X s) C (_b s)).

(** [RabbitLegacy._doReset] *)
Definition legacy_reset (K : list Z) (iv : option (list Z)) : rabbit :=
  let s := key_setup K in match iv with Some IV => iv_setup IV s | None => s end.

(** [Rabbit._doReset]: the words of the key are swapped in place, so that the
    caller's key is changed; returned with the state. *)
Definition _doReset (K : list Z) (iv : option (list Z)) : rabbit * list Z :=
  let K := loop 4 (fun i K => set_word K i (swap (get_word K i))) K in
  (legacy_reset K iv, K).

Definition keystream (s : rabbit) : list Z :=
  let X := get_word (_X s) in
  swap <$> [ X 0 ^w (X 5 >>>w 16) ^w (X 3 <<w 16); X 2 ^w (X 7 >>>w 16) ^w (X 5 <<w 16);
             X 4 ^w (X 1 >>>w 16) ^w (X 7 <<w 16); X 6 ^w (X 3 >>>w 16) ^w (X 1 <<w 16) ].
#[global] Instance RABBIT : StreamAlgorithm rabbit :=
  {| sc_size := 4; sc_next s := let s := nextState s in (s, keystream s) |}.

(** [Rabbit.encrypt] or [decrypt] with a key object: the result, and the words
    of the key afterwards. *)
Definition crypt (K : list Z) (iv : option (list Z)) (d : wordarray) : wordarray * list Z :=
  let '(s, K) := _doReset K iv in (sc_crypt s d, K).

(** RFC 4503, appendix A. *)
Example rabbit_vector :
  Hex_stringify (crypt [0; 0; 0; 0] None (WA [0; 0; 0; 0] 16)).1 = str "02f74a1c26456bf5ecd6a536f05457b1".
Proof. vm_compute. reflexivity. Qed.

(** ** RFC 4503 *)

Definition counters_spec (C : list Z) (b : Z) : list Z * Z :=
  loop 8 (fun i x =>
    let t := get_word C i + get_word A i + x.2 in (x.1 ++ [t mod 2 ^ 32], t / 2 ^ 32)) ([], b).
Definition g_spec (u v : Z) : Z :=
  let sq := ((u + v) mod 2 ^ 32) ^ 2 in Z.lxor (sq mod 2 ^ 32) (sq / 2 ^ 32).
Definition rotl (n x : Z) : Z := rotr (32 - n) x.
Definition state_spec (X C : list Z) : list Z :=
  let G i := g_spec (get_word X i) (get_word C i) in
  [ u32 (G 0 + rotl 16 (G 7) + rotl 16 (G 6)); u32 (G 1 + rotl 8 (G 0) + G 7);
    u32 (G 2 + rotl 16 (G 1) + rotl 16 (G 0)); u32 (G 3 + rotl 8 (G 2) + G 1);
    u32 (G 4 + rotl 16 (G 3) + rotl 16 (G 2)); u32 (G 5 + rotl 8 (G 4) + G 3);
    u32 (G 6 + rotl 16 (G 5) + rotl 16 (G 4)); u32 (G 7 + rotl 8 (G 6) + G 5) ].

Lemma less_carry c a b :
  0 < a -> a < 2 ^ 32 - 1 -> 0 <= b <= 1 -> less ((c + a + b) |w 0) c = (u32 c + a + b) / 2 ^ 32.
Proof.
  intros Ha Ha' Hb. unfold less, js_ushr. change (0 mod 32) with 0. rewrite !Z.shiftr_0_r.
  rewrite (eq32_u32 _ _ (or_0_id32 _)). pose proof (u32_range c) as Hc.
  assert (u32 (c + a + b) = (u32 c + a + b) mod 2 ^ 32) as ->.
  { unfold u32. by rewrite <- !Z.add_assoc, Zplus_mod_idemp_l. }
  destruct (Z_lt_ge_dec (u32 c + a + b) (2 ^ 32)) as [Hlt|Hge].
  - rewrite Z.mod_small, Z.div_small by lia. by zbool (u32 c + a + b <? u32 c) false.
  - rewrite <- (Z.mod_unique_pos (u32 c + a + b) (2 ^ 32) 1 (u32 c + a + b - 2 ^ 32)) by lia.
    rewrite <- (Z.div_unique_pos (u32 c + a + b) (2 ^ 32) 1 (u32 c + a + b - 2 ^ 32)) by lia.
    by zbool (u32 c + a + b - 2 ^ 32 <? u32 c) true.
Qed.

Lemma next_counters_spec C b :
  0 <= b <= 1 ->
  let '(C', b') := next_counters C b in
  (u32 <$> C', b') = counters_spec (u32 <$> C) b /\ 0 <= b' <= 1 /\ length C' = 8%nat.
Proof.
  intros Hb. unfold next_counters, counters_spec.
  assert (forall n, (n <= 8)%nat ->
    let '(C', b') := loop n (fun i x => let c := (get_word C i + get_word A i + x.2) |w 0 in
      (x.1 ++ [c], less c (get_word C i))) ([], b) in
    (u32 <$> C', b') = loop n (fun i x => let t := get_word (u32 <$> C) i + get_word A i + x.2 in
      (x.1 ++ [t mod 2 ^ 32], t / 2 ^ 32)) ([], b) /\ 0 <= b' <= 1 /\ length C' = n) as Hl; [|apply (Hl 8%nat); lia].
  intros n. induction n as [|n IH]; intros Hn; [done|]. rewrite !loop_S. specialize (IH ltac:(lia)).
  destruct (loop n _ ([], b)) as [C' b']. destruct IH as (<- & Hb' & Hlen). cbn [fst snd]. rewrite get_u32.
  assert (0 < get_word A (Z.of_nat n) < 2 ^ 32 - 1) as HA by (do 8 (destruct n as [|n]; [vm_compute; done|]); lia).
  rewrite less_carry by lia. pose proof (u32_range (get_word C (Z.of_nat n))).
  split; [|split; [Z.div_mod_to_equations; lia|rewrite length_app, Hlen; simpl; lia]].
  rewrite fmap_app. do 2 f_equal. cbn [fmap list_fmap]. f_equal.
  rewrite (eq32_u32 _ _ (or_0_id32 _)). unfold u32. by rewrite <- !Z.add_assoc, Zplus_mod_idemp_l.
Qed.

(** Halves of a word. *)
Lemma low_half gx : gx &w 0xffff = u32 gx mod 2 ^ 16.
Proof.
  unfold js_and. change (s32 0xffff) with (Z.ones 16). rewrite Z.land_ones, <- (u32_s32 gx) by lia. unfold u32.
  by rewrite Z.mod_mod_divide by (exists (2 ^ 16); reflexivity).
Qed.
Lemma high_half gx : gx >>>w 16 = u32 gx / 2 ^ 16.
Proof. unfold js_ushr. change (16 mod 32) with 16. by rewrite Z.shiftr_div_pow2. Qed.
Lemma high_mask gx : u32 (gx &w 0xffff0000) = u32 gx / 2 ^ 16 * 2 ^ 16.
Proof.
  rewrite u32_and. change (u32 0xffff0000) with (Z.shiftl (Z.ones 16) 16).
  rewrite <- Z.shiftl_mul_pow2, <- Z.shiftr_div_pow2 by lia.
  apply Z.bits_inj_iff'. intros i Hi. rewrite Z.land_spec, !Z.shiftl_spec by lia. destruct (Z.ltb_spec i 16).
  - rewrite !(Z.testbit_neg_r _ (i - 16)) by lia. apply andb_false_r.
  - rewrite Z.shiftr_spec by lia. replace (i - 16 + 16) with i by lia. destruct (Z.ltb_spec i 32).
    + rewrite Z.ones_spec_low by lia. apply andb_true_r.
    + rewrite Z.ones_spec_high by lia. rewrite andb_false_r. symmetry. by apply u32_bits_high.
Qed.

(** The low and the high word of a square. *)
Lemma square_low gx :
  u32 ((((gx &w 0xffff0000) * gx) |w 0) + (((gx &w 0x0000ffff) * gx) |w 0)) = u32 gx ^ 2 mod 2 ^ 32.
Proof.
  rewrite u32_add, !(eq32_u32 _ _ (or_0_id32 _)), <- u32_add.
  replace ((gx &w 0xffff0000) * gx + (gx &w 0x0000ffff) * gx) with (((gx &w 0xffff0000) + (gx &w 0xffff)) * gx) by ring.
  unfold u32 at 1. rewrite Z.mul_mod by lia. fold (u32 gx). rewrite Z.pow_2_r. do 2 f_equal.
  rewrite Z.add_mod by lia. fold (u32 (gx &w 0xffff0000)). rewrite high_mask, low_half, Z.add_mod_idemp_r by lia.
  pose proof (u32_range gx). rewrite Z.mod_small; Z.div_mod_to_equations; lia.
Qed.
Lemma square_high w :
  0 <= w < 2 ^ 32 ->
  let a := w mod 2 ^ 16 in let b := w / 2 ^ 16 in
  u32 (((((a * a) >>>w 17) + a * b) >>>w 15) + b * b) = w ^ 2 / 2 ^ 32.
Proof.
  intros Hw a b.
  assert (0 <= a < 2 ^ 16 /\ 0 <= b < 2 ^ 16 /\ w = b * 2 ^ 16 + a) as (Ha & Hb & Ew)
    by (unfold a, b; Z.div_mod_to_equations; lia).
  clearbody a b. assert (0 <= a * a < 2 ^ 32 /\ 0 <= a * b <= (2 ^ 16 - 1) * (2 ^ 16 - 1) /\
    0 <= b * b <= (2 ^ 16 - 1) * (2 ^ 16 - 1)) by nia.
  rewrite (ushr_div (a * a)) by lia. assert (0 <= a * a / 2 ^ 17 < 2 ^ 15) by (Z.div_mod_to_equations; lia).
  rewrite ushr_div by lia.
  assert (w ^ 2 / 2 ^ 32 = (a * a / 2 ^ 17 + a * b) / 2 ^ 15 + b * b) as ->.
  { rewrite Ew. replace ((b * 2 ^ 16 + a) ^ 2) with (b * b * 2 ^ 32 + (a * a + a * b * 2 ^ 17)) by ring.
    rewrite Z.div_add_l by lia. rewrite (Z.add_comm (_ / 2 ^ 15)). f_equal.
    change (2 ^ 32) with (2 ^ 17 * 2 ^ 15). rewrite <- Z.div_div by lia. f_equal. by rewrite Z.div_add by lia. }
  assert (0 <= (a * a / 2 ^ 17 + a * b) / 2 ^ 15) by (apply Z.div_pos; lia).
  assert ((a * a / 2 ^ 17 + a * b) / 2 ^ 15 < 2 ^ 17 - 1) by (apply Z.div_lt_upper_bound; lia).
  apply u32_id. lia.
Qed.

Lemma g_value_spec gx u v : u32 gx = (u + v) mod 2 ^ 32 -> u32 (g_value gx) = g_spec u v.
Proof.
  intros E. unfold g_value, g_spec. cbv zeta. rewrite <- E, u32_xor, Z.lxor_comm, square_low.
  by rewrite low_half, high_half, square_high by apply u32_range.
Qed.

(** One iteration is that of RFC 4503, section 2.5 and 2.6, on the words as
    unsigned numbers. *)
Lemma nextState_spec s :
  0 <= _b s <= 1 ->
  let s' := nextState s in
  (u32 <$> _C s', _b s') = counters_spec (u32 <$> _C s) (_b s) /\
  u32 <$> _X s' = state_spec (u32 <$> _X s) (u32 <$> _C s') /\ 0 <= _b s' <= 1.
Proof.
  intros Hb. unfold nextState. pose proof (next_counters_spec (_C s) (_b s) Hb) as Hc.
  destruct (next_counters (_C s) (_b s)) as [C b]. destruct Hc as (Hc & Hb' & Hl). cbn [_X _C _b].
  split; [done|]. split; [|done].
  assert (forall i, 0 <= i < 8 -> u32 (get_word ((fun i => g_value (get_word (_X s) i + get_word C i)) <$> seqZ 0 8) i) =
    g_spec (get_word (u32 <$> _X s) i) (get_word (u32 <$> C) i)) as HG.
  { intros i Hi. unfold get_word at 1. rewrite list_lookup_fmap, lookup_seqZ_lt by lia. simpl default.
    replace (0 + Z.of_nat (Z.to_nat i)) with i by lia. apply g_value_spec. rewrite !get_u32. apply u32_add. }
  set (G := (fun i => g_value _) <$> seqZ 0 8) in *. clearbody G.
  assert (forall n x, 0 < n < 32 -> u32 (rot n x) = rotl n (u32 x)) as Hrot.
  { intros n x Hn. unfold rot, rotl. apply u32_rot; lia. }
  unfold state_spec. cbn [fmap list_fmap]. rewrite <- !HG, <- !Hrot by lia.
  repeat (apply f_equal2; [apply eq32_u32; by rewrite or_0_id32, !u32_id32|]). done.
Qed.
End Rabbit.

(** * RC4 *)

Module RC4.
Record rc4 := RC4State { _S : list Z; _i : Z; _j : Z }.

(** [t = S[i]; S[i] = S[j]; S[j] = t] *)
Definition swap_entries (i j : Z) (box : list Z) : list Z :=
  let t := get_word box i in let box := set_word box i (get_word box j) in set_word box j t.

(** [_doReset], with a key that has bytes. *)
Definition _doReset (key : wordarray) : rc4 :=
  let box := loop 256 (fun i box => set_word box i i) [] in
  let '(box, _) := loop 256 (fun i x =>
    let '(box, j) := x in
    let keyByte := byte_at (words key) (i mod sigBytes key) in
    let j := (j + get_word box i + keyByte) mod 256 in
    (swap_entries i j box, j)) (box, 0) in
  RC4State box 0 0.

Definition keystream_byte (n : Z) (x : rc4 * Z) : rc4 * Z :=
  let '(RC4State box i j, keystreamWord) := x in
  let i := (i + 1) mod 256 in
  let j := (j + get_word box i) mod 256 in
  let box := swap_entries i j box in
  (RC4State box i j, keystreamWord |w (get_word box ((get_word box i + get_word box j) mod 256) <<w (24 - n * 8))).
Definition generateKeystreamWord (s : rc4) : rc4 * Z := loop 4 keystream_byte (s, 0).

(** [RC4Drop._doReset] *)
Definition drop_reset (dropped : nat) (key : wordarray) : rc4 :=
  loop dropped (fun _ s => (generateKeystreamWord s).1) (_doReset key).

#[global] Instance RC4 : StreamAlgorithm rc4 :=
  {| sc_size := 1; sc_next s := let '(s, w) := generateKeystreamWord s in (s, [w]) |}.

Example rc4_vector :
  Hex_stringify (sc_crypt (_doReset (Latin1_parse (str "Key"))) (Latin1_parse (str "Plaintext"))) =
  str "bbf316e8d940af0ad3".
Proof. vm_compute. reflexivity. Qed.

(** ** The state stays a permutation *)

Definition wf_box (box : list Z) : Prop := box ≡ₚ seqZ 0 256.
Definition wf_rc4 (s : rc4) : Prop := wf_box (_S s) /\ 0 <= _i s < 256 /\ 0 <= _j s < 256.

Lemma box_length box : wf_box box -> length box = 256%nat.
Proof. unfold wf_box. intros Hb. by rewrite Hb, length_seqZ. Qed.

Lemma set_word_insert ws i v : 0 <= i < Z.of_nat (length ws) -> set_word ws i v = <[Z.to_nat i := v]> ws.
Proof.
  intros Hi. apply words_ext; [apply Nat2Z.inj; rewrite length_set_word, length_insert by lia; lia|].
  intros j Hj. rewrite length_set_word in Hj by lia. rewrite get_set_word by lia. unfold get_word.
  rewrite list_lookup_insert. destruct (Z.eqb_spec j i) as [->|Hne].
  - by rewrite decide_True by lia.
  - by rewrite decide_False by lia.
Qed.

Lemma swap_entries_box i j box : wf_box box -> 0 <= i < 256 -> 0 <= j < 256 -> wf_box (swap_entries i j box).
Proof.
  intros Hb Hi Hj. pose proof (box_length box Hb) as Hl. unfold wf_box in *. rewrite <- Hb. unfold swap_entries.
  rewrite (set_word_insert box i) by lia. rewrite set_word_insert by (rewrite length_insert; lia).
  destruct (lookup_lt_is_Some_2 box (Z.to_nat i)) as [x Hx]; [lia|].
  destruct (lookup_lt_is_Some_2 box (Z.to_nat j)) as [y Hy]; [lia|].
  unfold get_word. rewrite Hx, Hy. cbn [default id].
  apply Permutation_inj. split; [by rewrite !length_insert|].
  exists (fun k => if decide (k = Z.to_nat i) then Z.to_nat j else if decide (k = Z.to_nat j) then Z.to_nat i else k).
  split.
  - intros a b. repeat case_decide; intros; congruence.
  - intros k. rewrite !list_lookup_insert, length_insert. repeat case_decide; destruct_and?; try congruence;
      match goal with H : ~ (_ /\ _) |- _ => destruct H; split; lia end.
Qed.

Lemma initial_box : wf_box (loop 256 (fun i box => set_word box i i) []).
Proof.
  assert (loop 256 (fun i box => set_word box i i) [] = seqZ 0 256) as -> by (vm_compute; reflexivity).
  unfold wf_box. reflexivity.
Qed.

Lemma reset_wf key : wf_rc4 (_doReset key).
Proof.
  unfold _doReset. set (f := fun _ _ => _).
  assert (forall n, (n <= 256)%nat -> wf_box (loop n f (loop 256 (fun i box => set_word box i i) [], 0)).1) as Hl.
  { intros n. induction n as [|n IH]; intros Hn; [exact initial_box|]. rewrite loop_S. unfold f at 1.
    destruct (loop n f _) as [box j]. cbn [fst] in *. apply swap_entries_box; [apply IH; lia|lia|].
    apply Z.mod_pos_bound. lia. }
  specialize (Hl 256%nat ltac:(lia)). destruct (loop 256 f _) as [box j]. split; [exact Hl|]. cbn. lia.
Qed.

Lemma keystream_byte_wf n x : wf_rc4 x.1 -> wf_rc4 (keystream_byte n x).1.
Proof.
  destruct x as [[box i j] w]. intros (Hb & Hi & Hj). cbn [fst _S _i _j keystream_byte] in *.
  pose proof (Z.mod_pos_bound (i + 1) 256 ltac:(lia)).
  pose proof (Z.mod_pos_bound (j + get_word box ((i + 1) mod 256)) 256 ltac:(lia)).
  split; [|by split]. by apply swap_entries_box.
Qed.

Lemma keystream_wf s : wf_rc4 s -> wf_rc4 (generateKeystreamWord s).1.
Proof. intros Hs. unfold generateKeystreamWord. cbn [loop]. by do 4 apply keystream_byte_wf. Qed.
End RC4.

(** * Theorems *)


(** C31. RC4's table is a permutation of the bytes and its counters are bytes after
    the key set-up, and stay so whatever is dropped or generated. *)
Theorem rc4_permutation key dropped n :
  RC4.wf_rc4 (sc_iter n (RC4.drop_reset dropped key)).
Proof.
  assert (RC4.wf_rc4 (RC4.drop_reset dropped key)) as Hd.
  { unfold RC4.drop_reset. apply (loop_ind (fun _ s => RC4.wf_rc4 s)); [apply RC4.reset_wf|].
    intros k s _. apply RC4.keystream_wf. }
  induction n as [|n IH]; [done|]. change (sc_iter (S n) ?s) with (sc_next (sc_iter n s)).1.
  pose proof (RC4.keystream_wf _ IH) as Hk. cbn [sc_next RC4.RC4]. by destruct (RC4.generateKeystreamWord _).
Qed.


(** A key object can be used once: Rabbit swaps its words in place, so that
    decrypting with the same object does not give the message back, although
    decrypting with a fresh copy of the key does. *)
Theorem rabbit_key_reused :
  let key := [1; 2; 3; 4] in
  let m := of_bytes (str "message") in
  let '(c, key') := Rabbit.crypt key None m in
  bytes_of (Rabbit.crypt key' None c).1 <> bytes_of m /\ bytes_of (Rabbit.crypt key None c).1 = bytes_of m.
Proof. vm_compute. split; [discriminate|reflexivity]. Qed.
