(* ===== verification/Ciphers.v ===== *)
(** crypto-js's serializable ciphers (web3.js 7558-7860, 9069-9104): the formats
    of ciphertexts, the derivation of keys from passwords, and encryption and
    decryption from message to string and back. *)
From Stdlib Require Import ZArith Lia.
From S2P Require Import Prelude Words WordArray Hasher Hashes Utf8 Encoders Kdf Digests.
From S2P Require Import Cipher CipherBlocks CipherRoundtrip Aes Des.
Open Scope Z_scope.
Open Scope word_scope.

(** * Formats *)

(** The parts of [CipherParams] that are written out. *)
Record params := Params { ciphertext : wordarray; salt : option wordarray }.

Module OpenSSL.
Definition stringify (p : params) : jsstr :=
  Base64.stringify (match salt p with
                    | Some salt => concat (concat (wa_init [0x53616c74; 0x65645f5f]) salt) (ciphertext p)
                    | None => ciphertext p
                    end).
Definition parse (s : jsstr) : params :=
  let c := Base64.parse s in
  let ws := words c in
  if (get_word ws 0 =? 0x53616c74) && (get_word ws 1 =? 0x65645f5f)
  then Params (WA (drop 4 ws) (sigBytes c - 16)) (Some (wa_init (slice 2 4 ws)))
  else Params c None.
End OpenSSL.

Module HexFormat.
Definition stringify (p : params) : jsstr := Hex_stringify (ciphertext p).
Definition parse (s : jsstr) : option params := (fun c => Params c None) <$> Hex_parse s.
End HexFormat.

(** * Passwords *)

(** [OpenSSLKdf.execute]: the key, the initialization vector and the salt;
    [random] is [WordArray.random(64/8)]. *)
Definition kdf_execute (password : wordarray) (keySize ivSize : Z) (random : wordarray) (salt : option wordarray) :
    wordarray * wordarray * wordarray :=
  let salt := match salt with Some s => s | None => random end in
  let key := evpkdf (H := MD5) (keySize + ivSize) 1 password salt in
  (WA (words key) (keySize * 4), WA (drop (Z.to_nat keySize) (words key)) (ivSize * 4), salt).

Section PasswordBased.
(** A cipher algorithm: its sizes in words, and its block cipher for a key. *)
Variable keySize ivSize : Z.
Variable algorithm : wordarray -> BlockCipher.
Variable mode : block_mode.
Variable pdg : padding.

(** [PasswordBasedCipher.encrypt] and its [toString()]; [decrypt] of a string. *)
Definition password_encrypt (random message password : wordarray) : option jsstr :=
  let '(key, iv, salt) := kdf_execute password keySize ivSize random None in
  c ← encrypt (H := algorithm key) mode pdg (words iv) message;
  Some (OpenSSL.stringify (Params c (Some salt))).
Definition password_decrypt (random : wordarray) (s : jsstr) (password : wordarray) : option wordarray :=
  let p := OpenSSL.parse s in
  let '(key, iv, _) := kdf_execute password keySize ivSize random (salt p) in
  decrypt (H := algorithm key) mode pdg (words iv) (ciphertext p).
End PasswordBased.

(** * Whole ciphers *)

Section Encrypt.
Context `{L : BlockCipherLaws}.
Variable mode : block_mode.
Variable pdg : padding.

Lemma transform_one decrypt iv d :
  transform mode pdg decrypt iv [] (Some d) = bytes_of <$> finalize_cipher mode pdg decrypt (Some d) (cipher_reset iv).
Proof using Type.
  unfold transform. cbn [process_all]. by destruct (finalize_cipher mode pdg decrypt (Some d) (cipher_reset iv)).
Qed.

Lemma full_words_clean ws : clean (WA ws (Z.of_nat (length ws) * 4)).
Proof using Type.
  split; [split|]; cbn [words sigBytes]; [lia|Z.div_mod_to_equations; lia|]. intros q Hq. apply byte_at_beyond. lia.
Qed.

(** What comes out of an encryptor has whole words. *)
Lemma encrypt_clean iv d f :
  clean d -> sigBytes d < 2 ^ 28 -> (pdg = NoPadding -> sigBytes d mod (bc_size * 4) = 0) ->
  encrypt mode pdg iv d = Some f -> clean f.
Proof using L.
  intros Hd Hsz Hnp. unfold encrypt, finalize_cipher, doFinalize. pose proof bc_range as Hbc.
  set (w := c_data (cipher_append d (cipher_reset iv))).
  assert (clean w /\ sigBytes w = sigBytes d) as [Hw Esz] by (split; [by apply concat_clean|done]).
  destruct (pad_bytes w bc_size Hw ltac:(lia) Hbc pdg ltac:(by rewrite Esz)) as (_ & Hr & Hm).
  set (P := pad pdg w bc_size) in *. set (c := Cipher _ P _). assert (0 < bc_size * 4) as HB by lia.
  assert (bc_size * 4 <> 0) as HB0 by lia. pose proof (Z.div_mod (sigBytes P) (bc_size * 4) HB0) as Hdm.
  pose proof (Z.div_pos (sigBytes P) (bc_size * 4) (proj1 Hr) HB).
  rewrite (process_run mode false true c (Z.to_nat (sigBytes P / (bc_size * 4)))); [|cbn [c_data c]..|done].
  - pose proof (run_length (fn mode false) (Z.to_nat (sigBytes P / (bc_size * 4))) (c_mode c) (blocks (c_data c))
      (fn_length mode false) (fun i => read_length _ (i * bc_size) _)) as Hl.
    destruct (run _ _ _ _) as [st o]. cbn [snd fst] in *. intros [= <-].
    replace (Z.of_nat (Z.to_nat (sigBytes P / (bc_size * 4))) * (bc_size * 4)) with (Z.of_nat (length o) * 4) by lia.
    apply full_words_clean.
  - rewrite Z2Nat.id by done. rewrite Hdm at 1. rewrite Hm, Z.add_0_r.
    replace (bc_size * 4 * (sigBytes P / (bc_size * 4)) + bc_size * 4 - 1)
      with (bc_size * 4 - 1 + (sigBytes P / (bc_size * 4)) * (bc_size * 4)) by lia.
    rewrite Z.div_add, Z.div_small by lia. lia.
  - rewrite Z2Nat.id by done. lia.
Qed.

(** Encrypting, then decrypting what has the same bytes. *)
Lemma encrypt_decrypt iv d :
  clean d -> sigBytes d < 2 ^ 28 -> paddable pdg d bc_size ->
  exists c, encrypt mode pdg iv d = Some c /\ clean c /\
    forall c', clean c' -> bytes_of c' = bytes_of c -> exists d', decrypt mode pdg iv c' = Some d' /\ bytes_of d' = bytes_of d.
Proof using L.
  intros Hd Hsz Hp. assert (pdg = NoPadding -> sigBytes d mod (bc_size * 4) = 0) as Hnp by (intros E; by rewrite E in Hp).
  pose proof (encrypt_pieces mode pdg iv d [] (Some d) Hd Hsz Hnp (Forall_nil_2 _)) as He.
  rewrite transform_one in He. specialize (He ltac:(by intros ? [= <-]) eq_refl). fold (encrypt mode pdg iv d) in He.
  destruct (encrypt mode pdg iv d) as [c|] eqn:E; [|done]. exists c. split; [done|].
  split; [by apply (encrypt_clean iv d)|]. intros c' Hc' Hb. cbn [fmap option_fmap option_map] in He.
  injection He as He.
  pose proof (decrypt_pieces mode pdg iv d [] (Some c') Hd Hsz Hp (Forall_nil_2 _) ltac:(by intros ? [= <-])) as Hd'.
  specialize (Hd' ltac:(unfold pieces; by rewrite app_nil_l, Hb, He)). rewrite transform_one in Hd'.
  fold (decrypt mode pdg iv c') in Hd'. destruct (decrypt mode pdg iv c') as [d'|]; [|done].
  exists d'. split; [done|]. by injection Hd'.
Qed.
End Encrypt.

(** * The OpenSSL format *)

Lemma s32_value x v : is_s32 x -> u32 x = v -> 0 <= v < 2 ^ 31 -> x = v.
Proof. unfold is_s32, u32. intros Hx E Hv. Z.div_mod_to_equations; lia. Qed.

Lemma get_word_s32 ws i : Forall is_s32 ws -> is_s32 (get_word ws i).
Proof.
  intros Hw. unfold get_word. destruct (ws !! Z.to_nat i) as [x|] eqn:E; [|cbn; unfold is_s32; lia].
  by apply (Forall_lookup_1 _ _ _ _ Hw E).
Qed.

(** A word given by four bytes. *)
Lemma word_of_bytes w l i v :
  bytes_of w = l -> 4 * i + 3 < sigBytes w -> 0 <= i -> Forall is_s32 (words w) -> 0 <= v < 2 ^ 31 ->
  (forall j, 0 <= j < 4 -> l !! Z.to_nat (4 * i + j) = Some (byte_at [v] j)) -> get_word (words w) i = v.
Proof.
  intros Hl Hi Hi0 Hw Hv Hb. apply s32_value; [by apply get_word_s32| |done].
  rewrite <- (u32_id v) by lia. change (u32 v) with (u32 (get_word [v] 0)). apply word_ext; [done|done|].
  intros j Hj. apply (inj Some). rewrite <- lookup_bytes, Hl by lia. by rewrite Hb.
Qed.

Lemma drop_words_bytes p m :
  0 <= m -> 4 * m <= sigBytes p ->
  bytes_of (WA (drop (Z.to_nat m) (words p)) (sigBytes p - 4 * m)) = drop (Z.to_nat (4 * m)) (bytes_of p).
Proof.
  intros Hm Hmp. apply bytes_eq; cbn [words sigBytes]; [lia|rewrite length_drop, bytes_length; lia|].
  intros i Hi. rewrite lookup_drop. replace (Z.to_nat (4 * m) + Z.to_nat i)%nat with (Z.to_nat (i + m * 4)) by lia.
  rewrite lookup_bytes by lia. f_equal. unfold byte_at. rewrite get_word_drop by (apply Z.div_pos; lia).
  rewrite Z.div_add, Z.mod_add, Z2Nat.id by lia. by rewrite (Z.add_comm m).
Qed.

Lemma take_words_bytes ws k m :
  (k <= length ws)%nat -> Z.of_nat k * 4 <= m -> bytes_of (wa_init (take k ws)) = take (k * 4) (bytes_of (WA ws m)).
Proof.
  intros Hk Hm. assert (length (take k ws) = k) as Hl by (rewrite length_take; lia).
  apply bytes_eq; unfold wa_init; cbn [words sigBytes]; rewrite Hl; [lia|rewrite length_take, bytes_length; cbn; lia|].
  intros i Hi. rewrite lookup_take_lt by lia. rewrite lookup_bytes by (cbn; lia). cbn [words]. f_equal.
  unfold byte_at, get_word. assert (0 <= i / 4 < Z.of_nat k) by (Z.div_mod_to_equations; lia).
  by rewrite lookup_take_lt by lia.
Qed.

(** What follows the mark, the salt and the ciphertext, comes back. *)
Lemma openssl_parse s c :
  clean s -> sigBytes s = 8 -> clean c ->
  let p := OpenSSL.parse (OpenSSL.stringify (Params c (Some s))) in
  clean (ciphertext p) /\ bytes_of (ciphertext p) = bytes_of c /\
  exists s', salt p = Some s' /\ clean s' /\ bytes_of s' = bytes_of s.
Proof.
  intros Hs Hs8 Hc. unfold OpenSSL.stringify, OpenSSL.parse. cbn [salt ciphertext].
  set (w := concat _ c). assert (0 <= sigBytes c) as Hc0 by apply Hc.
  assert (sigBytes w = 16 + sigBytes c) as Hsw by (unfold w; cbn [concat sigBytes wa_init length]; lia).
  destruct (parse_stringify w ltac:(lia)) as (Hp & Hb & Hcl & Hw32). set (p := Base64.parse _) in *.
  unfold w in Hb. rewrite !concat_bytes in Hb by (cbn; lia).
  change (bytes_of (wa_init [0x53616c74; 0x65645f5f])) with (str "Salted__") in Hb.
  rewrite Hsw in Hp. rewrite <- app_assoc in Hb. pose proof Hcl as [[_ Hlp] _].
  assert (forall i v, 0 <= i < 2 -> 0 <= v < 2 ^ 31 ->
    (forall j, 0 <= j < 4 -> str "Salted__" !! Z.to_nat (4 * i + j) = Some (byte_at [v] j)) -> get_word (words p) i = v) as Hmark.
  { intros i v Hi Hv Hj. eapply word_of_bytes; [exact Hb|lia|lia|done|done|]. intros j Hj'.
    rewrite lookup_app_l by (change (length (str "Salted__")) with 8%nat; lia). by apply Hj. }
  assert (get_word (words p) 0 = 0x53616c74 /\ get_word (words p) 1 = 0x65645f5f) as [-> ->].
  { split; apply Hmark; try lia; intros j Hj;
      assert (j = 0 \/ j = 1 \/ j = 2 \/ j = 3) as [-> | [-> | [-> | ->]]] by lia; reflexivity. }
  rewrite !Z.eqb_refl. cbn [andb ciphertext salt].
  assert (length (bytes_of s) = 8%nat) as Hls by (rewrite bytes_length; lia).
  assert (drop 8 (bytes_of p) = bytes_of s ++ bytes_of c) as Hd8 by (rewrite Hb; apply (drop_app_length (str "Salted__"))).
  split; [|split].
  - apply (drop_clean p 4); [done|lia].
  - pose proof (drop_words_bytes p 4 ltac:(lia) ltac:(lia)) as E. change (Z.to_nat 4) with 4%nat in E. change (4 * 4) with 16 in E.
    rewrite E. change (Z.to_nat 16) with (8 + 8)%nat. rewrite <- drop_drop, Hd8, <- Hls. apply drop_app_length.
  - eexists. split; [done|]. split; [apply full_words_clean|]. unfold slice. change (Z.to_nat (4 - 2)) with 2%nat.
    rewrite (take_words_bytes _ 2 (sigBytes p - 4 * 2)); [|rewrite length_drop; Z.div_mod_to_equations; lia|lia].
    rewrite drop_words_bytes by lia. change (Z.to_nat (4 * 2)) with 8%nat. rewrite Hd8. change (2 * 4)%nat with 8%nat.
    rewrite <- Hls. apply take_app_length.
Qed.

(** * The block ciphers of the library *)

Record block_algorithm := BlockAlgorithm { ba_keySize : Z; ba_ivSize : Z; ba_cipher : wordarray -> BlockCipher }.
Definition block_algorithms : list block_algorithm :=
  [BlockAlgorithm 8 4 AES.cipher; BlockAlgorithm 2 2 DES.cipher; BlockAlgorithm 6 2 TripleDES.cipher].

Lemma block_algorithm_laws a key :
  a ∈ block_algorithms -> 0 <= sigBytes key -> @BlockCipherLaws (ba_cipher a key).
Proof.
  intros Ha Hk. unfold block_algorithms in Ha. rewrite !elem_of_cons in Ha.
  destruct Ha as [-> | [-> | [-> | Ha]]]; [..|by apply not_elem_of_nil in Ha].
  - by apply AES.aes_laws.
  - apply DES.des_laws.
  - apply TripleDES.tripledes_laws.
Qed.
Lemma block_algorithm_sizes a : a ∈ block_algorithms -> 0 <= ba_keySize a.
Proof.
  intros Ha. unfold block_algorithms in Ha. rewrite !elem_of_cons in Ha.
  destruct Ha as [-> | [-> | [-> | Ha]]]; [..|by apply not_elem_of_nil in Ha]; cbn; lia.
Qed.

(** * Theorems *)


(** The OpenSSL format: a salt of eight bytes and a ciphertext come back from
    the string with their bytes. *)
Theorem openssl_roundtrip s c :
  clean s -> sigBytes s = 8 -> clean c ->
  let p := OpenSSL.parse (OpenSSL.stringify (Params c (Some s))) in
  clean (ciphertext p) /\ bytes_of (ciphertext p) = bytes_of c /\
  exists s', salt p = Some s' /\ clean s' /\ bytes_of s' = bytes_of s.
Proof. apply openssl_parse. Qed.
Lemma openssl_roundtrip_witness :
  bytes_of (ciphertext (OpenSSL.parse (OpenSSL.stringify
    (Params (of_bytes (str "c")) (Some (of_bytes (str "12345678"))))))) = bytes_of (of_bytes (str "c")).
Proof.
  apply (openssl_roundtrip (of_bytes (str "12345678")) (of_bytes (str "c"))).
  - apply of_bytes_clean. repeat constructor; discriminate.
  - reflexivity.
  - apply of_bytes_clean. repeat constructor; discriminate.
Defined.

(** C28. Decrypting the string that encryption with a password printed, with the
    same password, gives the message back: the salt is read from the string and
    gives the same key and initialization vector. *)
Theorem password_roundtrip a mode pdg salt random message password :
  a ∈ block_algorithms -> clean salt -> sigBytes salt = 8 ->
  clean message -> sigBytes message < 2 ^ 28 ->
  (forall key, paddable pdg message (bc_size (BlockCipher := ba_cipher a key))) ->
  clean password -> sigBytes password < 2 ^ 26 ->
  exists s m, password_encrypt (ba_keySize a) (ba_ivSize a) (ba_cipher a) mode pdg salt message password = Some s /\
    password_decrypt (ba_keySize a) (ba_ivSize a) (ba_cipher a) mode pdg random s password = Some m /\
    bytes_of m = bytes_of message.
Proof.
  intros Ha Hs Hs8 Hm Hmsz Hp Hpw Hpwsz. unfold password_encrypt, password_decrypt, kdf_execute.
  set (key := WA _ (ba_keySize a * 4)). set (iv := WA _ (ba_ivSize a * 4)).
  assert (0 <= sigBytes key) as Hk by (pose proof (block_algorithm_sizes a Ha); cbn; lia).
  pose proof (block_algorithm_laws a key Ha Hk) as L.
  destruct (encrypt_decrypt mode pdg (words iv) message Hm Hmsz (Hp key)) as (c & He & Hc & Hdec).
  eexists. rewrite He. cbn [mbind option_bind].
  destruct (openssl_parse salt c Hs Hs8 Hc) as (Hc' & Hcb & s' & Es & Hs' & Hsb). set (p := OpenSSL.parse _) in *.
  destruct (Hdec _ Hc' Hcb) as (m & Em & Hmb). exists m. split; [done|]. split; [|done].
  fold p. rewrite Es.
  rewrite <- (evpkdf_salt (A := MD5) (AL := MD5_laws) (DL := MD5_digest) (ba_keySize a + ba_ivSize a) 1 password salt s') by (done || lia).
  exact Em.
Qed.
Lemma password_roundtrip_witness :
  exists s m, password_encrypt 8 4 AES.cipher CTR Iso97971 (of_bytes (str "12345678")) (of_bytes (str "hi"))
      (of_bytes (str "secret")) = Some s /\
    password_decrypt 8 4 AES.cipher CTR Iso97971 (of_bytes (str "random!!")) s (of_bytes (str "secret")) = Some m /\
    bytes_of m = bytes_of (of_bytes (str "hi")).
Proof.
  apply (password_roundtrip (BlockAlgorithm 8 4 AES.cipher) CTR Iso97971 (of_bytes (str "12345678"))
    (of_bytes (str "random!!")) (of_bytes (str "hi")) (of_bytes (str "secret"))).
  - apply list_elem_of_here.
  - apply of_bytes_clean. repeat constructor; discriminate.
  - reflexivity.
  - apply of_bytes_clean. repeat constructor; discriminate.
  - reflexivity.
  - intros key. exact I.
  - apply of_bytes_clean. repeat constructor; discriminate.
  - reflexivity.
Defined.

(** A block of zeros has no byte for the loop to stop at. *)
Lemma last_nonzero_zeros n fuel i : last_nonzero fuel (replicate n 0) i = None.
Proof.
  revert i. induction fuel as [|fuel IH]; intros i; [done|]. cbn [last_nonzero].
  assert (byte_at (replicate n 0) i = 0) as ->; [|apply IH]. apply byte_at_zero_word. unfold get_word.
  destruct (replicate n 0 !! Z.to_nat (i / 4)) eqn:E; [|done]. by apply lookup_replicate in E as [-> _].
Qed.

(** C34. Unpadding zeros ends at the last byte that is not zero when there is one,
    which becomes the last byte of the message; on words that are all zero it
    never ends, however long the loop runs. *)
Theorem zero_unpad_diverges data :
  (forall i, 0 <= i < sigBytes data -> byte_at (words data) i <> 0 ->
     (forall j, i < j < sigBytes data -> byte_at (words data) j = 0) ->
     ZeroPadding_unpad data = Some (WA (words data) (i + 1))) /\
  (forall n fuel, words data = replicate n 0 ->
     last_nonzero fuel (words data) (sigBytes data - 1) = None).
Proof.
  split; [|intros n fuel ->; apply last_nonzero_zeros].
  intros i Hi Hb Hz. unfold ZeroPadding_unpad.
  set (k := Z.to_nat (sigBytes data - 1 - i)).
  replace (sigBytes data - 1) with (i + Z.of_nat k) by lia.
  rewrite (last_nonzero_find (words data) i k); [done|lia|done| |lia].
  intros j Hj. apply Hz. lia.
Qed.
