(* ===== verification/BigNumber.v ===== *)
(** bignumber.js, the decimal arithmetic web3 computes amounts, addresses and
    encoded words with (src/internal/jsre/deps/bignumber.js, v2.0.3 with the
    regular expressions changed for the Otto engine).

    A BigNumber is represented by its value: a finite one is [mant / 10 ^ dps]
    in lowest terms, and there are two infinities and NaN.  The rounding mode is
    a setting of the library ([BigNumber.config]); operations that round take it
    as an argument.  The setting DECIMAL_PLACES is 20 throughout, and the
    exponent limits of 10^7 are left out here.  The arrays of base 10^14
    digits behind a number, with those limits, are in BigDigits and BigMinus, for times,
    plus, minus and comparison. *)
From S2P Require Import Prelude WordArray.

Inductive bignumber :=
  | Big (mant : Z) (dps : nat)
  | Infinite (neg : bool)
  | NaN.

#[global] Instance bignumber_eq_dec : EqDecision bignumber.
Proof. solve_decision. Defined.

Definition big_of_Z (z : Z) : bignumber := Big z 0.

(** Trailing zeros after the point are dropped. *)
Fixpoint norm (n : nat) (m : Z) : bignumber :=
  match n with
  | O => Big m 0
  | S n' => if m mod 10 =? 0 then norm n' (m / 10) else Big m n
  end.

Inductive rounding := ROUND_DOWN | ROUND_HALF_UP.

(** [a / b] as an integer, for a positive [b]. *)
Definition round_div (rm : rounding) (a b : Z) : Z :=
  match rm with
  | ROUND_DOWN => Z.quot a b
  | ROUND_HALF_UP => Z.sgn a * ((2 * Z.abs a + b) / (2 * b))
  end.

Definition DECIMAL_PLACES : nat := 20.

(** [x.round(p)], also [round(x, p + x.e + 1, rm)] inside the library. *)
Definition round_dp (rm : rounding) (p : nat) (x : bignumber) : bignumber :=
  match x with
  | Big m n => if (n <=? p)%nat then x else norm p (round_div rm m (10 ^ Z.of_nat (n - p)))
  | _ => x
  end.

Definition plus (x y : bignumber) : bignumber :=
  match x, y with
  | Big a m, Big b n => norm (m + n) (a * 10 ^ Z.of_nat n + b * 10 ^ Z.of_nat m)
  | NaN, _ | _, NaN => NaN
  | Infinite s, Infinite t => if Bool.eqb s t then Infinite s else NaN
  | Infinite s, _ | _, Infinite s => Infinite s
  end.

Definition negated (x : bignumber) : bignumber :=
  match x with
  | Big a m => Big (- a) m
  | Infinite s => Infinite (negb s)
  | NaN => NaN
  end.

Definition minus (x y : bignumber) : bignumber := plus x (negated y).

Definition is_neg (x : bignumber) : bool :=
  match x with
  | Big a _ => a <? 0
  | Infinite s => s
  | NaN => false
  end.
Definition is_zero (x : bignumber) : bool :=
  match x with
  | Big a _ => a =? 0
  | _ => false
  end.

Definition times (x y : bignumber) : bignumber :=
  match x, y with
  | Big a m, Big b n => norm (m + n) (a * b)
  | NaN, _ | _, NaN => NaN
  | _, _ => if is_zero x || is_zero y then NaN else Infinite (xorb (is_neg x) (is_neg y))
  end.

Definition dividedBy (rm : rounding) (x y : bignumber) : bignumber :=
  match x, y with
  | NaN, _ | _, NaN => NaN
  | Infinite _, Infinite _ => NaN
  | Infinite s, _ => Infinite (xorb s (is_neg y))
  | _, Infinite _ => Big 0 0
  | Big a m, Big b n =>
      if b =? 0 then if a =? 0 then NaN else Infinite (a <? 0)
      else norm DECIMAL_PLACES
             (round_div rm (Z.sgn b * a * 10 ^ Z.of_nat n * 10 ^ Z.of_nat DECIMAL_PLACES)
                (Z.abs b * 10 ^ Z.of_nat m))
  end.

(** [x.lessThan(0)]. *)
Definition lessThan0 (x : bignumber) : bool := is_neg x.

(** * Reading *)

Fixpoint span (p : Z -> bool) (s : jsstr) : jsstr * jsstr :=
  match s with
  | c :: s' => if p c then let '(a, r) := span p s' in (c :: a, r) else ([], s)
  | [] => ([], [])
  end.
Definition is_dec_digit (c : Z) : bool := (48 <=? c) && (c <=? 57).
Definition is_base_digit (b c : Z) : bool := bool_decide (is_Some (char_digit b c)).
Definition dec_value (s : jsstr) : Z := default 0 (of_base 10 s).
Definition base_value (b : Z) (s : jsstr) : Z := default 0 (of_base b s).

Definition strip_minus (s : jsstr) : bool * jsstr :=
  match s with
  | c :: s' => if c =? 45 then (true, s') else (false, s)
  | [] => (false, [])
  end.
Definition signed (neg : bool) (z : Z) : Z := if neg then - z else z.

(** The exponent part: none, or [e], a sign and digits up to the end. *)
Definition read_exponent (s : jsstr) : option Z :=
  match s with
  | [] => Some 0
  | c :: s =>
      if (c =? 101) || (c =? 69) then
        let '(neg, s) := match s with
                         | d :: s' => if d =? 45 then (true, s') else if d =? 43 then (false, s') else (false, s)
                         | [] => (false, [])
                         end in
        let '(ds, r) := span is_dec_digit s in
        match ds, r with
        | _ :: _, [] => Some (signed neg (dec_value ds))
        | _, _ => None
        end
      else None
  end.

(** [m * 10 ^ e]. *)
Definition scale (m e : Z) : bignumber :=
  if 0 <=? e then Big (m * 10 ^ e) 0 else norm (Z.to_nat (- e)) m.

(** A string of the form the decimal syntax of the library has:
    digits with an optional point and exponent. *)
Definition read_decimal (s : jsstr) : option bignumber :=
  let '(neg, s) := strip_minus s in
  let '(ip, s) := span is_dec_digit s in
  let '(fp, s) := match s with
                  | c :: s' => if c =? 46 then let '(fp, r) := span is_dec_digit s' in
                                               match ip, fp with
                                               | [], [] => ([], s)
                                               | _, _ => (fp, r)
                                               end
                               else ([], s)
                  | [] => ([], [])
                  end in
  match ip, fp with
  | [], [] => None
  | _, _ => e ← read_exponent s;
            Some (scale (signed neg (dec_value (ip ++ fp))) (e - Z.of_nat (length fp)))
  end.

(** Digits of the base with an optional fraction; a fraction is rounded to 20
    decimal places. *)
Definition read_base (rm : rounding) (b : Z) (s : jsstr) : option bignumber :=
  let '(neg, s) := strip_minus s in
  let '(ip, s) := span (is_base_digit b) s in
  match ip, s with
  | _ :: _, [] => Some (Big (signed neg (base_value b ip)) 0)
  | _ :: _, c :: s =>
      if c =? 46 then
        let '(fp, r) := span (is_base_digit b) s in
        match fp, r with
        | _ :: _, [] =>
            Some (norm DECIMAL_PLACES
                    (round_div rm (signed neg (base_value b (ip ++ fp)) * 10 ^ Z.of_nat DECIMAL_PLACES)
                       (b ^ Z.of_nat (length fp))))
        | _, _ => None
        end
      else None
  | _, _ => None
  end.

(** What the library tries on a string in neither form: blanks and a plus sign
    are removed; a prefix is looked for, and the whole string is replaced by its
    sign when it has one (the pattern has no lookahead, so the digits are part
    of the match); for a base, a point with no digits on one side is completed.
    [None]: nothing changed, and the constructor throws. *)
Definition is_word (c : Z) : bool :=
  is_dec_digit c || ((97 <=? c) && (c <=? 122)) || ((65 <=? c) && (c <=? 90)) || (c =? 95).
Definition is_word_dot (c : Z) : bool := is_word c || (c =? 46).
Definition trim_plus (s : jsstr) : jsstr :=
  let t := trim_left s in
  let t := match t with
           | p :: c :: r => if (p =? 43) && is_word_dot c then c :: r else t
           | _ => t
           end in
  reverse (trim_left (reverse t)).
Definition prefix_base (c : Z) : option Z :=
  if (c =? 120) || (c =? 88) then Some 16
  else if (c =? 98) || (c =? 66) then Some 2
  else if (c =? 111) || (c =? 79) then Some 8
  else None.
Definition prefixed (s : jsstr) : option (bool * Z) :=
  let '(neg, r) := strip_minus s in
  match r with
  | z :: x :: d :: r => if (z =? 48) && is_word d && forallb is_word_dot r
                        then (fun b => (neg, b)) <$> prefix_base x else None
  | _ => None
  end.
Definition complete_point (s : jsstr) : jsstr :=
  let dots := length (filter (fun c => c = 46) s) in
  match s, reverse s with
  | c :: _ :: _, l :: _ =>
      if (dots =? 1)%nat then
        if l =? 46 then removelast s else if c =? 46 then 48 :: s else s
      else s
  | _, _ => s
  end.
Definition parseNumeric (base : option Z) (s : jsstr) : option (jsstr * option Z) :=
  let c := trim_plus s in
  let '(c, l) := match prefixed c with
                 | Some (neg, l) =>
                     if match base with Some b => negb (b =? l) | None => false end then (c, Some l)
                     else (if neg : bool then [45] else [], Some l)
                 | None => (c, None)
                 end in
  let '(c, l) := match base with
                 | Some b => (complete_point c, Some b)
                 | None => (c, l)
                 end in
  if bool_decide (c = s) then None else Some (c, l).

Definition non_finite (s : jsstr) : option bignumber :=
  let c := trim_plus s in
  if bool_decide (c = str "Infinity") then Some (Infinite false)
  else if bool_decide (c = str "-Infinity") then Some (Infinite true)
  else if bool_decide (c = str "NaN" \/ c = str "-NaN") then Some NaN
  else None.

(** [new BigNumber(s, base)] on a string; [None] when it throws.  In base 10 the
    value is rounded to 20 decimal places, without a base it is not.  Each retry
    works on a string [parseNumeric] has changed, which happens less often than
    the fuel allows. *)
Fixpoint construct (fuel : nat) (rm : rounding) (base : option Z) (s : jsstr) : option bignumber :=
  match fuel with
  | O => None
  | S fuel =>
      let ten := match base with Some b => b =? 10 | None => false end in
      let read := match base with
                  | Some b => if ten then read_decimal s else read_base rm b s
                  | None => read_decimal s
                  end in
      (if ten then round_dp rm DECIMAL_PLACES else id) <$>
      match read with
      | Some x => Some x
      | None => match non_finite s with
                | Some x => Some x
                | None => '(c, l) ← parseNumeric (if ten then None else base) s; construct fuel rm l c
                end
      end
  end.
Definition new_BigNumber (rm : rounding) (s : jsstr) (base : option Z) : option bignumber :=
  construct (length s + 2) rm base s.

(** * Printing *)

Definition strip_zeros (ds : list Z) : list Z :=
  reverse ((fix go (l : list Z) := match l with
                                   | d :: l' => if d =? 0 then go l' else l
                                   | [] => []
                                   end) (reverse ds)).
Definition pad_digits (n : nat) (ds : list Z) : list Z := replicate (n - length ds) 0 ++ ds.

(** [x.toString(b)]: 20 digits after the point at most. *)
Definition toString_base (rm : rounding) (b : Z) (x : bignumber) : jsstr :=
  match x with
  | Big m O => to_base b m
  | Big m n =>
      let u := round_div rm (Z.abs m * b ^ Z.of_nat DECIMAL_PLACES) (10 ^ Z.of_nat n) in
      let ip := to_base b (u / b ^ Z.of_nat DECIMAL_PLACES) in
      let fp := strip_zeros (pad_digits DECIMAL_PLACES (digits b (u mod b ^ Z.of_nat DECIMAL_PLACES))) in
      (if (m <? 0) then [45] else []) ++ ip ++
      match fp with [] => [] | _ => 46 :: (digit_char <$> fp) end
  | Infinite s => if s then str "-Infinity" else str "Infinity"
  | NaN => str "NaN"
  end.

(** * Lemmas *)

Lemma norm_0 m : norm 0 m = Big m 0.
Proof. done. Qed.

Lemma norm_scaled n k m : norm (n + k) (m * 10 ^ Z.of_nat k) = norm n m.
Proof.
  revert m. induction k as [|k IH]; intros m.
  - by rewrite Nat.add_0_r, Z.mul_1_r.
  - rewrite Nat.add_succ_r. cbn [norm].
    rewrite Nat2Z.inj_succ, Z.pow_succ_r by lia.
    replace (m * (10 * 10 ^ Z.of_nat k)) with (m * 10 ^ Z.of_nat k * 10) by ring.
    rewrite Z.mod_mul, Z.div_mul by lia. apply IH.
Qed.
Lemma norm_integer n m : norm n (m * 10 ^ Z.of_nat n) = Big m 0.
Proof. apply (norm_scaled 0). Qed.

(** [norm] keeps the value and leaves it in lowest terms. *)
Lemma norm_spec n m :
  exists m' n', norm n m = Big m' n' /\ (n' <= n)%nat /\ m = m' * 10 ^ Z.of_nat (n - n') /\
                (n' = O \/ m' mod 10 <> 0).
Proof.
  revert m. induction n as [|n IH]; intros m; cbn [norm].
  - exists m, O. split; [done|]. split; [lia|]. split; [|by left]. cbn. lia.
  - destruct (Z.eqb_spec (m mod 10) 0) as [E|E].
    + destruct (IH (m / 10)) as (m' & n' & -> & Hn & Hm & Hc). exists m', n'. split; [done|].
      split; [lia|]. split; [|done]. replace (S n - n')%nat with (S (n - n')) by lia.
      rewrite Nat2Z.inj_succ, Z.pow_succ_r by lia.
      pose proof (Z.div_mod m 10 ltac:(lia)). rewrite E in *. nia.
    + exists m, (S n). split; [done|]. split; [lia|]. rewrite Nat.sub_diag. split; [cbn; lia|by right].
Qed.

Lemma round_div_exact rm a b : 0 < b -> round_div rm (a * b) b = a.
Proof.
  intros Hb. destruct rm; cbn [round_div].
  - apply Z.quot_mul. lia.
  - rewrite Z.abs_mul, (Z.abs_eq b) by lia.
    replace ((2 * (Z.abs a * b) + b) / (2 * b)) with (Z.abs a)
      by (apply Z.div_unique with b; lia).
    rewrite Z.sgn_mul, (Z.sgn_pos b), Z.mul_1_r by lia. lia.
Qed.

Lemma round_dp_integer rm p z : round_dp rm p (Big z 0) = Big z 0.
Proof. done. Qed.

(** ** Reading digits *)

Lemma span_all p s : forallb p s = true -> span p s = (s, []).
Proof.
  induction s as [|c s IH]; [done|]. cbn. intros [H1 H2]%andb_prop. by rewrite H1, IH.
Qed.
Lemma span_stop p s c r : forallb p s = true -> p c = false -> span p (s ++ c :: r) = (s, c :: r).
Proof.
  induction s as [|x s IH]; cbn; [by intros _ ->|]. intros [H1 H2]%andb_prop Hc.
  by rewrite H1, IH.
Qed.

Lemma digit_char_base b d : is_digit b d -> b <= 36 -> is_base_digit b (digit_char d) = true.
Proof.
  intros Hd Hb. unfold is_base_digit. rewrite char_digit_char by done. by apply bool_decide_eq_true_2.
Qed.
Lemma digits_base b ds :
  Forall (is_digit b) ds -> b <= 36 -> forallb (is_base_digit b) (digit_char <$> ds) = true.
Proof.
  intros H Hb. induction H as [|d ds Hd _ IH]; [done|]. cbn. by rewrite digit_char_base, IH.
Qed.
Lemma digit_char_dec d : is_digit 10 d -> is_dec_digit (digit_char d) = true.
Proof.
  unfold is_digit, is_dec_digit, digit_char. intros Hd.
  replace (d <? 10) with true by lia. lia.
Qed.
Lemma digits_dec ds : Forall (is_digit 10) ds -> forallb is_dec_digit (digit_char <$> ds) = true.
Proof. induction 1 as [|d ds Hd _ IH]; [done|]. cbn. by rewrite digit_char_dec, IH. Qed.

Lemma digit_char_range d : 0 <= d -> 48 <= digit_char d.
Proof. unfold digit_char. destruct (Z.ltb_spec d 10); lia. Qed.

Lemma strip_minus_digits b ds : Forall (is_digit b) ds -> strip_minus (digit_char <$> ds) = (false, digit_char <$> ds).
Proof.
  destruct 1 as [|d ds Hd _]; [done|]. cbn. pose proof (digit_char_range d ltac:(unfold is_digit in *; lia)).
  by replace (digit_char d =? 45) with false by lia.
Qed.

Lemma read_base_digits rm b ds :
  ds <> [] -> Forall (is_digit b) ds -> b <= 36 ->
  read_base rm b (digit_char <$> ds) = Some (Big (of_digits b ds) 0).
Proof.
  intros Hn Hd Hb. unfold read_base. rewrite (strip_minus_digits b) by done.
  rewrite span_all by by apply digits_base.
  unfold base_value. rewrite of_base_digits by done.
  destruct ds; [done|]. done.
Qed.

(** Reading digits in a base other than ten. *)
Lemma new_BigNumber_digits rm b ds :
  ds <> [] -> Forall (is_digit b) ds -> b <= 36 -> b <> 10 ->
  new_BigNumber rm (digit_char <$> ds) (Some b) = Some (Big (of_digits b ds) 0).
Proof.
  intros Hn Hd Hb H10. unfold new_BigNumber.
  rewrite Nat.add_succ_r. cbn [construct].
  replace (b =? 10) with false by lia. by rewrite read_base_digits.
Qed.

Lemma read_decimal_digits ds :
  ds <> [] -> Forall (is_digit 10) ds -> read_decimal (digit_char <$> ds) = Some (Big (of_digits 10 ds) 0).
Proof.
  intros Hn Hd. unfold read_decimal. rewrite (strip_minus_digits 10) by done.
  rewrite span_all by by apply digits_dec.
  rewrite app_nil_r. unfold dec_value. rewrite of_base_digits by done.
  destruct ds; [done|]. cbn [fmap list_fmap length]. cbn [read_exponent mbind option_bind].
  unfold scale, signed. cbn. by rewrite Z.mul_1_r.
Qed.

Lemma read_decimal_neg ds :
  ds <> [] -> Forall (is_digit 10) ds ->
  read_decimal (45 :: (digit_char <$> ds)) = Some (Big (- of_digits 10 ds) 0).
Proof.
  intros Hn Hd. unfold read_decimal. cbn [strip_minus Z.eqb Pos.eqb].
  rewrite span_all by by apply digits_dec.
  rewrite app_nil_r. unfold dec_value. rewrite of_base_digits by done.
  destruct ds; [done|]. cbn [fmap list_fmap length]. cbn [read_exponent mbind option_bind].
  unfold scale, signed. cbn. by rewrite Z.mul_1_r.
Qed.

(** A number printed in decimal is read back. *)
Lemma digits_nonempty b z : digits b z <> [].
Proof. pose proof (digits_length_pos b z). destruct (digits b z); [cbn in *; lia|done]. Qed.

Lemma new_BigNumber_decimal rm z : new_BigNumber rm (to_base 10 z) (Some 10) = Some (Big z 0).
Proof.
  unfold new_BigNumber. rewrite Nat.add_succ_r. cbn [construct Z.eqb Pos.eqb].
  unfold to_base. destruct (Z.ltb_spec z 0).
  - rewrite read_decimal_neg; [|apply digits_nonempty|apply digits_valid; lia].
    rewrite of_digits_digits by lia. cbn. by rewrite Z.opp_involutive.
  - rewrite read_decimal_digits; [|apply digits_nonempty|apply digits_valid; lia].
    by rewrite of_digits_digits by lia.
Qed.

Lemma new_BigNumber_base rm b n z :
  2 <= b <= 36 -> b <> 10 -> 0 <= z ->
  new_BigNumber rm (replicate n 48 ++ to_base b z) (Some b) = Some (Big z 0).
Proof.
  intros Hb H10 Hz. rewrite to_base_nonneg by done.
  change 48 with (digit_char 0). rewrite <-fmap_replicate, <-fmap_app.
  rewrite new_BigNumber_digits; [|destruct n; [apply digits_nonempty|done]|apply Forall_app; split|lia|done].
  - by rewrite of_digits_zeros, of_digits_digits by lia.
  - apply Forall_replicate. unfold is_digit. lia.
  - apply digits_valid; lia.
Qed.

(** ** Fractions *)

Definition lowest (m : Z) (n : nat) : Prop := n = O \/ m mod 10 <> 0.

Lemma norm_lowest m n : lowest m n -> norm n m = Big m n.
Proof. intros [->|H]; [done|]. destruct n; [done|]. cbn. by replace (m mod 10 =? 0) with false by lia. Qed.

Lemma pad_digits_spec n z :
  0 <= z < 10 ^ Z.of_nat n -> (1 <= n)%nat ->
  length (pad_digits n (digits 10 z)) = n /\ Forall (is_digit 10) (pad_digits n (digits 10 z)) /\
  of_digits 10 (pad_digits n (digits 10 z)) = z.
Proof.
  intros Hz Hn. unfold pad_digits. pose proof (digits_length 10 ltac:(lia) z n Hz Hn).
  split; [rewrite length_app, length_replicate; lia|]. split.
  - apply Forall_app. split; [apply Forall_replicate; unfold is_digit; lia|apply digits_valid; lia].
  - rewrite of_digits_zeros by lia. apply of_digits_digits; lia.
Qed.

Lemma strip_zeros_app l d n : d <> 0 -> strip_zeros (l ++ [d] ++ replicate n 0) = l ++ [d].
Proof.
  intros Hd. unfold strip_zeros. rewrite !reverse_app, reverse_replicate, reverse_singleton, <-app_assoc.
  induction n as [|n IH]; cbn [replicate app].
  - cbn. replace (d =? 0) with false by lia. by rewrite reverse_cons, reverse_involutive.
  - cbn. exact IH.
Qed.

(** The printed fraction: the digits after the point, without the zeros up to
    the twenty the library computes. *)
Lemma fraction_digits f n :
  0 <= f < 10 ^ Z.of_nat n -> f mod 10 <> 0 -> (1 <= n <= DECIMAL_PLACES)%nat ->
  strip_zeros (pad_digits DECIMAL_PLACES (digits 10 (f * 10 ^ Z.of_nat (DECIMAL_PLACES - n)))) =
  pad_digits n (digits 10 f).
Proof.
  intros Hf Hd Hn. destruct (pad_digits_spec n f Hf ltac:(lia)) as (L1 & V1 & E1).
  set (k := (DECIMAL_PLACES - n)%nat).
  assert (10 ^ Z.of_nat DECIMAL_PLACES = 10 ^ Z.of_nat n * 10 ^ Z.of_nat k) as Hp.
  { rewrite <-Z.pow_add_r by lia. f_equal. lia. }
  assert (0 < 10 ^ Z.of_nat k) by (apply Z.pow_pos_nonneg; lia).
  destruct (pad_digits_spec DECIMAL_PLACES (f * 10 ^ Z.of_nat k)) as (L2 & V2 & E2); [rewrite Hp; split; [apply Z.mul_nonneg_nonneg; lia|apply Z.mul_lt_mono_pos_r; lia]|unfold DECIMAL_PLACES; lia|].
  assert (pad_digits DECIMAL_PLACES (digits 10 (f * 10 ^ Z.of_nat k)) =
          pad_digits n (digits 10 f) ++ replicate k 0) as ->.
  { apply (of_digits_inj 10); [lia|rewrite L2, length_app, L1, length_replicate; lia|done| |].
    - apply Forall_app. split; [done|]. apply Forall_replicate. unfold is_digit. lia.
    - rewrite of_digits_app, E1, E2, length_replicate by lia.
      rewrite <-(app_nil_r (replicate k 0)), of_digits_zeros by lia. change (of_digits 10 []) with 0. lia. }
  destruct (pad_digits n (digits 10 f)) as [|d l _] using rev_ind; [cbn in L1; lia|].
  rewrite of_digits_app in E1 by lia. rewrite <-app_assoc. apply strip_zeros_app.
  intros ->. cbn in E1. apply Hd. rewrite <-E1.
  rewrite Z.add_0_r. apply Z_mod_mult.
Qed.

Lemma toString_fraction rm m n :
  lowest m n -> (1 <= n <= DECIMAL_PLACES)%nat ->
  toString_base rm 10 (Big m n) =
  (if m <? 0 then [45] else []) ++ to_base 10 (Z.abs m / 10 ^ Z.of_nat n) ++
  46 :: (digit_char <$> pad_digits n (digits 10 (Z.abs m mod 10 ^ Z.of_nat n))).
Proof.
  intros Hl Hn. set (k := (DECIMAL_PLACES - n)%nat).
  assert (10 ^ Z.of_nat DECIMAL_PLACES = 10 ^ Z.of_nat n * 10 ^ Z.of_nat k) as Hp.
  { rewrite <-Z.pow_add_r by lia. f_equal. lia. }
  assert (0 < 10 ^ Z.of_nat n) by (apply Z.pow_pos_nonneg; lia).
  assert (0 < 10 ^ Z.of_nat k) by (apply Z.pow_pos_nonneg; lia).
  assert (toString_base rm 10 (Big m n) =
    let u := round_div rm (Z.abs m * 10 ^ Z.of_nat DECIMAL_PLACES) (10 ^ Z.of_nat n) in
    (if m <? 0 then [45] else []) ++ to_base 10 (u / 10 ^ Z.of_nat DECIMAL_PLACES) ++
    match strip_zeros (pad_digits DECIMAL_PLACES (digits 10 (u mod 10 ^ Z.of_nat DECIMAL_PLACES))) with
    | [] => [] | fp => 46 :: (digit_char <$> fp) end) as ->.
  { destruct n; [lia|]. cbn [toString_base]. by destruct (strip_zeros _). }
  cbv zeta. rewrite Hp, (Z.mul_comm (10 ^ Z.of_nat n)), Z.mul_assoc, round_div_exact by done.
  rewrite (Z.mul_comm (10 ^ Z.of_nat k) (10 ^ Z.of_nat n)).
  rewrite Z.div_mul_cancel_r, Z.mul_mod_distr_r by lia.
  assert ((Z.abs m mod 10 ^ Z.of_nat n) mod 10 <> 0) as Hd.
  { destruct Hl as [->|Hl]; [lia|]. destruct n as [|n]; [lia|].
    rewrite Nat2Z.inj_succ, Z.pow_succ_r by lia.
    rewrite (Z.mul_comm 10). intros E. apply Hl.
    rewrite Z.rem_mul_r in E by (try apply Z.pow_nonzero; lia). revert E.
    generalize (10 ^ Z.of_nat n). intros q. Z.div_mod_to_equations. nia. }
  pose proof (Z.mod_pos_bound (Z.abs m) (10 ^ Z.of_nat n) ltac:(lia)).
  subst k. rewrite fraction_digits by done.
  destruct (pad_digits_spec n (Z.abs m mod 10 ^ Z.of_nat n)) as (L & _ & _); [done|lia|].
  destruct (pad_digits n _); [cbn in L; lia|]. done.
Qed.

(** A number with at most twenty places is read back from its decimal text. *)
Lemma read_decimal_fraction (neg : bool) ip fp :
  ip <> [] -> fp <> [] -> Forall (is_digit 10) ip -> Forall (is_digit 10) fp ->
  read_decimal ((if neg then [45] else []) ++ (digit_char <$> ip) ++ 46 :: (digit_char <$> fp)) =
  Some (norm (length fp) (signed neg (of_digits 10 (ip ++ fp)))).
Proof.
  intros Hi Hf Vi Vf. unfold read_decimal.
  assert (strip_minus ((if neg then [45] else []) ++ (digit_char <$> ip) ++ 46 :: (digit_char <$> fp)) =
          (neg, (digit_char <$> ip) ++ 46 :: (digit_char <$> fp))) as ->.
  { destruct neg; [done|]. destruct Vi as [|d ip Hd _]; [done|]. cbn.
    pose proof (digit_char_range d ltac:(unfold is_digit in *; lia)).
    by replace (digit_char d =? 45) with false by lia. }
  rewrite span_stop by (try apply digits_dec; done). cbn [Z.eqb Pos.eqb].
  rewrite (span_all is_dec_digit (digit_char <$> fp)) by by apply digits_dec.
  assert ((digit_char <$> ip) <> []) as Hi' by by destruct ip.
  assert ((digit_char <$> fp) <> []) as Hf' by by destruct fp.
  destruct (digit_char <$> ip) as [|i ix] eqn:Ei; [done|]. destruct (digit_char <$> fp) as [|f fx] eqn:Ef; [done|].
  rewrite <-Ei, <-Ef, <-fmap_app. cbn [read_exponent mbind option_bind]. unfold dec_value.
  rewrite of_base_digits by (lia || by apply Forall_app). unfold scale. rewrite length_fmap.
  assert (0 < length fp)%nat by (apply Nat.neq_0_lt_0; by intros ?%nil_length_inv).
  replace (0 <=? 0 - Z.of_nat (length fp)) with false by lia.
  by replace (Z.to_nat (- (0 - Z.of_nat (length fp)))) with (length fp) by lia.
Qed.

Lemma new_BigNumber_toString rm m n :
  lowest m n -> (n <= DECIMAL_PLACES)%nat ->
  new_BigNumber rm (toString_base rm 10 (Big m n)) (Some 10) = Some (Big m n).
Proof.
  intros Hl Hn. destruct n as [|n']; [apply new_BigNumber_decimal|]. set (n := S n') in *.
  rewrite toString_fraction by (done || lia).
  assert (0 < 10 ^ Z.of_nat n) by (apply Z.pow_pos_nonneg; lia).
  pose proof (Z.mod_pos_bound (Z.abs m) (10 ^ Z.of_nat n) ltac:(lia)) as Hr.
  destruct (pad_digits_spec n (Z.abs m mod 10 ^ Z.of_nat n) Hr ltac:(lia)) as (L & V & E).
  assert (0 <= Z.abs m / 10 ^ Z.of_nat n) by (apply Z.div_pos; lia).
  rewrite to_base_nonneg by done. unfold new_BigNumber. rewrite Nat.add_succ_r.
  cbn [construct]. replace (10 =? 10) with true by lia.
  pose proof (read_decimal_fraction (m <? 0) (digits 10 (Z.abs m / 10 ^ Z.of_nat n)) _
                ltac:(apply digits_nonempty) ltac:(intros E'; rewrite E' in L; done)
                ltac:(apply digits_valid; lia) V) as ->.
  rewrite L, of_digits_app, L, E, of_digits_digits by lia.
  replace (Z.abs m / 10 ^ Z.of_nat n * 10 ^ Z.of_nat n + Z.abs m mod 10 ^ Z.of_nat n) with (Z.abs m)
    by (rewrite (Z.div_mod (Z.abs m) (10 ^ Z.of_nat n)) at 1; lia).
  assert (signed (m <? 0) (Z.abs m) = m) as -> by (unfold signed; destruct (Z.ltb_spec m 0); lia).
  rewrite norm_lowest by done. cbn [fmap option_fmap option_map]. unfold round_dp.
  by rewrite (proj2 (Nat.leb_le n DECIMAL_PLACES)).
Qed.

(** ** The prefix *)

Lemma trim_left_word s c : is_word c = true -> trim_left (c :: s) = c :: s.
Proof.
  intros H. cbn. assert (is_space c = false) as ->; [|done].
  unfold is_word, is_dec_digit in H. unfold is_space. lia.
Qed.

Lemma base_digit_word c : is_base_digit 16 c = true -> is_word c = true.
Proof.
  unfold is_base_digit, char_digit, is_word, is_dec_digit. rewrite bool_decide_eq_true.
  repeat match goal with |- context [if ?b then _ else _] => destruct b eqn:? end;
    intros [? ?]; simplify_eq; lia.
Qed.

Lemma trim_plus_words s d :
  is_word d = true -> forallb is_word s = true -> trim_plus (d :: s) = d :: s.
Proof.
  intros Hd Hs. unfold trim_plus. rewrite trim_left_word by done.
  assert (match s with
          | [] => d :: s
          | c :: r => if (d =? 43) && is_word_dot c then c :: r else d :: s
          end = d :: s) as ->.
  { destruct s; [done|]. by replace (d =? 43) with false by (unfold is_word, is_dec_digit in Hd; lia). }
  assert (forallb is_word (reverse (d :: s)) = true) as Hr.
  { apply forallb_forall. intros x Hx. apply (proj1 (forallb_forall is_word (d :: s))).
    - cbn. by rewrite Hd.
    - apply list_elem_of_In. apply list_elem_of_In in Hx. by rewrite elem_of_reverse in Hx. }
  destruct (reverse (d :: s)) as [|l r] eqn:E; [by apply (f_equal length) in E; rewrite length_reverse in E|].
  rewrite trim_left_word by (cbn in Hr; by apply andb_prop in Hr as [-> _]).
  rewrite <-E. apply reverse_involutive.
Qed.

Lemma construct_nil fuel rm : construct fuel rm (Some 16) [] = None.
Proof. by destruct fuel. Qed.

(** A string with the prefix 0x cannot be read: the pattern that looks for the
    prefix has no lookahead, the digits are dropped with it, and what is left,
    the empty string, is not a number. *)
Theorem hex_prefix_throws rm ds :
  ds <> [] -> forallb (is_base_digit 16) ds = true ->
  new_BigNumber rm (str "0x" ++ ds) (Some 16) = None /\ new_BigNumber rm (str "0x" ++ ds) None = None.
Proof.
  intros Hn Hd. change (str "0x" ++ ds) with (48 :: 120 :: ds). set (s := 48 :: 120 :: ds).
  assert (forallb is_word ds = true) as Hw.
  { apply forallb_forall. intros c Hc. apply base_digit_word. by apply (proj1 (forallb_forall _ _) Hd). }
  assert (trim_plus s = s) as Ht by by apply trim_plus_words.
  assert (prefixed s = Some (false, 16)) as Hp.
  { destruct ds as [|d ds]; [done|]. cbn in Hw. apply andb_prop in Hw as [Hw1 Hw2]. cbn.
    rewrite Hw1. assert (forallb is_word_dot ds = true) as ->; [|done].
    apply forallb_forall. intros c Hc. unfold is_word_dot.
    by rewrite (proj1 (forallb_forall _ _) Hw2 c Hc). }
  assert (non_finite s = None) as Hf by (unfold non_finite; by rewrite Ht).
  unfold new_BigNumber. rewrite Nat.add_succ_r. split; cbn [construct Z.eqb Pos.eqb].
  - assert (read_base rm 16 s = None) as -> by done. rewrite Hf.
    assert (parseNumeric (Some 16) s = Some ([], Some 16)) as -> by (unfold parseNumeric; by rewrite Ht, Hp).
    cbn [mbind option_bind]. by rewrite construct_nil.
  - assert (read_decimal s = None) as -> by done. rewrite Hf.
    assert (parseNumeric None s = Some ([], Some 16)) as -> by (unfold parseNumeric; by rewrite Ht, Hp).
    cbn [mbind option_bind]. by rewrite construct_nil.
Qed.

Lemma hex_prefix_throws_witness :
  new_BigNumber ROUND_HALF_UP (str "0xff") (Some 16) = None /\ new_BigNumber ROUND_HALF_UP (str "0xff") None = None.
Proof. apply (hex_prefix_throws ROUND_HALF_UP (str "ff")); [discriminate|reflexivity]. Defined.
