(* ===== verification/BigDigits.v ===== *)
(** The arithmetic inside bignumber.js (src/internal/jsre/deps/bignumber.js, line 3): a
    finite number is a sign, a decimal exponent and an array of digits in base 10^14,
    most significant first; [times] multiplies digits in halves of base 10^7 so that
    every intermediate number is an exact double, [plus] adds with carry.

    Numbers are rounded to doubles ([f64]) after every operation, and [| 0] wraps to 32
    bits.  A quotient that is cut to an integer right away is the integer quotient: it
    is less than 2^25 with a denominator of at most 10^14, too far from the next
    integer to be rounded to it.  The divisions by 10 that count the digits of the
    first element are at most 13 on a number less than 10^14, and count its digits. *)
From Stdlib Require Import ZArith Lia.
From S2P Require Import Prelude Words BigNumber.

Definition BASE : Z := 10 ^ 14.
Definition LOG_BASE : Z := 14.
Definition SQRT_BASE : Z := 10 ^ 7.
Definition MAX_EXP : Z := 10 ^ 7.
Definition MIN_EXP : Z := - 10 ^ 7.

(** [s], [e] and [c] of a finite number. *)
Record coefficient := Coefficient { c_s : Z; c_e : Z; c_c : list Z }.

Definition digit (l : list Z) (i : nat) : Z := default 0 (l !! i).

(** * Multiplication *)

(** One digit: [x] times the digit [d * 10^7 + p], added to [z] with the carry [r]; the
    new digit and the next carry. *)
Definition mul_digit (x p d z r : Z) : Z * Z :=
  let c := x mod SQRT_BASE in
  let h := s32 (x / SQRT_BASE) in
  let f := f64 (f64 (d * c) + f64 (h * p)) in
  let c := f64 (f64 (f64 (f64 (p * c) + f64 (f mod SQRT_BASE * SQRT_BASE)) + z) + r) in
  (c mod BASE, f64 (f64 (s32 (c / BASE) + s32 (f / SQRT_BASE)) + f64 (d * h))).
(** The inner loop: the digits of [xs] below [n], from the last one on, times the digit
    [d * 10^7 + p], are added to [m]. *)
Fixpoint mul_row (n : nat) (xs : list Z) (p d : Z) (o : nat) (m : list Z) (r : Z) : list Z * Z :=
  match n with
  | O => (m, r)
  | S s =>
      let u := (o + S s)%nat in
      let '(c, r) := mul_digit (digit xs s) p d (digit m u) r in
      mul_row s xs p d o (<[u := c]> m) r
  end.
(** The outer loop over the digits of [ys] below [k]; also the last carry. *)
Fixpoint mul_rows (k : nat) (xs ys : list Z) (m : list Z) (r : Z) : list Z * Z :=
  match k with
  | O => (m, r)
  | S o =>
      let y := digit ys o in
      let '(m, r) := mul_row (length xs) xs (y mod SQRT_BASE) (s32 (y / SQRT_BASE)) o m 0 in
      mul_rows o xs ys (<[o := r]> m) r
  end.

(** [for (i = n.length; !n[--i]; n.pop());] *)
Fixpoint pop_zeros (l : list Z) : list Z :=
  match l with
  | [] => []
  | x :: l => match pop_zeros l with
              | [] => if x =? 0 then [] else [x]
              | l => x :: l
              end
  end.
(** The number [s * 0.n * BASE^(t + 1)] in its normal form; [None] is infinite. *)
Definition normalise (s : Z) (n : list Z) (t : Z) : option coefficient :=
  let n := pop_zeros n in
  let e := Z.of_nat (length (digits 10 (digit n 0))) + t * LOG_BASE - 1 in
  if MAX_EXP <? e then None
  else if e <? MIN_EXP then Some (Coefficient s 0 [0])
  else Some (Coefficient s e n).

Definition times_digits (x y : coefficient) : option coefficient :=
  let s := c_s y * c_s x in
  if (digit (c_c x) 0 =? 0) || (digit (c_c y) 0 =? 0) then Some (Coefficient s 0 [0])
  else
    let i := c_e x / LOG_BASE + c_e y / LOG_BASE in
    let '(xs, ys) := if (length (c_c x) <? length (c_c y))%nat then (c_c y, c_c x) else (c_c x, c_c y) in
    let '(m, r) := mul_rows (length ys) xs ys (replicate (length xs + length ys) 0) 0 in
    if r =? 0 then normalise s (tail m) i else normalise s m (i + 1).

(** * Addition *)

(** The sum of two digits and the carry; the new digit and the next carry. *)
Definition add_digit (a b o : Z) : Z * Z :=
  let t := f64 (f64 (a + b) + o) in (t mod BASE, s32 (t / BASE)).
(** The digits of [l] below [n] are added to those of [f], from the last on. *)
Fixpoint add_loop (n : nat) (f l : list Z) (o : Z) : list Z * Z :=
  match n with
  | O => (f, o)
  | S n =>
      let '(t, o) := add_digit (digit f n) (digit l n) o in
      add_loop n (<[n := t]> f) l o
  end.
(** [plus] of two numbers of the same sign. *)
Definition plus_digits (x y : coefficient) : option coefficient :=
  if ((c_e x =? 0) || (c_e y =? 0)) && ((digit (c_c x) 0 =? 0) || (digit (c_c y) 0 =? 0)) then
    Some (if negb (digit (c_c y) 0 =? 0) then y else if negb (digit (c_c x) 0 =? 0) then x else Coefficient (c_s x) 0 [0])
  else
    let u := c_e x / LOG_BASE in
    let s := c_e y / LOG_BASE in
    let f := replicate (Z.to_nat (s - u)) 0 ++ c_c x in
    let l := replicate (Z.to_nat (u - s)) 0 ++ c_c y in
    let '(f, l) := if (length f <? length l)%nat then (l, f) else (f, l) in
    let '(f, o) := add_loop (length l) f l 0 in
    let s := Z.max u s in
    if o =? 0 then normalise (c_s y) f s else normalise (c_s y) (o :: f) (s + 1).

(** * Values *)

Definition is_big (l : list Z) : Prop := Forall (is_digit BASE) l.
(** The value: the digits, with the point after the one the exponent says. *)
Definition big_value (s t : Z) (l : list Z) : bignumber :=
  scale (s * of_digits BASE l) (LOG_BASE * (t - (Z.of_nat (length l) - 1))).
Definition value_of (x : coefficient) : bignumber := big_value (c_s x) (c_e x / LOG_BASE) (c_c x).

(** One step of the inner loop, without rounding: all its numbers are exact. *)
Lemma mul_digit_spec x y m r :
  is_digit BASE x -> is_digit BASE y -> is_digit BASE m -> is_digit BASE r ->
  exists c r', mul_digit x (y mod SQRT_BASE) (s32 (y / SQRT_BASE)) m r = (c, r') /\
    is_digit BASE c /\ is_digit BASE r' /\ c + BASE * r' = m + x * y + r.
Proof.
  intros Hx Hy Hm Hr. do 2 eexists. split; [reflexivity|]. revert Hx Hy Hm Hr.
  unfold is_digit, BASE, SQRT_BASE. change (10 ^ 14) with 100000000000000. change (10 ^ 7) with 10000000.
  intros Hx Hy Hm Hr. cbv zeta. set (v := 10000000) in *. set (w := 100000000000000) in *.
  assert (w = v * v) as Hw by done. assert (v = 10000000) as Hv by done.
  assert (forall z, 0 <= z < w -> 0 <= z / v < v /\ 0 <= z mod v < v /\ z = v * (z / v) + z mod v) as Hdiv.
  { intros z Hz. pose proof (Z.div_mod z v ltac:(lia)). pose proof (Z.mod_pos_bound z v ltac:(lia)).
    split_and!; lia. }
  destruct (Hdiv x Hx) as (Hh & Hc & Ex), (Hdiv y Hy) as (Hd & Hp & Ey). clear Hdiv.
  assert (forall z, 0 <= z < v -> s32 z = z) as Hs by (intros z Hz; apply s32_id; lia).
  rewrite (Hs _ Hh), (Hs _ Hd). set (h := x / v) in *. set (c := x mod v) in *. set (d := y / v) in *. set (p := y mod v) in *.
  assert (0 <= d * c <= (v - 1) * (v - 1)) by nia. assert (0 <= h * p <= (v - 1) * (v - 1)) by nia.
  assert (0 <= p * c <= (v - 1) * (v - 1)) by nia. assert (0 <= d * h <= (v - 1) * (v - 1)) by nia.
  assert (forall z, 0 <= z <= 10 * w -> f64 z = z) as Hf by (intros z Hz; apply f64_exact; lia).
  rewrite (Hf (d * c)), (Hf (h * p)), (Hf (p * c)), (Hf (d * h)) by lia. rewrite (Hf (d * c + h * p)) by lia.
  set (f := d * c + h * p) in *. pose proof (Z.div_mod f v ltac:(lia)) as Ef. pose proof (Z.mod_pos_bound f v ltac:(lia)) as Hfm.
  assert (0 <= f / v < 2 * v) as Hfv by (split; [apply Z.div_pos; lia|apply Z.div_lt_upper_bound; nia]).
  assert (0 <= f mod v * v <= (v - 1) * v) by nia.
  rewrite (Hf (f mod v * v)) by lia. rewrite (Hf (p * c + f mod v * v)) by lia.
  rewrite (Hf (p * c + f mod v * v + m)) by lia. rewrite (Hf (p * c + f mod v * v + m + r)) by lia.
  set (g := p * c + f mod v * v + m + r). pose proof (Z.div_mod g w ltac:(lia)) as Eg. pose proof (Z.mod_pos_bound g w ltac:(lia)) as Hgm.
  assert (0 <= g / w < 4) as Hgw by (split; [apply Z.div_pos; lia|apply Z.div_lt_upper_bound; nia]).
  rewrite !s32_id by lia. rewrite (Hf (g / w + f / v)) by lia. rewrite (Hf (g / w + f / v + d * h)) by lia.
  assert (g mod w + w * (g / w + f / v + d * h) = m + x * y + r) as E.
  { transitivity (g + v * (f - f mod v) + w * (d * h)).
    - replace (v * (f - f mod v)) with (w * (f / v)) by (rewrite Hw; replace (f - f mod v) with (v * (f / v)) by lia; ring). lia.
    - rewrite Ex, Ey. unfold g, f. rewrite Hw. ring. }
  split; [lia|]. split; [|exact E]. split; [lia|].
  assert (x * y <= (w - 1) * (w - 1)) by (apply Z.mul_le_mono_nonneg; lia). lia.
Qed.

Lemma base_pos : 0 < BASE.
Proof. done. Qed.
Lemma digit_in l i : is_big l -> is_digit BASE (digit l i).
Proof.
  intros H. unfold digit. destruct (l !! i) as [z|] eqn:E; [by apply (Forall_lookup_1 _ _ _ _ H E)|].
  cbn. unfold is_digit. pose proof base_pos. lia.
Qed.
Lemma take_S_digit (l : list Z) n : (n < length l)%nat -> take (S n) l = take n l ++ [digit l n].
Proof. intros H. apply lookup_lt_is_Some in H as [z Hz]. rewrite (take_S_r _ _ _ Hz). unfold digit. by rewrite Hz. Qed.
Lemma of_digits_snoc l z : of_digits BASE (l ++ [z]) = of_digits BASE l * BASE + z.
Proof. rewrite of_digits_app by done. cbn [length]. change (Z.of_nat 1) with 1. rewrite Z.pow_1_r. by cbn. Qed.

(** The inner loop: [M] are the digits of [m] it changes. *)
Lemma mul_row_spec n xs y o A M B r :
  is_big xs -> is_digit BASE y -> (n <= length xs)%nat -> length A = S o -> length M = n -> is_big M -> is_digit BASE r ->
  exists M' r', mul_row n xs (y mod SQRT_BASE) (s32 (y / SQRT_BASE)) o (A ++ M ++ B) r = (A ++ M' ++ B, r') /\
    length M' = n /\ is_big M' /\ is_digit BASE r' /\
    of_digits BASE M' + r' * BASE ^ Z.of_nat n = of_digits BASE M + y * of_digits BASE (take n xs) + r.
Proof.
  intros Hx Hy. revert M B r. induction n as [|n IH]; intros M B r Hn HA HM HMb Hr.
  { destruct M; [|done]. exists [], r. split_and!; try done. rewrite take_0. change (of_digits BASE []) with 0. cbn [Z.of_nat]. lia. }
  destruct (exists_last (l := M)) as (M0 & z & ->); [by intros ->|]. rewrite length_app in HM. cbn in HM.
  apply Forall_app in HMb as [HM0 [Hz _]%Forall_cons].
  cbn [mul_row]. cbv zeta.
  assert (digit (A ++ (M0 ++ [z]) ++ B) (o + S n) = z) as ->.
  { unfold digit. rewrite lookup_app_r by lia. rewrite <-app_assoc, lookup_app_r by lia. by replace (o + S n - length A - length M0)%nat with O by lia. }
  destruct (mul_digit_spec _ y z r (digit_in xs n Hx) Hy Hz Hr) as (g & r1 & -> & Hc & Hr1 & E1).
  assert (<[(o + S n)%nat := g]> (A ++ (M0 ++ [z]) ++ B) = A ++ M0 ++ ([g] ++ B)) as ->.
  { rewrite <-app_assoc. rewrite insert_app_r_alt by lia. f_equal. rewrite insert_app_r_alt by lia. f_equal.
    by replace (o + S n - length A - length M0)%nat with O by lia. }
  destruct (IH M0 ([g] ++ B) r1) as (M' & r' & -> & HM' & HMb' & Hr' & E); [lia|done|lia|done|done|].
  exists (M' ++ [g]), r'. split_and!; [by rewrite <-app_assoc|rewrite length_app; cbn; lia| |done|].
  { apply Forall_app. split; [done|]. by constructor. }
  rewrite !of_digits_snoc, take_S_digit by lia. rewrite of_digits_snoc, Nat2Z.inj_succ, Z.pow_succ_r by lia.
  revert E1 E. generalize (of_digits BASE M'), (of_digits BASE M0), (of_digits BASE (take n xs)), (BASE ^ Z.of_nat n), (digit xs n). generalize BASE.
  intros w a a0 b k x E1 E. replace (a * w + g + r' * (w * k)) with (w * (a + r' * k) + g) by ring.
  rewrite E. replace g with (z + x * y + r - w * r1) by lia. ring.
Qed.

(** The outer loop: [T] are the digits after those to come. *)
Lemma mul_rows_spec k xs ys Z0 T r :
  is_big xs -> is_big ys -> (k <= length ys)%nat -> length Z0 = k -> is_big T ->
  length T = (length xs + (length ys - k))%nat ->
  of_digits BASE T = of_digits BASE xs * of_digits BASE (drop k ys) ->
  exists m r', mul_rows k xs ys (Z0 ++ T) r = (m, r') /\ length m = (length xs + length ys)%nat /\ is_big m /\
    of_digits BASE m = of_digits BASE xs * of_digits BASE ys /\ (k <> O -> head m = Some r').
Proof.
  intros Hx Hy. revert Z0 T r. induction k as [|o IH]; intros Z0 T r Hk HZ HT HTl E; cbn [mul_rows].
  { destruct Z0; [|done]. exists T, r. split_and!; try done. rewrite HTl. lia. }
  destruct (exists_last (l := Z0)) as (Z1 & z & ->); [by intros ->|]. rewrite length_app in HZ. cbn in HZ.
  pose proof (digit_in ys o Hy) as Hd. set (y := digit ys o) in *.
  assert (length (take (length xs) T) = length xs) as HM by (rewrite length_take; lia).
  destruct (mul_row_spec (length xs) xs y o (Z1 ++ [z]) (take (length xs) T) (drop (length xs) T) 0)
    as (M' & r' & Er & HM' & HMb & Hr' & E'); try done; [rewrite length_app; cbn; lia|by apply Forall_take|].
  rewrite take_drop in Er. rewrite Er.
  assert (<[o := r']> ((Z1 ++ [z]) ++ M' ++ drop (length xs) T) = Z1 ++ (r' :: M' ++ drop (length xs) T)) as ->.
  { rewrite <-app_assoc. rewrite insert_app_r_alt by lia. f_equal. by replace (o - length Z1)%nat with O by lia. }
  assert (is_big (r' :: M' ++ drop (length xs) T)) as HT'.
  { constructor; [done|]. apply Forall_app. split; [done|by apply Forall_drop]. }
  destruct (IH Z1 (r' :: M' ++ drop (length xs) T) r') as (m & r1 & Em & Hm & Hmb & Hv & Hh); [lia|lia|done| | |].
  - cbn [length]. rewrite length_app, length_drop. lia.
  - assert (drop o ys = y :: drop (S o) ys) as ->.
    { unfold y, digit. destruct (ys !! o) as [d|] eqn:Ed; [by rewrite (drop_S _ _ _ Ed)|]. apply lookup_ge_None in Ed. lia. }
    rewrite !of_digits_cons, of_digits_app by done. rewrite length_app, !length_drop, HTl, HM'.
    rewrite firstn_all in E'.
    assert (of_digits BASE T = of_digits BASE (take (length xs) T) * BASE ^ Z.of_nat (length ys - S o) + of_digits BASE (drop (length xs) T)) as ET.
    { rewrite <-(take_drop (length xs) T) at 1. rewrite of_digits_app by done. do 3 f_equal. rewrite length_drop. lia. }
    replace (length xs + (length xs + (length ys - S o) - length xs))%nat with (length xs + (length ys - S o))%nat by lia.
    replace (length xs + (length ys - S o) - length xs)%nat with (length ys - S o)%nat by lia.
    rewrite Nat2Z.inj_add, Z.pow_add_r by lia.
    rewrite E in ET. revert E' ET. clear.
    generalize (of_digits BASE M'), (of_digits BASE (take (length xs) T)), (of_digits BASE (drop (length xs) T)),
      (of_digits BASE xs), (of_digits BASE (drop (S o) ys)), (BASE ^ Z.of_nat (length xs)), (BASE ^ Z.of_nat (length ys - S o)).
    intros a t u x yy k j E' ET.
    replace (r' * (k * j) + (a * j + u)) with ((a + r' * k) * j + u) by ring. rewrite E'.
    replace (x * (y * j + yy)) with (x * yy + y * x * j) by ring. rewrite ET. ring.
  - exists m, r1. split_and!; try done. intros _. destruct o as [|o]; [|by apply Hh].
    cbn [mul_rows] in Em. injection Em as <- <-. destruct Z1; [done|cbn in HZ; lia].
Qed.

(** ** Values by value *)

Lemma pow10_add a b : 0 <= a -> 0 <= b -> 10 ^ (a + b) = 10 ^ a * 10 ^ b.
Proof. intros. apply Z.pow_add_r; lia. Qed.
Lemma scale_norm k m e : 0 <= k -> 0 <= k + e -> scale m e = norm (Z.to_nat k) (m * 10 ^ (k + e)).
Proof.
  intros Hk He. unfold scale. destruct (Z.leb_spec 0 e).
  - rewrite Z.add_comm, pow10_add, Z.mul_assoc by lia. rewrite <-(Z2Nat.id k) at 2 by lia. by rewrite norm_integer.
  - replace (Z.to_nat k) with (Z.to_nat (- e) + Z.to_nat (k + e))%nat by lia.
    rewrite <-(Z2Nat.id (k + e)) at 2 by lia. by rewrite norm_scaled.
Qed.
Lemma scale_shift m k e : 0 <= k -> scale (m * 10 ^ k) e = scale m (e + k).
Proof.
  intros Hk. rewrite (scale_norm (Z.abs e)), (scale_norm (Z.abs e) m) by lia.
  f_equal. rewrite Z.add_assoc, (pow10_add _ k) by lia. ring.
Qed.

Lemma times_norm a x b y : times (norm a x) (norm b y) = norm (a + b) (x * y).
Proof.
  destruct (norm_spec a x) as (x' & a' & -> & Ha & -> & _), (norm_spec b y) as (y' & b' & -> & Hb & -> & _). cbn [times].
  rewrite <-(norm_scaled (a' + b') ((a - a') + (b - b'))). f_equal; [lia|]. rewrite Nat2Z.inj_add, pow10_add by lia. ring.
Qed.
Lemma plus_norm a x y : plus (norm a x) (norm a y) = norm a (x + y).
Proof.
  destruct (norm_spec a x) as (x' & m & -> & Hm & -> & _), (norm_spec a y) as (y' & n & -> & Hn & -> & _). cbn [plus].
  rewrite <-(norm_scaled (m + n) a), <-(norm_scaled a (m + n)). f_equal; [lia|].
  rewrite !Z.mul_add_distr_r. f_equal; rewrite <-!Z.mul_assoc, <-!Z.pow_add_r by lia; do 2 f_equal; lia.
Qed.
Lemma scale_times a b e f : scale (a * b) (e + f) = times (scale a e) (scale b f).
Proof.
  rewrite (scale_norm (Z.abs e) a), (scale_norm (Z.abs f) b), (scale_norm (Z.abs e + Z.abs f)) by lia.
  rewrite times_norm. f_equal; [lia|].
  replace (Z.abs e + Z.abs f + (e + f)) with ((Z.abs e + e) + (Z.abs f + f)) by lia. rewrite pow10_add by lia. ring.
Qed.
Lemma scale_plus a b e : scale (a + b) e = plus (scale a e) (scale b e).
Proof. rewrite !(scale_norm (Z.abs e)) by lia. rewrite plus_norm. f_equal. ring. Qed.

(** ** Normal form *)

(** The exponent of the first digit of [l]. *)
Definition big_exp (l : list Z) : Z := LOG_BASE * (Z.of_nat (length l) - 1) + Z.of_nat (length (digits 10 (digit l 0))) - 1.

Lemma digits10_bounds z : 0 < z -> 10 ^ (Z.of_nat (length (digits 10 z)) - 1) <= z < 10 ^ Z.of_nat (length (digits 10 z)).
Proof.
  intros Hz. pose proof (digits_length_pos 10 z) as Hp. split.
  - apply Z.le_ngt. intros Hlt. set (n := length (digits 10 z)) in *. destruct (decide (n = 1%nat)) as [En|En].
    + rewrite En in Hlt. cbn in Hlt. lia.
    + pose proof (digits_length 10 ltac:(lia) z (n - 1)) as Hl. rewrite Nat2Z.inj_sub in Hl by lia. fold n in Hl.
      specialize (Hl (conj ltac:(lia) Hlt) ltac:(lia)). lia.
  - rewrite <-(of_digits_digits 10 ltac:(lia) z) at 1 by lia. apply of_digits_bound; [lia|]. apply digits_valid; lia.
Qed.
Lemma base_pow n : BASE ^ Z.of_nat n = 10 ^ (LOG_BASE * Z.of_nat n).
Proof. unfold LOG_BASE. rewrite Z.pow_mul_r by lia. done. Qed.
Lemma digit_len z : 0 < z -> is_digit BASE z -> 1 <= Z.of_nat (length (digits 10 z)) <= LOG_BASE.
Proof.
  intros Hz [_ Hb]. pose proof (digits_length_pos 10 z). split; [lia|].
  assert (0 <= z < 10 ^ Z.of_nat 14) as H14 by (change (10 ^ Z.of_nat 14) with BASE; lia).
  pose proof (digits_length 10 ltac:(lia) z 14 H14 ltac:(lia)). unfold LOG_BASE. lia.
Qed.

(** The digits are a number of the magnitude [big_exp] says. *)
Lemma big_exp_bounds l : is_big l -> digit l 0 <> 0 -> 10 ^ big_exp l <= of_digits BASE l < 10 ^ (big_exp l + 1).
Proof.
  destruct l as [|z l]; [done|]. intros [Hz Hl]%Forall_cons. change (digit (z :: l) 0) with z. intros Hz0.
  assert (0 < z) as Hp by (unfold is_digit in Hz; lia). pose proof (digits10_bounds z Hp) as [Hlo Hhi]. pose proof (digit_len z Hp Hz) as Hlen.
  pose proof (of_digits_bound BASE ltac:(done) l Hl) as Hb. rewrite of_digits_cons by done.
  unfold big_exp. change (digit (z :: l) 0) with z. cbn [length]. rewrite Nat2Z.inj_succ.
  rewrite base_pow in *. set (k := Z.of_nat (length (digits 10 z))) in *.
  replace (LOG_BASE * (Z.succ (Z.of_nat (length l)) - 1)) with (LOG_BASE * Z.of_nat (length l)) by lia.
  set (n := LOG_BASE * Z.of_nat (length l)) in *. assert (0 <= n) by (unfold n, LOG_BASE; lia).
  replace (n + k - 1) with ((k - 1) + n) by lia. replace (k - 1 + n + 1) with (k + n) by lia.
  rewrite !pow10_add by lia. pose proof (Z.pow_pos_nonneg 10 n ltac:(lia) ltac:(lia)).
  split; [apply Z.le_trans with (z * 10 ^ n); [apply Z.mul_le_mono_nonneg_r; lia|lia]|].
  apply Z.lt_le_trans with ((z + 1) * 10 ^ n); [lia|]. apply Z.mul_le_mono_nonneg_r; lia.
Qed.
(** A number has one magnitude. *)
Lemma magnitude_between a b e v : 10 ^ a <= v < 10 ^ (b + 1) -> 10 ^ e <= v < 10 ^ (e + 1) -> 0 <= a -> 0 <= e -> a <= e <= b.
Proof.
  intros Hv He Ha He0. split.
  - assert (10 ^ a < 10 ^ (e + 1)) as Hlt by lia. apply Z.pow_lt_mono_r_iff in Hlt; lia.
  - destruct (Z.le_gt_cases 0 (b + 1)) as [Hb|Hb]; [|rewrite (Z.pow_neg_r 10 (b + 1)) in Hv by lia; pose proof (Z.pow_pos_nonneg 10 e); lia].
    assert (10 ^ e < 10 ^ (b + 1)) as Hlt by lia. apply Z.pow_lt_mono_r_iff in Hlt; lia.
Qed.

(** A number as the library keeps it: a sign, digits without zeros at either end, an
    exponent in the limits that agrees with the first digit. *)
Definition nonzero_digits (l : list Z) : Prop := is_big l /\ digit l 0 <> 0.
Definition coefficient_wf (x : coefficient) : Prop :=
  (c_s x = 1 \/ c_s x = -1) /\
  (c_c x = [0] /\ c_e x = 0 \/
   nonzero_digits (c_c x) /\ last (c_c x) <> Some 0 /\ MIN_EXP <= c_e x <= MAX_EXP /\
   c_e x mod LOG_BASE = Z.of_nat (length (digits 10 (digit (c_c x) 0))) - 1).

Lemma pop_zeros_spec l : exists j, l = pop_zeros l ++ replicate j 0 /\ last (pop_zeros l) <> Some 0.
Proof.
  induction l as [|x l (j & E & Hl)]; cbn [pop_zeros]; [by exists O|].
  destruct (pop_zeros l) as [|y k] eqn:Ek; cbn in E.
  - destruct (Z.eqb_spec x 0) as [->|Hx]; [exists (S j)|exists j]; rewrite E at 1; split; try done.
    cbn. congruence.
  - exists j. split; [by rewrite E at 1|]. done.
Qed.
Lemma of_digits_pad l j : of_digits BASE (l ++ replicate j 0) = of_digits BASE l * 10 ^ (LOG_BASE * Z.of_nat j).
Proof.
  rewrite of_digits_app, length_replicate, base_pow by done.
  pose proof (of_digits_zeros BASE j []) as H0. rewrite app_nil_r in H0. rewrite H0. change (of_digits BASE []) with 0. lia.
Qed.
Lemma big_value_pad s t l j : big_value s t (l ++ replicate j 0) = big_value s t l.
Proof.
  unfold big_value. rewrite of_digits_pad, Z.mul_assoc, scale_shift by (unfold LOG_BASE; lia).
  f_equal. rewrite length_app, length_replicate. lia.
Qed.

(** [normalise] keeps the value, with the exponent of the first digit. *)
Lemma normalise_spec s n t e :
  nonzero_digits n -> (s = 1 \/ s = -1) -> e = big_exp n + LOG_BASE * (t - (Z.of_nat (length n) - 1)) ->
  (MAX_EXP < e -> normalise s n t = None) /\
  (e < MIN_EXP -> normalise s n t = Some (Coefficient s 0 [0])) /\
  (MIN_EXP <= e <= MAX_EXP -> exists z, normalise s n t = Some z /\ coefficient_wf z /\ value_of z = big_value s t n).
Proof.
  intros [Hn H0] Hs He. destruct (pop_zeros_spec n) as (j & En & Hlast). unfold normalise.
  assert (digit (pop_zeros n) 0 = digit n 0) as Hd.
  { destruct (pop_zeros n) as [|x k] eqn:Ep; [|by rewrite En]. exfalso. rewrite En in H0. by destruct j. }
  rewrite Hd. assert (Z.of_nat (length (digits 10 (digit n 0))) + t * LOG_BASE - 1 = e) as -> by (rewrite He; unfold big_exp; lia).
  assert (MIN_EXP <= MAX_EXP) by done. split_and!; intros Hlim.
  - by rewrite (proj2 (Z.ltb_lt MAX_EXP e)) by lia.
  - rewrite (proj2 (Z.ltb_ge MAX_EXP e)) by lia. by rewrite (proj2 (Z.ltb_lt e MIN_EXP)) by lia.
  - rewrite (proj2 (Z.ltb_ge MAX_EXP e)), (proj2 (Z.ltb_ge e MIN_EXP)) by lia. eexists. split; [done|].
    pose proof (digit_in n 0 Hn) as Hd0. assert (0 < digit n 0) as Hpos by (unfold is_digit in Hd0; lia).
    pose proof (digit_len _ Hpos Hd0) as Hlen. unfold big_exp in He.
    assert (e = LOG_BASE * t + (Z.of_nat (length (digits 10 (digit n 0))) - 1)) as Ee by lia.
    assert (e / LOG_BASE = t) as Et by (symmetry; eapply Z.div_unique_pos; [|exact Ee]; lia).
    split; [|unfold value_of; cbn [c_s c_e c_c]; rewrite Et; rewrite En at 2; by rewrite big_value_pad].
    split; [done|]. right. cbn [c_c c_e]. rewrite Hd. split; [split; [|by rewrite Hd]|split_and!; try done; try lia].
    + rewrite En in Hn. by apply Forall_app in Hn as [Hn _].
    + symmetry. apply (Z.mod_unique_pos _ _ t); lia.
Qed.

Lemma digits_nonzero l : l <> [] -> is_big l -> BASE ^ (Z.of_nat (length l) - 1) <= of_digits BASE l -> nonzero_digits l.
Proof.
  intros Hne Hl Hb. split; [done|]. destruct l as [|z l]; [done|]. change (digit (z :: l) 0) with z. intros ->.
  apply Forall_cons in Hl as [_ Hl]. pose proof (of_digits_bound BASE ltac:(done) l Hl).
  rewrite of_digits_cons in Hb by done. cbn [length] in Hb. rewrite Nat2Z.inj_succ in Hb.
  replace (Z.succ (Z.of_nat (length l)) - 1) with (Z.of_nat (length l)) in Hb by lia. lia.
Qed.
Lemma nonzero_lower l : nonzero_digits l -> l <> [] /\ BASE ^ (Z.of_nat (length l) - 1) <= of_digits BASE l.
Proof.
  intros [Hl H0]. destruct l as [|z l]; [done|]. split; [done|]. apply Forall_cons in Hl as [Hz Hl].
  change (digit (z :: l) 0) with z in H0. pose proof (of_digits_bound BASE ltac:(done) l Hl).
  rewrite of_digits_cons by done. cbn [length]. rewrite Nat2Z.inj_succ.
  replace (Z.succ (Z.of_nat (length l)) - 1) with (Z.of_nat (length l)) by lia.
  unfold is_digit in Hz. pose proof (Z.pow_pos_nonneg BASE (Z.of_nat (length l)) ltac:(done) ltac:(lia)).
  assert (1 * BASE ^ Z.of_nat (length l) <= z * BASE ^ Z.of_nat (length l)) by (apply Z.mul_le_mono_nonneg_r; lia). lia.
Qed.
Lemma scale_0 e : scale 0 e = Big 0 0.
Proof. unfold scale. destruct (0 <=? e); [done|]. apply (norm_integer _ 0). Qed.
(** The exponent of a nonzero number is that of its first digit. *)
Lemma wf_exponent x : coefficient_wf x -> digit (c_c x) 0 <> 0 ->
  nonzero_digits (c_c x) /\ c_e x = big_exp (c_c x) + LOG_BASE * (c_e x / LOG_BASE - (Z.of_nat (length (c_c x)) - 1)).
Proof.
  intros (_ & [[-> _]|(Hn & _ & _ & Hm)]) H0; [done|]. split; [done|].
  pose proof (Z.div_mod (c_e x) LOG_BASE ltac:(done)). unfold big_exp. lia.
Qed.

(** ** Multiplication *)

(** Digits whose number is a product have its value and magnitude. *)
Lemma product_exponent xs ys n :
  nonzero_digits xs -> nonzero_digits ys -> nonzero_digits n -> of_digits BASE n = of_digits BASE xs * of_digits BASE ys ->
  big_exp xs + big_exp ys <= big_exp n <= big_exp xs + big_exp ys + 1.
Proof.
  intros Hx Hy Hn E. assert (forall l, nonzero_digits l -> 0 <= big_exp l /\ 10 ^ big_exp l <= of_digits BASE l < 10 ^ (big_exp l + 1)) as Hb.
  { intros l [Hl H0]. split; [|by apply big_exp_bounds]. destruct l; [done|]. unfold big_exp, LOG_BASE.
    pose proof (digits_length_pos 10 (digit (z :: l) 0)). cbn [length]. lia. }
  destruct (Hb _ Hx) as (Ex & Bx), (Hb _ Hy) as (Ey & By), (Hb _ Hn) as (En & Bn).
  apply (magnitude_between _ _ _ (of_digits BASE n)); [|done|lia|done].
  rewrite E, (pow10_add (big_exp xs) (big_exp ys)) by lia. replace (big_exp xs + big_exp ys + 1 + 1) with ((big_exp xs + 1) + (big_exp ys + 1)) by lia.
  rewrite (pow10_add (big_exp xs + 1) (big_exp ys + 1)) by lia. clear Hb E.
  assert (0 <= 10 ^ big_exp xs) by (apply Z.pow_nonneg; lia). assert (0 <= 10 ^ big_exp ys) by (apply Z.pow_nonneg; lia).
  split; [apply Z.mul_le_mono_nonneg; lia|apply Z.mul_lt_mono_nonneg; lia].
Qed.

(** The product of the digit arrays, longer one first, without the leading zero. *)
Lemma mul_rows_product xs ys :
  nonzero_digits xs -> nonzero_digits ys ->
  exists m r, mul_rows (length ys) xs ys (replicate (length xs + length ys) 0) 0 = (m, r) /\
    let n := if r =? 0 then tail m else m in
    nonzero_digits n /\ of_digits BASE n = of_digits BASE xs * of_digits BASE ys /\
    Z.of_nat (length n) = Z.of_nat (length xs) + Z.of_nat (length ys) - (if r =? 0 then 1 else 0).
Proof.
  intros Hx Hy. destruct (nonzero_lower _ Hx) as [Nx Lx], (nonzero_lower _ Hy) as [Ny Ly]. destruct Hx as [Hx Hx0], Hy as [Hy Hy0].
  assert (forall n, is_big (replicate n 0)) as Hz by (intros; apply Forall_replicate; split; done).
  destruct (mul_rows_spec (length ys) xs ys (replicate (length ys) 0) (replicate (length xs) 0) 0)
    as (m & r & Em & Hl & Hm & Hv & Hh); try done; [by rewrite length_replicate|rewrite length_replicate; lia| |].
  { rewrite drop_all. pose proof (of_digits_zeros BASE (length xs) []) as H0. rewrite app_nil_r in H0. rewrite H0. change (of_digits BASE []) with 0. lia. }
  rewrite <-replicate_add, Nat.add_comm in Em. exists m, r. split; [done|].
  destruct xs as [|x xs]; [done|]. destruct ys as [|y ys]; [done|]. specialize (Hh ltac:(done)).
  destruct m as [|r0 m]; [done|]. injection Hh as ->. apply Forall_cons in Hm as [Hr Hm]. cbn [length] in *. cbv zeta.
  destruct (Z.eqb_spec r 0) as [->|Hr0]; cbn [tail].
  - rewrite of_digits_cons in Hv by done. rewrite Z.mul_0_l, Z.add_0_l in Hv. split; [|split; [done|lia]].
    apply digits_nonzero; [destruct m; [cbn in Hl; lia|done]|done|]. rewrite Hv.
    replace (Z.of_nat (length m) - 1) with ((Z.of_nat (S (length xs)) - 1) + (Z.of_nat (S (length ys)) - 1)) by lia.
    rewrite Z.pow_add_r by lia. assert (forall k, 0 <= BASE ^ k) as Hp by (intros; apply Z.pow_nonneg; done).
    apply Z.mul_le_mono_nonneg; try apply Hp; done.
  - split; [|split; [done|cbn [length]; lia]]. split; [by constructor|done].
Qed.

(** [times] of two nonzero numbers: the digits and exponent it normalises. *)
Lemma times_normalise x y :
  coefficient_wf x -> coefficient_wf y -> digit (c_c x) 0 <> 0 -> digit (c_c y) 0 <> 0 ->
  exists n t, times_digits x y = normalise (c_s y * c_s x) n t /\ nonzero_digits n /\
    of_digits BASE n = of_digits BASE (c_c x) * of_digits BASE (c_c y) /\
    t - (Z.of_nat (length n) - 1) =
      (c_e x / LOG_BASE - (Z.of_nat (length (c_c x)) - 1)) + (c_e y / LOG_BASE - (Z.of_nat (length (c_c y)) - 1)).
Proof.
  intros Wx Wy Hx0 Hy0. destruct (wf_exponent _ Wx Hx0) as [Hx _], (wf_exponent _ Wy Hy0) as [Hy _].
  unfold times_digits. rewrite (proj2 (Z.eqb_neq _ _) Hx0), (proj2 (Z.eqb_neq _ _) Hy0). cbn [orb].
  set (xs := c_c x) in *. set (ys := c_c y) in *. set (i := c_e x / LOG_BASE + c_e y / LOG_BASE).
  destruct (length xs <? length ys)%nat.
  - destruct (mul_rows_product ys xs Hy Hx) as (m & r & -> & Hn & Hv & Hl). cbv zeta in *.
    exists (if r =? 0 then tail m else m), (if r =? 0 then i else i + 1).
    destruct (r =? 0); (split; [done|split; [done|split; [rewrite Hv; ring|unfold i; lia]]]).
  - destruct (mul_rows_product xs ys Hx Hy) as (m & r & -> & Hn & Hv & Hl). cbv zeta in *.
    exists (if r =? 0 then tail m else m), (if r =? 0 then i else i + 1).
    destruct (r =? 0); (split; [done|split; [done|split; [rewrite Hv; ring|unfold i; lia]]]).
Qed.

Lemma wf_sign x y : coefficient_wf x -> coefficient_wf y -> c_s y * c_s x = 1 \/ c_s y * c_s x = -1.
Proof. intros ([-> | ->] & _) ([-> | ->] & _); cbn; lia. Qed.
Lemma wf_zero x : coefficient_wf x -> digit (c_c x) 0 = 0 -> value_of x = Big 0 0.
Proof.
  intros (_ & [[Hc He]|([_ Hn] & _)]) H0; [|done]. unfold value_of, big_value. rewrite Hc.
  change (of_digits BASE [0]) with 0. rewrite Z.mul_0_r. apply scale_0.
Qed.
Lemma times_zero x y : coefficient_wf x -> coefficient_wf y -> digit (c_c x) 0 = 0 \/ digit (c_c y) 0 = 0 ->
  times (value_of x) (value_of y) = Big 0 0.
Proof.
  intros Wx Wy [H0|H0].
  - rewrite (wf_zero x Wx H0). rewrite <-(scale_0 0). unfold value_of, big_value. rewrite <-scale_times, Z.mul_0_l. apply scale_0.
  - rewrite (wf_zero y Wy H0). rewrite <-(scale_0 0). unfold value_of, big_value. rewrite <-scale_times, Z.mul_0_r. apply scale_0.
Qed.

(** C12. [times] on the digit arrays is multiplication of the values, as long as the exponent
    of the product stays in the limits; its result is again in normal form. *)
Theorem times_digits_refines x y :
  coefficient_wf x -> coefficient_wf y -> MIN_EXP <= c_e x + c_e y -> c_e x + c_e y < MAX_EXP ->
  exists z, times_digits x y = Some z /\ coefficient_wf z /\ value_of z = times (value_of x) (value_of y).
Proof.
  intros Wx Wy Hmin Hmax.
  destruct (decide (digit (c_c x) 0 = 0 \/ digit (c_c y) 0 = 0)) as [H0|H0].
  { exists (Coefficient (c_s y * c_s x) 0 [0]). rewrite (times_zero x y Wx Wy H0). split_and!.
    - unfold times_digits. destruct H0 as [-> | ->]; [done|]. by rewrite orb_true_r.
    - split; [by apply wf_sign|by left].
    - apply wf_zero; [|done]. split; [by apply wf_sign|by left]. }
  assert (digit (c_c x) 0 <> 0) as Hx0 by tauto. assert (digit (c_c y) 0 <> 0) as Hy0 by tauto.
  destruct (times_normalise x y Wx Wy Hx0 Hy0) as (n & t & -> & Hn & Hv & Ht).
  destruct (wf_exponent x Wx Hx0) as [Hx Ex], (wf_exponent y Wy Hy0) as [Hy Ey].
  pose proof (product_exponent _ _ _ Hx Hy Hn Hv) as He.
  destruct (normalise_spec _ n t _ Hn (wf_sign x y Wx Wy) eq_refl) as (_ & _ & Hz).
  destruct Hz as (z & Ez & Wz & Vz); [rewrite Ht; unfold LOG_BASE in *; lia|]. exists z. split_and!; [done..|].
  rewrite Vz. unfold value_of, big_value. rewrite <-scale_times, Ht, Hv. f_equal; ring.
Qed.

Definition ether : coefficient := Coefficient 1 18 [10000].
Definition third : coefficient := Coefficient (-1) (-1) [33333333333333; 33333333333333; 33333300000000].
Lemma times_digits_refines_witness :
  exists z, times_digits ether third = Some z /\ coefficient_wf z /\ value_of z = times (value_of ether) (value_of third).
Proof.
  apply (times_digits_refines ether third); [| |done|done].
  - split; [by left|]. right. split_and!; [split; [by constructor; [done|]|done]|done..].
  - split; [by right|]. right. split_and!; [split; [by repeat constructor|done]|done..].
Defined.

(** Above the limit of the exponent there is no finite product, below it the product
    is zero. *)
Theorem times_digits_limits x y :
  coefficient_wf x -> coefficient_wf y -> digit (c_c x) 0 <> 0 -> digit (c_c y) 0 <> 0 ->
  (MAX_EXP < c_e x + c_e y -> times_digits x y = None) /\
  (c_e x + c_e y + 1 < MIN_EXP -> times_digits x y = Some (Coefficient (c_s y * c_s x) 0 [0])).
Proof.
  intros Wx Wy Hx0 Hy0. destruct (times_normalise x y Wx Wy Hx0 Hy0) as (n & t & -> & Hn & Hv & Ht).
  destruct (wf_exponent x Wx Hx0) as [Hx Ex], (wf_exponent y Wy Hy0) as [Hy Ey].
  pose proof (product_exponent _ _ _ Hx Hy Hn Hv) as He.
  destruct (normalise_spec _ n t _ Hn (wf_sign x y Wx Wy) eq_refl) as (Hi & Hz & _).
  split; intros Hlim; [apply Hi|apply Hz]; rewrite Ht; unfold LOG_BASE in *; lia.
Qed.

(** ** Addition *)

Lemma add_digit_spec a b o : is_digit BASE a -> is_digit BASE b -> 0 <= o <= 1 ->
  exists t o', add_digit a b o = (t, o') /\ is_digit BASE t /\ 0 <= o' <= 1 /\ t + BASE * o' = a + b + o.
Proof.
  unfold is_digit. assert (BASE = 100000000000000) as Hw by done. intros Ha Hb Ho. do 2 eexists. split; [reflexivity|].
  rewrite (f64_exact (a + b)) by lia. rewrite f64_exact by lia. set (t := a + b + o).
  pose proof (Z.div_mod t BASE ltac:(lia)). pose proof (Z.mod_pos_bound t BASE ltac:(lia)).
  assert (0 <= t / BASE < 2) by (split; [apply Z.div_pos; lia|apply Z.div_lt_upper_bound; lia]).
  rewrite s32_id by lia. lia.
Qed.
(** [A] are the digits still to add to. *)
Lemma add_loop_spec n A B l o :
  is_big A -> is_big l -> length A = n -> (n <= length l)%nat -> 0 <= o <= 1 ->
  exists A' o', add_loop n (A ++ B) l o = (A' ++ B, o') /\ length A' = n /\ is_big A' /\ 0 <= o' <= 1 /\
    of_digits BASE A' + o' * BASE ^ Z.of_nat n = of_digits BASE A + of_digits BASE (take n l) + o.
Proof.
  intros HA Hl. revert A B o HA. induction n as [|n IH]; intros A B o HA Hn Hln Ho.
  { destruct A; [|done]. exists [], o. split_and!; try done; try lia. rewrite take_0. change (of_digits BASE []) with 0. cbn [Z.of_nat]. lia. }
  destruct (exists_last (l := A)) as (A0 & a & ->); [by intros ->|]. rewrite length_app in Hn. cbn in Hn.
  apply Forall_app in HA as [HA0 [Ha _]%Forall_cons]. cbn [add_loop]. rewrite <-app_assoc.
  assert (digit (A0 ++ [a] ++ B) n = a) as ->.
  { unfold digit. rewrite lookup_app_r by lia. by replace (n - length A0)%nat with O by lia. }
  destruct (add_digit_spec a (digit l n) o Ha (digit_in l n Hl) Ho) as (g & c & -> & Hd & Hc & E1). rewrite insert_app_r_alt by lia.
  replace (n - length A0)%nat with O by lia. cbn [app insert list_insert].
  destruct (IH A0 (g :: B) c HA0) as (A' & o' & -> & Hl' & HA' & Hoo & E); [lia|lia|done|].
  exists (A' ++ [g]), o'. split_and!; [by rewrite <-app_assoc|rewrite length_app; cbn; lia| |lia|lia|].
  { apply Forall_app. split; [done|by constructor]. }
  rewrite !of_digits_snoc, take_S_digit by lia. rewrite of_digits_snoc, Nat2Z.inj_succ, Z.pow_succ_r by lia.
  revert E E1. generalize (of_digits BASE A') (of_digits BASE A0) (of_digits BASE (take n l)) (BASE ^ Z.of_nat n) (digit l n).
  generalize BASE. intros w a' a0 b k d E E1. replace (a' * w + g + o' * (w * k)) with (w * (a' + o' * k) + g) by ring.
  rewrite E. replace g with (a + d + o - w * c) by lia. ring.
Qed.

(** The sum of two arrays aligned at the front, the longer one first. *)
Lemma add_loop_sum f l :
  is_big f -> is_big l -> (length l <= length f)%nat ->
  exists f' o, add_loop (length l) f l 0 = (f', o) /\ length f' = length f /\ is_big f' /\ 0 <= o <= 1 /\
    of_digits BASE f' + o * BASE ^ Z.of_nat (length f) =
    of_digits BASE f + of_digits BASE l * BASE ^ Z.of_nat (length f - length l).
Proof.
  intros Hf Hl Hn. rewrite <-(take_drop (length l) f) in Hf. apply Forall_app in Hf as [H1 H2].
  destruct (add_loop_spec (length l) (take (length l) f) (drop (length l) f) l 0) as (A' & o & E & HA & HAb & Ho & Ev); try done; [rewrite length_take; lia|].
  rewrite take_drop in E. rewrite firstn_all in Ev. exists (A' ++ drop (length l) f), o.
  split_and!; [done|rewrite length_app, length_drop; lia|by apply Forall_app|lia|lia|].
  assert (of_digits BASE f = of_digits BASE (take (length l) f ++ drop (length l) f)) as -> by (by rewrite take_drop).
  rewrite !of_digits_app, length_drop by done.
  replace (Z.of_nat (length f)) with (Z.of_nat (length l) + Z.of_nat (length f - length l)) by lia. rewrite Z.pow_add_r by lia.
  revert Ev. generalize (of_digits BASE A') (of_digits BASE (take (length l) f)) (of_digits BASE l) (of_digits BASE (drop (length l) f)) (BASE ^ Z.of_nat (length l)) (BASE ^ Z.of_nat (length f - length l)).
  intros a t b d k j Ev. replace (a * j + d + o * (k * j)) with ((a + o * k) * j + d) by ring. rewrite Ev. ring.
Qed.

Lemma plus_comm x y : plus x y = plus y x.
Proof.
  destruct x as [a m|s|], y as [b n|t|]; try done; cbn [plus].
  - f_equal; lia.
  - by destruct s, t.
Qed.
Lemma sum_magnitude a b e f v : 0 <= e -> 0 <= f -> 10 ^ e <= a < 10 ^ (e + 1) -> 10 ^ f <= b < 10 ^ (f + 1) -> v = a + b ->
  10 ^ Z.max e f <= v < 10 ^ (Z.max e f + 1 + 1).
Proof.
  intros He Hf Ha Hb ->. assert (10 ^ (e + 1) <= 10 ^ (Z.max e f + 1)) by (apply Z.pow_le_mono_r; lia).
  assert (10 ^ (f + 1) <= 10 ^ (Z.max e f + 1)) by (apply Z.pow_le_mono_r; lia).
  rewrite (pow10_add (Z.max e f + 1) 1) by lia. change (10 ^ 1) with 10.
  assert (0 < 10 ^ e) by (apply Z.pow_pos_nonneg; lia). assert (0 < 10 ^ f) by (apply Z.pow_pos_nonneg; lia).
  split; [|lia]. destruct (Z.max_spec e f) as [[_ ->]|[_ ->]]; lia.
Qed.

(** The sum of two aligned arrays of numbers with exponents [ef] and [el]. *)
Lemma plus_aligned s t f l ef el :
  let d := Z.of_nat (length f) - Z.of_nat (length l) in let k := LOG_BASE * (Z.of_nat (length f) - 1 - t) in
  (s = 1 \/ s = -1) -> is_big f -> is_big l -> 0 <= d -> digit f 0 <> 0 \/ (l <> [] /\ digit l 0 <> 0) ->
  10 ^ (ef + k) <= of_digits BASE f < 10 ^ (ef + k + 1) -> 0 <= ef + k ->
  10 ^ (el + k) <= of_digits BASE l * BASE ^ d < 10 ^ (el + k + 1) -> 0 <= el + k ->
  MIN_EXP <= Z.max ef el < MAX_EXP ->
  exists z, (let '(f, o) := add_loop (length l) f l 0 in if o =? 0 then normalise s f t else normalise s (o :: f) (t + 1)) = Some z /\
    coefficient_wf z /\ value_of z = plus (big_value s t f) (big_value s t l).
Proof.
  intros d k Hs Hf Hl Hd H0 Bf Kf Bl Kl Hlim. destruct (add_loop_sum f l Hf Hl ltac:(lia)) as (f' & o & -> & Hn & Hf' & Ho & Ev).
  replace (Z.of_nat (length f - length l)) with d in Ev by lia. set (t' := if o =? 0 then t else t + 1). set (n := if o =? 0 then f' else o :: f').
  assert (of_digits BASE n = of_digits BASE f + of_digits BASE l * BASE ^ d) as En.
  { rewrite <-Ev. unfold n. destruct (Z.eqb_spec o 0) as [->|]; [lia|]. rewrite of_digits_cons, Hn by done. lia. }
  assert (t' - (Z.of_nat (length n) - 1) = t - (Z.of_nat (length f) - 1)) as Et.
  { unfold t', n. destruct (o =? 0); [lia|]. cbn [length]. lia. }
  assert (nonzero_digits n) as Hnz.
  { unfold n. destruct (Z.eqb_spec o 0) as [->|Ho0]; [|split; [constructor; [split; [lia|]|done]|done]].
    2: { apply Z.le_lt_trans with 1; [lia|done]. }
    assert (f <> []) as Hne by (intros ->; destruct H0 as [H0|[H0 _]]; [done|destruct l; cbn in *; [done|lia]]).
    apply digits_nonzero; [destruct f'; [by destruct f|done]|done|]. rewrite Hn. unfold n in En. cbn [Z.eqb] in En. rewrite En.
    pose proof (of_digits_bound BASE ltac:(done) f Hf). pose proof (of_digits_bound BASE ltac:(done) l Hl).
    destruct H0 as [H0|[Hle H0]]; [destruct (nonzero_lower f (conj Hf H0)); assert (0 <= BASE ^ d) by (apply Z.pow_nonneg; done); nia|].
    destruct (nonzero_lower l (conj Hl H0)) as [_ Hlow]. assert (0 < Z.of_nat (length l)) by (destruct l; cbn; [done|lia]).
    replace (Z.of_nat (length f) - 1) with ((Z.of_nat (length l) - 1) + d) by lia. rewrite Z.pow_add_r by lia.
    pose proof (Z.mul_le_mono_nonneg_r _ _ (BASE ^ d) ltac:(apply Z.pow_nonneg; done) Hlow). lia. }
  destruct (normalise_spec s n t' _ Hnz Hs eq_refl) as (_ & _ & Hz). destruct Hz as (z & Ez & Wz & Vz).
  { pose proof (sum_magnitude _ _ _ _ _ Kf Kl Bf Bl En) as Hm. destruct Hnz as [Hnb Hn0].
    pose proof (magnitude_between _ _ _ _ Hm (big_exp_bounds n Hnb Hn0) ltac:(lia)) as He.
    assert (0 <= big_exp n) by (unfold big_exp, LOG_BASE; pose proof (digits_length_pos 10 (digit n 0)); destruct n; [done|cbn [length]; lia]).
    specialize (He ltac:(done)). rewrite Et. unfold k in *. lia. }
  exists z. split_and!; [unfold n, t' in Ez; by destruct (o =? 0)|done|]. rewrite Vz. unfold big_value. rewrite Et, En.
  rewrite Z.mul_add_distr_l, scale_plus. f_equal. rewrite <-(Z2Nat.id d), base_pow, Z.mul_assoc, scale_shift by (unfold LOG_BASE; lia).
  f_equal. unfold LOG_BASE, d in *. lia.
Qed.

(** A number's array with [j] zeros in front, and [d] digits short of the other one. *)
Lemma aligned_bounds x j d t n :
  coefficient_wf x -> digit (c_c x) 0 <> 0 -> 0 <= d -> t = c_e x / LOG_BASE + Z.of_nat j ->
  n = Z.of_nat j + Z.of_nat (length (c_c x)) + d ->
  10 ^ (c_e x + LOG_BASE * (n - 1 - t)) <= of_digits BASE (replicate j 0 ++ c_c x) * BASE ^ d <
    10 ^ (c_e x + LOG_BASE * (n - 1 - t) + 1) /\ 0 <= c_e x + LOG_BASE * (n - 1 - t).
Proof.
  intros Wx H0 Hd Ht Hn. destruct (wf_exponent x Wx H0) as [[Hb _] Ee]. rewrite of_digits_zeros.
  pose proof (big_exp_bounds _ Hb H0) as [Hlo Hhi].
  assert (c_e x + LOG_BASE * (n - 1 - t) = big_exp (c_c x) + LOG_BASE * d) as -> by (unfold LOG_BASE in *; lia).
  assert (0 <= big_exp (c_c x)) as Hp.
  { unfold big_exp, LOG_BASE. pose proof (digits_length_pos 10 (digit (c_c x) 0)). destruct (c_c x); [done|cbn [length]; lia]. }
  replace (big_exp (c_c x) + LOG_BASE * d + 1) with ((big_exp (c_c x) + 1) + LOG_BASE * d) by lia.
  assert (BASE ^ d = 10 ^ (LOG_BASE * d)) as -> by (rewrite <-(Z2Nat.id d) by lia; apply base_pow).
  rewrite !(pow10_add _ (LOG_BASE * d)) by (unfold LOG_BASE; lia). assert (0 < 10 ^ (LOG_BASE * d)) by (apply Z.pow_pos_nonneg; unfold LOG_BASE; lia).
  split; [|unfold LOG_BASE; lia]. split; [apply Z.mul_le_mono_nonneg_r; lia|apply Z.mul_lt_mono_pos_r; lia].
Qed.
Lemma big_value_front s t j l : big_value s (t + Z.of_nat j) (replicate j 0 ++ l) = big_value s t l.
Proof. unfold big_value. rewrite of_digits_zeros, length_app, length_replicate. f_equal. lia. Qed.
Lemma digit_front j l i : digit (replicate j 0 ++ l) (j + i) = digit l i.
Proof. unfold digit. rewrite lookup_app_r by (rewrite length_replicate; lia). rewrite length_replicate. do 2 f_equal. lia. Qed.

(** The general case of [plus], in either order of the arrays. *)
Lemma plus_arrays x y j k t :
  coefficient_wf x -> coefficient_wf y -> c_s x = c_s y -> digit (c_c x) 0 <> 0 -> digit (c_c y) 0 <> 0 ->
  t = c_e x / LOG_BASE + Z.of_nat j -> t = c_e y / LOG_BASE + Z.of_nat k -> j = O \/ k = O ->
  (length (replicate k 0%Z ++ c_c y) <= length (replicate j 0%Z ++ c_c x))%nat -> MIN_EXP <= Z.max (c_e x) (c_e y) < MAX_EXP ->
  exists z, (let '(f, o) := add_loop (length (replicate k 0 ++ c_c y)) (replicate j 0 ++ c_c x) (replicate k 0 ++ c_c y) 0 in
      if o =? 0 then normalise (c_s y) f t else normalise (c_s y) (o :: f) (t + 1)) = Some z /\
    coefficient_wf z /\ value_of z = plus (value_of x) (value_of y).
Proof.
  intros Wx Wy Es Hx0 Hy0 Htx Hty Hjk Hl Hlim.
  destruct (wf_exponent x Wx Hx0) as [[Hx _] _], (wf_exponent y Wy Hy0) as [[Hy _] _].
  assert (forall n l, is_big l -> is_big (replicate n 0 ++ l)) as Hz.
  { intros n l Hb. apply Forall_app. split; [apply Forall_replicate; split; done|done]. }
  destruct (plus_aligned (c_s y) t (replicate j 0 ++ c_c x) (replicate k 0 ++ c_c y) (c_e x) (c_e y)) as (z & Ez & Wz & Vz).
  - destruct Wy as [Hs _]. done.
  - by apply Hz.
  - by apply Hz.
  - lia.
  - destruct Hjk as [-> | ->]; [by left|right]. split; [|done]. intros E. cbn in E. by rewrite E in Hy0.
  - pose proof (aligned_bounds x j 0 t _ Wx Hx0 ltac:(lia) Htx eq_refl) as [Hb _]. rewrite Z.pow_0_r, Z.mul_1_r, Z.add_0_r in Hb.
    rewrite length_app, length_replicate, Nat2Z.inj_add. done.
  - pose proof (aligned_bounds x j 0 t _ Wx Hx0 ltac:(lia) Htx eq_refl) as [_ Hb]. rewrite Z.add_0_r in Hb.
    rewrite length_app, length_replicate, Nat2Z.inj_add. done.
  - rewrite !length_app, !length_replicate in *. apply (aligned_bounds y k _ t); [done|done|lia|done|lia].
  - rewrite !length_app, !length_replicate in *. eapply (aligned_bounds y k _ t); [done|done| |done|]; [|instantiate (1 := Z.of_nat (j + length (c_c x)) - Z.of_nat (k + length (c_c y))); lia]. lia.
  - done.
  - exists z. split_and!; [done..|]. rewrite Vz. rewrite Htx at 1. rewrite Hty, !big_value_front. unfold value_of. by rewrite Es.
Qed.

(** [plus] of two numbers of the same sign is addition of the values, as long as the
    exponent stays in the limit; the sum is again in normal form. *)
Theorem plus_digits_refines x y :
  coefficient_wf x -> coefficient_wf y -> c_s x = c_s y -> c_e x < MAX_EXP -> c_e y < MAX_EXP ->
  exists z, plus_digits x y = Some z /\ coefficient_wf z /\ value_of z = plus (value_of x) (value_of y).
Proof.
  intros Wx Wy Es Hx Hy.
  assert (forall a, coefficient_wf a -> digit (c_c a) 0 = 0 -> forall b, plus (value_of a) (value_of b) = value_of b) as Hadd0.
  { intros a Wa Ha b. rewrite (wf_zero a Wa Ha). unfold value_of, big_value. set (e := LOG_BASE * _).
    rewrite <-(scale_0 e), <-scale_plus. by rewrite Z.add_0_l. }
  assert (forall a, coefficient_wf a -> digit (c_c a) 0 = 0 -> c_e a = 0) as He0 by (intros a (_ & [[_ He]|([_ Hn] & _)]) Ha; done).
  unfold plus_digits. destruct (decide (digit (c_c y) 0 = 0)) as [Hy0|Hy0].
  { rewrite Hy0, (He0 y Wy Hy0), orb_true_r, orb_true_r. cbn [andb negb Z.eqb]. rewrite plus_comm, (Hadd0 y Wy Hy0).
    eexists. split; [done|]. destruct (Z.eqb_spec (digit (c_c x) 0) 0) as [Hx0|Hx0]; cbn [negb]; [|done].
    assert (coefficient_wf (Coefficient (c_s x) 0 [0])) as W0 by (split; [apply Wx|by left]).
    split; [done|]. by rewrite (wf_zero _ W0 eq_refl), (wf_zero x Wx Hx0). }
  rewrite (proj2 (Z.eqb_neq _ _) Hy0). destruct (decide (digit (c_c x) 0 = 0)) as [Hx0|Hx0].
  { rewrite Hx0, (He0 x Wx Hx0). cbn [andb orb negb Z.eqb]. exists y. by rewrite (Hadd0 x Wx Hx0). }
  rewrite (proj2 (Z.eqb_neq _ _) Hx0). rewrite andb_false_r.
  assert (MIN_EXP <= Z.max (c_e x) (c_e y) < MAX_EXP).
  { destruct Wx as (_ & [[Hc _]|(_ & _ & He & _)]); [by rewrite Hc in Hx0|]. lia. }
  set (u := c_e x / LOG_BASE). set (s := c_e y / LOG_BASE).
  destruct (Nat.ltb_spec (length (replicate (Z.to_nat (s - u)) 0 ++ c_c x)) (length (replicate (Z.to_nat (u - s)) 0 ++ c_c y))) as [Hl|Hl].
  - rewrite plus_comm. rewrite <-Es. apply plus_arrays; try done; unfold u, s in *; lia.
  - apply plus_arrays; try done; unfold u, s in *; lia.
Qed.
Lemma plus_digits_refines_witness :
  exists z, plus_digits ether (Coefficient 1 (-1) [50000000000000]) = Some z /\ coefficient_wf z /\
    value_of z = plus (value_of ether) (value_of (Coefficient 1 (-1) [50000000000000])).
Proof.
  apply plus_digits_refines; [| |done|done|done].
  - split; [by left|]. right. split_and!; [split; [by constructor; [done|]|done]|done..].
  - split; [by left|]. right. split_and!; [split; [by constructor; [done|]|done]|done..].
Defined.
