(* ===== verification/BigMinus.v ===== *)
(** Subtraction on the digit arrays of bignumber.js (src/internal/jsre/deps/bignumber.js,
    line 3), with its borrows, and with it [plus] and [minus] of numbers of any signs. *)
From Stdlib Require Import ZArith Lia.
From S2P Require Import Prelude Words BigNumber BigDigits.

(** [for (r = i; r && !h[--r]; h[r] = n);]: the digit to borrow from, after the zeros on
    the way have become [BASE - 1]. *)
Fixpoint borrow (i : nat) (h : list Z) : nat * list Z :=
  match i with
  | O => (O, h)
  | S r => if digit h r =? 0 then borrow r (<[r := BASE - 1]> h) else (r, h)
  end.
(** [--h[r], h[i] += N] *)
Definition take_borrow (i : nat) (h : list Z) : list Z :=
  let '(r, h) := borrow i h in
  let h := <[r := digit h r - 1]> h in
  <[i := f64 (digit h i + BASE)]> h.
Definition sub_digit (i : nat) (h g : list Z) : list Z :=
  let h := if digit h i <? digit g i then take_borrow i h else h in
  <[i := digit h i - digit g i]> h.
(** The digits below [n], from the last one on, down to the one at [f]. *)
Fixpoint sub_loop (n f : nat) (h g : list Z) : list Z :=
  match n with
  | O => h
  | S i => if (i <? f)%nat then h else sub_loop i f (sub_digit i h g) g
  end.
(** Which of two arrays of one exponent is less; of equal ones the shorter. *)
Fixpoint less_digits (h g : list Z) : bool :=
  match h, g with
  | x :: h, y :: g => if x =? y then less_digits h g else x <? y
  | [], _ :: _ => true
  | _, [] => false
  end.
(** [for (; 0 == h[0]; h.shift(), --c);] *)
Fixpoint shift_zeros (h : list Z) (c : Z) : list Z * Z :=
  match h with
  | x :: l => if x =? 0 then shift_zeros l (c - 1) else (h, c)
  | [] => ([], c)
  end.

Definition neg (x : coefficient) : coefficient := Coefficient (- c_s x) (c_e x) (c_c x).
(** A zero is negative in the rounding mode towards negative infinity: [floor]. *)
Definition zero (floor : bool) : coefficient := Coefficient (if floor then -1 else 1) 0 [0].

(** [minus] of two numbers of the same sign. *)
Definition minus_digits (floor : bool) (x y : coefficient) : option coefficient :=
  if ((c_e x =? 0) || (c_e y =? 0)) && ((digit (c_c x) 0 =? 0) || (digit (c_c y) 0 =? 0)) then
    Some (if negb (digit (c_c y) 0 =? 0) then neg y else if negb (digit (c_c x) 0 =? 0) then x else zero floor)
  else
    let l := c_e x / LOG_BASE in
    let c := c_e y / LOG_BASE in
    let u := if l =? c then less_digits (c_c x) (c_c y) else l <? c in
    let h := replicate (Z.to_nat (c - l)) 0 ++ c_c x in
    let g := replicate (Z.to_nat (l - c)) 0 ++ c_c y in
    let '(h, g, s) := if u then (g, h, - c_s y) else (h, g, c_s y) in
    let h := h ++ replicate (length g - length h) 0 in
    let '(h, c) := shift_zeros (sub_loop (length g) (Z.to_nat (Z.abs (l - c))) h g) (Z.max l c) in
    match h with
    | [] => Some (zero floor)
    | _ => normalise s h c
    end.
Definition minus_of (floor : bool) (x y : coefficient) : option coefficient :=
  if c_s x =? c_s y then minus_digits floor x y else plus_digits x (neg y).
Definition plus_of (floor : bool) (x y : coefficient) : option coefficient :=
  if c_s x =? c_s y then plus_digits x y else minus_digits floor x (neg y).

(** * Borrowing *)

Lemma digit_mid A z B i : length A = i -> digit (A ++ z :: B) i = z.
Proof. intros <-. unfold digit. by rewrite list_lookup_middle. Qed.
Lemma insert_mid A (z z' : Z) B i : length A = i -> <[i := z']> (A ++ z :: B) = A ++ z' :: B.
Proof. intros <-. rewrite insert_app_r_alt by lia. by rewrite Nat.sub_diag. Qed.

(** Borrowing takes one from the digits [P] before. *)
Lemma borrow_spec P B : is_big P -> 0 < of_digits BASE P ->
  exists r h, borrow (length P) (P ++ B) = (r, h) /\
  exists P', <[r := digit h r - 1]> h = P' ++ B /\ length P' = length P /\ is_big P' /\ of_digits BASE P' = of_digits BASE P - 1.
Proof.
  revert B. induction P as [|p P IH] using rev_ind; intros B HP Hpos; [done|].
  apply Forall_app in HP as [HP [Hp _]%Forall_cons]. rewrite length_app, Nat.add_1_r. cbn [borrow]. rewrite <-app_assoc. cbn [app].
  rewrite digit_mid by done. rewrite of_digits_snoc in *. destruct (Z.eqb_spec p 0) as [->|Hp0].
  - rewrite insert_mid by done. pose proof (of_digits_bound BASE ltac:(done) P HP). pose proof base_pos.
    destruct (IH (BASE - 1 :: B) HP) as (r & h & -> & P' & Ei & Hl & HP' & Hv); [nia|].
    exists r, h. split; [done|]. exists (P' ++ [BASE - 1]). rewrite Ei, <-app_assoc, length_app, Nat.add_1_r, of_digits_snoc, Hv. cbn [app].
    split_and!; [done|lia| |lia]. apply Forall_app. split; [done|]. constructor; [|done]. unfold is_digit. lia.
  - exists (length P), (P ++ p :: B). split; [done|]. exists (P ++ [p - 1]). rewrite digit_mid, insert_mid by done.
    rewrite <-app_assoc, length_app, Nat.add_1_r, of_digits_snoc. split_and!; [done|done| |lia].
    apply Forall_app. split; [done|]. constructor; [|done]. unfold is_digit in *. lia.
Qed.

(** One digit: [P] before it is not less than the digits of [g] before it. *)
Lemma sub_digit_spec P z B g :
  is_big P -> is_digit BASE z -> is_big g -> digit g (length P) <= of_digits BASE P * BASE + z ->
  exists P' z', sub_digit (length P) (P ++ z :: B) g = P' ++ z' :: B /\ length P' = length P /\ is_big P' /\ is_digit BASE z' /\
    of_digits BASE P' * BASE + z' = of_digits BASE P * BASE + z - digit g (length P).
Proof.
  intros HP Hz Hg Hle. unfold sub_digit. rewrite digit_mid by done. pose proof (digit_in g (length P) Hg) as Hd. set (d := digit g (length P)) in *.
  assert (BASE = 100000000000000) as Hw by done. pose proof (of_digits_bound BASE ltac:(done) P HP).
  destruct (Z.ltb_spec z d) as [Hlt|Hge].
  - destruct (borrow_spec P (z :: B) HP) as (r & h & Eb & P' & Ei & Hl & HP' & Hv); [unfold is_digit in *; nia|].
    unfold take_borrow. rewrite Eb. cbv zeta. rewrite Ei. unfold is_digit in *.
    rewrite (digit_mid P') by exact Hl. rewrite insert_mid by exact Hl. rewrite f64_exact by lia. rewrite digit_mid, insert_mid by done.
    exists P', (z + BASE - d). split_and!; [reflexivity|exact Hl|exact HP'|lia..].
  - rewrite digit_mid, insert_mid by done. exists P, (z - d). unfold is_digit in *. split_and!; [reflexivity|reflexivity|exact HP|lia..].
Qed.

(** The loop, on the digits [P] it has still to change. *)
Lemma sub_loop_spec n f g0 P B :
  let g := replicate f 0 ++ g0 in
  is_big g -> is_big P -> length P = n -> (n <= length g)%nat -> of_digits BASE (take n g) <= of_digits BASE P ->
  exists P', sub_loop n f (P ++ B) g = P' ++ B /\ length P' = n /\ is_big P' /\
    of_digits BASE P' = of_digits BASE P - of_digits BASE (take n g).
Proof.
  intros g Hg. revert P B. induction n as [|i IH]; intros P B HP Hn Hl Hle; cbn [sub_loop].
  { exists P. rewrite take_0. change (of_digits BASE []) with 0. split_and!; try done. lia. }
  destruct (Nat.ltb_spec i f) as [Hf|Hf].
  { exists P. split_and!; try done. unfold g. rewrite take_app_le by (rewrite length_replicate; lia). rewrite take_replicate.
    rewrite <-(app_nil_r (replicate _ _)), of_digits_zeros. change (of_digits BASE []) with 0. lia. }
  destruct (exists_last (l := P)) as (P0 & z & ->); [by intros ->|]. rewrite length_app, Nat.add_1_r in Hn. injection Hn as Hn.
  apply Forall_app in HP as [HP0 [Hz _]%Forall_cons]. rewrite take_S_digit, !of_digits_snoc in Hle by lia. rewrite <-app_assoc. cbn [app].
  pose proof (of_digits_bound BASE ltac:(done) (take i g) ltac:(by apply Forall_take)) as [Hpos _]. pose proof (digit_in g i Hg) as Hd. pose proof base_pos as Hb.
  destruct (sub_digit_spec P0 z B g HP0 Hz Hg) as (P1 & z' & E1 & Hl1 & HP1 & Hz' & Hv1); [rewrite Hn; nia|]. rewrite Hn in *. rewrite E1.
  destruct (IH P1 (z' :: B)) as (P' & -> & Hl' & HP' & Hv'); [done|lia|lia| |].
  { unfold is_digit in *. nia. }
  exists (P' ++ [z']). rewrite <-app_assoc, length_app, take_S_digit, !of_digits_snoc by lia. split_and!; [done|cbn; lia| |lia].
  apply Forall_app. split; [done|by constructor].
Qed.
Lemma sub_loop_difference f g0 h :
  let g := replicate f 0 ++ g0 in
  is_big g -> is_big h -> (length g <= length h)%nat -> of_digits BASE g * BASE ^ Z.of_nat (length h - length g) <= of_digits BASE h ->
  exists h', sub_loop (length g) f h g = h' /\ length h' = length h /\ is_big h' /\
    of_digits BASE h' = of_digits BASE h - of_digits BASE g * BASE ^ Z.of_nat (length h - length g).
Proof.
  intros g Hg Hh Hl Hle. eexists. split; [done|]. set (n := length g) in *. rewrite <-(take_drop n h) in Hh. apply Forall_app in Hh as [H1 H2].
  assert (of_digits BASE h = of_digits BASE (take n h) * BASE ^ Z.of_nat (length h - n) + of_digits BASE (drop n h)) as Eh.
  { rewrite <-(take_drop n h) at 1. by rewrite of_digits_app, length_drop. }
  pose proof (of_digits_bound BASE ltac:(done) _ H2) as Hb. rewrite length_drop in Hb.
  pose proof (Z.pow_pos_nonneg BASE (Z.of_nat (length h - n)) ltac:(done) ltac:(lia)).
  destruct (sub_loop_spec n f g0 (take n h) (drop n h)) as (P' & E & Hl' & HP' & Hv); [done|done|rewrite length_take; lia|done| |].
  { fold g. unfold n. rewrite firstn_all. fold n. nia. }
  rewrite take_drop in E. fold g in E, Hv. rewrite E. unfold n in Hv. rewrite firstn_all in Hv. fold n in Hv.
  split_and!; [rewrite length_app, length_drop; lia|by apply Forall_app|]. rewrite of_digits_app, length_drop, Hv, Eh by done. ring.
Qed.

(** * Order and leading zeros *)

(** The first of [n + 1] aligned digits. *)
Lemma cons_aligned z l n : (length l <= n)%nat -> is_big l ->
  of_digits BASE (z :: l) * BASE ^ Z.of_nat (S n - S (length l)) = z * BASE ^ Z.of_nat n + of_digits BASE l * BASE ^ Z.of_nat (n - length l) /\
  0 <= of_digits BASE l * BASE ^ Z.of_nat (n - length l) < BASE ^ Z.of_nat n.
Proof.
  intros Hl Hb. pose proof (of_digits_bound BASE ltac:(done) l Hb). cbn [Nat.sub]. rewrite of_digits_cons.
  replace (Z.of_nat n) with (Z.of_nat (length l) + Z.of_nat (n - length l)) by lia. rewrite Z.pow_add_r by lia.
  pose proof (Z.pow_pos_nonneg BASE (Z.of_nat (n - length l)) ltac:(done) ltac:(lia)). split; [ring|nia].
Qed.
Lemma less_digits_spec h g n :
  is_big h -> is_big g -> (length h <= n)%nat -> (length g <= n)%nat ->
  let a := of_digits BASE h * BASE ^ Z.of_nat (n - length h) in let b := of_digits BASE g * BASE ^ Z.of_nat (n - length g) in
  if less_digits h g then a <= b else b <= a.
Proof.
  intros Hh. revert g n. induction Hh as [|x h Hx Hh IH]; intros g n Hg Hlh Hlg; cbv zeta.
  - change (of_digits BASE []) with 0. rewrite Z.mul_0_l. pose proof (of_digits_bound BASE ltac:(done) g Hg).
    destruct g as [|y g]; cbn [less_digits]; [done|]. apply Z.mul_nonneg_nonneg; [lia|apply Z.pow_nonneg; done].
  - destruct Hg as [|y g Hy Hg]; cbn [less_digits].
    { change (of_digits BASE []) with 0. rewrite Z.mul_0_l. apply Z.mul_nonneg_nonneg; [|apply Z.pow_nonneg; done].
      apply of_digits_bound; [done|by constructor]. }
    destruct n as [|n]; [cbn in Hlh; lia|]. cbn [length] in *. specialize (IH g n Hg ltac:(lia) ltac:(lia)). cbv zeta in IH.
    destruct (cons_aligned x h n ltac:(lia) Hh) as [-> Bh], (cons_aligned y g n ltac:(lia) Hg) as [-> Bg].
    destruct (Z.eqb_spec x y) as [->|Hxy]; [destruct (less_digits h g); lia|].
    destruct (Z.ltb_spec x y); nia.
Qed.
Lemma shift_zeros_spec h c : exists j h', shift_zeros h c = (h', c - Z.of_nat j) /\ h = replicate j 0 ++ h' /\ (h' = [] \/ digit h' 0 <> 0).
Proof.
  revert c. induction h as [|x h IH]; intros c; cbn [shift_zeros]; [exists O, []; rewrite Z.sub_0_r; auto|].
  destruct (Z.eqb_spec x 0) as [->|Hx]; [|exists O, (x :: h); rewrite Z.sub_0_r; auto].
  destruct (IH (c - 1)) as (j & h' & -> & -> & Hh). exists (S j), h'. split_and!; [f_equal; lia|done|done].
Qed.

(** * Values *)

Lemma norm_neg n m : norm n (- m) = negated (norm n m).
Proof.
  destruct (norm_spec n m) as (m' & n' & -> & Hn & -> & Hl). cbn [negated]. rewrite <-Z.mul_opp_l.
  replace n with (n' + (n - n'))%nat at 1 by lia. rewrite norm_scaled. apply norm_lowest. destruct Hl as [->|Hl]; [by left|right].
  intros H. apply Hl. apply Z.mod_divide in H; [|done]. apply Z.mod_divide; [done|]. by apply Z.divide_opp_r.
Qed.
Lemma scale_neg m e : scale (- m) e = negated (scale m e).
Proof. rewrite !(scale_norm (Z.abs e)), <-norm_neg by lia. f_equal. ring. Qed.
Lemma negated_twice x : negated (negated x) = x.
Proof. destruct x as [a n|s|]; cbn; [by rewrite Z.opp_involutive|by destruct s|done]. Qed.
Lemma big_value_neg s t l : big_value (- s) t l = negated (big_value s t l).
Proof. unfold big_value. by rewrite Z.mul_opp_l, scale_neg. Qed.
Lemma value_neg x : value_of (neg x) = negated (value_of x).
Proof. apply big_value_neg. Qed.
Lemma neg_wf x : coefficient_wf x -> coefficient_wf (neg x).
Proof. intros [Hs Hx]. split; [cbn; lia|done]. Qed.
Lemma zero_wf floor : coefficient_wf (zero floor).
Proof. split; [destruct floor; cbn; lia|by left]. Qed.

Lemma of_digits_pad_base l j : of_digits BASE (l ++ replicate j 0) = of_digits BASE l * BASE ^ Z.of_nat j.
Proof. by rewrite of_digits_pad, base_pow. Qed.

(** The difference of two aligned arrays, the first not less than the second. *)
Lemma minus_aligned floor s t h f g0 n :
  let g := replicate f 0 ++ g0 in
  (s = 1 \/ s = -1) -> is_big h -> is_big g -> n = Nat.max (length h) (length g) ->
  of_digits BASE g * BASE ^ Z.of_nat (n - length g) <= of_digits BASE h * BASE ^ Z.of_nat (n - length h) ->
  of_digits BASE h * BASE ^ Z.of_nat (n - length h) < 10 ^ (MAX_EXP + LOG_BASE * (Z.of_nat n - 1 - t) + 1) ->
  MIN_EXP <= LOG_BASE * (t - (Z.of_nat n - 1)) ->
  exists z, (let '(d, c) := shift_zeros (sub_loop (length g) f (h ++ replicate (length g - length h) 0) g) t in
      match d with [] => Some (zero floor) | _ => normalise s d c end) = Some z /\
    coefficient_wf z /\ value_of z = minus (big_value s t h) (big_value s t g).
Proof.
  intros g Hs Hh Hg Hn Hle Hmax Hmin. set (H := h ++ replicate (length g - length h) 0).
  assert (length H = n) as HlH by (unfold H; rewrite length_app, length_replicate; lia).
  assert (is_big H) as HbH by (apply Forall_app; split; [done|apply Forall_replicate; split; done]).
  assert (of_digits BASE H = of_digits BASE h * BASE ^ Z.of_nat (n - length h)) as EH.
  { unfold H. rewrite of_digits_pad_base. do 2 f_equal. lia. }
  destruct (sub_loop_difference f g0 H) as (d & E & Hld & Hbd & Ed); [done|done|fold g; lia|fold g; rewrite HlH, EH; exact Hle|].
  fold g in E, Ed. rewrite E. rewrite HlH in *.
  assert (big_value s t d = minus (big_value s t h) (big_value s t g)) as Hval.
  { rewrite <-(big_value_pad s t h (length g - length h)). fold H. rewrite <-(big_value_pad s t g (n - length g)).
    unfold minus. rewrite <-big_value_neg. unfold big_value. rewrite length_app, length_replicate, Hld, HlH.
    replace (length g + (n - length g))%nat with n by lia. rewrite <-scale_plus, of_digits_pad_base, Ed. f_equal. ring. }
  rewrite <-Hval. destruct (shift_zeros_spec d t) as (j & d' & -> & Edj & Hd').
  assert (of_digits BASE d = of_digits BASE d') as Ev by (by rewrite Edj, of_digits_zeros).
  destruct d' as [|z0 d0].
  { exists (zero floor). split_and!; [done|apply zero_wf|]. rewrite (wf_zero _ (zero_wf floor) eq_refl). unfold big_value.
    rewrite Ev. change (of_digits BASE []) with 0. by rewrite Z.mul_0_r, scale_0. }
  destruct Hd' as [|Hd']; [done|]. set (d' := z0 :: d0) in *.
  assert (nonzero_digits d') as Hnz by (split; [|done]; rewrite Edj in Hbd; by apply Forall_app in Hbd as [_ Hb]).
  assert (Z.of_nat (length d') = Z.of_nat n - Z.of_nat j) as Hl' by (rewrite <-Hld, Edj, length_app, length_replicate; lia).
  destruct (normalise_spec s d' (t - Z.of_nat j) _ Hnz Hs eq_refl) as (_ & _ & Hz).
  pose proof (big_exp_bounds d' (proj1 Hnz) Hd') as [Hlo _].
  assert (0 <= big_exp d') as Hp by (unfold big_exp, LOG_BASE; pose proof (digits_length_pos 10 (digit d' 0)); cbn [length d']; lia).
  destruct Hz as (z & Ez & Wz & Vz).
  { pose proof (of_digits_bound BASE ltac:(done) g Hg) as [Hg0 _].
    assert (0 <= of_digits BASE g * BASE ^ Z.of_nat (n - length g)) by (apply Z.mul_nonneg_nonneg; [done|apply Z.pow_nonneg; done]).
    assert (10 ^ big_exp d' < 10 ^ (MAX_EXP + LOG_BASE * (Z.of_nat n - 1 - t) + 1)) as Hlt by lia.
    destruct (Z.le_gt_cases 0 (MAX_EXP + LOG_BASE * (Z.of_nat n - 1 - t) + 1)) as [Hk|Hk].
    - apply Z.pow_lt_mono_r_iff in Hlt; [lia|lia|lia].
    - rewrite (Z.pow_neg_r 10 (MAX_EXP + _ + 1)) in Hlt by lia. pose proof (Z.pow_nonneg 10 (big_exp d')). lia. }
  exists z. split_and!; [done..|]. rewrite Vz. rewrite Edj. symmetry. rewrite <-(big_value_front s (t - Z.of_nat j) j). f_equal. lia.
Qed.

(** * Subtraction *)

(** The number with the greater exponent has the greater array. *)
Lemma less_aligned x y :
  let l := c_e x / LOG_BASE in let c := c_e y / LOG_BASE in
  is_big (c_c x) -> is_big (c_c y) -> digit (c_c x) 0 <> 0 -> digit (c_c y) 0 <> 0 ->
  (if l =? c then less_digits (c_c x) (c_c y) else l <? c) =
  less_digits (replicate (Z.to_nat (c - l)) 0 ++ c_c x) (replicate (Z.to_nat (l - c)) 0 ++ c_c y).
Proof.
  intros l c Hx Hy Hx0 Hy0. destruct (c_c x) as [|x0 xs]; [done|]. destruct (c_c y) as [|y0 ys]; [done|].
  change (digit (x0 :: xs) 0) with x0 in Hx0. change (digit (y0 :: ys) 0) with y0 in Hy0.
  apply Forall_cons in Hx as [[Hx _] _], Hy as [[Hy _] _]. destruct (Z.eqb_spec l c) as [->|Hne]; [by rewrite Z.sub_diag|].
  destruct (Z.ltb_spec l c).
  - destruct (Z.to_nat (c - l)) as [|k] eqn:Ek; [lia|]. replace (Z.to_nat (l - c)) with O by lia. cbn [replicate app less_digits].
    rewrite (proj2 (Z.eqb_neq 0 y0)) by lia. lia.
  - destruct (Z.to_nat (l - c)) as [|k] eqn:Ek; [lia|]. replace (Z.to_nat (c - l)) with O by lia. cbn [replicate app less_digits].
    rewrite (proj2 (Z.eqb_neq x0 0)) by lia. lia.
Qed.

(** The exponent of the last digit of the array. *)
Definition unit_exp (x : coefficient) : Z := LOG_BASE * (c_e x / LOG_BASE - (Z.of_nat (length (c_c x)) - 1)).

(** The general case, for the greater of the numbers and the other one with [k] zeros in
    front. *)
Lemma minus_arrays floor s x y k n :
  coefficient_wf x -> coefficient_wf y -> digit (c_c x) 0 <> 0 -> digit (c_c y) 0 <> 0 -> (s = 1 \/ s = -1) ->
  c_e x / LOG_BASE = c_e y / LOG_BASE + Z.of_nat k -> MIN_EXP <= unit_exp x -> MIN_EXP <= unit_exp y ->
  let g := replicate k 0 ++ c_c y in
  n = Nat.max (length (c_c x)) (length g) ->
  of_digits BASE g * BASE ^ Z.of_nat (n - length g) <= of_digits BASE (c_c x) * BASE ^ Z.of_nat (n - length (c_c x)) ->
  exists z, (let '(d, c) := shift_zeros (sub_loop (length g) k (c_c x ++ replicate (length g - length (c_c x)) 0) g) (c_e x / LOG_BASE) in
      match d with [] => Some (zero floor) | _ => normalise s d c end) = Some z /\
    coefficient_wf z /\ value_of z = minus (big_value s (c_e x / LOG_BASE) (c_c x)) (big_value s (c_e y / LOG_BASE) (c_c y)).
Proof.
  intros Wx Wy Hx0 Hy0 Hs Ht Ux Uy g Hn Hle.
  destruct (wf_exponent x Wx Hx0) as [[Hx _] _], (wf_exponent y Wy Hy0) as [[Hy _] _].
  assert (length g = (k + length (c_c y))%nat) as Hlg by (unfold g; by rewrite length_app, length_replicate).
  rewrite <-(big_value_front s (c_e y / LOG_BASE) k), <-Ht. apply (minus_aligned floor s _ (c_c x) k (c_c y) n); try done.
  - apply Forall_app. split; [apply Forall_replicate; split; done|done].
  - destruct (aligned_bounds x O (Z.of_nat (n - length (c_c x))) (c_e x / LOG_BASE) (Z.of_nat n) Wx Hx0) as [[_ Hb] Hp]; [lia|lia|lia|].
    cbn [replicate app] in Hb. eapply Z.lt_le_trans; [exact Hb|]. apply Z.pow_le_mono_r; [lia|].
    destruct Wx as (_ & [[Hc _]|(_ & _ & He & _)]); [by rewrite Hc in Hx0|]. lia.
  - unfold unit_exp, LOG_BASE in *. lia.
Qed.

Lemma plus_zero a b : coefficient_wf a -> digit (c_c a) 0 = 0 -> plus (value_of a) (value_of b) = value_of b.
Proof.
  intros Wa Ha. rewrite (wf_zero a Wa Ha). unfold value_of, big_value. set (e := LOG_BASE * _).
  rewrite <-(scale_0 e), <-scale_plus. by rewrite Z.add_0_l.
Qed.

(** [minus] of two numbers of the same sign is subtraction of the values, as long as the
    last digits are within the limit of the exponent. *)
Lemma minus_digits_spec floor x y :
  coefficient_wf x -> coefficient_wf y -> c_s x = c_s y -> MIN_EXP <= unit_exp x -> MIN_EXP <= unit_exp y ->
  exists z, minus_digits floor x y = Some z /\ coefficient_wf z /\ value_of z = minus (value_of x) (value_of y).
Proof.
  intros Wx Wy Es Ux Uy. unfold minus. rewrite <-value_neg.
  assert (forall a, coefficient_wf a -> digit (c_c a) 0 = 0 -> c_e a = 0) as He0 by (intros a (_ & [[_ He]|([_ Hn] & _)]) Ha; done).
  unfold minus_digits. destruct (decide (digit (c_c y) 0 = 0)) as [Hy0|Hy0].
  { rewrite Hy0, (He0 y Wy Hy0), !orb_true_r. cbn [andb negb Z.eqb]. rewrite plus_comm, (plus_zero (neg y) x (neg_wf y Wy) Hy0).
    eexists. split; [done|]. destruct (Z.eqb_spec (digit (c_c x) 0) 0) as [Hx0|Hx0]; cbn [negb]; [|done].
    split; [apply zero_wf|]. by rewrite (wf_zero _ (zero_wf floor) eq_refl), (wf_zero x Wx Hx0). }
  rewrite (proj2 (Z.eqb_neq _ _) Hy0). destruct (decide (digit (c_c x) 0 = 0)) as [Hx0|Hx0].
  { rewrite Hx0, (He0 x Wx Hx0). cbn [andb orb negb Z.eqb]. exists (neg y). rewrite (plus_zero x _ Wx Hx0). split_and!; [done|by apply neg_wf|done]. }
  rewrite (proj2 (Z.eqb_neq _ _) Hx0), andb_false_r. rewrite value_neg. change (plus ?a (negated ?b)) with (minus a b).
  destruct (wf_exponent x Wx Hx0) as [[Hx _] _], (wf_exponent y Wy Hy0) as [[Hy _] _].
  pose proof (less_aligned x y Hx Hy Hx0 Hy0) as Hu. cbv zeta in Hu |- *. set (l := c_e x / LOG_BASE) in *. set (c := c_e y / LOG_BASE) in *.
  set (h := replicate (Z.to_nat (c - l)) 0 ++ c_c x) in *. set (g := replicate (Z.to_nat (l - c)) 0 ++ c_c y) in *.
  assert (is_big h /\ is_big g) as [Hh Hg] by (split; (apply Forall_app; split; [apply Forall_replicate; split; done|done])).
  pose proof (less_digits_spec h g (Nat.max (length h) (length g)) Hh Hg ltac:(lia) ltac:(lia)) as Hord. rewrite <-Hu in Hord.
  destruct (if l =? c then _ else _) eqn:Eu.
  - assert (l <= c) by (destruct (Z.eqb_spec l c); lia). assert (g = c_c y) as -> by (unfold g; by replace (Z.to_nat (l - c)) with O by lia).
    replace (Z.max l c) with c by lia. replace (Z.to_nat (Z.abs (l - c))) with (Z.to_nat (c - l)) by lia.
    destruct (minus_arrays floor (- c_s y) y x (Z.to_nat (c - l)) _ Wy Wx Hy0 Hx0 ltac:(destruct Wy as [Hs _]; lia) ltac:(fold l c; lia) Uy Ux eq_refl) as (z & Ez & Wz & Vz).
    { rewrite Nat.max_comm. exact Hord. }
    exists z. split_and!; [done..|]. rewrite Vz, !big_value_neg. unfold minus. rewrite negated_twice, plus_comm. unfold value_of. by rewrite Es.
  - assert (c <= l) by (destruct (Z.eqb_spec l c); lia). assert (h = c_c x) as -> by (unfold h; by replace (Z.to_nat (c - l)) with O by lia).
    replace (Z.max l c) with l by lia. replace (Z.to_nat (Z.abs (l - c))) with (Z.to_nat (l - c)) by lia.
    destruct (minus_arrays floor (c_s y) x y (Z.to_nat (l - c)) _ Wx Wy Hx0 Hy0 (proj1 Wy) ltac:(fold l c; lia) Ux Uy eq_refl Hord) as (z & Ez & Wz & Vz).
    exists z. split_and!; [done..|]. rewrite Vz. unfold value_of. by rewrite Es.
Qed.

(** C13. [plus] and [minus] of any two numbers are addition and subtraction of the values, and
    their results are again in normal form, as long as the exponents stay below the
    greatest one and the last digits above the least one. *)
Theorem sums_refine floor x y :
  coefficient_wf x -> coefficient_wf y -> c_e x < MAX_EXP -> c_e y < MAX_EXP -> MIN_EXP <= unit_exp x -> MIN_EXP <= unit_exp y ->
  (exists z, plus_of floor x y = Some z /\ coefficient_wf z /\ value_of z = plus (value_of x) (value_of y)) /\
  (exists z, minus_of floor x y = Some z /\ coefficient_wf z /\ value_of z = minus (value_of x) (value_of y)).
Proof.
  intros Wx Wy Ex Ey Ux Uy. unfold plus_of, minus_of. pose proof (proj1 Wx) as Sx. pose proof (proj1 Wy) as Sy.
  destruct (Z.eqb_spec (c_s x) (c_s y)) as [Es|Es].
  - split; [by apply plus_digits_refines|by apply minus_digits_spec].
  - assert (c_s x = c_s (neg y)) as En by (cbn; lia). split.
    + destruct (minus_digits_spec floor x (neg y)) as (z & Ez & Wz & Vz); try done; [by apply neg_wf|].
      exists z. split_and!; [done..|]. rewrite Vz, value_neg. unfold minus. by rewrite negated_twice.
    + destruct (plus_digits_refines x (neg y)) as (z & Ez & Wz & Vz); try done; [by apply neg_wf|].
      exists z. split_and!; [done..|]. by rewrite Vz, value_neg.
Qed.
Lemma sums_refine_witness :
  (exists z, plus_of false ether third = Some z /\ coefficient_wf z /\ value_of z = plus (value_of ether) (value_of third)) /\
  (exists z, minus_of false ether third = Some z /\ coefficient_wf z /\ value_of z = minus (value_of ether) (value_of third)).
Proof.
  apply (sums_refine false ether third); [| |done|done|done|done].
  - split; [by left|]. right. split_and!; [split; [by constructor; [done|]|done]|done..].
  - split; [by right|]. right. split_and!; [split; [by repeat constructor|done]|done..].
Defined.
(** One from 10^28, through two digits that are zero. *)
Example borrow_through_zeros : minus_of false (Coefficient 1 28 [1]) (Coefficient 1 0 [1]) = Some (Coefficient 1 27 [99999999999999; 99999999999999]).
Proof. vm_compute. reflexivity. Qed.

(** * Comparison *)

(** The loop over the digits, then the lengths: 1, 0 or -1. *)
Fixpoint cmp_arrays (h g : list Z) : Z :=
  match h, g with
  | x :: h, y :: g => if x =? y then cmp_arrays h g else if y <? x then 1 else -1
  | [], [] => 0
  | [], _ :: _ => -1
  | _ :: _, [] => 1
  end.
(** [compare] of two finite numbers. *)
Definition cmp_digits (x y : coefficient) : Z :=
  let t := digit (c_c x) 0 =? 0 in
  let r := digit (c_c y) 0 =? 0 in
  if t || r then (if t then if r then 0 else - c_s y else c_s x)
  else if negb (c_s x =? c_s y) then c_s x
  else
    let neg := c_s x <? 0 in
    if negb (c_e x =? c_e y) then (if xorb (c_e y <? c_e x) neg then 1 else -1)
    else if neg then - cmp_arrays (c_c x) (c_c y) else cmp_arrays (c_c x) (c_c y).

Definition sgn (x : bignumber) : Z :=
  match x with
  | Big m _ => Z.sgn m
  | Infinite s => if s then -1 else 1
  | NaN => 0
  end.
Lemma sgn_scale m e : sgn (scale m e) = Z.sgn m.
Proof.
  rewrite (scale_norm (Z.abs e)) by lia. destruct (norm_spec (Z.to_nat (Z.abs e)) (m * 10 ^ (Z.abs e + e))) as (m' & n & -> & _ & E & _). cbn [sgn].
  assert (0 < 10 ^ (Z.abs e + e)) as H1 by (apply Z.pow_pos_nonneg; lia). assert (0 < 10 ^ Z.of_nat (Z.to_nat (Z.abs e) - n)) as H2 by (apply Z.pow_pos_nonneg; lia).
  apply (f_equal Z.sgn) in E. rewrite !Z.sgn_mul, (Z.sgn_pos _ H1), (Z.sgn_pos _ H2) in E. lia.
Qed.

Lemma last_pos l : l <> [] -> is_big l -> last l <> Some 0 -> 0 < of_digits BASE l.
Proof.
  intros Hne Hl H0. destruct (exists_last Hne) as (l0 & z & ->). apply Forall_app in Hl as [Hl [Hz _]%Forall_cons].
  rewrite last_snoc in H0. rewrite of_digits_snoc. pose proof (of_digits_bound BASE ltac:(done) l0 Hl). pose proof base_pos.
  assert (z <> 0) by congruence. unfold is_digit in Hz. nia.
Qed.
Lemma cmp_arrays_spec h g n :
  is_big h -> is_big g -> (length h <= n)%nat -> (length g <= n)%nat -> last h <> Some 0 -> last g <> Some 0 ->
  Z.sgn (of_digits BASE h * BASE ^ Z.of_nat (n - length h) - of_digits BASE g * BASE ^ Z.of_nat (n - length g)) = cmp_arrays h g.
Proof.
  assert (forall k, 0 < BASE ^ Z.of_nat k) as Hp by (intros k; apply Z.pow_pos_nonneg; [done|lia]).
  intros Hh. revert g n. induction Hh as [|x h Hx Hh IH]; intros g n Hg Hlh Hlg L1 L2.
  - change (of_digits BASE []) with 0. destruct g as [|y g]; cbn [cmp_arrays]; [done|].
    pose proof (last_pos (y :: g) ltac:(done) Hg L2). pose proof (Hp (n - length (y :: g))%nat). apply Z.sgn_neg. nia.
  - destruct Hg as [|y g Hy Hg]; cbn [cmp_arrays].
    { change (of_digits BASE []) with 0. pose proof (last_pos (x :: h) ltac:(done) ltac:(by constructor) L1).
      pose proof (Hp (n - length (x :: h))%nat). apply Z.sgn_pos. nia. }
    destruct n as [|n]; [cbn in Hlh; lia|]. cbn [length] in *.
    assert (forall z l, last (z :: l) <> Some 0 -> last l <> Some 0) as Hlast by (intros z [|a l] H; done).
    specialize (IH g n Hg ltac:(lia) ltac:(lia) (Hlast _ _ L1) (Hlast _ _ L2)).
    destruct (cons_aligned x h n ltac:(lia) Hh) as [-> Bh], (cons_aligned y g n ltac:(lia) Hg) as [-> Bg].
    destruct (Z.eqb_spec x y) as [->|Hxy]; [rewrite <-IH; f_equal; lia|].
    destruct (Z.ltb_spec y x); [apply Z.sgn_pos|apply Z.sgn_neg]; nia.
Qed.

(** The array's number in units of [10 ^ e]. *)
Definition in_units (x : coefficient) (e : Z) : Z := of_digits BASE (c_c x) * 10 ^ (unit_exp x - e).
Lemma difference_units x y e : e <= unit_exp x -> e <= unit_exp y ->
  sgn (minus (value_of x) (value_of y)) = Z.sgn (c_s x * in_units x e - c_s y * in_units y e).
Proof.
  intros Hx Hy. assert (forall z, e <= unit_exp z -> value_of z = scale (c_s z * in_units z e) e) as H.
  { intros z Hz. unfold in_units. rewrite Z.mul_assoc, scale_shift by lia. unfold value_of, big_value, unit_exp. f_equal. lia. }
  rewrite (H x Hx), (H y Hy). unfold minus. rewrite <-scale_neg, <-scale_plus, sgn_scale. done.
Qed.
Lemma in_units_bounds x e : coefficient_wf x -> digit (c_c x) 0 <> 0 -> e <= unit_exp x ->
  0 <= c_e x - e /\ 10 ^ (c_e x - e) <= in_units x e < 10 ^ (c_e x - e + 1).
Proof.
  intros Wx H0 He. destruct (wf_exponent x Wx H0) as [[Hb _] Ee]. fold (unit_exp x) in Ee.
  pose proof (big_exp_bounds _ Hb H0) as [Hlo Hhi].
  assert (0 <= big_exp (c_c x)) by (unfold big_exp, LOG_BASE; pose proof (digits_length_pos 10 (digit (c_c x) 0)); destruct (c_c x); [done|cbn [length]; lia]).
  split; [lia|]. replace (c_e x - e + 1) with ((big_exp (c_c x) + 1) + (unit_exp x - e)) by lia.
  replace (c_e x - e) with (big_exp (c_c x) + (unit_exp x - e)) by lia. unfold in_units. rewrite !(pow10_add _ (unit_exp x - e)) by lia.
  pose proof (Z.pow_pos_nonneg 10 (unit_exp x - e) ltac:(lia) ltac:(lia)). split; [apply Z.mul_le_mono_nonneg_r; lia|apply Z.mul_lt_mono_pos_r; lia].
Qed.
Lemma zero_units x e : coefficient_wf x -> digit (c_c x) 0 = 0 -> in_units x e = 0.
Proof. intros (_ & [[Hc _]|([_ Hn] & _)]) H0; [|done]. unfold in_units. rewrite Hc. change (of_digits BASE [0]) with 0. lia. Qed.
Lemma aligned_units x y : let n := Nat.max (length (c_c x)) (length (c_c y)) in c_e x = c_e y ->
  in_units x (Z.min (unit_exp x) (unit_exp y)) = of_digits BASE (c_c x) * BASE ^ Z.of_nat (n - length (c_c x)).
Proof. intros n He. unfold in_units. rewrite base_pow. do 2 f_equal. unfold unit_exp, LOG_BASE. rewrite He. lia. Qed.

(** [compare] of two finite numbers is the order of their values. *)
Theorem cmp_digits_refines x y :
  coefficient_wf x -> coefficient_wf y -> cmp_digits x y = sgn (minus (value_of x) (value_of y)).
Proof.
  intros Wx Wy. set (e := Z.min (unit_exp x) (unit_exp y)). rewrite (difference_units x y e) by lia. unfold cmp_digits.
  pose proof (proj1 Wx) as Sx. pose proof (proj1 Wy) as Sy.
  assert (forall z, coefficient_wf z -> digit (c_c z) 0 <> 0 -> e <= unit_exp z -> 0 < in_units z e) as Hpos.
  { intros z Wz Hz He. destruct (in_units_bounds z e Wz Hz He) as (Hk & Hb & _). pose proof (Z.pow_pos_nonneg 10 (c_e z - e)). lia. }
  destruct (Z.eqb_spec (digit (c_c x) 0) 0) as [Hx0|Hx0], (Z.eqb_spec (digit (c_c y) 0) 0) as [Hy0|Hy0]; cbn [orb].
  - rewrite (zero_units x e), (zero_units y e) by done. by rewrite !Z.mul_0_r.
  - rewrite (zero_units x e) by done. specialize (Hpos y Wy Hy0 ltac:(lia)). destruct Sy as [-> | ->]; lia.
  - rewrite (zero_units y e) by done. specialize (Hpos x Wx Hx0 ltac:(lia)). destruct Sx as [-> | ->]; lia.
  - pose proof (Hpos x Wx Hx0 ltac:(lia)) as Px. pose proof (Hpos y Wy Hy0 ltac:(lia)) as Py. clear Hpos.
    destruct (Z.eqb_spec (c_s x) (c_s y)) as [Es|Es]; cbn [negb]; [|destruct Sx as [Ex|Ex], Sy as [Ey|Ey]; rewrite Ex, Ey in *; lia].
    rewrite <-Es, <-Z.mul_sub_distr_l, Z.sgn_mul.
    destruct (Z.eqb_spec (c_e x) (c_e y)) as [Ee|Ee]; cbn [negb].
    + assert (Z.sgn (in_units x e - in_units y e) = cmp_arrays (c_c x) (c_c y)) as ->.
      { unfold e. rewrite (aligned_units x y Ee), Z.min_comm, (aligned_units y x), Nat.max_comm by done.
        destruct (wf_exponent x Wx Hx0) as [[Hx _] _], (wf_exponent y Wy Hy0) as [[Hy _] _].
        assert (forall z, coefficient_wf z -> digit (c_c z) 0 <> 0 -> last (c_c z) <> Some 0) as Hl by (intros z (_ & [[Hc _]|(_ & Hl & _)]) H0; [by rewrite Hc in H0|done]).
        apply cmp_arrays_spec; try done; [lia|lia|by apply Hl|by apply Hl]. }
      destruct Sx as [-> | ->]; cbn [Z.ltb Z.compare Z.sgn]; lia.
    + destruct (in_units_bounds x e Wx Hx0 ltac:(lia)) as (Kx & Lx & Ux), (in_units_bounds y e Wy Hy0 ltac:(lia)) as (Ky & Ly & Uy).
      destruct (Z.ltb_spec (c_e y) (c_e x)) as [Hlt|Hlt].
      * assert (10 ^ (c_e y - e + 1) <= 10 ^ (c_e x - e)) by (apply Z.pow_le_mono_r; lia). destruct Sx as [-> | ->]; cbn [Z.ltb Z.compare xorb]; lia.
      * assert (10 ^ (c_e x - e + 1) <= 10 ^ (c_e y - e)) by (apply Z.pow_le_mono_r; lia). destruct Sx as [-> | ->]; cbn [Z.ltb Z.compare xorb]; lia.
Qed.
Lemma cmp_digits_refines_witness : cmp_digits ether third = sgn (minus (value_of ether) (value_of third)).
Proof.
  apply (cmp_digits_refines ether third).
  - split; [by left|]. right. split_and!; [split; [by constructor; [done|]|done]|done..].
  - split; [by right|]. right. split_and!; [split; [by repeat constructor|done]|done..].
Defined.
