(* ===== verification/Utils.v ===== *)
(** web3's utility functions (web3.js 1881-2440): padding, text and hexadecimal
    conversions, wei units, BigNumber conversions, two's complement and the
    address checks. *)
From S2P Require Import Prelude WordArray Utf8 Digests BigNumber.

(** * JavaScript values

    The values these functions are given.  A JavaScript number is an integer
    below 10^21 in magnitude. *)
Inductive value :=
  | VUndefined
  | VNull
  | VBool (b : bool)
  | VNum (z : Z)
  | VBig (x : bignumber)
  | VStr (s : jsstr)
  | VArr (l : list value)
  | VObj (fields : list (jsstr * value)).

Definition number_to_string (z : Z) : jsstr := to_base 10 (js_dec_value z).

(** [BigNumber.prototype.toString()] without a base: exponential notation from
    10^21 on and below 10^-6. *)
Definition big_digits (m : Z) : jsstr := to_base 10 (Z.abs m).
Definition exponential (ds : jsstr) (e : Z) : jsstr :=
  match ds with
  | d :: x :: r => d :: 46 :: x :: r
  | _ => ds
  end ++ 101 :: (if e <? 0 then [] else [43]) ++ to_base 10 e.
Definition trailing (s : jsstr) : jsstr := reverse (snd (span (fun c => c =? 48) (reverse s))).
Definition big_to_string (x : bignumber) : jsstr :=
  match x with
  | Big m n =>
      let ds := big_digits m in
      let e := js_len ds - 1 - Z.of_nat n in
      if m =? 0 then str "0"
      else if (e <=? -7) || (21 <=? e) then
        (if m <? 0 then [45] else []) ++ exponential (trailing ds) e
      else toString_base ROUND_DOWN 10 x
  | _ => toString_base ROUND_DOWN 10 x
  end.

Fixpoint join (sep : jsstr) (l : list jsstr) : jsstr :=
  match l with
  | [] => []
  | [s] => s
  | s :: l => s ++ sep ++ join sep l
  end.

(** [String(v)]; an array is joined with commas. *)
Fixpoint js_to_string (v : value) : jsstr :=
  match v with
  | VUndefined => str "undefined"
  | VNull => str "null"
  | VBool b => if b then str "true" else str "false"
  | VNum z => number_to_string z
  | VBig x => big_to_string x
  | VStr s => s
  | VArr l => join (str ",") (map (fun v => match v with VUndefined | VNull => [] | _ => js_to_string v end) l)
  | VObj _ => str "[object Object]"
  end.

Definition json_char (c : Z) : jsstr :=
  if c =? 34 then [92; 34] else if c =? 92 then [92; 92]
  else if c =? 8 then str "\b" else if c =? 12 then str "\f" else if c =? 10 then str "\n"
  else if c =? 13 then str "\r" else if c =? 9 then str "\t"
  else if c <? 32 then str "\u00" ++ hex_byte c
  else [c].
Definition json_quote (s : jsstr) : jsstr := [34] ++ (s ≫= json_char) ++ [34].

(** [JSON.stringify(v)]; undefined has no text. *)
Fixpoint JSON_stringify (v : value) : option jsstr :=
  match v with
  | VUndefined => None
  | VNull => Some (str "null")
  | VBool b => Some (if b then str "true" else str "false")
  | VNum z => Some (number_to_string z)
  | VBig x => Some (json_quote (big_to_string x))
  | VStr s => Some (json_quote s)
  | VArr l => Some (str "[" ++ join (str ",") (map (fun v => default (str "null") (JSON_stringify v)) l) ++ str "]")
  | VObj fs =>
      Some (str "{" ++
            join (str ",")
              (omap (fun '(k, v) => (fun t => json_quote k ++ str ":" ++ t) <$> v)
                 (map (fun '(k, v) => (k, JSON_stringify v)) fs)) ++
            str "}")
  end.

(** * Strings *)

(** [new Array(n + 1).join(sign)]: a negative length throws. *)
Definition repeat_sign (n : Z) (sign : jsstr) : option jsstr :=
  if n <? -1 then None else Some (mjoin (replicate (Z.to_nat n) sign)).
Definition padLeft (s : jsstr) (chars : Z) : option jsstr :=
  (fun p => p ++ s) <$> repeat_sign (chars - js_len s) (str "0").
Definition padRight (s : jsstr) (chars : Z) : option jsstr :=
  (fun p => s ++ p) <$> repeat_sign (chars - js_len s) (str "0").

Fixpoint js_find (fuel : nat) (p s : jsstr) : option nat :=
  if js_starts_with p s then Some O
  else match fuel, s with
       | S fuel, _ :: s => S <$> js_find fuel p s
       | _, _ => None
       end.
(** [s.indexOf(p)] and [s.replace(p, r)] for a string [p]. *)
Definition indexOf (p s : jsstr) : option nat := js_find (length s) p s.
Definition replace_first (p r s : jsstr) : jsstr :=
  match indexOf p s with
  | Some i => take i s ++ r ++ drop (i + length p) s
  | None => s
  end.

(** The pieces [hex.substr(i, 2)] of the loops over a hexadecimal string. *)
Fixpoint pairs (s : jsstr) : list jsstr :=
  match s with
  | a :: b :: s => [a; b] :: pairs s
  | [a] => [[a]]
  | [] => []
  end.
Definition strip_hex (hex : jsstr) : jsstr := if js_starts_with (str "0x") hex then drop 2 hex else hex.
(** [String.fromCharCode(code)]; NaN is 0. *)
Definition fromCharCode (code : option Z) : Z := default 0 code mod 65536.

Fixpoint until_zero (codes : list (option Z)) : list (option Z) :=
  match codes with
  | Some 0 :: _ => []
  | c :: codes => c :: until_zero codes
  | [] => []
  end.
Definition toUtf8 (hex : jsstr) : option jsstr :=
  utf8decode (fromCharCode <$> until_zero (parseInt16 <$> pairs (strip_hex hex))).
Definition toAscii (hex : jsstr) : jsstr :=
  fromCharCode <$> (parseInt16 <$> pairs (strip_hex hex)).

Definition code_hex (code : Z) : jsstr :=
  let n := to_base 16 code in if js_len n <? 2 then 48 :: n else n.
Fixpoint before_zero (s : jsstr) : jsstr :=
  match s with
  | c :: s => if c =? 0 then [] else c :: before_zero s
  | [] => []
  end.
Definition fromUtf8 (s : jsstr) : option jsstr :=
  s ← utf8encode s; Some (str "0x" ++ (before_zero s ≫= code_hex)).
Definition fromAscii (s : jsstr) : jsstr := str "0x" ++ (s ≫= code_hex).

(** * Names of functions and events *)

Definition transformToFullName (name : jsstr) (types : list jsstr) : jsstr :=
  match indexOf (str "(") name with
  | Some _ => name
  | None => name ++ str "(" ++ join (str ",") types ++ str ")"
  end.
Definition extractDisplayName (name : jsstr) : jsstr :=
  match indexOf (str "(") name with
  | Some length => js_substr name 0 (Z.of_nat length)
  | None => name
  end.
Definition extractTypeName (name : jsstr) : jsstr :=
  match indexOf (str "(") name with
  | Some length =>
      let length := Z.of_nat length in
      replace_first (str " ") [] (js_substr name (length + 1) (js_len name - 1 - (length + 1)))
  | None => []
  end.

(** * Numbers *)

Definition falsy (v : value) : bool :=
  match v with
  | VUndefined | VNull | VBool false | VNum 0 | VStr [] => true
  | _ => false
  end.

Definition isBigNumber (v : value) : bool := match v with VBig _ => true | _ => false end.
Definition isString (v : value) : bool := match v with VStr _ => true | _ => false end.
Definition isBoolean (v : value) : bool := match v with VBool _ => true | _ => false end.
Definition isArray (v : value) : bool := match v with VArr _ => true | _ => false end.
Definition isObject (v : value) : bool := match v with VBig _ | VObj _ => true | _ => false end.

Section Rounding.
(** The rounding mode the library is set to. *)
Context (rm : rounding).

Definition toBigNumber (number : value) : option bignumber :=
  if falsy number then Some (Big 0 0)
  else match number with
       | VBig x => Some x
       | VStr s =>
           if js_starts_with (str "0x") s || js_starts_with (str "-0x") s
           then new_BigNumber rm (replace_first (str "0x") [] s) (Some 16)
           else new_BigNumber rm s (Some 10)
       | _ => new_BigNumber rm (js_to_string number) (Some 10)
       end.

(** [toNumber()]: the nearest double.  A number with a fraction is not among the
    numbers of this model, where the result is [None]. *)
Definition toNumber (x : bignumber) : option Z :=
  match x with
  | Big m O => Some (f64 m)
  | _ => None
  end.
Definition toDecimal (v : value) : option Z := toBigNumber v ≫= toNumber.

Definition fromDecimal (v : value) : option jsstr :=
  number ← toBigNumber v;
  let result := toString_base rm 16 number in
  Some (if lessThan0 number then str "-0x" ++ js_substr_from result 1 else str "0x" ++ result).

(** [isFinite(s)] of a string: whether it reads as a finite number. *)
Definition finite_string (s : jsstr) : bool :=
  let t := reverse (trim_left (reverse (trim_left s))) in
  match t with
  | [] => true
  | c :: r =>
      let u := if (c =? 43) || (c =? 45) then r else t in
      match strip_minus u with
      | (true, _) => false
      | (false, u) =>
          match read_decimal u with
          | Some (Big m n) => Z.abs m <? (2 ^ 1024 - 2 ^ 970) * 10 ^ Z.of_nat n
          | Some _ => false
          | None =>
              match t with
              | z :: x :: d :: ds =>
                  (z =? 48) && ((x =? 120) || (x =? 88)) && forallb (is_base_digit 16) (d :: ds)
              | _ => false
              end
          end
      end
  end.

Definition toHex (val : value) : option jsstr :=
  match val with
  | VBool b => fromDecimal (VNum (if b then 1 else 0))
  | VBig _ => fromDecimal val
  | VNull | VArr _ | VObj _ => s ← JSON_stringify val; fromUtf8 s
  | VStr s =>
      if js_starts_with (str "-0x") s then fromDecimal val
      else if js_starts_with (str "0x") s then Some s
      else if negb (finite_string s) then Some (fromAscii s)
      else fromDecimal val
  | _ => fromDecimal val
  end.

(** * Units *)

Definition unitMap : list (jsstr * Z) :=
  [(str "noether", 0);
   (str "wei", 1);
   (str "kwei", 1000);
   (str "Kwei", 1000);
   (str "babbage", 1000);
   (str "femtoether", 1000);
   (str "mwei", 1000000);
   (str "Mwei", 1000000);
   (str "lovelace", 1000000);
   (str "picoether", 1000000);
   (str "gwei", 1000000000);
   (str "Gwei", 1000000000);
   (str "shannon", 1000000000);
   (str "nanoether", 1000000000);
   (str "nano", 1000000000);
   (str "szabo", 1000000000000);
   (str "microether", 1000000000000);
   (str "micro", 1000000000000);
   (str "finney", 1000000000000000);
   (str "milliether", 1000000000000000);
   (str "milli", 1000000000000000);
   (str "ether", 1000000000000000000);
   (str "kether", 1000000000000000000000);
   (str "grand", 1000000000000000000000);
   (str "mether", 1000000000000000000000000);
   (str "gether", 1000000000000000000000000000);
   (str "tether", 1000000000000000000000000000000)].

Fixpoint assoc {A} (k : jsstr) (l : list (jsstr * A)) : option A :=
  match l with
  | [] => None
  | (k', v) :: l => if bool_decide (k = k') then Some v else assoc k l
  end.

(** The unit is optional; an unknown one throws. *)
Definition getValueOfUnit (unit : option jsstr) : option bignumber :=
  let unit := match unit with
              | Some (_ :: _) => js_lower (default [] unit)
              | _ => str "ether"
              end in
  z ← assoc unit unitMap; Some (Big z 0).

Definition fromWei (number : value) (unit : option jsstr) : option value :=
  x ← toBigNumber number;
  u ← getValueOfUnit unit;
  let returnValue := dividedBy rm x u in
  Some (if isBigNumber number then VBig returnValue else VStr (toString_base rm 10 returnValue)).
Definition toWei (number : value) (unit : option jsstr) : option value :=
  x ← toBigNumber number;
  u ← getValueOfUnit unit;
  let returnValue := times x u in
  Some (if isBigNumber number then VBig returnValue else VStr (toString_base rm 10 returnValue)).

(** * Two's complement *)

Definition all_ones : bignumber := Big (2 ^ 256 - 1) 0.
Definition toTwosComplement (number : value) : option bignumber :=
  x ← toBigNumber number;
  let bigNumber := round_dp rm 0 x in
  Some (if lessThan0 bigNumber then plus (plus all_ones bigNumber) (Big 1 0) else bigNumber).

(** * Addresses *)

Definition is_lower_hex (c : Z) : bool := is_dec_digit c || ((97 <=? c) && (c <=? 102)).
Definition is_upper_hex (c : Z) : bool := is_dec_digit c || ((65 <=? c) && (c <=? 70)).
Definition is_any_hex (c : Z) : bool := is_lower_hex c || is_upper_hex c.

Definition hex_run (p : Z -> bool) (n : nat) (s : jsstr) : bool := (length s =? n)%nat && forallb p s.
(** [/^(0x)?...{n}$/], with and without the flag [i]. *)
Definition test_any (n : nat) (s : jsstr) : bool :=
  hex_run is_any_hex n s ||
  ((js_starts_with (str "0x") s || js_starts_with (str "0X") s) && hex_run is_any_hex n (drop 2 s)).
Definition test_case (p : Z -> bool) (n : nat) (s : jsstr) : bool :=
  hex_run p n s || (js_starts_with (str "0x") s && hex_run p n (drop 2 s)).

Definition isStrictAddress (address : jsstr) : bool :=
  (js_starts_with (str "0x") address || js_starts_with (str "0X") address) &&
  hex_run is_any_hex 40 (drop 2 address).

(** One letter against its hash digit; [None] when the letter is missing, which throws. *)
Definition hash_digit (addressHash : jsstr) (i : nat) : option Z := c ← addressHash !! i; char_digit 16 c.
Definition case_ok (addressHash address : jsstr) (i : nat) : option bool :=
  match hash_digit addressHash i with
  | Some d =>
      c ← address !! i;
      Some (negb (((7 <? d) && negb (char_upper c =? c)) || ((d <=? 7) && negb (char_lower c =? c))))
  | None => Some true
  end.
Fixpoint all_cases (addressHash address : jsstr) (n i : nat) : option bool :=
  match n with
  | O => Some true
  | S n => b ← case_ok addressHash address i;
           if b : bool then all_cases addressHash address n (S i) else Some false
  end.
Definition isChecksumAddress (address : jsstr) : option bool :=
  let address := replace_first (str "0x") [] address in
  addressHash ← sha3 (js_lower address) false;
  all_cases addressHash address 40 0.

Definition isAddress (address : jsstr) : option bool :=
  if negb (test_any 40 address) then Some false
  else if test_case is_lower_hex 40 address || test_case is_upper_hex 40 address then Some true
  else isChecksumAddress address.

(** Past the end of the hash its digit is NaN and the letter stays. *)
Definition checksum_char (addressHash : jsstr) (i : nat) (c : Z) : Z :=
  match hash_digit addressHash i with
  | Some d => if 7 <? d then char_upper c else c
  | None => c
  end.
Definition toChecksumAddress (address : jsstr) : option jsstr :=
  let address := replace_first (str "0x") [] (js_lower address) in
  addressHash ← sha3 address false;
  Some (str "0x" ++ imap (checksum_char addressHash) address).

Definition toAddress (address : value) : option jsstr :=
  let s := js_to_string address in
  if isStrictAddress s then Some s
  else if hex_run is_lower_hex 40 s then Some (str "0x" ++ s)
  else h ← toHex address; p ← padLeft (js_substr_from h 2) 40; Some (str "0x" ++ p).

Definition isBloom (bloom : jsstr) : bool :=
  if negb (test_any 512 bloom) then false
  else test_case is_lower_hex 512 bloom || test_case is_upper_hex 512 bloom.
Definition isTopic (topic : jsstr) : bool :=
  if negb (test_any 64 topic) then false
  else test_case is_lower_hex 64 topic || test_case is_upper_hex 64 topic.
End Rounding.

(** * Amounts *)

Definition dec_char (c : Z) : bool := is_dec_digit c || (c =? 45) || (c =? 46).

Lemma dec_not_hex s :
  forallb dec_char s = true -> js_starts_with (str "0x") s || js_starts_with (str "-0x") s = false.
Proof.
  intros H. unfold js_starts_with. apply orb_false_iff.
  split; apply bool_decide_eq_false; intros E; destruct s as [|a [|b [|c s]]]; cbv in E; simplify_eq;
    cbn in H; discriminate H.
Qed.

Lemma digits_dec_char ds : Forall (is_digit 10) ds -> forallb dec_char (digit_char <$> ds) = true.
Proof.
  induction 1 as [|d ds Hd _ IH]; [done|]. cbn. rewrite IH. unfold dec_char. by rewrite digit_char_dec.
Qed.

Lemma to_base_dec_char z : forallb dec_char (to_base 10 z) = true.
Proof.
  unfold to_base. destruct (Z.ltb_spec z 0); cbn [forallb]; rewrite digits_dec_char; try done;
    apply digits_valid; lia.
Qed.

Lemma toString_dec_char rm m n :
  lowest m n -> (n <= DECIMAL_PLACES)%nat -> forallb dec_char (toString_base rm 10 (Big m n)) = true.
Proof.
  intros Hl Hn. destruct n as [|n]; [apply to_base_dec_char|].
  rewrite toString_fraction by (done || lia). rewrite !forallb_app, to_base_dec_char.
  cbn [forallb]. rewrite digits_dec_char.
  - by destruct (m <? 0).
  - apply pad_digits_spec; [|lia]. apply Z.mod_pos_bound, Z.pow_pos_nonneg; lia.
Qed.

Lemma toString_nonempty rm m n :
  lowest m n -> (n <= DECIMAL_PLACES)%nat -> falsy (VStr (toString_base rm 10 (Big m n))) = false.
Proof.
  intros Hl Hn.
  assert (toString_base rm 10 (Big m n) <> []); [|by destruct (toString_base _ _ _)].
  destruct n as [|n].
  - cbn. unfold to_base. destruct (m <? 0); [done|]. intros E%fmap_nil_inv. by apply digits_nonempty in E.
  - rewrite toString_fraction by (done || lia). intros [_ [_ E]%app_nil]%app_nil. done.
Qed.

(** Reading the decimal text of a number with at most twenty places. *)
Lemma toBigNumber_decimal rm m n :
  lowest m n -> (n <= DECIMAL_PLACES)%nat ->
  toBigNumber rm (VStr (toString_base rm 10 (Big m n))) = Some (Big m n).
Proof.
  intros Hl Hn. unfold toBigNumber. rewrite toString_nonempty by done.
  rewrite dec_not_hex by by apply toString_dec_char. by apply new_BigNumber_toString.
Qed.

Lemma toBigNumber_integer rm z : toBigNumber rm (VStr (to_base 10 z)) = Some (Big z 0).
Proof. apply (toBigNumber_decimal rm z 0); [by left|unfold DECIMAL_PLACES; lia]. Qed.

Lemma dividedBy_power rm k z :
  (k <= DECIMAL_PLACES)%nat -> dividedBy rm (Big z 0) (Big (10 ^ Z.of_nat k) 0) = norm k z.
Proof.
  intros Hk. cbn [dividedBy].
  assert (0 < 10 ^ Z.of_nat k) by (apply Z.pow_pos_nonneg; lia).
  replace (10 ^ Z.of_nat k =? 0) with false by lia.
  set (j := (DECIMAL_PLACES - k)%nat).
  assert (10 ^ Z.of_nat DECIMAL_PLACES = 10 ^ Z.of_nat j * 10 ^ Z.of_nat k) as ->.
  { rewrite <-Z.pow_add_r by lia. f_equal. lia. }
  rewrite Z.sgn_pos, Z.abs_eq by lia. change (10 ^ Z.of_nat 0) with 1.
  replace (1 * z * 1 * (10 ^ Z.of_nat j * 10 ^ Z.of_nat k)) with (z * 10 ^ Z.of_nat j * 10 ^ Z.of_nat k) by ring.
  rewrite Z.mul_1_r, round_div_exact by done.
  replace DECIMAL_PLACES with (k + j)%nat by lia. apply norm_scaled.
Qed.

Lemma times_power m n k :
  (n <= k)%nat -> times (Big m n) (Big (10 ^ Z.of_nat k) 0) = Big (m * 10 ^ Z.of_nat (k - n)) 0.
Proof.
  intros Hn. cbn [times]. rewrite Nat.add_0_r.
  replace (m * 10 ^ Z.of_nat k) with (m * 10 ^ Z.of_nat (k - n) * 10 ^ Z.of_nat n).
  - apply norm_integer.
  - rewrite <-Z.mul_assoc, <-Z.pow_add_r by lia. do 2 f_equal. lia.
Qed.

(** C36. Wei converted to a unit of at most 10^20 wei and back is the same amount, as
    text and as a BigNumber, in either rounding mode. *)
Theorem wei_roundtrip rm unit k z :
  getValueOfUnit unit = Some (Big (10 ^ Z.of_nat k) 0) -> (k <= DECIMAL_PLACES)%nat ->
  (fromWei rm (VStr (to_base 10 z)) unit ≫= fun v => toWei rm v unit) = Some (VStr (to_base 10 z)) /\
  (fromWei rm (VBig (Big z 0)) unit ≫= fun v => toWei rm v unit) = Some (VBig (Big z 0)).
Proof.
  intros Hu Hk. destruct (norm_spec k z) as (m & n & E & Hn & Hz & Hl).
  assert (times (Big m n) (Big (10 ^ Z.of_nat k) 0) = Big z 0) as Ht by (rewrite Hz; by apply times_power).
  split; unfold fromWei; rewrite Hu; [rewrite toBigNumber_integer|cbn [toBigNumber falsy]];
    cbn [mbind option_bind isBigNumber]; rewrite dividedBy_power, E by done; unfold toWei; rewrite Hu.
  - rewrite toBigNumber_decimal by (done || lia). cbn [mbind option_bind isBigNumber]. by rewrite Ht.
  - cbn [mbind option_bind isBigNumber toBigNumber falsy]. by rewrite Ht.
Qed.

Lemma wei_roundtrip_witness :
  (fromWei ROUND_HALF_UP (VStr (to_base 10 1500)) (Some (str "Ether")) ≫=
   fun v => toWei ROUND_HALF_UP v (Some (str "Ether"))) = Some (VStr (to_base 10 1500)) /\
  (fromWei ROUND_HALF_UP (VBig (Big 1500 0)) (Some (str "Ether")) ≫=
   fun v => toWei ROUND_HALF_UP v (Some (str "Ether"))) = Some (VBig (Big 1500 0)).
Proof. apply (wei_roundtrip ROUND_HALF_UP (Some (str "Ether")) 18); [reflexivity|unfold DECIMAL_PLACES; lia]. Defined.

(** For the units above 10^20 wei the twenty places are not enough: one wei is no
    kether at all. *)
Theorem wei_precision_lost rm :
  fromWei rm (VStr (str "1")) (Some (str "kether")) = Some (VStr (str "0")).
Proof. destruct rm; reflexivity. Qed.

(** * Checksummed addresses *)

Lemma js_find_none c p s n : c ∈ p -> c ∉ s -> js_find n p s = None.
Proof.
  intros Hp. revert s. induction n as [|n IH]; intros s Hs; cbn [js_find];
    (assert (js_starts_with p s = false) as ->; [|destruct s; try done]).
  1,2: apply bool_decide_eq_false; intros E; rewrite <-E in Hp; apply Hs;
    apply elem_of_take in Hp as (i & Hi & _); by eapply list_elem_of_lookup_2.
  rewrite IH; [done|]. intros Hin. apply Hs. by right.
Qed.

Lemma any_hex_range c : is_any_hex c = true -> 48 <= c <= 57 \/ 65 <= c <= 70 \/ 97 <= c <= 102.
Proof. unfold is_any_hex, is_lower_hex, is_upper_hex, is_dec_digit. lia. Qed.

Lemma hex_chars h : forallb is_any_hex h = true -> Forall (fun c => 48 <= c <= 57 \/ 65 <= c <= 70 \/ 97 <= c <= 102) h.
Proof. intros H. apply Forall_forall. intros c Hc. apply any_hex_range. by apply (proj1 (forallb_forall _ _) H), list_elem_of_In. Qed.

Lemma any_hex_lower h : forallb is_any_hex h = true -> forallb is_any_hex (js_lower h) = true.
Proof.
  intros H%hex_chars. apply forallb_forall. intros c Hc%list_elem_of_In.
  apply list_elem_of_fmap in Hc as (c' & -> & Hc').
  rewrite Forall_forall in H. apply H in Hc'. unfold char_lower.
  destruct ((65 <=? c') && (c' <=? 90)) eqn:E; unfold is_any_hex, is_lower_hex, is_upper_hex, is_dec_digit; lia.
Qed.

Lemma replace_0x h : forallb is_any_hex h = true -> replace_first (str "0x") [] h = h.
Proof.
  intros H%hex_chars. unfold replace_first, indexOf. rewrite (js_find_none 120); [done| |].
  - right. left.
  - intros Hin. rewrite Forall_forall in H. apply H in Hin. lia.
Qed.
Lemma replace_0x_prefixed h : replace_first (str "0x") [] (str "0x" ++ h) = h.
Proof. unfold replace_first, indexOf. cbn. by destruct h. Qed.

Lemma ascii_encode s : Forall (fun c => 0 <= c < 128) s -> utf8encode s = Some s.
Proof.
  intros H. unfold utf8encode. rewrite ucs2_bytes.
  - induction H as [|c s Hc _ IH]; [done|]. cbn [encode_all].
    rewrite encode_spec by lia. replace (c <? 0x80) with true by lia. by rewrite IH.
  - eapply Forall_impl; [exact H|]. unfold is_byte. cbn. lia.
Qed.

Lemma sha3_hex_text h :
  forallb is_any_hex h = true ->
  exists ds, sha3 (js_lower h) false = Some (digit_char <$> ds) /\ Forall (is_digit 16) ds /\ length ds = 64%nat.
Proof.
  intros H%any_hex_lower%hex_chars. assert (is_Some (sha3 (js_lower h) false)) as [x E].
  { apply sha3_text. rewrite ascii_encode; [by eexists|]. eapply Forall_impl; [exact H|]. cbn. lia. }
  destruct (sha3_result _ _ _ E) as (ds & -> & Hd & Hl). by exists ds.
Qed.

(** A letter passes exactly when it is spelled as the checksum spells it. *)
Lemma case_ok_spec ds a j c :
  Forall (is_digit 16) ds -> (j < length ds)%nat -> a !! j = Some c ->
  case_ok (digit_char <$> ds) a j = Some (bool_decide (checksum_char (digit_char <$> ds) j (char_lower c) = c)).
Proof.
  intros Hd Hj Ha. destruct (lookup_lt_is_Some_2 ds j Hj) as [d Ed].
  assert (hash_digit (digit_char <$> ds) j = Some d) as Hh.
  { unfold hash_digit. rewrite list_lookup_fmap, Ed. cbn. apply char_digit_char; [|lia].
    rewrite Forall_forall in Hd. by eapply Hd, list_elem_of_lookup_2. }
  unfold case_ok, checksum_char. rewrite Hh, Ha. cbn [mbind option_bind]. f_equal.
  apply eq_true_iff_eq. rewrite bool_decide_eq_true.
  destruct (Z.ltb_spec 7 d), (Z.leb_spec d 7); try lia; cbn [andb orb]; rewrite ?orb_false_r, negb_involutive, Z.eqb_eq.
  unfold char_upper, char_lower. destruct ((65 <=? c) && (c <=? 90)) eqn:E1.
  - destruct ((97 <=? c) && (c <=? 122)) eqn:E2, ((97 <=? c + 32) && (c + 32 <=? 122)) eqn:E3; lia.
  - destruct ((97 <=? c) && (c <=? 122)) eqn:E2; lia.
Qed.

Lemma all_cases_spec ds a n i :
  Forall (is_digit 16) ds -> (i + n = length a)%nat -> (length a <= length ds)%nat ->
  all_cases (digit_char <$> ds) a n i =
  Some (bool_decide (imap (fun k => checksum_char (digit_char <$> ds) (i + k)) (js_lower (drop i a)) = drop i a)).
Proof.
  intros Hd. revert i. induction n as [|n IH]; intros i Hl Hds; cbn [all_cases].
  - rewrite drop_ge by lia. done.
  - destruct (lookup_lt_is_Some_2 a i ltac:(lia)) as [c Hc].
    rewrite (case_ok_spec ds a i c) by (done || lia). cbn [mbind option_bind].
    rewrite (drop_S a c i Hc). change (js_lower (c :: drop (S i) a)) with (char_lower c :: js_lower (drop (S i) a)).
    cbn [imap]. rewrite Nat.add_0_r.
    case_bool_decide as E.
    + rewrite IH by lia. f_equal. apply bool_decide_ext. rewrite E.
      rewrite (imap_ext ((fun k => checksum_char (digit_char <$> ds) (i + k)) ∘ S) (fun k => checksum_char (digit_char <$> ds) (S i + k)) (js_lower _))
        by (intros k x _; cbn; by rewrite Nat.add_succ_r).
      split; [intros Eq; f_equal; exact Eq|intros [= Eq]; exact Eq].
    + symmetry. f_equal. apply bool_decide_eq_false. by intros [= ?].
Qed.

Lemma checksum_lower ds h :
  js_lower (imap (checksum_char ds) (js_lower h)) = js_lower h.
Proof.
  apply list_eq. intros i. unfold js_lower. rewrite !list_lookup_fmap, list_lookup_imap, list_lookup_fmap.
  destruct (h !! i) as [c|]; [|done]. cbn. f_equal. unfold checksum_char.
  assert (char_lower (char_lower c) = char_lower c /\ char_lower (char_upper (char_lower c)) = char_lower c) as [E1 E2].
  { unfold char_lower, char_upper. destruct ((65 <=? c) && (c <=? 90)) eqn:E1.
    - destruct ((65 <=? c + 32) && (c + 32 <=? 90)) eqn:E2, ((97 <=? c + 32) && (c + 32 <=? 122)) eqn:E3; try lia.
      destruct ((65 <=? c + 32 - 32) && (c + 32 - 32 <=? 90)) eqn:E4; lia.
    - rewrite E1. destruct ((97 <=? c) && (c <=? 122)) eqn:E3; [|by rewrite E1].
      destruct ((65 <=? c - 32) && (c - 32 <=? 90)) eqn:E4; lia. }
  destruct (hash_digit ds i) as [d|]; [destruct (7 <? d)|]; done.
Qed.

Lemma any_hex_of_lower h : forallb is_any_hex (js_lower h) = true -> forallb is_any_hex h = true.
Proof.
  intros H%hex_chars. apply forallb_forall. intros c Hc%list_elem_of_In.
  rewrite Forall_forall in H. specialize (H (char_lower c) (list_elem_of_fmap_2 char_lower h c Hc)).
  revert H. unfold char_lower.
  destruct ((65 <=? c) && (c <=? 90)) eqn:E; unfold is_any_hex, is_lower_hex, is_upper_hex, is_dec_digit; lia.
Qed.

(** C19. The checksummed spelling of an address (EIP-55): every address of 40
    hexadecimal digits, with or without 0x and in any case, has one; it is
    accepted as an address and differs from the digits given in case only; and of
    all spellings it is the only one the checksum test accepts. *)
Theorem checksum_address h :
  length h = 40%nat -> forallb is_any_hex h = true ->
  exists c,
    toChecksumAddress h = Some (str "0x" ++ c) /\ toChecksumAddress (str "0x" ++ h) = Some (str "0x" ++ c) /\
    js_lower c = js_lower h /\
    isChecksumAddress (str "0x" ++ c) = Some true /\ isAddress (str "0x" ++ c) = Some true /\
    isChecksumAddress h = Some (bool_decide (h = c)) /\
    isChecksumAddress (str "0x" ++ h) = Some (bool_decide (h = c)).
Proof.
  intros Hl Hh. destruct (sha3_hex_text h Hh) as (ds & E & Hd & Hds).
  set (c := imap (checksum_char (digit_char <$> ds)) (js_lower h)). exists c.
  assert (js_lower c = js_lower h) as Hc by apply checksum_lower.
  assert (length c = 40%nat) as Hcl by (unfold c, js_lower; by rewrite length_imap, length_fmap).
  assert (forallb is_any_hex c = true) as Hch.
  { apply any_hex_of_lower. rewrite Hc. by apply any_hex_lower. }
  assert (forall a, length a = 40%nat -> js_lower a = js_lower h ->
            all_cases (digit_char <$> ds) a 40 0 = Some (bool_decide (c = a))) as Hall.
  { intros a Ha Hla. rewrite all_cases_spec by (done || lia). change (drop 0 a) with a. by rewrite Hla. }
  assert (isChecksumAddress (str "0x" ++ c) = Some true) as Hcc.
  { unfold isChecksumAddress. rewrite replace_0x_prefixed, Hc, E. cbn [mbind option_bind].
    rewrite Hall by done. by rewrite bool_decide_true. }
  split_and!; try done.
  - unfold toChecksumAddress. rewrite replace_0x by by apply any_hex_lower. by rewrite E.
  - unfold toChecksumAddress. change (js_lower (str "0x" ++ h)) with (str "0x" ++ js_lower h).
    rewrite replace_0x_prefixed. by rewrite E.
  - unfold isAddress, test_any. change (drop 2 (str "0x" ++ c)) with c.
    unfold hex_run at 2. rewrite Hcl, Hch. cbn. rewrite orb_true_r. cbn. by destruct (_ || _).
  - unfold isChecksumAddress. rewrite replace_0x, E by done. cbn [mbind option_bind].
    rewrite Hall by done. f_equal. apply bool_decide_ext. done.
  - unfold isChecksumAddress. rewrite replace_0x_prefixed, E. cbn [mbind option_bind].
    rewrite Hall by done. f_equal. apply bool_decide_ext. done.
Qed.

Lemma checksum_address_witness :
  exists c, toChecksumAddress (str "5aaeb6053f3e94c9b9a09f33669435e7ef1beaed") = Some (str "0x" ++ c).
Proof.
  destruct (checksum_address (str "5aaeb6053f3e94c9b9a09f33669435e7ef1beaed")) as (c & Hc & _); try reflexivity.
  exists c. exact Hc.
Defined.

(** The example of EIP-55. *)
Lemma checksum_example :
  toChecksumAddress (str "0x5aaeb6053f3e94c9b9a09f33669435e7ef1beaed") =
  Some (str "0x5aAeb6053F3E94C9b9A09f33669435E7Ef1BeAed").
Proof. vm_compute. reflexivity. Qed.

(** Lower case hexadecimal as digits. *)
Lemma lower_hex_digit c : is_lower_hex c = true -> exists d, c = digit_char d /\ is_digit 16 d.
Proof.
  unfold is_lower_hex, is_dec_digit, digit_char, is_digit. intros H.
  destruct (Z.leb_spec c 57).
  - exists (c - 48). replace (c - 48 <? 10) with true by lia. lia.
  - exists (c - 87). replace (c - 87 <? 10) with false by lia. lia.
Qed.
Lemma lower_hex_digits h :
  forallb is_lower_hex h = true -> exists ds, h = digit_char <$> ds /\ Forall (is_digit 16) ds.
Proof.
  induction h as [|c h IH]; [by exists []|]. cbn. intros [Hc Hh]%andb_prop.
  destruct (lower_hex_digit c Hc) as (d & -> & Hd). destruct (IH Hh) as (ds & -> & Hds).
  exists (d :: ds). split; [done|]. by constructor.
Qed.

(** * Text in hexadecimal *)

Lemma code_hex_byte b : is_byte b -> code_hex b = hex_byte b.
Proof. apply (byte_forall (fun b => code_hex b = hex_byte b)). vm_compute. reflexivity. Qed.

Lemma code_hex_bytes bs : Forall is_byte bs -> bs ≫= code_hex = bs ≫= hex_byte.
Proof. induction 1 as [|b bs Hb _ IH]; [done|]. rewrite !bind_cons, IH. by rewrite code_hex_byte. Qed.

(** The loops over a hexadecimal string see its bytes. *)
Lemma pairs_bytes bs : Forall is_byte bs -> parseInt16 <$> pairs (bs ≫= hex_byte) = Some <$> bs.
Proof.
  induction 1 as [|b bs Hb _ IH]; [done|]. rewrite bind_cons.
  change (pairs (hex_byte b ++ (bs ≫= hex_byte))) with (hex_byte b :: pairs (bs ≫= hex_byte)).
  cbn [fmap list_fmap] in *. by rewrite parseInt16_hex, IH.
Qed.
Lemma chars_bytes bs : Forall is_byte bs -> fromCharCode <$> (Some <$> bs) = bs.
Proof.
  intros H. rewrite <-list_fmap_compose. rewrite <-(list_fmap_id bs) at 2. apply list_fmap_ext.
  intros i b Hb. unfold fromCharCode. cbn. apply Z.mod_small.
  rewrite Forall_lookup in H. specialize (H i b Hb). unfold is_byte in H. lia.
Qed.
Lemma until_zero_bytes bs : 0 ∉ bs -> until_zero (Some <$> bs) = Some <$> bs.
Proof.
  induction bs as [|b bs IH]; [done|]. intros [Hb Hz]%not_elem_of_cons.
  cbn [fmap list_fmap until_zero] in *. rewrite IH by done. by destruct b.
Qed.
Lemma before_zero_bytes bs : 0 ∉ bs -> before_zero bs = bs.
Proof.
  induction bs as [|b bs IH]; [done|]. intros [Hb Hz]%not_elem_of_cons. cbn [before_zero].
  replace (b =? 0) with false by lia. by rewrite IH.
Qed.
Lemma before_zero_stop bs r : 0 ∉ bs -> before_zero (bs ++ 0 :: r) = bs.
Proof.
  induction bs as [|b bs IH]; [done|]. intros [Hb Hz]%not_elem_of_cons. cbn [before_zero app].
  replace (b =? 0) with false by lia. by rewrite IH.
Qed.

Lemma toUtf8_hex s bs :
  Forall unit16 s -> 0 ∉ s -> utf8encode s = Some bs -> toUtf8 (bs ≫= hex_byte) = Some s.
Proof.
  intros Hu Hz E. destruct (utf8_inverse s bs Hu E) as [Hb Hd]. unfold toUtf8.
  assert (strip_hex (bs ≫= hex_byte) = bs ≫= hex_byte) as ->.
  { unfold strip_hex. destruct bs as [|b bs]; [done|].
    apply Forall_inv in Hb. rewrite bind_cons. unfold js_starts_with.
    rewrite bool_decide_false; [done|]. cbn. intros [= _ E']. unfold digit_char in E'.
    pose proof (Z.mod_pos_bound b 16). destruct (_ <? _); lia. }
  rewrite pairs_bytes, until_zero_bytes, chars_bytes; [done|done| |done]. by eapply utf8_nonzero.
Qed.

(** Text survives the way to hexadecimal and back: any string of bytes through
    [fromAscii] and [toAscii], and any string without lone surrogates and without
    the character 0 through [fromUtf8] and [toUtf8]. *)
Theorem text_roundtrip s :
  (Forall is_byte s -> toAscii (fromAscii s) = s) /\
  (Forall unit16 s -> 0 ∉ s -> is_Some (utf8encode s) ->
   exists h, fromUtf8 s = Some h /\ toUtf8 h = Some s).
Proof.
  split.
  - intros H. unfold toAscii, fromAscii. rewrite code_hex_bytes by done.
    change (strip_hex (str "0x" ++ _)) with (s ≫= hex_byte). by rewrite pairs_bytes, chars_bytes.
  - intros Hu Hz [bs E]. pose proof (utf8_nonzero s bs Hu Hz E) as Hbz.
    destruct (utf8_inverse s bs Hu E) as [Hb _]. unfold fromUtf8. rewrite E. cbn [mbind option_bind].
    eexists. split; [done|]. rewrite before_zero_bytes, code_hex_bytes by done.
    change (toUtf8 (str "0x" ++ ?h)) with (utf8decode (fromCharCode <$> until_zero (parseInt16 <$> pairs h))).
    rewrite pairs_bytes, until_zero_bytes, chars_bytes by done. by apply utf8_inverse.
Qed.

Lemma text_roundtrip_witness :
  toAscii (fromAscii (str "gas")) = str "gas" /\
  exists h, fromUtf8 [0x20AC] = Some h /\ toUtf8 h = Some [0x20AC].
Proof.
  split; [apply (text_roundtrip (str "gas")); repeat constructor; unfold is_byte; cbn; lia|].
  apply (text_roundtrip [0x20AC]); [repeat constructor; unfold unit16; lia|set_solver|by eexists].
Defined.

(** A character 0 ends the text: what follows it is lost. *)
Theorem utf8_text_truncated s r :
  Forall (fun c => 0 < c < 128) s -> Forall (fun c => 0 <= c < 128) r ->
  fromUtf8 (s ++ 0 :: r) = fromUtf8 s.
Proof.
  intros Hs Hr. unfold fromUtf8. rewrite !ascii_encode.
  - cbn [mbind option_bind]. do 2 f_equal.
    assert (0 ∉ s) by (intros Hin; rewrite Forall_forall in Hs; specialize (Hs 0 Hin); lia).
    by rewrite before_zero_stop, before_zero_bytes.
  - eapply Forall_impl; [exact Hs|]. cbn. lia.
  - apply Forall_app. split; [eapply Forall_impl; [exact Hs|]; cbn; lia|by constructor].
Qed.
