(* ===== verification/Solidity.v ===== *)
(** web3's Solidity types: parameters (web3.js 1185-1321), the input and output
    formatters (915-1140), the type names and the encoding and decoding of one
    value (516-602, 868-890, 1146-1180, 1330-1740). *)
From S2P Require Import Prelude WordArray Utf8 BigNumber Utils.

(** * Numbers of the offset arithmetic

    Offsets are JavaScript numbers computed by halving string lengths and string
    values, so they are kept as twice the number (in hexadecimal digits); NaN and
    the infinity can come up in nested arrays. *)
Inductive num := Num (twice : Z) | NumInfinity | NumNaN.

Definition num_of (z : Z) : num := Num (2 * z).
Definition num_add (a b : num) : num :=
  match a, b with
  | Num x, Num y => Num (f64 (x + y))
  | NumNaN, _ | _, NumNaN => NumNaN
  | _, _ => NumInfinity
  end.
Definition num_scale (k : Z) (a : num) : num :=
  match a with
  | Num x => Num (f64 (k * x))
  | _ => a
  end.
(** [+s] and [s / 2] of a string of hexadecimal digits: digits with an [e] among
    them can be a decimal number with an exponent. *)
Definition js_Number (s : jsstr) : option bignumber := if bool_decide (s = []) then Some (Big 0 0) else read_decimal s.
Definition num_of_string (s : jsstr) (halved : bool) : num :=
  match js_Number s with
  | Some (Big m 0) => if m <? 2 ^ 1024 - 2 ^ 970 then Num (if halved then f64 m else 2 * f64 m) else NumInfinity
  | _ => NumNaN
  end.
(** [n || 0] *)
Definition num_or_0 (a : num) : num := match a with NumNaN => Num 0 | _ => a end.

(** * Parameters *)

Record SolidityParam := Param { p_value : jsstr; p_offset : option Z }.

(** A number as the formatters take it, rounded down when it has a fraction. *)
Definition word (x : bignumber) : option jsstr := padLeft (toString_base ROUND_DOWN 16 x) 64.

Definition isDynamic (p : SolidityParam) : bool := match p_offset p with Some _ => true | None => false end.
Definition offsetAsBytes (p : SolidityParam) : option jsstr :=
  match p_offset p with
  | None => Some []
  | Some o => x ← toTwosComplement ROUND_DOWN (VNum o); word x
  end.
Definition staticPart (p : SolidityParam) : option jsstr :=
  if isDynamic p then offsetAsBytes p else Some (p_value p).
Definition dynamicPart (p : SolidityParam) : jsstr := if isDynamic p then p_value p else [].
Definition encode_param (p : SolidityParam) : option jsstr := s ← staticPart p; Some (s ++ dynamicPart p).
Definition combine (p q : SolidityParam) : SolidityParam := Param (p_value p ++ p_value q) None.
Definition withOffset (p : SolidityParam) (offset : Z) : SolidityParam := Param (p_value p) (Some offset).
(** In hexadecimal digits, twice the length in bytes. *)
Definition dynamicPartLength2 (p : SolidityParam) : Z := js_len (dynamicPart p).

(** [encodeList]: the dynamic parts follow the static ones, each offset the size
    of what precedes it. *)
Fixpoint offset_params (totalOffset2 : Z) (params : list SolidityParam) : list SolidityParam :=
  match params with
  | [] => []
  | p :: params =>
      if isDynamic p
      then withOffset p (totalOffset2 / 2) :: offset_params (totalOffset2 + dynamicPartLength2 p) params
      else p :: offset_params totalOffset2 params
  end.
Definition encodeList (params : list SolidityParam) : option jsstr :=
  let offsetParams := offset_params (64 * Z.of_nat (length params)) params in
  statics ← mapM staticPart offsetParams;
  Some (mjoin statics ++ mjoin (dynamicPart <$> offsetParams)).

(** * Input formatters *)

Definition formatInputInt (v : value) : option SolidityParam :=
  x ← toTwosComplement ROUND_DOWN v;
  result ← word x;
  Some (Param result None).
(** The same on a number of the offset arithmetic; a fraction is rounded down. *)
Definition formatInputNum (n : num) : option jsstr :=
  match n with
  | Num d => p ← formatInputInt (VNum (Z.quot d 2)); encode_param p
  | NumNaN => p ← formatInputInt (VNum 0); encode_param p
  | NumInfinity => word (Infinite false)
  end.

Definition rounded_chars (s : jsstr) : Z := (js_len s + 63) / 64 * 64.

Section Formatters.
Context (rm : rounding).

Definition formatInputBytes (v : value) : option SolidityParam :=
  h ← toHex rm v;
  let result := js_substr_from h 2 in
  result ← padRight result (rounded_chars result);
  Some (Param result None).

(** [length] is half the number of digits, rounded down by [formatInputInt]. *)
Definition with_length (result : jsstr) : option SolidityParam :=
  padded ← padRight result (rounded_chars result);
  l ← formatInputInt (VNum (js_len result / 2));
  Some (Param (p_value l ++ padded) None).
Definition formatInputDynamicBytes (v : value) : option SolidityParam :=
  h ← toHex rm v;
  with_length (js_substr_from h 2).
Definition formatInputString (v : value) : option SolidityParam :=
  match v with
  | VStr s => h ← fromUtf8 s; with_length (js_substr_from h 2)
  | _ => None
  end.

Definition formatInputBool (v : value) : option SolidityParam :=
  Some (Param (replicate 63 48 ++ [if falsy v then 48 else 49]) None).

(** [new BigNumber(value)] without a base; a number of more than fifteen
    significant digits throws. *)
Definition bignumber_of (v : value) : option bignumber :=
  match v with
  | VBig x => Some x
  | VNum z =>
      if (Z.abs z <? 2 ^ 31) || (js_len (trailing (big_digits (js_dec_value z))) <=? 15)
      then Some (Big (js_dec_value z) 0) else None
  | _ => new_BigNumber rm (js_to_string v) None
  end.
Definition formatInputReal (v : value) : option SolidityParam :=
  x ← bignumber_of v; formatInputInt (VBig (times x (Big (2 ^ 128) 0))).

(** * Output formatters *)

Definition signedIsNegative (value : jsstr) : option bool :=
  x ← new_BigNumber rm (js_substr value 0 1) (Some 16);
  Some (bool_decide (js_substr (toString_base rm 2 x) 0 1 = str "1")).

Definition or_zero (s : jsstr) : jsstr := match s with [] => str "0" | _ => s end.

Definition formatOutputInt (p : SolidityParam) : option bignumber :=
  s ← staticPart p;
  let value := or_zero s in
  neg ← signedIsNegative value;
  x ← new_BigNumber rm value (Some 16);
  Some (if neg : bool then minus (minus x all_ones) (Big 1 0) else x).
Definition formatOutputUInt (p : SolidityParam) : option bignumber :=
  s ← staticPart p; new_BigNumber rm (or_zero s) (Some 16).
Definition formatOutputReal (p : SolidityParam) : option bignumber :=
  x ← formatOutputInt p; Some (dividedBy rm x (Big (2 ^ 128) 0)).
Definition formatOutputUReal (p : SolidityParam) : option bignumber :=
  x ← formatOutputUInt p; Some (dividedBy rm x (Big (2 ^ 128) 0)).
Definition formatOutputBool (p : SolidityParam) : option bool :=
  s ← staticPart p; Some (bool_decide (s = replicate 63 48 ++ [49])).

(** The digits after [bytes] in the type name; without one the size is NaN and the
    slice empty. *)
Definition formatOutputBytes (p : SolidityParam) (name : jsstr) : option jsstr :=
  if js_starts_with (str "bytes") name then
    let size := dec_value (fst (span is_dec_digit (drop 5 name))) in
    s ← staticPart p; Some (str "0x" ++ js_slice s 0 (2 * size))
  else None.
Definition dynamic_length (p : SolidityParam) : option Z :=
  x ← new_BigNumber rm (js_slice (dynamicPart p) 0 64) (Some 16);
  n ← toNumber x; Some (n * 2).
Definition formatOutputDynamicBytes (p : SolidityParam) : option jsstr :=
  length ← dynamic_length p; Some (str "0x" ++ js_substr (dynamicPart p) 64 length).
Definition formatOutputString (p : SolidityParam) : option jsstr :=
  length ← dynamic_length p; toUtf8 (js_substr (dynamicPart p) 64 length).
Definition formatOutputAddress (p : SolidityParam) : option jsstr :=
  s ← staticPart p; Some (str "0x" ++ js_slice s (js_len s - 40) (js_len s)).
End Formatters.

(** * Type names *)

(** The matches of a pair of brackets around digits; none stands for null. *)
Fixpoint nested_scan (fuel : nat) (name : jsstr) : list jsstr :=
  match fuel, name with
  | S fuel, c :: name =>
      if c =? 91 then
        let '(ds, r) := span is_dec_digit name in
        match r with
        | d :: r => if d =? 93 then ([91] ++ ds ++ [93]) :: nested_scan fuel r else nested_scan fuel name
        | [] => nested_scan fuel name
        end
      else nested_scan fuel name
  | _, _ => []
  end.
Definition nestedTypes (name : jsstr) : list jsstr := nested_scan (length name) name.

(** [parseInt(s, 10)]: leading digits; NaN without one. *)
Definition parseInt10 (s : jsstr) : option Z :=
  match fst (span is_dec_digit s) with
  | [] => None
  | ds => Some (dec_value ds)
  end.
Definition dim_size (type : jsstr) : Z :=
  match parseInt10 (js_slice type 1 (-1)) with
  | Some 0 | None => 1
  | Some n => n
  end.
Definition staticPartLength (name : jsstr) : Z :=
  fold_left Z.mul
    (dim_size <$> (match nestedTypes name with [] => [str "[1]"] | l => l end)) 32.

Definition has_digit (s : jsstr) : bool := existsb is_dec_digit s.
Definition isDynamicArray (name : jsstr) : bool :=
  match last (nestedTypes name) with
  | Some t => negb (has_digit t)
  | None => false
  end.
Definition isStaticArray (name : jsstr) : bool :=
  match last (nestedTypes name) with
  | Some t => has_digit t
  | None => false
  end.
(** The first run of digits of the last pair of brackets. *)
Definition staticArrayLength (name : jsstr) : Z :=
  match last (nestedTypes name) with
  | Some t => default 1 (parseInt10 (drop 1 t))
  | None => 1
  end.
Definition nestedName (name : jsstr) : jsstr :=
  match last (nestedTypes name) with
  | Some t => js_substr name 0 (js_len name - js_len t)
  | None => name
  end.

(** * The types *)

Inductive solidityType :=
  | SolidityTypeAddress | SolidityTypeBool | SolidityTypeInt | SolidityTypeUInt | SolidityTypeDynamicBytes
  | SolidityTypeBytes | SolidityTypeString | SolidityTypeReal | SolidityTypeUReal.

#[global] Instance solidityType_eq_dec : EqDecision solidityType.
Proof. solve_decision. Defined.

(** The patterns of the type names: a word, for some types a run of digits, and
    pairs of brackets around digits up to the end. *)
Fixpoint brackets_only (fuel : nat) (s : jsstr) : bool :=
  match fuel, s with
  | _, [] => true
  | S fuel, c :: s => (c =? 91) &&
      match span is_dec_digit s with
      | (_, d :: r) => (d =? 93) && brackets_only fuel r
      | (_, []) => false
      end
  | O, _ => false
  end.
Definition brackets (s : jsstr) : bool := brackets_only (length s) s.
Definition anchored (p : jsstr) (name : jsstr) : bool :=
  js_starts_with p name && brackets (drop (length p) name).
Definition anchored_digits (p : jsstr) (name : jsstr) : bool :=
  js_starts_with p name && brackets (snd (span is_dec_digit (drop (length p) name))).
Definition contains (p name : jsstr) : bool := match indexOf p name with Some _ => true | None => false end.

Definition isType (t : solidityType) (name : jsstr) : bool :=
  match t with
  | SolidityTypeAddress => contains (str "address") name
  | SolidityTypeBool => anchored (str "bool") name
  | SolidityTypeInt => anchored_digits (str "int") name
  | SolidityTypeUInt => anchored_digits (str "uint") name
  | SolidityTypeDynamicBytes => anchored (str "bytes") name
  | SolidityTypeBytes =>
      anchored_digits (str "bytes") name && has_digit (take 1 (drop 5 name))
  | SolidityTypeString => anchored (str "string") name
  | SolidityTypeReal => contains (str "real") name
  | SolidityTypeUReal => anchored_digits (str "ureal") name
  end.

Definition isDynamicType (t : solidityType) : bool :=
  match t with
  | SolidityTypeDynamicBytes | SolidityTypeString => true
  | _ => false
  end.

Section Types.
Context (rm : rounding).

Definition _inputFormatter (t : solidityType) (v : value) : option SolidityParam :=
  match t with
  | SolidityTypeAddress | SolidityTypeInt | SolidityTypeUInt => formatInputInt v
  | SolidityTypeBool => formatInputBool v
  | SolidityTypeBytes => formatInputBytes rm v
  | SolidityTypeDynamicBytes => formatInputDynamicBytes rm v
  | SolidityTypeString => formatInputString v
  | SolidityTypeReal | SolidityTypeUReal => formatInputReal rm v
  end.
Definition _outputFormatter (t : solidityType) (p : SolidityParam) (name : jsstr) : option value :=
  match t with
  | SolidityTypeAddress => VStr <$> formatOutputAddress p
  | SolidityTypeBool => VBool <$> formatOutputBool p
  | SolidityTypeInt => VBig <$> formatOutputInt rm p
  | SolidityTypeUInt => VBig <$> formatOutputUInt rm p
  | SolidityTypeDynamicBytes => VStr <$> formatOutputDynamicBytes rm p
  | SolidityTypeBytes => VStr <$> formatOutputBytes p name
  | SolidityTypeString => VStr <$> formatOutputString rm p
  | SolidityTypeReal => VBig <$> formatOutputReal rm p
  | SolidityTypeUReal => VBig <$> formatOutputUReal rm p
  end.

(** * Encoding one value *)

(** Text, or an array of encoded elements, with the length first for a dynamic
    array. *)
Inductive encoded := EStr (s : jsstr) | EArr (l : list encoded).

(** [value[i]]; undefined and null have no elements to ask for. *)
Definition index (v : value) (i : nat) : option value :=
  match v with
  | VArr l => Some (default VUndefined (l !! i))
  | VStr s => Some (match s !! i with Some c => VStr [c] | None => VUndefined end)
  | VUndefined | VNull => None
  | _ => Some VUndefined
  end.

Fixpoint encode_value (fuel : nat) (t : solidityType) (v : value) (name : jsstr) : option encoded :=
  match fuel with
  | O => None
  | S fuel =>
      if isDynamicArray name then
        match v with
        | VArr l =>
            n ← formatInputInt (VNum (Z.of_nat (length l)));
            n ← encode_param n;
            es ← mapM (fun v => encode_value fuel t v (nestedName name)) l;
            Some (EArr (EStr n :: es))
        | _ => None
        end
      else if isStaticArray name then
        es ← mapM (fun i => v ← index v i; encode_value fuel t v (nestedName name))
               (seq 0 (Z.to_nat (staticArrayLength name)));
        Some (EArr es)
      else
        p ← _inputFormatter t v; s ← encode_param p; Some (EStr s)
  end.
(** Each level of nesting takes a pair of brackets off the name. *)
Definition encode (t : solidityType) (v : value) (name : jsstr) : option encoded :=
  encode_value (S (length name)) t v name.

(** * Decoding one value *)

(** [parseInt('0x' + s)]; [None] is NaN. *)
Definition parseHex (s : jsstr) : option Z := f64 <$> hex_prefix s None.
(** [bytes.substr(offset * 2, n)], where NaN counts as 0. *)
Definition substr_at (bytes : jsstr) (offset : option Z) (n : Z) : jsstr :=
  js_substr bytes (2 * default 0 offset) n.
Definition roundedLength (n : Z) : Z := (n + 31) / 32 * 32.

Fixpoint decode_value (fuel : nat) (t : solidityType) (bytes : jsstr) (offset : option Z) (name : jsstr) : option value :=
  match fuel with
  | O => None
  | S fuel =>
      let elements length (arrayStart : option Z) :=
        let nested := nestedName name in
        let step := roundedLength (staticPartLength nested) in
        l ← mapM (fun i => decode_value fuel t bytes ((fun a => a + i * step) <$> arrayStart) nested)
              (seqZ 0 length);
        Some (VArr l) in
      if isDynamicArray name then
        let arrayOffset := parseHex (substr_at bytes offset 64) in
        let length := parseHex (substr_at bytes arrayOffset 64) in
        elements (default 0 length) ((fun a => a + 32) <$> arrayOffset)
      else if isStaticArray name then
        elements (staticArrayLength name) offset
      else if isDynamicType t then
        let dynamicOffset := parseHex (substr_at bytes offset 64) in
        let length := parseHex (substr_at bytes dynamicOffset 64) in
        let chars := match length with Some n => (1 + (n + 31) / 32) * 64 | None => 0 end in
        _outputFormatter t (Param (substr_at bytes dynamicOffset chars) (Some 0)) name
      else
        _outputFormatter t (Param (substr_at bytes offset (2 * staticPartLength name)) None) name
  end.
Definition decode (t : solidityType) (bytes : jsstr) (offset : Z) (name : jsstr) : option value :=
  decode_value (S (length name)) t bytes (Some offset) name.
End Types.
