(* ===== verification/Coder.v ===== *)
(** web3's Solidity coder (web3.js 603-865): lists of parameters encoded as static
    heads followed by dynamic tails, and decoded back. *)
From S2P Require Import Prelude WordArray Utf8 BigNumber Utils Solidity.

Definition coder_types : list solidityType :=
  [SolidityTypeAddress; SolidityTypeBool; SolidityTypeInt; SolidityTypeUInt; SolidityTypeDynamicBytes;
   SolidityTypeBytes; SolidityTypeString; SolidityTypeReal; SolidityTypeUReal].

(** The first type whose pattern matches; none throws. *)
Definition _requireType (type : jsstr) : option solidityType := head (filter (fun t => isType t type = true) coder_types).
Definition getSolidityTypes (types : list jsstr) : option (list solidityType) := mapM _requireType types.

Definition isDynamicParam (t : solidityType) (type : jsstr) : bool := isDynamicType t || isDynamicArray type.

(** * Encoding *)

(** [+e[0] || 0] *)
Definition first_number (e : encoded) : num :=
  num_or_0 match e with
           | EStr (c :: _) => num_of_string [c] false
           | EArr (EStr s :: _) => num_of_string s false
           | _ => NumNaN
           end.

(** The offsets of the elements of an array of dynamic arrays, each computed from
    the length words of the elements before it. *)
Fixpoint offset_words (offset : num) (n i : Z) (previousLength : num) (before : list encoded) : option jsstr :=
  match before with
  | [] => Some []
  | e :: before =>
      let previousLength := num_add previousLength (first_number e) in
      w ← formatInputNum (num_add (num_add offset (num_of (i * n))) (num_scale 32 previousLength));
      ws ← offset_words offset n (i + 1) previousLength before;
      Some (w ++ ws)
  end.

(** The elements one after the other; the offset handed down adds half the number
    that the text so far spells. *)
Fixpoint append_elements (enc : encoded -> num -> option jsstr) (offset : num) (result : jsstr) (es : list encoded) : option jsstr :=
  match es with
  | [] => Some result
  | e :: es =>
      let additionalOffset := num_of_string result true in
      s ← enc e (num_add offset additionalOffset);
      append_elements enc offset (result ++ s) es
  end.

Fixpoint encode_with (fuel : nat) (type : jsstr) (e : encoded) (offset : num) : option jsstr :=
  match fuel with
  | O => None
  | S fuel =>
      let nested := nestedName type in
      let nestedStaticPartLength := staticPartLength nested in
      if isDynamicArray type then
        match e with
        | EArr (EStr n :: es) =>
            ws ← (if isDynamicArray nested
                  then offset_words offset nestedStaticPartLength 1 (num_of 2) (take (length es) (EStr n :: es))
                  else Some []);
            append_elements (encode_with fuel nested) offset (n ++ ws) es
        | _ => None
        end
      else if isStaticArray type then
        match e with
        | EArr es =>
            ws ← (if isDynamicArray nested
                  then offset_words offset nestedStaticPartLength 0 (num_of 0) (take (length es) (EArr [] :: es))
                  else Some []);
            append_elements (encode_with fuel nested) offset ws es
        | _ => None
        end
      else match e with EStr s => Some s | EArr _ => None end
  end.
Definition encodeWithOffset (type : jsstr) (e : encoded) (offset : num) : option jsstr :=
  encode_with (S (length type)) type e offset.

(** One parameter: its type name, its type and its encoded value. *)
Abbreviation param := (jsstr * solidityType * encoded)%type.

(** The first pass writes the static part of each parameter and counts the dynamic
    ones; the second writes these. *)
Fixpoint encode_heads (ps : list param) (dynamicOffset : num) : option (jsstr * num) :=
  match ps with
  | [] => Some ([], dynamicOffset)
  | (type, t, e) :: ps =>
      if isDynamicParam t type then
        w ← formatInputNum dynamicOffset;
        s ← encodeWithOffset type e dynamicOffset;
        '(ws, o) ← encode_heads ps (num_add dynamicOffset (Num (js_len s)));
        Some (w ++ ws, o)
      else
        s ← encodeWithOffset type e dynamicOffset;
        '(ws, o) ← encode_heads ps dynamicOffset;
        Some (s ++ ws, o)
  end.
Fixpoint encode_tails (ps : list param) (dynamicOffset : num) : option jsstr :=
  match ps with
  | [] => Some []
  | (type, t, e) :: ps =>
      if isDynamicParam t type then
        s ← encodeWithOffset type e dynamicOffset;
        ws ← encode_tails ps (num_add dynamicOffset (Num (js_len s)));
        Some (s ++ ws)
      else encode_tails ps dynamicOffset
  end.
Definition encodeMultiWithOffset (ps : list param) (dynamicOffset : num) : option jsstr :=
  '(heads, o) ← encode_heads ps dynamicOffset;
  tails ← encode_tails ps o;
  Some (heads ++ tails).

Definition head_size (t : solidityType) (type : jsstr) : Z :=
  if isDynamicParam t type then 32 else roundedLength (staticPartLength type).

Section Coder.
Context (rm : rounding).

(** A parameter that is not given is undefined. *)
Fixpoint encode_all_params (types : list jsstr) (ts : list solidityType) (params : list value) : option (list param) :=
  match types, ts with
  | type :: types, t :: ts =>
      e ← encode rm t (default VUndefined (head params)) type;
      ps ← encode_all_params types ts (tail params);
      Some ((type, t, e) :: ps)
  | _, _ => Some []
  end.

Definition encodeParams (types : list jsstr) (params : list value) : option jsstr :=
  solidityTypes ← getSolidityTypes types;
  ps ← encode_all_params types solidityTypes params;
  let dynamicOffset := fold_left (fun acc '(type, t, _) => acc + head_size t type) ps 0 in
  encodeMultiWithOffset ps (num_of dynamicOffset).
Definition encodeParam (type : jsstr) (param : value) : option jsstr := encodeParams [type] [param].

(** * Decoding *)

(** Running sums of the static sizes, each without its own. *)
Fixpoint getOffsets (types : list jsstr) (before : Z) : list Z :=
  match types with
  | [] => []
  | type :: types => before :: getOffsets types (before + staticPartLength type)
  end.
Fixpoint decode_at (types : list jsstr) (ts : list solidityType) (offsets : list Z) (bytes : jsstr) : option (list value) :=
  match types, ts, offsets with
  | type :: types, t :: ts, offset :: offsets =>
      v ← decode rm t bytes offset type;
      vs ← decode_at types ts offsets bytes;
      Some (v :: vs)
  | _, _, _ => Some []
  end.
Definition decodeParams (types : list jsstr) (bytes : jsstr) : option (list value) :=
  solidityTypes ← getSolidityTypes types;
  decode_at types solidityTypes (getOffsets types 0) bytes.
Definition decodeParam (type : jsstr) (bytes : jsstr) : option value :=
  vs ← decodeParams [type] bytes; head vs.
End Coder.
