(* ===== verification/CoderRoundtrip.v ===== *)
(** The coder's round trip: decoding what was encoded gives the parameters back,
    for the types the coder handles; and the types it does not. *)
From S2P Require Import Prelude WordArray Utf8 BigNumber Utils Solidity Coder.

(** A character that is not in a literal. *)
Ltac str_notin := apply (bool_decide_eq_true_1 (_ ∉ _)); vm_compute; reflexivity.

(** * Words *)

(** The 64 digits of a number. *)
Definition w64 (z : Z) : jsstr := replicate (64 - length (to_base 16 z)) 48 ++ to_base 16 z.

Lemma mjoin_zeros n : mjoin (replicate n (str "0")) = replicate n 48.
Proof. induction n as [|n IH]; [done|]. change (str "0" ++ mjoin (replicate n (str "0")) = 48 :: replicate n 48). by rewrite IH. Qed.

Lemma padLeft_spec s n :
  (length s <= n)%nat -> padLeft s (Z.of_nat n) = Some (replicate (n - length s) 48 ++ s).
Proof.
  intros H. unfold padLeft, repeat_sign, js_len. replace (_ <? -1) with false by lia.
  cbn [fmap option_fmap option_map]. rewrite mjoin_zeros. do 3 f_equal. lia.
Qed.
Lemma padRight_spec s n :
  (length s <= n)%nat -> padRight s (Z.of_nat n) = Some (s ++ replicate (n - length s) 48).
Proof.
  intros H. unfold padRight, repeat_sign, js_len. replace (_ <? -1) with false by lia.
  cbn [fmap option_fmap option_map]. rewrite mjoin_zeros. do 3 f_equal. lia.
Qed.

Lemma w64_length z : 0 <= z < 2 ^ 256 -> length (w64 z) = 64%nat.
Proof.
  intros H. unfold w64. rewrite length_app, length_replicate.
  pose proof (to_base_length 16 z 64 ltac:(lia) ltac:(change (16 ^ Z.of_nat 64) with (2 ^ 256); lia) ltac:(lia)). lia.
Qed.

Lemma word_integer z : 0 <= z < 2 ^ 256 -> word (Big z 0) = Some (w64 z).
Proof.
  intros H. unfold word. cbn [toString_base]. change 64 with (Z.of_nat 64). rewrite padLeft_spec; [done|].
  apply (to_base_length 16 z 64); [lia|change (16 ^ Z.of_nat 64) with (2 ^ 256); lia|lia].
Qed.

(** Two's complement of a signed number. *)
Definition twos (z : Z) : Z := if z <? 0 then 2 ^ 256 + z else z.

Lemma formatInputInt_big z :
  - 2 ^ 256 <= z < 2 ^ 256 -> formatInputInt (VBig (Big z 0)) = Some (Param (w64 (twos z)) None).
Proof.
  intros H. unfold formatInputInt, toTwosComplement. cbn [toBigNumber falsy mbind option_bind].
  rewrite round_dp_integer. cbn [lessThan0 is_neg]. unfold twos.
  destruct (Z.ltb_spec z 0).
  - assert (plus (plus all_ones (Big z 0)) (Big 1 0) = Big (2 ^ 256 + z) 0) as ->.
    { unfold all_ones, plus. cbn [Nat.add norm Z.of_nat]. rewrite !Z.pow_0_r. f_equal. lia. }
    by rewrite word_integer by lia.
  - by rewrite word_integer by lia.
Qed.

Lemma toBigNumber_num z : 0 <= z < 2 ^ 53 -> toBigNumber ROUND_DOWN (VNum z) = Some (Big z 0).
Proof.
  intros H. unfold toBigNumber. destruct z as [|p|p]; [done| |lia].
  cbn [falsy]. cbn [js_to_string]. unfold number_to_string.
  rewrite js_dec_value_safe by lia. apply new_BigNumber_decimal.
Qed.

Lemma formatInputInt_num z : 0 <= z < 2 ^ 53 -> formatInputInt (VNum z) = Some (Param (w64 z) None).
Proof.
  intros H. unfold formatInputInt, toTwosComplement. rewrite toBigNumber_num by done.
  cbn [mbind option_bind]. rewrite round_dp_integer. cbn [lessThan0 is_neg].
  replace (z <? 0) with false by lia. by rewrite word_integer by lia.
Qed.

Lemma encode_plain w : encode_param (Param w None) = Some w.
Proof. unfold encode_param. cbn. by rewrite app_nil_r. Qed.

Lemma formatInputNum_even z : 0 <= z < 2 ^ 53 -> formatInputNum (Num (2 * z)) = Some (w64 z).
Proof.
  intros H. unfold formatInputNum. rewrite (Z.mul_comm 2), Z.quot_mul by lia.
  rewrite formatInputInt_num by done. apply encode_plain.
Qed.

Lemma w64_read rm z : 0 <= z -> new_BigNumber rm (w64 z) (Some 16) = Some (Big z 0).
Proof. intros H. unfold w64. apply new_BigNumber_base; lia. Qed.

Lemma w64_digits z : 0 <= z < 2 ^ 256 ->
  exists ds, w64 z = digit_char <$> ds /\ Forall (is_digit 16) ds /\ length ds = 64%nat /\ of_digits 16 ds = z.
Proof.
  intros H. unfold w64. exists (replicate (64 - length (to_base 16 z)) 0 ++ digits 16 z).
  pose proof (w64_length z H) as Hl. unfold w64 in Hl.
  rewrite to_base_nonneg in * by lia. change 48 with (digit_char 0) in *.
  rewrite <-fmap_replicate, <-fmap_app in *. split; [done|]. split; [|split].
  - apply Forall_app. split; [apply Forall_replicate; unfold is_digit; lia|apply digits_valid; lia].
  - by rewrite length_fmap in Hl.
  - rewrite of_digits_zeros by lia. apply of_digits_digits; lia.
Qed.

Lemma hex_prefix_digits ds acc :
  Forall (is_digit 16) ds ->
  hex_prefix (digit_char <$> ds) (Some acc) = Some (acc * 16 ^ Z.of_nat (length ds) + of_digits 16 ds).
Proof.
  intros H. revert acc. induction H as [|d ds Hd _ IH]; intros acc.
  - cbn [fmap list_fmap hex_prefix length]. change (16 ^ Z.of_nat 0) with 1. change (of_digits 16 []) with 0. f_equal. lia.
  - cbn [fmap list_fmap hex_prefix]. rewrite char_digit_char by (done || lia). cbn [default].
    change (list_fmap Z Z digit_char ds) with (digit_char <$> ds). unfold default, id.
    rewrite IH, of_digits_cons by lia. cbn [length]. rewrite Nat2Z.inj_succ, Z.pow_succ_r by lia. f_equal. lia.
Qed.

(** A word read by [parseInt]. *)
Lemma parseHex_w64 z : 0 <= z < 2 ^ 53 -> parseHex (w64 z) = Some z.
Proof.
  intros H. destruct (w64_digits z ltac:(lia)) as (ds & -> & Hd & Hl & <-). unfold parseHex.
  destruct Hd as [|d ds Hd Hds]; [done|]. cbn [fmap list_fmap hex_prefix].
  rewrite char_digit_char by (done || lia). change (list_fmap Z Z digit_char ds) with (digit_char <$> ds).
  unfold default, id. rewrite Z.mul_0_r, Z.add_0_l, hex_prefix_digits by done.
  rewrite of_digits_cons in * by lia. cbn [fmap option_fmap option_map]. rewrite f64_exact; [done|lia].
Qed.

(** * Values of one word *)

(** A type of one word by its name without brackets, and the values it takes as
    they come back: numbers as BigNumbers, addresses in lower case, byte strings
    of the full size.  A signed number ends at 2^252. *)
Inductive word_value : solidityType -> jsstr -> value -> Prop :=
  | WVUInt ds z :
      forallb is_dec_digit ds = true -> 0 <= z < 2 ^ 256 ->
      word_value SolidityTypeUInt (str "uint" ++ ds) (VBig (Big z 0))
  | WVInt ds z :
      forallb is_dec_digit ds = true -> - 2 ^ 255 <= z < 2 ^ 252 ->
      word_value SolidityTypeInt (str "int" ++ ds) (VBig (Big z 0))
  | WVBool b : word_value SolidityTypeBool (str "bool") (VBool b)
  | WVAddress h :
      length h = 40%nat -> forallb is_lower_hex h = true ->
      word_value SolidityTypeAddress (str "address") (VStr (str "0x" ++ h))
  | WVBytes n h :
      1 <= n <= 32 -> js_len h = 2 * n ->
      word_value SolidityTypeBytes (str "bytes" ++ to_base 10 n) (VStr (str "0x" ++ h)).

(** The word of a value: what the input formatter writes and the output formatter
    reads back. *)
Definition word_of (rm : rounding) (t : solidityType) (base : jsstr) (v : value) (w : jsstr) : Prop :=
  length w = 64%nat /\ _inputFormatter rm t v = Some (Param w None) /\
  _outputFormatter rm t (Param w None) base = Some v.

Lemma or_zero_w64 z : 0 <= z < 2 ^ 256 -> or_zero (w64 z) = w64 z.
Proof. intros H. pose proof (w64_length z H). by destruct (w64 z). Qed.

Lemma uint_word rm ds z :
  0 <= z < 2 ^ 256 -> word_of rm SolidityTypeUInt (str "uint" ++ ds) (VBig (Big z 0)) (w64 z).
Proof.
  intros H. split; [by apply w64_length|]. split.
  - cbn [_inputFormatter]. rewrite formatInputInt_big by lia. unfold twos. by replace (z <? 0) with false by lia.
  - cbn [_outputFormatter]. unfold formatOutputUInt. cbn [staticPart isDynamic p_offset p_value mbind option_bind].
    by rewrite or_zero_w64, w64_read by lia.
Qed.

(** The leading digit decides the sign. *)
Lemma w64_leading z :
  0 <= z < 2 ^ 256 -> js_substr (w64 z) 0 1 = [digit_char (z / 2 ^ 252)] /\ 0 <= z / 2 ^ 252 < 16.
Proof.
  intros H. assert (0 <= z / 2 ^ 252 < 16) as Hr by (split; [apply Z.div_pos|apply Z.div_lt_upper_bound]; lia).
  split; [|done]. destruct (w64_digits z H) as (ds & -> & Hd & Hl & E).
  destruct Hd as [|d ds Hd Hds]; [done|]. rewrite js_substr_nonneg by lia. cbn.
  rewrite of_digits_cons in E by lia. injection Hl as Hl. pose proof (of_digits_bound 16 ltac:(lia) ds Hds) as Hb.
  rewrite Hl in *. change (16 ^ Z.of_nat 63) with (2 ^ 252) in *.
  change ([digit_char d] = [digit_char (z / 2 ^ 252)]). do 2 f_equal.
  apply Z.div_unique with (of_digits 16 ds); lia.
Qed.

Lemma signedIsNegative_w64 rm z : 0 <= z < 2 ^ 256 -> signedIsNegative rm (w64 z) = Some (2 ^ 252 <=? z).
Proof.
  intros H. destruct (w64_leading z H) as [E Hd]. unfold signedIsNegative. rewrite E.
  set (d := z / 2 ^ 252) in *.
  assert ((2 ^ 252 <=? z) = (1 <=? d)) as ->.
  { subst d. apply eq_true_iff_eq. rewrite !Z.leb_le. split; [intros H1; apply Z.div_le_lower_bound; lia|].
    intros H1. pose proof (Z.mul_div_le z (2 ^ 252) ltac:(lia)). lia. }
  change [digit_char d] with (digit_char <$> [d]).
  rewrite new_BigNumber_digits; [|done|constructor; [done|constructor]|lia|lia].
  cbn [mbind option_bind]. change (of_digits 16 [d]) with d.
  clearbody d. clear -Hd. assert (d ∈ seqZ 0 16) as Hin by (apply elem_of_seqZ; lia).
  revert d Hin Hd. cbn [toString_base].
  assert (forallb (fun d => bool_decide (Some (bool_decide (js_substr (to_base 2 d) 0 1 = str "1")) = Some (1 <=? d)))
            (seqZ 0 16) = true) as Hall by (vm_compute; reflexivity).
  intros d Hin _. rewrite forallb_forall in Hall. apply list_elem_of_In, Hall, bool_decide_eq_true in Hin. exact Hin.
Qed.

Lemma int_word rm ds z :
  - 2 ^ 255 <= z < 2 ^ 252 -> word_of rm SolidityTypeInt (str "int" ++ ds) (VBig (Big z 0)) (w64 (twos z)).
Proof.
  intros H. assert (0 <= twos z < 2 ^ 256) as Ht by (unfold twos; destruct (Z.ltb_spec z 0); lia).
  split; [by apply w64_length|]. split; [cbn [_inputFormatter]; apply formatInputInt_big; lia|].
  cbn [_outputFormatter]. unfold formatOutputInt. cbn [staticPart isDynamic p_offset p_value mbind option_bind].
  rewrite or_zero_w64, signedIsNegative_w64, w64_read by lia. cbn [mbind option_bind fmap option_fmap option_map].
  do 2 f_equal. unfold twos. destruct (Z.ltb_spec z 0).
  - replace (2 ^ 252 <=? 2 ^ 256 + z) with true by lia.
    unfold minus, all_ones, negated, plus. cbn [Nat.add norm Z.of_nat]. rewrite !Z.pow_0_r. f_equal. lia.
  - by replace (2 ^ 252 <=? z) with false by lia.
Qed.

Lemma bool_word rm b :
  word_of rm SolidityTypeBool (str "bool") (VBool b) (replicate 63 48 ++ [if b then 49 else 48]).
Proof. by destruct b. Qed.

(** A word spelled by its digits. *)
Lemma w64_of_digits ds :
  Forall (is_digit 16) ds -> (length ds <= 64)%nat ->
  w64 (of_digits 16 ds) = replicate (64 - length ds) 48 ++ (digit_char <$> ds) /\ 0 <= of_digits 16 ds < 2 ^ 256.
Proof.
  intros Hd Hl. pose proof (of_digits_bound 16 ltac:(lia) ds Hd) as Hb.
  assert (16 ^ Z.of_nat (length ds) <= 16 ^ Z.of_nat 64) as Hp by (apply Z.pow_le_mono_r; lia).
  change (16 ^ Z.of_nat 64) with (2 ^ 256) in Hp. split; [|lia].
  destruct (w64_digits (of_digits 16 ds) ltac:(lia)) as (ds' & -> & Hd' & Hl' & E).
  change 48 with (digit_char 0). rewrite <-fmap_replicate, <-fmap_app. f_equal.
  apply (of_digits_inj 16); [lia|rewrite Hl', length_app, length_replicate; lia|done| |].
  - apply Forall_app. split; [apply Forall_replicate; unfold is_digit; lia|done].
  - by rewrite of_digits_zeros by lia.
Qed.

Lemma address_word rm h :
  length h = 40%nat -> forallb is_lower_hex h = true ->
  word_of rm SolidityTypeAddress (str "address") (VStr (str "0x" ++ h)) (replicate 24 48 ++ h).
Proof.
  intros Hl Hh. destruct (lower_hex_digits h Hh) as (ds & -> & Hd). rewrite length_fmap in Hl.
  destruct (w64_of_digits ds Hd ltac:(lia)) as [E Hr].
  split; [by rewrite length_app, length_replicate, length_fmap, Hl|]. split.
  - cbn [_inputFormatter]. unfold formatInputInt, toTwosComplement, toBigNumber.
    change (falsy (VStr (str "0x" ++ (digit_char <$> ds)))) with false. cbv iota.
    assert (js_starts_with (str "0x") (str "0x" ++ (digit_char <$> ds)) = true) as -> by done.
    cbn [orb]. rewrite replace_0x_prefixed.
    rewrite new_BigNumber_digits; [|by destruct ds|done|lia|lia].
    cbn [mbind option_bind]. rewrite round_dp_integer. cbn [lessThan0 is_neg].
    replace (of_digits 16 ds <? 0) with false by lia. rewrite word_integer by done.
    cbn [mbind option_bind]. rewrite E, Hl. done.
  - cbn [_outputFormatter]. unfold formatOutputAddress. cbn [staticPart isDynamic p_offset p_value mbind option_bind].
    cbn [fmap option_fmap option_map]. do 3 f_equal. unfold js_slice, js_len.
    rewrite length_app, length_replicate, length_fmap, Hl.
    change (js_rel (Z.of_nat (24 + 40)) (Z.of_nat (24 + 40) - 40)) with 24%nat.
    change (js_rel (Z.of_nat (24 + 40)) (Z.of_nat (24 + 40)) - 24)%nat with 40%nat.
    rewrite drop_app_length' by by rewrite length_replicate. apply take_ge. rewrite length_fmap. lia.
Qed.

(** [toHex] leaves a hexadecimal string alone. *)
Lemma toHex_prefixed rm h : toHex rm (VStr (str "0x" ++ h)) = Some (str "0x" ++ h).
Proof.
  unfold toHex. assert (js_starts_with (str "-0x") (str "0x" ++ h) = false) as -> by done.
  assert (js_starts_with (str "0x") (str "0x" ++ h) = true) as -> by done. done.
Qed.

Lemma rounded_chars_spec s : exists k, rounded_chars s = Z.of_nat (64 * k) /\
  (length s <= 64 * k < length s + 64)%nat.
Proof.
  unfold rounded_chars, js_len. exists (Z.to_nat ((Z.of_nat (length s) + 63) / 64)).
  split; [|]; Z.div_mod_to_equations; lia.
Qed.

Lemma bytes_word rm n h :
  1 <= n <= 32 -> js_len h = 2 * n ->
  word_of rm SolidityTypeBytes (str "bytes" ++ to_base 10 n) (VStr (str "0x" ++ h)) (h ++ replicate (64 - length h) 48).
Proof.
  intros Hn Hl. unfold js_len in Hl. destruct (rounded_chars_spec h) as (k & Ek & Hk).
  assert (k = 1)%nat as -> by lia.
  split; [rewrite length_app, length_replicate; lia|]. split.
  - cbn [_inputFormatter]. unfold formatInputBytes. rewrite toHex_prefixed. cbn [mbind option_bind].
    change (js_substr_from (str "0x" ++ h) 2) with (drop (js_rel (js_len (str "0x" ++ h)) 2) (str "0x" ++ h)).
    rewrite js_rel_nonneg by (unfold js_len; rewrite length_app; change (length (str "0x")) with 2%nat; lia).
    change (drop (Z.to_nat 2) (str "0x" ++ h)) with h. rewrite Ek, padRight_spec by lia. done.
  - cbn [_outputFormatter]. unfold formatOutputBytes.
    assert (js_starts_with (str "bytes") (str "bytes" ++ to_base 10 n) = true) as -> by done.
    change (drop 5 (str "bytes" ++ to_base 10 n)) with (to_base 10 n).
    rewrite to_base_nonneg by lia. rewrite span_all by (apply digits_dec, digits_valid; lia). cbn [fst].
    unfold dec_value. rewrite of_base_digits by (try apply digits_valid; lia).
    rewrite of_digits_digits by lia. unfold default, id.
    cbn [staticPart isDynamic p_offset p_value mbind option_bind fmap option_fmap option_map]. do 3 f_equal.
    unfold js_slice. rewrite !js_rel_nonneg by (unfold js_len; rewrite length_app, length_replicate; lia).
    rewrite Nat.sub_0_r, drop_0, take_app_le by lia. apply take_ge. lia.
Qed.

Lemma word_codec rm t base v : word_value t base v -> exists w, word_of rm t base v w.
Proof.
  destruct 1; eexists; [apply uint_word|apply int_word|apply bool_word|apply address_word|apply bytes_word]; done.
Qed.

(** * Array type names *)

(** A pair of brackets: with a size, or empty. *)
Definition wrap (ds : jsstr) : jsstr := [91] ++ ds ++ [93].
(** The brackets, the outermost (the last of the name) first. *)
Definition arr_name (base : jsstr) (ns : list jsstr) : jsstr := base ++ (reverse ns ≫= wrap).
Definition all_digits (ds : jsstr) : Prop := forallb is_dec_digit ds = true.

Lemma arr_name_cons base n ns : arr_name base (n :: ns) = arr_name base ns ++ wrap n.
Proof. unfold arr_name. rewrite reverse_cons, bind_app, app_assoc. cbn. by rewrite app_nil_r. Qed.

Lemma nested_scan_dims l fuel :
  Forall all_digits l -> (length (l ≫= wrap) <= fuel)%nat -> nested_scan fuel (l ≫= wrap) = wrap <$> l.
Proof.
  intros H. revert fuel. induction H as [|ds l Hds _ IH]; intros fuel Hf; [by destruct fuel|].
  rewrite bind_cons in *. unfold wrap at 1 in Hf. unfold wrap at 1.
  cbn [app] in *. destruct fuel as [|fuel]; [cbn in Hf; lia|]. cbn [nested_scan].
  replace (91 =? 91) with true by lia. rewrite <-app_assoc. cbn [app].
  rewrite span_stop by done. replace (93 =? 93) with true by lia.
  rewrite IH; [done|]. cbn in Hf. rewrite !length_app in Hf. cbn in Hf. lia.
Qed.

Lemma nested_scan_base base s fuel :
  91 ∉ base -> (length base + length s <= fuel)%nat ->
  (forall fuel, (length s <= fuel)%nat -> nested_scan fuel s = nested_scan (length s) s) ->
  nested_scan fuel (base ++ s) = nested_scan (length s) s.
Proof.
  intros Hb Hf Hs. revert fuel Hf. induction base as [|c base IH]; intros fuel Hf; cbn [app length] in *; [by apply Hs|].
  apply not_elem_of_cons in Hb as [Hc Hb]. destruct fuel as [|fuel]; [lia|]. cbn [nested_scan].
  replace (c =? 91) with false by lia. apply IH; [done|lia].
Qed.

Lemma nestedTypes_dims base l :
  91 ∉ base -> Forall all_digits l -> nestedTypes (base ++ (l ≫= wrap)) = wrap <$> l.
Proof.
  intros Hb Hl. unfold nestedTypes. rewrite nested_scan_base; [by apply nested_scan_dims|done|by rewrite length_app|].
  intros fuel Hf. by rewrite !nested_scan_dims.
Qed.

Section Names.
Context (base : jsstr) (Hbase : 91 ∉ base).

Lemma nestedTypes_arr ns : Forall all_digits ns -> nestedTypes (arr_name base ns) = wrap <$> reverse ns.
Proof. intros H. apply nestedTypes_dims; [done|]. by rewrite Forall_reverse. Qed.

Lemma last_arr n ns : Forall all_digits (n :: ns) -> last (nestedTypes (arr_name base (n :: ns))) = Some (wrap n).
Proof. intros H. rewrite nestedTypes_arr, reverse_cons, fmap_app by done. cbn. apply last_snoc. Qed.

Lemma has_digit_wrap n : all_digits n -> has_digit (wrap n) = bool_decide (n <> []).
Proof.
  intros H. unfold has_digit, wrap. destruct n as [|c n]; [done|].
  cbn in H. apply andb_prop in H as [H _]. cbn. by rewrite H.
Qed.

Lemma isDynamicArray_arr n ns :
  Forall all_digits (n :: ns) -> isDynamicArray (arr_name base (n :: ns)) = bool_decide (n = []).
Proof.
  intros H. unfold isDynamicArray. rewrite last_arr by done. rewrite has_digit_wrap by by apply Forall_inv in H.
  by destruct n.
Qed.
Lemma isStaticArray_arr n ns :
  Forall all_digits (n :: ns) -> isStaticArray (arr_name base (n :: ns)) = bool_decide (n <> []).
Proof.
  intros H. unfold isStaticArray. rewrite last_arr by done. apply has_digit_wrap. by apply Forall_inv in H.
Qed.
Lemma no_array : isDynamicArray (arr_name base []) = false /\ isStaticArray (arr_name base []) = false.
Proof.
  unfold isDynamicArray, isStaticArray. rewrite nestedTypes_arr by constructor. done.
Qed.

Lemma nestedName_arr n ns : Forall all_digits (n :: ns) -> nestedName (arr_name base (n :: ns)) = arr_name base ns.
Proof.
  intros H. unfold nestedName. rewrite last_arr by done. rewrite arr_name_cons, js_substr_nonneg by lia.
  unfold js_len. rewrite length_app, drop_0. apply take_app_length'. lia.
Qed.

Lemma parseInt10_wrap n : all_digits n -> n <> [] -> parseInt10 (drop 1 (wrap n)) = Some (dec_value n).
Proof.
  intros H Hn. unfold parseInt10. change (drop 1 (wrap n)) with (n ++ [93]). rewrite span_stop by done. cbn [fst]. by destruct n.
Qed.
Lemma staticArrayLength_arr n ns :
  Forall all_digits (n :: ns) -> n <> [] -> staticArrayLength (arr_name base (n :: ns)) = dec_value n.
Proof.
  intros H Hn. unfold staticArrayLength. rewrite last_arr by done.
  rewrite parseInt10_wrap; [done| |done]. by apply Forall_inv in H.
Qed.

Lemma js_slice_wrap n : js_slice (wrap n) 1 (-1) = n.
Proof.
  unfold js_slice, js_rel, js_len, wrap. cbn [app length]. rewrite length_app. cbn [length].
  replace (1 <? 0) with false by lia. replace (-1 <? 0) with true by lia.
  replace (Z.to_nat (Z.min 1 _)) with 1%nat by lia. cbn [drop].
  replace (_ - 1)%nat with (length n) by lia. apply take_app_length.
Qed.

(** The size a pair of brackets contributes: an empty one and a zero count once. *)
Definition dim (n : jsstr) : Z := if bool_decide (n = []) then 1 else if dec_value n =? 0 then 1 else dec_value n.
Lemma dim_size_wrap n : all_digits n -> dim_size (wrap n) = dim n.
Proof.
  intros H. unfold dim_size, dim. rewrite js_slice_wrap. unfold parseInt10. rewrite span_all by done. cbn [fst].
  destruct n as [|c n]; [done|]. rewrite bool_decide_false by done. by destruct (dec_value (c :: n)).
Qed.

Definition dims (ns : list jsstr) : Z := fold_right (fun n p => dim n * p) 1 ns.
Lemma staticPartLength_arr ns : Forall all_digits ns -> staticPartLength (arr_name base ns) = 32 * dims ns.
Proof.
  intros H. unfold staticPartLength. rewrite nestedTypes_arr by done.
  assert (forall l a, fold_left Z.mul l a = a * fold_right Z.mul 1 l) as Hfold.
  { induction l as [|x l IH]; intros a; cbn; [lia|]. rewrite IH. lia. }
  destruct ns as [|n ns]; [done|].
  assert (match wrap <$> reverse (n :: ns) with [] => [str "[1]"] | l => l end = wrap <$> reverse (n :: ns)) as ->.
  { rewrite reverse_cons, fmap_app. by destruct (wrap <$> reverse ns). }
  rewrite Hfold. f_equal. rewrite <-list_fmap_compose, fmap_reverse.
  assert (forall l, fold_right Z.mul 1 (reverse l) = fold_right Z.mul 1 l) as ->.
  { assert (forall l a, fold_right Z.mul a l = a * fold_right Z.mul 1 l) as Ha.
    { induction l as [|x l IH]; intros a; cbn; [lia|]. rewrite IH. lia. }
    induction l as [|x l IH]; [done|]. rewrite reverse_cons, foldr_app, Ha, IH. cbn. lia. }
  clear Hfold. induction H as [|x l Hx _ IH]; [done|]. cbn. cbn in IH. rewrite IH. f_equal. by apply dim_size_wrap.
Qed.
End Names.

(** * Values of several words *)

Section Static.
Context (rm : rounding) (t : solidityType).

(** [s] is the text of [v] under the type [name], wherever it stands in the
    encoding; [k] levels of brackets are to be taken off. *)
Definition codec (k : nat) (name : jsstr) (v : value) (s : jsstr) : Prop :=
  exists e,
    (forall fuel, (k < fuel)%nat -> encode_value rm fuel t v name = Some e) /\
    (forall fuel o, (k < fuel)%nat -> encode_with fuel name e o = Some s) /\
    (forall fuel pre post, (k < fuel)%nat -> Z.even (js_len pre) = true ->
       decode_value rm fuel t (pre ++ s ++ post) (Some (js_len pre / 2)) name = Some v).

Lemma js_len_app s s' : js_len (s ++ s') = js_len s + js_len s'.
Proof. unfold js_len. rewrite length_app. lia. Qed.
Lemma js_len_nonneg s : 0 <= js_len s.
Proof. unfold js_len. lia. Qed.

Lemma decode_elements k name step l ss fuel :
  Forall2 (fun v s => codec k name v s /\ js_len s = 2 * step) l ss -> (k < fuel)%nat -> forall m a pre post,
  2 * (a + m * step) = js_len pre ->
  mapM (fun i => decode_value rm fuel t (pre ++ mjoin ss ++ post) (Some (a + i * step)) name)
    (seqZ m (Z.of_nat (length l))) = Some l.
Proof.
  intros H Hk. induction H as [|v s l ss [(e & _ & _ & Hd) Hs] _ IH]; intros m a pre post Ha; [done|].
  cbn [length]. rewrite seqZ_cons by lia.
  replace (Z.pred (Z.of_nat (S (length l)))) with (Z.of_nat (length l)) by lia.
  change (mjoin (s :: ss)) with (s ++ mjoin ss). cbn [mapM].
  replace (a + m * step) with (js_len pre / 2) by (rewrite <-Ha, (Z.mul_comm 2); apply Z.div_mul; lia).
  rewrite <-app_assoc, Hd; [|done|rewrite <-Ha, Z.even_mul; done]. cbn [mbind option_bind].
  specialize (IH (Z.succ m) a (pre ++ s) post ltac:(rewrite js_len_app; lia)).
  rewrite <-app_assoc in IH. by rewrite IH.
Qed.

Lemma encode_elements k name l ss :
  Forall2 (codec k name) l ss ->
  exists es,
    length es = length l /\
    (forall fuel, (k < fuel)%nat -> mapM (fun v => encode_value rm fuel t v name) l = Some es) /\
    (forall fuel o r, (k < fuel)%nat -> append_elements (encode_with fuel name) o r es = Some (r ++ mjoin ss)).
Proof.
  induction 1 as [|v s l ss (e & He & Hw & _) _ (es & Hl & Hes & Hws)].
  { exists []. split; [done|]. split; [done|]. intros. cbn. by rewrite app_nil_r. }
  exists (e :: es). split; [cbn; lia|]. split.
  - intros fuel Hf. cbn [mapM]. rewrite He by done. cbn [mbind option_bind]. by rewrite Hes.
  - intros fuel o r Hf. cbn [append_elements]. rewrite Hw by done. cbn [mbind option_bind].
    rewrite Hws by done. change (mjoin (s :: ss)) with (s ++ mjoin ss). by rewrite <-app_assoc.
Qed.

(** The elements of an array asked for by index. *)
Lemma mapM_index {A} (f : value -> option A) l j l' :
  drop j l' = l -> mapM (fun i => v ← index (VArr l') i; f v) (seq j (length l)) = mapM f l.
Proof.
  revert j. induction l as [|v l IH]; intros j Hj; [done|]. cbn [length seq mapM].
  assert (l' !! j = Some v) as Hv.
  { rewrite <-(Nat.add_0_r j), <-lookup_drop, Hj. done. }
  change (index (VArr l') j) with (Some (default VUndefined (l' !! j))). rewrite Hv.
  unfold default, id. cbn [mbind option_bind].
  destruct (f v); [|done]. cbn [mbind option_bind]. rewrite IH; [done|].
  rewrite <-(Nat.add_1_r j), <-drop_drop, Hj. done.
Qed.
Lemma mapM_index_all {A} (f : value -> option A) l :
  mapM (fun i => v ← index (VArr l) i; f v) (seq 0 (length l)) = mapM f l.
Proof. by apply mapM_index. Qed.

Context (base : jsstr) (Hbase : 91 ∉ base) (Hstatic : isDynamicType t = false).

Definition static_dim (n : jsstr) : Prop := all_digits n /\ n <> [] /\ 1 <= dec_value n.
Fixpoint static_value (ns : list jsstr) (v : value) : Prop :=
  match ns with
  | [] => exists w, word_of rm t base v w
  | n :: ns => exists l, v = VArr l /\ Z.of_nat (length l) = dec_value n /\ Forall (static_value ns) l
  end.

Lemma static_dims ns : Forall static_dim ns -> Forall all_digits ns /\ 1 <= dims ns.
Proof.
  induction 1 as [|n ns (Hd & Hn & Hp) _ [IH1 IH2]]; [split; [constructor|cbn; lia]|].
  split; [by constructor|]. unfold dims, dim in *. cbn [fold_right]. rewrite bool_decide_false by done.
  replace (dec_value n =? 0) with false by lia. nia.
Qed.

Lemma word_text v w : word_of rm t base v w -> codec 0 (arr_name base []) v w.
Proof.
  intros (Hl & Hi & Ho). destruct (no_array base Hbase) as [E1 E2].
  assert (arr_name base [] = base) as Eb by apply app_nil_r. exists (EStr w). split_and!.
  - intros [|fuel] Hf; [lia|]. cbn [encode_value]. rewrite E1, E2, Hi. cbn [mbind option_bind].
    by rewrite encode_plain.
  - intros [|fuel] o Hf; [lia|]. cbn [encode_with]. by rewrite E1, E2.
  - intros [|fuel] pre post Hf He; [lia|]. cbn [decode_value]. rewrite E1, E2, Hstatic.
    rewrite staticPartLength_arr by (done || constructor). unfold substr_at, default, id.
    apply Z.even_spec in He as [h Eh]. rewrite Eh, (Z.mul_comm 2 h), Z.div_mul by lia.
    rewrite js_substr_nonneg by (pose proof (js_len_nonneg pre); lia).
    rewrite take_drop_app; [by rewrite Eb|unfold js_len in *; lia|change (32 * dims []) with 32; lia].
Qed.

Lemma roundedLength_words n : roundedLength (32 * n) = 32 * n.
Proof. unfold roundedLength. Z.div_mod_to_equations; lia. Qed.

(** The texts of the elements of an array. *)
Lemma forall_texts ns l :
  (forall v, static_value ns v -> exists s, codec (length ns) (arr_name base ns) v s /\ js_len s = 64 * dims ns) ->
  Forall (static_value ns) l ->
  exists ss, Forall2 (fun v s => codec (length ns) (arr_name base ns) v s /\ js_len s = 2 * (32 * dims ns)) l ss /\
             js_len (mjoin ss) = Z.of_nat (length l) * (64 * dims ns).
Proof.
  intros IH. induction 1 as [|v l Hv _ (ss & Hss & Hl)]; [by exists []|].
  destruct (IH v Hv) as (s & Hs & Hsl). exists (s :: ss). split; [constructor; [split; [done|lia]|done]|].
  change (mjoin (s :: ss)) with (s ++ mjoin ss). rewrite js_len_app, Hl, Hsl. cbn [length]. lia.
Qed.

Lemma static_text ns v :
  Forall static_dim ns -> static_value ns v ->
  exists s, codec (length ns) (arr_name base ns) v s /\ js_len s = 64 * dims ns.
Proof.
  intros Hns. revert v. induction Hns as [|n ns Hn Hns IH]; intros v Hv.
  { destruct Hv as [w Hw]. exists w. split; [by apply word_text|]. destruct Hw as [Hl _].
    unfold js_len. rewrite Hl. done. }
  destruct Hv as (l & -> & Hl & Hall). destruct (static_dims (n :: ns)) as [Hd Hp]; [by constructor|].
  destruct (static_dims ns Hns) as [Hd' Hp']. destruct Hn as (Hnd & Hn0 & Hn1).
  destruct (forall_texts ns l IH Hall) as (ss & Hss & Hlen).
  destruct (encode_elements (length ns) (arr_name base ns) l ss) as (es & Hle & Hes & Hws).
  { eapply Forall2_impl; [exact Hss|]. by intros ? ? []. }
  exists (mjoin ss). split.
  - assert (isDynamicArray (arr_name base (n :: ns)) = false) as E1
      by (rewrite isDynamicArray_arr by done; by apply bool_decide_eq_false).
    assert (isStaticArray (arr_name base (n :: ns)) = true) as E2
      by (rewrite isStaticArray_arr by done; by apply bool_decide_eq_true).
    assert (isDynamicArray (arr_name base ns) = false) as E3.
    { destruct Hns as [|n' ns' (? & ? & ?) ?]; [by apply no_array|].
      rewrite isDynamicArray_arr by done. by apply bool_decide_eq_false. }
    exists (EArr es). cbn [length]. split_and!; intros [|fuel]; try lia; intros; cbn [encode_value encode_with decode_value];
      rewrite E1, E2, nestedName_arr by done.
    + rewrite staticArrayLength_arr by done. rewrite <-Hl, Nat2Z.id, mapM_index_all, Hes by lia. done.
    + rewrite E3. cbn [mbind option_bind]. by rewrite Hws by lia.
    + rewrite staticArrayLength_arr by done. rewrite <-Hl, staticPartLength_arr, roundedLength_words by done.
      cbn [fmap option_fmap option_map].
      assert (Z.even (js_len pre) = true) as He by done. apply Z.even_spec in He as [h Eh].
      rewrite (decode_elements (length ns)); [done|done|lia|].
      rewrite Eh, (Z.mul_comm 2 h), Z.div_mul by lia. lia.
  - rewrite Hlen. unfold dims at 2. cbn [fold_right]. fold (dims ns). unfold dim.
    rewrite bool_decide_false by done. replace (dec_value n =? 0) with false by lia. lia.
Qed.
End Static.

(** * Dynamic parameters *)

(** [s] is the text of [v] in the second part of an encoding, reached through the
    offset in its head. *)
Definition dynamic_codec (rm : rounding) (t : solidityType) (type : jsstr) (v : value) (s : jsstr) : Prop :=
  exists e,
    encode rm t v type = Some e /\ (forall o, encodeWithOffset type e o = Some s) /\
    (forall pre post off, Z.even (js_len pre) = true -> js_len (pre ++ s ++ post) < 2 ^ 53 ->
       parseHex (substr_at (pre ++ s ++ post) (Some off) 64) = Some (js_len pre / 2) ->
       decode rm t (pre ++ s ++ post) off type = Some v).

Lemma js_len_w64 z : 0 <= z < 2 ^ 256 -> js_len (w64 z) = 64.
Proof. intros H. unfold js_len. by rewrite w64_length. Qed.

Lemma substr_here pre s post n :
  Z.even (js_len pre) = true -> n = js_len s -> substr_at (pre ++ s ++ post) (Some (js_len pre / 2)) n = s.
Proof.
  intros He ->. apply Z.even_spec in He as [h Eh]. unfold substr_at, default, id.
  rewrite Eh, (Z.mul_comm 2 h), Z.div_mul by lia.
  rewrite js_substr_nonneg by (pose proof (js_len_nonneg pre); lia).
  apply take_drop_app; unfold js_len in *; lia.
Qed.

Lemma dynamic_array_text rm t base ns l :
  91 ∉ base -> isDynamicType t = false -> Forall static_dim ns -> Forall (static_value rm t base ns) l ->
  Z.of_nat (length l) < 2 ^ 53 ->
  exists s, dynamic_codec rm t (arr_name base ([] :: ns)) (VArr l) s /\
            js_len s = 64 + Z.of_nat (length l) * (64 * dims ns).
Proof.
  intros Hbase Hst Hns Hall Hn. destruct (static_dims ns Hns) as [Hd Hp].
  assert (Forall all_digits ([] :: ns)) as Hd' by by constructor.
  destruct (forall_texts rm t base ns l) as (ss & Hss & Hlen); [|done|].
  { intros v. by apply static_text. }
  destruct (encode_elements rm t (length ns) (arr_name base ns) l ss) as (es & Hle & Hes & Hws).
  { eapply Forall2_impl; [exact Hss|]. by intros ? ? []. }
  assert (isDynamicArray (arr_name base ([] :: ns)) = true) as E1
    by (rewrite isDynamicArray_arr by done; by apply bool_decide_eq_true).
  assert (isDynamicArray (arr_name base ns) = false) as E3.
  { destruct Hns as [|n' ns' (? & ? & ?) ?]; [by apply no_array|].
    rewrite isDynamicArray_arr by done. by apply bool_decide_eq_false. }
  assert (length ns < length (arr_name base ([] :: ns)))%nat as Hf.
  { rewrite arr_name_cons, length_app. unfold arr_name. rewrite length_app. cbn.
    enough (length ns <= length (reverse ns ≫= wrap))%nat by lia. rewrite <-(length_reverse ns).
    generalize (reverse ns). intros r. induction r as [|x r IH]; [done|].
    rewrite bind_cons, length_app. cbn. lia. }
  exists (w64 (Z.of_nat (length l)) ++ mjoin ss). split.
  - exists (EArr (EStr (w64 (Z.of_nat (length l))) :: es)). split_and!.
    + unfold encode. cbn [encode_value]. rewrite E1, nestedName_arr, formatInputInt_num by (done || lia).
      cbn [mbind option_bind]. rewrite encode_plain. cbn [mbind option_bind]. by rewrite Hes by lia.
    + intros o. unfold encodeWithOffset. cbn [encode_with]. rewrite E1, nestedName_arr, E3 by done.
      cbn [mbind option_bind]. by rewrite app_nil_r, Hws by lia.
    + intros pre post off He Hb Ho. unfold decode. cbn [decode_value]. rewrite E1. rewrite Ho. cbv zeta.
      rewrite <-(app_assoc (w64 _)), substr_here by (done || by rewrite js_len_w64 by lia).
      rewrite parseHex_w64 by lia. rewrite nestedName_arr, staticPartLength_arr, roundedLength_words by done.
      cbn [fmap option_fmap option_map]. unfold default, id. rewrite app_assoc.
      rewrite (decode_elements rm t (length ns)); [done|done|done|].
      apply Z.even_spec in He as [h Eh]. rewrite Eh, (Z.mul_comm 2 h), Z.div_mul by lia.
      rewrite js_len_app, js_len_w64 by lia. lia.
  - rewrite js_len_app, js_len_w64, Hlen by lia. lia.
Qed.

(** A length word and the bytes, padded to whole words. *)
Lemma with_length_spec h :
  js_len h < 2 ^ 53 -> exists k,
    with_length h = Some (Param (w64 (js_len h / 2) ++ h ++ replicate k 48) None) /\
    js_len h + Z.of_nat k = 64 * ((js_len h + 63) / 64).
Proof.
  intros Hl. destruct (rounded_chars_spec h) as (m & Em & Hm). exists (64 * m - length h)%nat.
  pose proof (js_len_nonneg h). unfold with_length. rewrite Em, padRight_spec by lia. cbn [mbind option_bind].
  rewrite formatInputInt_num by (Z.div_mod_to_equations; lia). split; [done|].
  unfold rounded_chars in Em. unfold js_len in *. lia.
Qed.

(** What the output formatters of dynamic types read from such a text. *)
Lemma dynamic_length_spec rm h k :
  js_len h < 2 ^ 53 -> Z.even (js_len h) = true ->
  let p := Param (w64 (js_len h / 2) ++ h ++ replicate k 48) (Some 0) in
  dynamic_length rm p = Some (js_len h) /\ js_substr (dynamicPart p) 64 (js_len h) = h.
Proof.
  intros Hl He p. apply Z.even_spec in He as [n En]. pose proof (js_len_nonneg h).
  assert (js_len h / 2 = n) as E2 by (rewrite En, (Z.mul_comm 2 n); apply Z.div_mul; lia).
  assert (length (w64 n) = 64%nat) as Hw by (apply w64_length; lia).
  split.
  - unfold dynamic_length, p, dynamicPart. cbn [isDynamic p_offset p_value]. rewrite E2.
    assert (js_slice (w64 n ++ h ++ replicate k 48) 0 64 = w64 n) as ->.
    { unfold js_slice. rewrite !js_rel_nonneg by (unfold js_len; rewrite ?length_app, Hw; lia).
      rewrite drop_0, Nat.sub_0_r. by apply take_app_length'. }
    rewrite w64_read by lia. cbn [mbind option_bind toNumber]. rewrite f64_exact by lia. f_equal. lia.
  - unfold p, dynamicPart. cbn [isDynamic p_offset p_value]. rewrite E2, js_substr_nonneg by lia.
    apply take_drop_app; [by rewrite Hw|unfold js_len; lia].
Qed.

Lemma dynamic_text rm t type v h :
  isDynamicType t = true -> 91 ∉ type -> js_len h < 2 ^ 53 -> Z.even (js_len h) = true ->
  _inputFormatter rm t v = with_length h ->
  (forall p, dynamic_length rm p = Some (js_len h) -> js_substr (dynamicPart p) 64 (js_len h) = h ->
     _outputFormatter rm t p type = Some v) ->
  exists s, dynamic_codec rm t type v s /\ js_len s = 64 + 64 * ((js_len h + 63) / 64).
Proof.
  intros Ht Hb Hl He Hi Ho. destruct (with_length_spec h Hl) as (k & Ew & Ek). pose proof (js_len_nonneg h).
  assert (arr_name type [] = type) as Eb by apply app_nil_r.
  destruct (no_array type Hb) as [E1 E2]. rewrite Eb in E1, E2.
  set (s := w64 (js_len h / 2) ++ h ++ replicate k 48).
  assert (js_len s = 64 + 64 * ((js_len h + 63) / 64)) as Hs.
  { unfold s. rewrite !js_len_app, js_len_w64 by (Z.div_mod_to_equations; lia).
    unfold js_len at 2. rewrite length_replicate. lia. }
  exists s. split; [|done]. exists (EStr s). split_and!.
  - unfold encode. cbn [encode_value]. rewrite E1, E2, Hi, Ew. cbn [mbind option_bind]. by rewrite encode_plain.
  - intros o. unfold encodeWithOffset. cbn [encode_with]. by rewrite E1, E2.
  - intros pre post off Hpe Hbd Hoff. unfold decode. cbn [decode_value]. rewrite E1, E2, Ht, Hoff. cbv zeta.
    assert (substr_at (pre ++ s ++ post) (Some (js_len pre / 2)) 64 = w64 (js_len h / 2)) as ->.
    { unfold s. rewrite <-app_assoc. apply substr_here; [done|].
      rewrite js_len_w64; [done|Z.div_mod_to_equations; lia]. }
    rewrite parseHex_w64 by (Z.div_mod_to_equations; lia).
    rewrite substr_here; [|done|].
    + destruct (dynamic_length_spec rm h k Hl He) as [D1 D2]. by apply Ho.
    + rewrite Hs. apply Z.even_spec in He as [n En]. rewrite En. Z.div_mod_to_equations; lia.
Qed.

Lemma bytes_text rm h :
  js_len h < 2 ^ 53 -> Z.even (js_len h) = true ->
  exists s, dynamic_codec rm SolidityTypeDynamicBytes (str "bytes") (VStr (str "0x" ++ h)) s /\
            js_len s = 64 + 64 * ((js_len h + 63) / 64).
Proof.
  intros Hl He. apply dynamic_text; try done.
  - str_notin.
  - cbn [_inputFormatter]. unfold formatInputDynamicBytes. rewrite toHex_prefixed. cbn [mbind option_bind].
    f_equal. rewrite js_substr_from_nonneg by lia. done.
  - intros p Hp Hs. cbn [_outputFormatter]. unfold formatOutputDynamicBytes. rewrite Hp. cbn [mbind option_bind].
    by rewrite Hs.
Qed.

Lemma string_text rm s bs :
  Forall unit16 s -> 0 ∉ s -> utf8encode s = Some bs -> Z.of_nat (length bs) < 2 ^ 52 ->
  exists x, dynamic_codec rm SolidityTypeString (str "string") (VStr s) x /\
            js_len x = 64 + 64 * ((2 * Z.of_nat (length bs) + 63) / 64).
Proof.
  intros Hu Hz E Hl. destruct (utf8_inverse s bs Hu E) as [Hb _].
  assert (js_len (bs ≫= hex_byte) = 2 * Z.of_nat (length bs)) as Hlen
    by (unfold js_len; rewrite hex_bytes_length; lia).
  rewrite <-Hlen. apply dynamic_text; try done.
  - str_notin.
  - lia.
  - rewrite Hlen, Z.even_mul. done.
  - cbn [_inputFormatter formatInputString]. unfold fromUtf8. rewrite E. cbn [mbind option_bind].
    rewrite before_zero_bytes by by eapply utf8_nonzero. rewrite code_hex_bytes by done.
    f_equal. rewrite js_substr_from_nonneg by lia. done.
  - intros p Hp Hs. cbn [_outputFormatter]. unfold formatOutputString. rewrite Hp. cbn [mbind option_bind].
    rewrite Hs. by rewrite (toUtf8_hex s).
Qed.

(** * Type resolution *)

Lemma brackets_dims l : Forall all_digits l -> brackets (l ≫= wrap) = true.
Proof.
  intros H. unfold brackets. enough (forall n, (length (l ≫= wrap) <= n)%nat -> brackets_only n (l ≫= wrap) = true) by auto.
  induction H as [|ds l Hds _ IH]; intros n Hn; [by destruct n|].
  rewrite bind_cons in *. unfold wrap in Hn at 1. unfold wrap at 1. cbn [app] in *.
  destruct n as [|n]; [cbn in Hn; lia|]. cbn [brackets_only]. replace (91 =? 91) with true by lia. cbn [andb].
  rewrite <-app_assoc. cbn [app]. rewrite span_stop by done. replace (93 =? 93) with true by lia.
  apply IH. cbn in Hn. rewrite !length_app in Hn. cbn in Hn. lia.
Qed.

Lemma starts_with_app p s : js_starts_with p (p ++ s) = true.
Proof. unfold js_starts_with. apply bool_decide_eq_true. apply take_app_length. Qed.

Lemma anchored_dims p l : Forall all_digits l -> anchored p (p ++ (l ≫= wrap)) = true.
Proof. intros H. unfold anchored. rewrite starts_with_app, drop_app_length. by apply brackets_dims. Qed.

Lemma span_dims ds l : all_digits ds -> span is_dec_digit (ds ++ (l ≫= wrap)) = (ds, l ≫= wrap).
Proof.
  intros H. destruct l as [|x l]; [cbn; rewrite app_nil_r; by apply span_all|].
  rewrite bind_cons. unfold wrap at 1 3. cbn [app]. by rewrite span_stop.
Qed.
Lemma anchored_digits_dims p ds l :
  all_digits ds -> Forall all_digits l -> anchored_digits p (p ++ ds ++ (l ≫= wrap)) = true.
Proof.
  intros Hd H. unfold anchored_digits. rewrite starts_with_app, drop_app_length, span_dims by done.
  by apply brackets_dims.
Qed.

(** No name but an address has the letter d. *)
Lemma no_letter_dims c l : 93 < c -> Forall all_digits l -> c ∉ (l ≫= wrap).
Proof.
  intros Hc H. rewrite list_elem_of_bind. intros (ds & Hin & Hds).
  rewrite Forall_forall in H. apply H in Hds. unfold wrap in Hin.
  rewrite !elem_of_app, !list_elem_of_singleton in Hin. destruct Hin as [->|[Hin| ->]]; [lia| |lia].
  unfold all_digits in Hds. rewrite forallb_forall in Hds. apply list_elem_of_In, Hds in Hin.
  unfold is_dec_digit in Hin. lia.
Qed.
Lemma no_letter_digits c ds : 57 < c -> all_digits ds -> c ∉ ds.
Proof.
  intros Hc Hds Hin. unfold all_digits in Hds. rewrite forallb_forall in Hds. apply list_elem_of_In, Hds in Hin.
  unfold is_dec_digit in Hin. lia.
Qed.
Lemma not_address name : 100 ∉ name -> isType SolidityTypeAddress name = false.
Proof.
  intros H. cbn [isType]. unfold contains, indexOf. rewrite (js_find_none 100); [done| |done].
  cbv. do 2 constructor.
Qed.

Lemma require_first name :
  _requireType name =
  (fix go (l : list solidityType) :=
     match l with [] => None | t :: l => if isType t name then Some t else go l end) coder_types.
Proof.
  unfold _requireType. generalize coder_types. intros l. induction l as [|t l IH]; [done|].
  rewrite filter_cons. destruct (isType t name) eqn:E.
  - by rewrite decide_True.
  - rewrite decide_False by done. exact IH.
Qed.

(** The word types by their names. *)
Inductive word_type : solidityType -> jsstr -> Prop :=
  | WTUInt ds : all_digits ds -> word_type SolidityTypeUInt (str "uint" ++ ds)
  | WTInt ds : all_digits ds -> word_type SolidityTypeInt (str "int" ++ ds)
  | WTBool : word_type SolidityTypeBool (str "bool")
  | WTAddress : word_type SolidityTypeAddress (str "address")
  | WTBytes n : 1 <= n <= 32 -> word_type SolidityTypeBytes (str "bytes" ++ to_base 10 n).

Lemma to_base_all_digits n : 0 <= n -> all_digits (to_base 10 n).
Proof. intros H. rewrite to_base_nonneg by done. apply digits_dec, digits_valid; lia. Qed.

Lemma word_type_base t base : word_type t base -> (91 ∉ base) /\ isDynamicType t = false.
Proof.
  destruct 1; split; try done; rewrite ?elem_of_app; try str_notin; (intros [Hin|Hin]; revert Hin).
  all: try (apply no_letter_digits; [lia|]; try done; apply to_base_all_digits; lia).
  all: str_notin.
Qed.

Lemma letter_notin base ds ns c :
  93 < c -> c ∉ base -> all_digits ds -> Forall all_digits ns -> c ∉ arr_name (base ++ ds) ns.
Proof.
  intros Hc Hb Hd Hn. unfold arr_name. rewrite !elem_of_app. intros [[?|Hin]|Hin]; [done| |].
  - revert Hin. apply no_letter_digits; [lia|done].
  - revert Hin. apply no_letter_dims; [done|by rewrite Forall_reverse].
Qed.

Lemma require_word t base ns :
  word_type t base -> Forall all_digits ns -> _requireType (arr_name base ns) = Some t.
Proof.
  intros H Hn. assert (Forall all_digits (reverse ns)) as Hr by by rewrite Forall_reverse.
  rewrite require_first. destruct H as [ds Hd|ds Hd| | |n Hb]; cbn [coder_types].
  - rewrite not_address by (apply letter_notin; [lia|str_notin|done|done]).
    unfold arr_name. rewrite <-app_assoc. cbn [isType]. by rewrite anchored_digits_dims.
  - rewrite not_address by (apply letter_notin; [lia|str_notin|done|done]).
    unfold arr_name. rewrite <-app_assoc. cbn [isType]. by rewrite anchored_digits_dims.
  - rewrite not_address by (rewrite <-(app_nil_r (str "bool")); apply letter_notin; [lia|str_notin|done|done]).
    unfold arr_name. cbn [isType]. by rewrite anchored_dims.
  - cbn [isType]. assert (contains (str "address") (arr_name (str "address") ns) = true) as ->; [|done].
    unfold contains, indexOf, arr_name. generalize (length (str "address" ++ (reverse ns ≫= wrap))). intros k.
    assert (js_find k (str "address") (str "address" ++ (reverse ns ≫= wrap)) = Some 0%nat) as ->; [|done].
    destruct k; cbn [js_find]; by rewrite starts_with_app.
  - pose proof (to_base_all_digits n ltac:(lia)) as Hd.
    rewrite not_address by (apply letter_notin; [lia|str_notin|done|done]).
    unfold arr_name. rewrite <-app_assoc. cbn [isType].
    assert (exists c r, to_base 10 n = c :: r /\ is_dec_digit c = true) as (c & r & E & Hc).
    { rewrite to_base_nonneg in * by lia. pose proof (digits_nonempty 10 n). destruct (digits 10 n) as [|d l]; [done|].
      eexists _, _. split; [done|]. unfold all_digits in Hd. cbn in Hd. by apply andb_prop in Hd as [-> _]. }
    assert (anchored (str "bytes") (str "bytes" ++ to_base 10 n ++ (reverse ns ≫= wrap)) = false) as ->.
    { unfold anchored. rewrite starts_with_app, drop_app_length, E. cbn [app andb]. unfold brackets. cbn [length brackets_only].
      replace (c =? 91) with false by (unfold is_dec_digit in Hc; lia). done. }
    rewrite anchored_digits_dims by done.
    change (drop 5 (str "bytes" ++ to_base 10 n ++ (reverse ns ≫= wrap))) with (to_base 10 n ++ (reverse ns ≫= wrap)).
    rewrite E. cbn. by rewrite Hc.
Qed.

(** * Parameter lists *)

Fixpoint array_value (t : solidityType) (base : jsstr) (ns : list jsstr) (v : value) : Prop :=
  match ns with
  | [] => word_value t base v
  | n :: ns => exists l, v = VArr l /\ Z.of_nat (length l) = dec_value n /\ Forall (array_value t base ns) l
  end.

Lemma array_static rm t base ns v : array_value t base ns v -> static_value rm t base ns v.
Proof.
  revert v. induction ns as [|n ns IH]; intros v; [apply word_codec|].
  intros (l & -> & Hl & H). exists l. split; [done|]. split; [done|]. eapply Forall_impl; [exact H|]. apply IH.
Qed.

(** The parameters the coder handles: words and arrays of fixed size of them;
    arrays of words of any length, where a size inside the brackets is 1; byte
    strings and text. *)
Inductive good_param : jsstr -> value -> Prop :=
  | GoodStatic t base ns v :
      word_type t base -> Forall static_dim ns -> array_value t base ns v -> good_param (arr_name base ns) v
  | GoodArray t base ns l :
      word_type t base -> Forall static_dim ns -> dims ns = 1 -> Forall (array_value t base ns) l ->
      good_param (arr_name base ([] :: ns)) (VArr l)
  | GoodBytes h : Z.even (js_len h) = true -> good_param (str "bytes") (VStr (str "0x" ++ h))
  | GoodString s :
      Forall unit16 s -> 0 ∉ s -> is_Some (utf8encode s) -> good_param (str "string") (VStr s).

(** A bound of the digits a value takes. *)
Fixpoint text_size (v : value) : Z :=
  match v with
  | VArr l => 64 + fold_right (fun v n => text_size v + n) 0 l
  | VStr s => 128 + 8 * js_len s
  | _ => 64
  end.

Lemma text_size_pos v : 64 <= text_size v.
Proof.
  revert v. fix IH 1. intros [| | | | |s|l|]; cbn [text_size]; try lia.
  - pose proof (js_len_nonneg s). lia.
  - enough (0 <= fold_right (fun v n => text_size v + n) 0 l) by lia.
    induction l as [|v l IHl]; cbn [fold_right]; [lia|]. pose proof (IH v). lia.
Qed.

Lemma sum_size c l :
  Forall (fun v => c <= text_size v) l ->
  Z.of_nat (length l) * c <= fold_right (fun v n => text_size v + n) 0 l.
Proof. induction 1 as [|v l Hv _ IH]; cbn [fold_right length]; lia. Qed.

Lemma array_size t base ns v : Forall static_dim ns -> array_value t base ns v -> 64 * dims ns <= text_size v.
Proof.
  intros Hns. revert v. induction Hns as [|n ns (Hd & Hn & Hp) Hns IH]; intros v Hv; [apply text_size_pos|].
  destruct Hv as (l & -> & Hl & Hall). cbn [text_size].
  unfold dims. cbn [fold_right]. fold (dims ns). unfold dim. rewrite bool_decide_false by done.
  replace (dec_value n =? 0) with false by lia. rewrite <-Hl.
  pose proof (sum_size (64 * dims ns) l (Forall_impl _ _ _ Hall IH)). lia.
Qed.

(** ** Texts of parameters *)

(** A parameter with its type, its encoded value and its text, static or dynamic. *)
Record item := Item {
  i_type : jsstr; i_t : solidityType; i_v : value; i_e : encoded; i_s : jsstr; i_dyn : bool
}.

Section Items.
Context (rm : rounding).

Definition item_ok (x : item) : Prop :=
  _requireType (i_type x) = Some (i_t x) /\ isDynamicParam (i_t x) (i_type x) = i_dyn x /\
  encode rm (i_t x) (i_v x) (i_type x) = Some (i_e x) /\
  (forall o, encodeWithOffset (i_type x) (i_e x) o = Some (i_s x)) /\
  js_len (i_s x) mod 64 = 0 /\
  2 * staticPartLength (i_type x) = (if i_dyn x then 64 else js_len (i_s x)) /\
  js_len (i_s x) <= text_size (i_v x) /\
  if i_dyn x then
    forall pre post off, Z.even (js_len pre) = true -> js_len (pre ++ i_s x ++ post) < 2 ^ 53 ->
      parseHex (substr_at (pre ++ i_s x ++ post) (Some off) 64) = Some (js_len pre / 2) ->
      decode rm (i_t x) (pre ++ i_s x ++ post) off (i_type x) = Some (i_v x)
  else
    forall pre post, Z.even (js_len pre) = true ->
      decode rm (i_t x) (pre ++ i_s x ++ post) (js_len pre / 2) (i_type x) = Some (i_v x).

Lemma arr_name_fuel base ns : (length ns < S (length (arr_name base ns)))%nat.
Proof.
  unfold arr_name. rewrite length_app, <-(length_reverse ns). generalize (reverse ns). intros r.
  enough (length r <= length (r ≫= wrap))%nat by lia.
  induction r as [|x r IH]; [done|]. rewrite bind_cons, length_app. cbn. lia.
Qed.

Lemma static_item t base ns v :
  word_type t base -> Forall static_dim ns -> array_value t base ns v ->
  exists x, item_ok x /\ i_type x = arr_name base ns /\ i_v x = v.
Proof.
  intros Ht Hns Hv. destruct (word_type_base t base Ht) as [Hb Hst]. destruct (static_dims ns Hns) as [Hd _].
  destruct (static_text rm t base Hb Hst ns v Hns (array_static rm t base ns v Hv)) as (s & (e & He & Hw & Hdec) & Hl).
  pose proof (arr_name_fuel base ns) as Hf.
  exists (Item (arr_name base ns) t v e s false). split; [|done].
  unfold item_ok. cbn [i_type i_t i_v i_e i_s i_dyn].
  assert (isDynamicArray (arr_name base ns) = false) as E.
  { destruct Hns as [|n ns' (? & ? & ?) ?]; [by apply no_array|].
    rewrite isDynamicArray_arr by done. by apply bool_decide_eq_false. }
  split_and!.
  - by apply require_word.
  - unfold isDynamicParam. by rewrite Hst, E.
  - by apply He.
  - intros o. by apply Hw.
  - rewrite Hl, Z.mul_comm. apply Z_mod_mult.
  - rewrite staticPartLength_arr, Hl by done. lia.
  - rewrite Hl. by eapply array_size.
  - intros pre post He'. by apply Hdec.
Qed.

Lemma array_item t base ns l :
  word_type t base -> Forall static_dim ns -> dims ns = 1 -> Forall (array_value t base ns) l ->
  text_size (VArr l) < 2 ^ 53 ->
  exists x, item_ok x /\ i_type x = arr_name base ([] :: ns) /\ i_v x = VArr l.
Proof.
  intros Ht Hns H1 Hall Hsz. destruct (word_type_base t base Ht) as [Hb Hst]. destruct (static_dims ns Hns) as [Hd _].
  pose proof (sum_size 64 l (Forall_true _ l text_size_pos)) as Hsum. cbn [text_size] in Hsz.
  assert (Forall all_digits ([] :: ns)) as Hd' by by constructor.
  destruct (dynamic_array_text rm t base ns l) as (s & (e & He & Hw & Hdec) & Hl); try done; [|lia|].
  { eapply Forall_impl; [exact Hall|]. intros v. apply array_static. }
  rewrite H1 in Hl. exists (Item (arr_name base ([] :: ns)) t (VArr l) e s true). split; [|done].
  unfold item_ok. cbn [i_type i_t i_v i_e i_s i_dyn]. split_and!; try done.
  - by apply require_word.
  - unfold isDynamicParam. rewrite isDynamicArray_arr by done. by rewrite orb_true_r.
  - rewrite Hl. Z.div_mod_to_equations; lia.
  - rewrite staticPartLength_arr by done. unfold dims. cbn [fold_right]. fold (dims ns). rewrite H1. done.
  - rewrite Hl. cbn [text_size]. lia.
Qed.

Lemma text_item t type v s n :
  _requireType type = Some t -> isDynamicType t = true -> 91 ∉ type -> dynamic_codec rm t type v s ->
  js_len s = 64 + 64 * n -> 64 + 64 * n <= text_size v -> exists x, item_ok x /\ i_type x = type /\ i_v x = v.
Proof.
  intros Hr Ht Hb (e & He & Hw & Hdec) Hl Hs. exists (Item type t v e s true). split; [|done].
  unfold item_ok. cbn [i_type i_t i_v i_e i_s i_dyn]. split_and!; try done.
  - unfold isDynamicParam. by rewrite Ht.
  - rewrite Hl. Z.div_mod_to_equations; lia.
  - rewrite <-(app_nil_r type). change (type ++ []) with (arr_name type []).
    rewrite staticPartLength_arr by (done || constructor). done.
  - by rewrite Hl.
Qed.

Lemma good_item type v : good_param type v -> text_size v < 2 ^ 53 -> exists x, item_ok x /\ i_type x = type /\ i_v x = v.
Proof.
  destruct 1 as [t base ns v Ht Hns Hv|t base ns l Ht Hns H1 Hall|h He|s Hu Hz [bs E]]; intros Hsz.
  - by eapply static_item.
  - by eapply array_item.
  - cbn [text_size] in Hsz. rewrite js_len_app in Hsz. change (js_len (str "0x")) with 2 in Hsz.
    pose proof (js_len_nonneg h). destruct (bytes_text rm h) as (s & Hs & Hl); [lia|done|].
    eapply text_item; [by vm_compute|done|str_notin|exact Hs|exact Hl|].
    cbn [text_size]. rewrite js_len_app. change (js_len (str "0x")) with 2. Z.div_mod_to_equations; lia.
  - cbn [text_size] in Hsz. pose proof (encode_all_length _ _ E). pose proof (ucs2decode_length s). unfold js_len in *.
    destruct (string_text rm s bs) as (x & Hx & Hl); [done|done|done|lia|].
    eapply text_item; [by vm_compute|done|str_notin|exact Hx|exact Hl|].
    cbn [text_size]. unfold js_len. Z.div_mod_to_equations; lia.
Qed.
End Items.

(** ** Heads and tails *)

Definition triple (x : item) : param := (i_type x, i_t x, i_e x).

Fixpoint heads (o : Z) (xs : list item) : jsstr :=
  match xs with
  | [] => []
  | x :: xs => if i_dyn x then w64 o ++ heads (o + js_len (i_s x) / 2) xs else i_s x ++ heads o xs
  end.
Fixpoint tails (xs : list item) : jsstr :=
  match xs with
  | [] => []
  | x :: xs => if i_dyn x then i_s x ++ tails xs else tails xs
  end.
Definition head_digits (xs : list item) : Z :=
  fold_right (fun x n => 2 * staticPartLength (i_type x) + n) 0 xs.

Section Lists.
Context (rm : rounding).

Lemma item_even x : item_ok rm x -> 2 * (js_len (i_s x) / 2) = js_len (i_s x) /\ Z.even (js_len (i_s x)) = true.
Proof.
  intros (_ & _ & _ & _ & Hm & _). pose proof (Z.div_mod (js_len (i_s x)) 64 ltac:(lia)) as E. rewrite Hm in E.
  split; [Z.div_mod_to_equations; lia|]. apply Z.even_spec. exists (32 * (js_len (i_s x) / 64)). lia.
Qed.

Lemma encode_heads_spec xs o :
  Forall (item_ok rm) xs -> 0 <= o -> 2 * o + js_len (tails xs) < 2 ^ 53 ->
  encode_heads (triple <$> xs) (Num (2 * o)) = Some (heads o xs, Num (2 * o + js_len (tails xs))).
Proof.
  intros H. revert o. induction H as [|x xs Hx _ IH]; intros o Ho Hb.
  { cbn. by rewrite Z.add_0_r. }
  pose proof (item_even x Hx) as [Hev _]. destruct Hx as (_ & Hdyn & _ & Hw & _).
  cbn [fmap list_fmap encode_heads triple heads tails] in *. change (list_fmap _ _ triple xs) with (triple <$> xs).
  rewrite Hdyn. pose proof (js_len_nonneg (i_s x)). pose proof (js_len_nonneg (tails xs)).
  destruct (i_dyn x).
  - rewrite js_len_app in Hb. rewrite formatInputNum_even by lia. cbn [mbind option_bind]. rewrite Hw.
    cbn [mbind option_bind num_add]. rewrite f64_exact by lia.
    replace (2 * o + js_len (i_s x)) with (2 * (o + js_len (i_s x) / 2)) by lia.
    rewrite IH by lia. cbn [mbind option_bind]. do 3 f_equal. rewrite js_len_app. lia.
  - rewrite Hw. cbn [mbind option_bind]. by rewrite IH.
Qed.

Lemma encode_tails_spec xs o : Forall (item_ok rm) xs -> encode_tails (triple <$> xs) o = Some (tails xs).
Proof.
  intros H. revert o. induction H as [|x xs (_ & Hdyn & _ & Hw & _) _ IH]; intros o; [done|].
  cbn [fmap list_fmap encode_tails triple tails]. rewrite Hdyn.
  destruct (i_dyn x); [|apply IH]. rewrite Hw. cbn [mbind option_bind].
  change (list_fmap _ _ triple xs) with (triple <$> xs). by rewrite IH.
Qed.

Lemma heads_length xs o :
  Forall (item_ok rm) xs -> 0 <= o -> 2 * o + js_len (tails xs) < 2 ^ 53 -> js_len (heads o xs) = head_digits xs.
Proof.
  intros H. revert o. induction H as [|x xs Hx _ IH]; intros o Ho Hb; [done|].
  pose proof (item_even x Hx) as [Hev _]. destruct Hx as (_ & _ & _ & _ & _ & Hst & _).
  unfold head_digits. cbn [heads tails fold_right] in *. fold (head_digits xs).
  pose proof (js_len_nonneg (i_s x)). pose proof (js_len_nonneg (tails xs)).
  destruct (i_dyn x); rewrite js_len_app in *.
  - rewrite js_len_w64, IH by lia. lia.
  - rewrite IH by lia. lia.
Qed.

Lemma even_add a b : Z.even a = true -> Z.even b = true -> Z.even (a + b) = true.
Proof. intros Ha Hb. by rewrite Z.even_add, Ha, Hb. Qed.

(** Every parameter is found at its offset, and the dynamic ones through the
    offset in their heads. *)
Lemma decode_items xs :
  Forall (item_ok rm) xs -> forall pre pret o,
  Z.even (js_len pre) = true -> 0 <= o ->
  js_len (pre ++ heads o xs ++ pret) = 2 * o -> js_len (pre ++ heads o xs ++ pret ++ tails xs) < 2 ^ 53 ->
  decode_at rm (i_type <$> xs) (i_t <$> xs) (getOffsets (i_type <$> xs) (js_len pre / 2))
    (pre ++ heads o xs ++ pret ++ tails xs) = Some (i_v <$> xs).
Proof.
  induction 1 as [|x xs Hx _ IH]; intros pre pret o Hp Ho Ho2 Hb; [done|].
  pose proof (item_even x Hx) as [Hev Hev']. destruct Hx as (_ & _ & _ & _ & _ & Hst & _ & Hdec).
  cbn [fmap list_fmap getOffsets decode_at heads tails] in *. pose proof (js_len_nonneg (i_s x)).
  apply Z.even_spec in Hp as Hp'. destruct Hp' as [h Eh].
  assert (js_len pre / 2 = h) as Eh2 by (rewrite Eh, (Z.mul_comm 2 h); apply Z.div_mul; lia).
  destruct (i_dyn x).
  - rewrite !js_len_app in Ho2. rewrite !js_len_app in Hb. pose proof (js_len_nonneg (tails xs)). assert (0 <= o < 2 ^ 53) by lia.
    rewrite js_len_w64 in Ho2, Hb by lia.
    specialize (IH (pre ++ w64 o) (pret ++ i_s x) (o + js_len (i_s x) / 2)).
    rewrite !js_len_app, js_len_w64 in IH by lia.
    specialize (IH (even_add _ 64 Hp eq_refl) ltac:(lia) ltac:(lia) ltac:(lia)).
    assert (pre ++ (w64 o ++ heads (o + js_len (i_s x) / 2) xs) ++ pret ++ i_s x ++ tails xs =
            (pre ++ w64 o ++ heads (o + js_len (i_s x) / 2) xs ++ pret) ++ i_s x ++ tails xs) as E1
      by by rewrite <-!app_assoc.
    assert ((pre ++ w64 o) ++ heads (o + js_len (i_s x) / 2) xs ++ (pret ++ i_s x) ++ tails xs =
            (pre ++ w64 o ++ heads (o + js_len (i_s x) / 2) xs ++ pret) ++ i_s x ++ tails xs) as E2
      by by rewrite <-!app_assoc.
    assert (js_len (pre ++ w64 o ++ heads (o + js_len (i_s x) / 2) xs ++ pret) = 2 * o) as E3
      by (rewrite !js_len_app, js_len_w64 by lia; lia).
    rewrite E1. rewrite Hdec; [|rewrite E3, Z.even_mul; done|rewrite js_len_app, E3, js_len_app; lia|].
    + cbn [mbind option_bind]. rewrite E2 in IH.
      replace (js_len pre / 2 + staticPartLength (i_type x)) with ((js_len pre + 64) / 2)
        by (rewrite Eh; Z.div_mod_to_equations; lia).
      by rewrite IH.
    + rewrite E3, (Z.mul_comm 2 o), Z.div_mul by lia. rewrite <-!app_assoc.
      rewrite substr_here by (done || by rewrite js_len_w64 by lia). apply parseHex_w64. lia.
  - rewrite <-!app_assoc in *. rewrite Hdec by done. cbn [mbind option_bind].
    specialize (IH (pre ++ i_s x) pret o). rewrite <-!app_assoc, js_len_app in IH.
    specialize (IH (even_add _ _ Hp Hev') Ho Ho2 Hb).
    replace (js_len pre / 2 + staticPartLength (i_type x)) with ((js_len pre + js_len (i_s x)) / 2).
    + by rewrite IH.
    + rewrite Eh, <-Hst. Z.div_mod_to_equations; lia.
Qed.

Lemma mapM_types xs : Forall (item_ok rm) xs -> getSolidityTypes (i_type <$> xs) = Some (i_t <$> xs).
Proof.
  intros H. unfold getSolidityTypes. induction H as [|x xs (Hr & _) _ IH]; [done|].
  cbn [fmap list_fmap mapM]. rewrite Hr. cbn [mbind option_bind]. by rewrite IH.
Qed.
Lemma encode_items xs :
  Forall (item_ok rm) xs ->
  encode_all_params rm (i_type <$> xs) (i_t <$> xs) (i_v <$> xs) = Some (triple <$> xs).
Proof.
  induction 1 as [|x xs (_ & _ & He & _) _ IH]; [done|].
  cbn [fmap list_fmap encode_all_params head tail]. unfold default, id. rewrite He. cbn [mbind option_bind].
  by rewrite IH.
Qed.

Lemma head_sizes xs a :
  Forall (item_ok rm) xs ->
  2 * fold_left (fun acc '(type, t, _) => acc + head_size t type) (triple <$> xs) a = 2 * a + head_digits xs.
Proof.
  intros H. revert a. induction H as [|x xs Hx _ IH]; intros a; [unfold head_digits; cbn; lia|].
  pose proof (item_even x Hx) as [Hev _]. destruct Hx as (_ & Hdyn & _ & _ & Hm & Hst & _).
  cbn [fmap list_fmap fold_left triple]. change (list_fmap _ _ triple xs) with (triple <$> xs).
  rewrite IH. unfold head_digits. cbn [fold_right]. fold (head_digits xs). unfold head_size. rewrite Hdyn.
  destruct (i_dyn x); [lia|]. unfold roundedLength. Z.div_mod_to_equations; lia.
Qed.

(** The size of everything written. *)
Lemma written_size xs :
  Forall (item_ok rm) xs ->
  head_digits xs + js_len (tails xs) <= fold_right (fun x n => 64 + text_size (i_v x) + n) 0 xs /\
  0 <= head_digits xs.
Proof.
  induction 1 as [|x xs (_ & _ & _ & _ & _ & Hst & Hsz & _) _ [IH1 IH2]]; [done|].
  unfold head_digits. cbn [fold_right tails]. fold (head_digits xs). pose proof (js_len_nonneg (i_s x)).
  destruct (i_dyn x); rewrite ?js_len_app; lia.
Qed.

(** Everything that is written: the heads, then the tails. *)
Lemma encodeParams_items xs :
  Forall (item_ok rm) xs -> fold_right (fun x n => 64 + text_size (i_v x) + n) 0 xs < 2 ^ 53 ->
  exists o, 2 * o = head_digits xs /\ encodeParams rm (i_type <$> xs) (i_v <$> xs) = Some (heads o xs ++ tails xs).
Proof.
  intros H Hsz. destruct (written_size xs H) as [Hw Hp]. pose proof (js_len_nonneg (tails xs)).
  pose proof (head_sizes xs 0 H) as Hh. rewrite Z.mul_0_r, Z.add_0_l in Hh.
  unfold encodeParams. rewrite mapM_types by done. cbn [mbind option_bind].
  rewrite encode_items by done. cbn [mbind option_bind].
  set (o := fold_left _ (triple <$> xs) 0) in *. clearbody o. exists o. unfold encodeMultiWithOffset, num_of.
  rewrite encode_heads_spec by (done || lia). cbn [mbind option_bind]. by rewrite encode_tails_spec.
Qed.

Lemma roundtrip_items xs :
  Forall (item_ok rm) xs -> fold_right (fun x n => 64 + text_size (i_v x) + n) 0 xs < 2 ^ 53 ->
  exists bytes, encodeParams rm (i_type <$> xs) (i_v <$> xs) = Some bytes /\
                decodeParams rm (i_type <$> xs) bytes = Some (i_v <$> xs).
Proof.
  intros H Hsz. destruct (encodeParams_items xs H Hsz) as (o & Ho & E). rewrite E. eexists. split; [done|].
  destruct (written_size xs H) as [Hw Hp]. pose proof (js_len_nonneg (tails xs)).
  pose proof (heads_length xs o H ltac:(lia) ltac:(lia)) as Hl.
  unfold decodeParams. rewrite mapM_types by done. cbn [mbind option_bind].
  apply (decode_items xs H [] [] o); [done|lia| |]; cbn [app].
  - rewrite app_nil_r. lia.
  - rewrite js_len_app. lia.
Qed.

(** A list of good parameters is one of items. *)
Lemma good_items types params :
  Forall2 good_param types params -> fold_right (fun v n => 64 + text_size v + n) 0 params < 2 ^ 53 ->
  exists xs, Forall (item_ok rm) xs /\ types = i_type <$> xs /\ params = i_v <$> xs /\
    fold_right (fun x n => 64 + text_size (i_v x) + n) 0 xs < 2 ^ 53.
Proof.
  intros H Hsz.
  assert (exists xs, Forall (item_ok rm) xs /\ types = i_type <$> xs /\ params = i_v <$> xs) as (xs & Hxs & -> & ->).
  { induction H as [|type v types params Hv _ IH]; [by exists []|]. cbn [fold_right] in Hsz.
    assert (forall l : list value, 0 <= fold_right (fun v n => 64 + text_size v + n) 0 l) as Hpos
      by (induction l as [|w l IHl]; cbn [fold_right]; [lia|pose proof (text_size_pos w); lia]).
    pose proof (text_size_pos v). pose proof (Hpos params).
    destruct IH as (xs & Hxs & -> & ->); [lia|].
    destruct (good_item rm type v Hv ltac:(lia)) as (x & Hx & <- & <-). exists (x :: xs). by split; [constructor|]. }
  exists xs. split_and!; try done. clear H Hxs. revert Hsz.
  assert (forall xs, fold_right (fun v n => 64 + text_size v + n) 0 (i_v <$> xs) =
                     fold_right (fun x n => 64 + text_size (i_v x) + n) 0 xs) as ->; [|done].
  induction xs0 as [|x l IHl]; [done|]. cbn [fmap list_fmap fold_right]. by rewrite <-IHl.
Qed.
End Lists.


Definition roundtrip (rm : rounding) (types : list jsstr) (params : list value) : option (list value) :=
  bytes ← encodeParams rm types params; decodeParams rm types bytes.


(** * What the coder does not handle *)

(** A signed number from 2^252 on is written as it should be and read as negative:
    the test of the sign takes any leading digit that is not zero. *)
Theorem large_int_negative rm z :
  2 ^ 252 <= z < 2 ^ 255 ->
  formatInputInt (VBig (Big z 0)) = Some (Param (w64 z) None) /\
  formatOutputInt rm (Param (w64 z) None) = Some (Big (z - 2 ^ 256) 0).
Proof.
  intros H. rewrite formatInputInt_big by lia. unfold twos. replace (z <? 0) with false by lia. split; [done|].
  unfold formatOutputInt. cbn [staticPart isDynamic p_offset p_value mbind option_bind].
  rewrite or_zero_w64, signedIsNegative_w64, w64_read by lia. cbn [mbind option_bind].
  replace (2 ^ 252 <=? z) with true by lia.
  unfold minus, all_ones, negated, plus. cbn [Nat.add norm Z.of_nat]. rewrite !Z.pow_0_r. do 2 f_equal. lia.
Qed.

(** Arrays of dynamic arrays come back empty: the second pass computes the inner
    offsets from an offset the first pass has already moved on. *)
Theorem nested_arrays_lost :
  roundtrip ROUND_DOWN [str "uint256[][]"] [VArr [VArr [VNum 1]; VArr [VNum 2]]] =
  Some [VArr [VArr []; VArr []]].
Proof. vm_compute. reflexivity. Qed.

(** After an array of fixed-size arrays the next parameter is read from the wrong
    place: the sizes inside the brackets count for its head when decoding, not
    when encoding. *)
Theorem array_head_misread :
  roundtrip ROUND_DOWN [str "uint256[2][]"; str "uint256"]
    [VArr [VArr [VNum 1; VNum 3]; VArr [VNum 2; VNum 5]]; VNum 7] =
  Some [VArr [VArr [VBig (Big 1 0); VBig (Big 3 0)]; VArr [VBig (Big 2 0); VBig (Big 5 0)]]; VBig (Big 2 0)].
Proof. vm_compute. reflexivity. Qed.

(** Arrays of strings are written without offsets and cannot be read. *)
Theorem string_array_throws :
  is_Some (encodeParams ROUND_DOWN [str "string[]"] [VArr [VStr (str "a"); VStr (str "b")]]) /\
  roundtrip ROUND_DOWN [str "string[]"] [VArr [VStr (str "a"); VStr (str "b")]] = None.
Proof. split; [eexists|]; vm_compute; reflexivity. Qed.

(** The pattern of the signed type is not anchored and comes first, so an unsigned
    fixed-point value is decoded as a signed one. *)
Theorem ureal_read_as_real : _requireType (str "ureal128x128") = Some SolidityTypeReal.
Proof. vm_compute. reflexivity. Qed.

(** The example of the contract ABI specification. *)
Lemma abi_example :
  encodeParams ROUND_DOWN [str "uint256"; str "uint32[]"; str "bytes10"; str "bytes"]
    [VNum 0x123; VArr [VNum 0x456; VNum 0x789]; VStr (str "0x31323334353637383930");
     VStr (str "0x48656c6c6f2c20776f726c6421")] =
  Some (w64 0x123 ++ w64 0x80 ++ (str "31323334353637383930" ++ replicate 44 48) ++ w64 0xe0 ++
        w64 2 ++ w64 0x456 ++ w64 0x789 ++
        w64 0xd ++ (str "48656c6c6f2c20776f726c6421" ++ replicate 38 48)).
Proof. vm_compute. reflexivity. Qed.
