(* ===== verification/Iban.v ===== *)
(** ICAP account numbers (web3.js 4436-4635): an address in base 36 behind the
    country code XE and two check digits computed modulo 97. *)
From S2P Require Import Prelude WordArray BigNumber Utils Solidity.

(** [padLeft(string, bytes)] *)
Definition iban_padLeft (s : jsstr) (bytes : nat) : jsstr := replicate (2 * bytes - length s) 48 ++ s.

(** A letter becomes its number; anything else stays. *)
Definition prepare_char (code : Z) : jsstr :=
  if (65 <=? code) && (code <=? 90) then to_base 10 (code - 65 + 10) else [code].
Definition iso13616Prepare (iban : jsstr) : jsstr :=
  let iban := js_upper iban in
  let iban := js_substr_from iban 4 ++ js_substr iban 0 4 in
  iban ≫= prepare_char.

(** [parseInt(s, 10)] of a string with an optional sign; [None] is NaN. *)
Definition parseInt_signed (s : jsstr) : option Z :=
  match trim_left s with
  | c :: r => if c =? 45 then Z.opp <$> parseInt10 r else if c =? 43 then parseInt10 r else parseInt10 (c :: r)
  | [] => None
  end.
(** [(n % 97) + s] *)
Definition rem97_text (n : option Z) : jsstr :=
  match n with
  | Some n => to_base 10 (Z.rem n 97)
  | None => str "NaN"
  end.
(** The loop takes nine characters at a time; [None] when it is still running after
    [fuel] rounds. The last value is NaN when no number is left. *)
Fixpoint mod97_loop (fuel : nat) (remainder : jsstr) : option (option Z) :=
  if js_len remainder <=? 2 then Some ((fun n => Z.rem n 97) <$> parseInt_signed remainder)
  else match fuel with
       | O => None
       | S fuel =>
           let block := js_slice remainder 0 9 in
           mod97_loop fuel (rem97_text (parseInt_signed block) ++ js_slice_from remainder (js_len block))
       end.
(** Each round that reads a number shortens the string. *)
Definition mod9710 (iban : jsstr) : option (option Z) := mod97_loop (length iban) iban.

(** [('0' + n).slice(-2)]; NaN prints as such. *)
Definition check_digits (remainder : option Z) : jsstr :=
  js_slice_from (48 :: match remainder with Some r => to_base 10 (98 - r) | None => str "NaN" end) (-2).
Definition fromBban (bban : jsstr) : option jsstr :=
  remainder ← mod9710 (iso13616Prepare (str "XE" ++ str "00" ++ bban));
  Some (str "XE" ++ check_digits remainder ++ bban).

Section Rounding.
Context (rm : rounding).
Definition fromAddress (address : jsstr) : option jsstr :=
  asBn ← new_BigNumber rm address (Some 16);
  let base36 := toString_base rm 36 asBn in
  fromBban (js_upper (iban_padLeft base36 15)).

Definition isDirect (iban : jsstr) : bool := (js_len iban =? 34) || (js_len iban =? 35).
Definition isIndirect (iban : jsstr) : bool := js_len iban =? 20.
Definition address (iban : jsstr) : option jsstr :=
  if isDirect iban then
    asBn ← new_BigNumber rm (js_substr_from iban 4) (Some 36);
    Some (iban_padLeft (toString_base rm 16 asBn) 20)
  else Some [].
End Rounding.

Definition createIndirect (institution identifier : jsstr) : option jsstr :=
  fromBban (str "ETH" ++ institution ++ identifier).

Definition is_alnum (c : Z) : bool := is_dec_digit c || ((65 <=? c) && (c <=? 90)).
Definition bban_format (bban : jsstr) : bool :=
  forallb is_alnum bban &&
  ((js_starts_with (str "ETH") bban && (js_len bban =? 16)) || (js_len bban =? 30) || (js_len bban =? 31)).
Definition iban_format (iban : jsstr) : bool :=
  js_starts_with (str "XE") iban && forallb is_dec_digit (take 2 (drop 2 iban)) && (4 <=? js_len iban) &&
  bban_format (drop 4 iban).
(** [None] when the check of the digits does not end. *)
Definition isValid (iban : jsstr) : option bool :=
  if iban_format iban then
    r ← mod9710 (iso13616Prepare iban); Some (bool_decide (r = Some 1))
  else Some false.

Definition checksum (iban : jsstr) : jsstr := js_substr iban 2 2.
Definition institution (iban : jsstr) : jsstr := if isIndirect iban then js_substr iban 7 4 else [].
Definition client (iban : jsstr) : jsstr := if isIndirect iban then js_substr_from iban 11 else [].

(** * The remainder *)

Lemma dec_value_digits ds : Forall (is_digit 10) ds -> dec_value (digit_char <$> ds) = of_digits 10 ds.
Proof. intros H. unfold dec_value. by rewrite of_base_digits. Qed.

Lemma dec_digit c : is_dec_digit c = true -> exists d, c = digit_char d /\ is_digit 10 d.
Proof.
  unfold is_dec_digit, digit_char, is_digit. intros H. exists (c - 48).
  replace (c - 48 <? 10) with true by lia. lia.
Qed.
Lemma dec_digits s : forallb is_dec_digit s = true -> exists ds, s = digit_char <$> ds /\ Forall (is_digit 10) ds.
Proof.
  induction s as [|c s IH]; [by exists []|]. cbn. intros [Hc Hs]%andb_prop.
  destruct (dec_digit c Hc) as (d & -> & Hd). destruct (IH Hs) as (ds & -> & Hds).
  exists (d :: ds). split; [done|]. by constructor.
Qed.

Lemma dec_value_app s r :
  forallb is_dec_digit s = true -> forallb is_dec_digit r = true ->
  dec_value (s ++ r) = dec_value s * 10 ^ js_len r + dec_value r.
Proof.
  intros Hs Hr. destruct (dec_digits s Hs) as (ds & -> & Hds). destruct (dec_digits r Hr) as (dr & -> & Hdr).
  rewrite <-fmap_app, !dec_value_digits by (try apply Forall_app; done).
  rewrite of_digits_app by lia. unfold js_len. by rewrite length_fmap.
Qed.
Lemma dec_value_base z : 0 <= z -> dec_value (to_base 10 z) = z.
Proof. intros H. unfold dec_value. by rewrite of_base_to_base by lia. Qed.
Lemma to_base_dec z : 0 <= z -> forallb is_dec_digit (to_base 10 z) = true.
Proof. intros H. rewrite to_base_nonneg by done. apply digits_dec, digits_valid; lia. Qed.
Lemma dec_value_nonneg s : forallb is_dec_digit s = true -> 0 <= dec_value s.
Proof.
  intros Hs. destruct (dec_digits s Hs) as (ds & -> & Hds). rewrite dec_value_digits by done.
  apply of_digits_bound; [lia|done].
Qed.

Lemma parseInt_digits s : s <> [] -> forallb is_dec_digit s = true -> parseInt_signed s = Some (dec_value s).
Proof.
  intros Hn Hs. destruct s as [|c s]; [done|]. assert (is_dec_digit c = true) as Hc by (cbn in Hs; by apply andb_prop in Hs as [-> _]).
  unfold parseInt_signed. rewrite trim_left_word by (unfold is_word; by rewrite Hc).
  replace (c =? 45) with false by (unfold is_dec_digit in Hc; lia).
  replace (c =? 43) with false by (unfold is_dec_digit in Hc; lia).
  unfold parseInt10. rewrite span_all by done. done.
Qed.

Lemma slice_prefix s n : js_slice s 0 (Z.of_nat n) = take n s.
Proof.
  unfold js_slice, js_rel, js_len. replace (0 <? 0) with false by done. zbool (Z.of_nat n <? 0) false.
  replace (Z.to_nat (Z.min 0 (Z.of_nat (length s)))) with 0%nat by lia.
  rewrite drop_0, Nat.sub_0_r. destruct (decide (n <= length s)%nat).
  - f_equal. lia.
  - rewrite !take_ge by lia. done.
Qed.
Lemma slice_rest s n : (n <= length s)%nat -> js_slice_from s (Z.of_nat n) = drop n s.
Proof. intros H. unfold js_slice_from. rewrite js_rel_nonneg by (unfold js_len; lia). by rewrite Nat2Z.id. Qed.

(** Nine digits and the rest weigh as the remainder of the nine and the rest. *)
Lemma mod97_step a b r :
  0 <= a -> (Z.rem a 97 * 10 ^ js_len r + b) mod 97 = (a * 10 ^ js_len r + b) mod 97.
Proof.
  intros Ha. rewrite Z.rem_mod_nonneg by lia.
  rewrite <-(Z.add_mod_idemp_l (a * _)), <-(Z.mul_mod_idemp_l a), Z.add_mod_idemp_l by lia. done.
Qed.

Lemma rem97_length a : 0 <= a -> (1 <= length (to_base 10 (Z.rem a 97)) <= 2)%nat.
Proof.
  intros Ha. rewrite Z.rem_mod_nonneg by lia. pose proof (Z.mod_pos_bound a 97). split.
  - rewrite to_base_nonneg by lia. rewrite length_fmap. apply digits_length_pos.
  - apply to_base_length; [lia|change (10 ^ Z.of_nat 2) with 100; lia|lia].
Qed.

Lemma mod97_loop_digits fuel s :
  s <> [] -> forallb is_dec_digit s = true -> (length s <= fuel)%nat ->
  mod97_loop fuel s = Some (Some (dec_value s mod 97)).
Proof.
  revert s. induction fuel as [|fuel IH]; intros s Hn Hs Hf.
  { destruct s; [done|]. cbn in Hf. lia. }
  cbn [mod97_loop]. pose proof (dec_value_nonneg s Hs). destruct (Z.leb_spec (js_len s) 2) as [|Hl].
  - rewrite parseInt_digits by done. cbn. by rewrite Z.rem_mod_nonneg by lia.
  - change 9 with (Z.of_nat 9). rewrite slice_prefix. unfold js_len in Hl.
    assert (forallb is_dec_digit (take 9 s) = true /\ forallb is_dec_digit (drop 9 s) = true) as [H1 H2].
    { rewrite <-(take_drop 9 s), forallb_app in Hs. by apply andb_prop. }
    assert (length (take 9 s) = Nat.min 9 (length s)) as Ht by apply length_take.
    rewrite parseInt_digits; [|intros E; rewrite E in Ht; cbn [length] in Ht; lia|done]. unfold js_len.
    rewrite slice_rest by lia.
    assert (drop (length (take 9 s)) s = drop 9 s) as ->.
    { rewrite Ht. destruct (decide (9 <= length s)%nat); [by rewrite Nat.min_l|].
      rewrite Nat.min_r, !drop_ge by lia. done. }
    pose proof (dec_value_nonneg _ H1) as Hp. pose proof (rem97_length _ Hp). cbn [rem97_text].
    assert (0 <= Z.rem (dec_value (take 9 s)) 97) by (apply Z.rem_nonneg; lia).
    assert (forallb is_dec_digit (to_base 10 (Z.rem (dec_value (take 9 s)) 97)) = true) as Hd by by apply to_base_dec.
    rewrite IH.
    + rewrite dec_value_app, dec_value_base, mod97_step, <-dec_value_app, take_drop by done. done.
    + intros [E _]%app_nil. rewrite E in *. cbn in *. lia.
    + by rewrite forallb_app, Hd, H2.
    + rewrite length_app, length_drop. lia.
Qed.

(** * Validity *)

Lemma alnum_upper s : forallb is_alnum s = true -> js_upper s = s.
Proof.
  induction s as [|c s IH]; [done|]. cbn. intros [Hc Hs]%andb_prop. f_equal; [|by apply IH].
  unfold char_upper. unfold is_alnum, is_dec_digit in Hc. by replace ((97 <=? c) && (c <=? 122)) with false by lia.
Qed.

Lemma prepare_digits s : forallb is_alnum s = true -> forallb is_dec_digit (s ≫= prepare_char) = true.
Proof.
  induction s as [|c s IH]; [done|]. cbn [forallb]. intros [Hc Hs]%andb_prop.
  rewrite bind_cons, forallb_app, IH by done. rewrite andb_true_r. unfold prepare_char.
  destruct ((65 <=? c) && (c <=? 90)) eqn:E; [apply to_base_dec; lia|].
  cbn. rewrite andb_true_r. unfold is_alnum in Hc. rewrite E, orb_false_r in Hc. done.
Qed.
Lemma prepare_id s : forallb is_dec_digit s = true -> s ≫= prepare_char = s.
Proof.
  induction s as [|c s IH]; [done|]. cbn [forallb]. intros [Hc Hs]%andb_prop.
  rewrite bind_cons, IH by done. unfold prepare_char, is_dec_digit in *.
  by replace ((65 <=? c) && (c <=? 90)) with false by lia.
Qed.

Lemma prepare_spec cc bban :
  length cc = 2%nat -> forallb is_dec_digit cc = true -> forallb is_alnum bban = true ->
  iso13616Prepare (str "XE" ++ cc ++ bban) = (bban ≫= prepare_char) ++ str "3314" ++ cc.
Proof.
  intros Hl Hc Hb. unfold iso13616Prepare.
  assert (forallb is_alnum cc = true) as Hc'.
  { rewrite forallb_forall in *. intros x Hx. unfold is_alnum. by rewrite (Hc x Hx). }
  rewrite alnum_upper by (rewrite !forallb_app, Hc', Hb; done).
  rewrite js_substr_from_nonneg, js_substr_nonneg by lia.
  destruct cc as [|a [|b [|? ?]]]; try done.
  change (drop (Z.to_nat 4) (str "XE" ++ [a; b] ++ bban)) with bban.
  change (take (Z.to_nat 4) (drop (Z.to_nat 0) (str "XE" ++ [a; b] ++ bban))) with (str "XE" ++ [a; b]).
  rewrite !bind_app, (prepare_id [a; b]) by done. done.
Qed.

(** The two check digits. *)
Lemma check_digits_spec r :
  0 <= r < 97 -> length (check_digits (Some r)) = 2%nat /\ forallb is_dec_digit (check_digits (Some r)) = true /\
  dec_value (check_digits (Some r)) = 98 - r.
Proof.
  intros Hr.
  assert (forallb (fun r => let s := check_digits (Some r) in
            (length s =? 2)%nat && forallb is_dec_digit s && (dec_value s =? 98 - r)) (seqZ 0 97) = true) as H
    by (vm_compute; reflexivity).
  rewrite forallb_forall in H. specialize (H r ltac:(apply list_elem_of_In, elem_of_seqZ; lia)). cbv zeta in H.
  apply andb_prop in H as [[H1 H2]%andb_prop H3]. split_and!; [by apply Nat.eqb_eq|done|lia].
Qed.

Lemma fromBban_spec bban :
  forallb is_alnum bban = true ->
  exists cc, fromBban bban = Some (str "XE" ++ cc ++ bban) /\ length cc = 2%nat /\ forallb is_dec_digit cc = true /\
             mod9710 (iso13616Prepare (str "XE" ++ cc ++ bban)) = Some (Some 1).
Proof.
  intros Hb. unfold fromBban. rewrite prepare_spec by done. set (p := bban ≫= prepare_char).
  assert (forall cc, forallb is_dec_digit cc = true -> length cc = 2%nat ->
            mod9710 (p ++ str "3314" ++ cc) = Some (Some ((dec_value (p ++ str "3314") * 100 + dec_value cc) mod 97))) as Hm.
  { intros cc Hc Hl. assert (forallb is_dec_digit p = true) as Hp by by apply prepare_digits.
    unfold mod9710. rewrite mod97_loop_digits; [|by destruct p|by rewrite !forallb_app, Hp, Hc|lia].
    rewrite app_assoc, dec_value_app; [|by rewrite forallb_app, Hp|done]. unfold js_len. by rewrite Hl. }
  rewrite Hm by done. change (dec_value (str "00")) with 0. rewrite Z.add_0_r. cbn [mbind option_bind].
  set (r := (dec_value (p ++ str "3314") * 100) mod 97). pose proof (Z.mod_pos_bound (dec_value (p ++ str "3314") * 100) 97).
  destruct (check_digits_spec r ltac:(lia)) as (Hl & Hd & Hv). exists (check_digits (Some r)).
  split_and!; try done. rewrite prepare_spec by done. fold p. rewrite Hm, Hv by done. do 2 f_equal.
  rewrite <-Z.add_mod_idemp_l by lia. fold r. by replace (r + (98 - r)) with (1 + 1 * 97) by lia.
Qed.

Lemma isValid_built cc bban :
  length cc = 2%nat -> forallb is_dec_digit cc = true -> bban_format bban = true ->
  mod9710 (iso13616Prepare (str "XE" ++ cc ++ bban)) = Some (Some 1) -> isValid (str "XE" ++ cc ++ bban) = Some true.
Proof.
  intros Hl Hd Hf Hm. unfold isValid. assert (iban_format (str "XE" ++ cc ++ bban) = true) as ->; [|by rewrite Hm].
  destruct cc as [|a [|b [|? ?]]]; try done. unfold iban_format.
  change (drop 4 (str "XE" ++ [a; b] ++ bban)) with bban. rewrite Hf.
  change (take 2 (drop 2 (str "XE" ++ [a; b] ++ bban))) with [a; b]. rewrite Hd.
  unfold js_len. rewrite !length_app. change (length (str "XE")) with 2%nat. cbn [length].
  assert (js_starts_with (str "XE") (str "XE" ++ [a; b] ++ bban) = true) as -> by done.
  cbn [andb]. rewrite ?andb_true_r. apply Z.leb_le. lia.
Qed.

(** Every account number built from a well-formed body is valid: the check digits
    are the ones the standard asks for. *)
Theorem iban_valid bban :
  bban_format bban = true -> exists iban, fromBban bban = Some iban /\ isValid iban = Some true.
Proof.
  intros Hf. pose proof Hf as Hf'. unfold bban_format in Hf'. apply andb_prop in Hf' as [Ha _].
  destruct (fromBban_spec bban Ha) as (cc & E & Hl & Hd & Hm). exists (str "XE" ++ cc ++ bban). split; [done|].
  by apply isValid_built.
Qed.

Lemma iban_valid_witness :
  exists iban, fromBban (str "ETHXREGGAVOFYORK") = Some iban /\ isValid iban = Some true.
Proof. apply (iban_valid (str "ETHXREGGAVOFYORK")). reflexivity. Defined.

(** The example of the ICAP description. *)
Lemma iban_example : createIndirect (str "XREG") (str "GAVOFYORK") = Some (str "XE81ETHXREGGAVOFYORK").
Proof. vm_compute. reflexivity. Qed.

(** * Addresses *)

Lemma upper_digit d : is_digit 36 d ->
  char_digit 36 (char_upper (digit_char d)) = Some d /\ is_alnum (char_upper (digit_char d)) = true.
Proof.
  intros Hd.
  assert (forallb (fun d => bool_decide (char_digit 36 (char_upper (digit_char d)) = Some d) &&
            is_alnum (char_upper (digit_char d))) (seqZ 0 36) = true) as H by (vm_compute; reflexivity).
  rewrite forallb_forall in H. unfold is_digit in Hd.
  specialize (H d ltac:(apply list_elem_of_In, elem_of_seqZ; lia)). apply andb_prop in H as [H1 H2].
  split; [by apply bool_decide_eq_true in H1|done].
Qed.
Lemma upper_digits ds :
  Forall (is_digit 36) ds ->
  mapM (char_digit 36) (js_upper (digit_char <$> ds)) = Some ds /\
  forallb is_alnum (js_upper (digit_char <$> ds)) = true /\
  forallb (is_base_digit 36) (js_upper (digit_char <$> ds)) = true.
Proof.
  induction 1 as [|d ds Hd _ (IH1 & IH2 & IH3)]; [done|]. destruct (upper_digit d Hd) as [E1 E2].
  change (js_upper (digit_char <$> d :: ds)) with (char_upper (digit_char d) :: js_upper (digit_char <$> ds)).
  cbn [mapM forallb]. rewrite E1, E2, IH2, IH3. unfold is_base_digit. rewrite E1. split_and!; [|done|done].
  cbn [mbind option_bind]. by rewrite IH1.
Qed.

Lemma new_BigNumber_upper rm ds :
  ds <> [] -> Forall (is_digit 36) ds ->
  new_BigNumber rm (js_upper (digit_char <$> ds)) (Some 36) = Some (Big (of_digits 36 ds) 0).
Proof.
  intros Hn Hd. destruct (upper_digits ds Hd) as (H1 & H2 & H3). unfold new_BigNumber.
  rewrite Nat.add_succ_r. cbn [construct Z.eqb Pos.eqb]. set (s := js_upper (digit_char <$> ds)) in *.
  assert (read_base rm 36 s = Some (Big (of_digits 36 ds) 0)) as ->; [|done]. unfold read_base.
  assert (strip_minus s = (false, s)) as ->.
  { destruct s as [|c s']; [done|]. cbn in H2 |- *. apply andb_prop in H2 as [H2 _].
    unfold is_alnum, is_dec_digit in H2. by replace (c =? 45) with false by lia. }
  rewrite span_all by done. unfold base_value, of_base. rewrite H1.
  assert (s <> []) by (intros E; by destruct ds). by destruct s.
Qed.

(** Digits are what their value prints to, padded to their number. *)
Lemma padded_digits b ds n :
  2 <= b -> Forall (is_digit b) ds -> length ds = n -> (1 <= n)%nat ->
  replicate (n - length (to_base b (of_digits b ds))) 48 ++ to_base b (of_digits b ds) = digit_char <$> ds.
Proof.
  intros Hb Hd Hl Hn. pose proof (of_digits_bound b ltac:(lia) ds Hd) as Hr.
  rewrite to_base_nonneg by lia. change 48 with (digit_char 0). rewrite length_fmap, <-fmap_replicate, <-fmap_app.
  f_equal. pose proof (digits_length b Hb (of_digits b ds) n ltac:(rewrite <-Hl; lia) Hn).
  apply (of_digits_inj b); [lia|rewrite length_app, length_replicate; lia| |done|].
  - apply Forall_app. split; [apply Forall_replicate; unfold is_digit; lia|apply digits_valid; lia].
  - rewrite of_digits_zeros, of_digits_digits by lia. done.
Qed.

Lemma hex_address h :
  length h = 40%nat -> forallb is_lower_hex h = true ->
  exists ds, h = digit_char <$> ds /\ Forall (is_digit 16) ds /\ length ds = 40%nat /\ 0 <= of_digits 16 ds < 2 ^ 160.
Proof.
  intros Hl Hh. destruct (lower_hex_digits h Hh) as (ds & -> & Hd).
  rewrite length_fmap in Hl. exists ds. split_and!; try done.
  all: pose proof (of_digits_bound 16 ltac:(lia) ds Hd) as Hb; rewrite Hl in Hb;
    change (16 ^ Z.of_nat 40) with (2 ^ 160) in Hb; lia.
Qed.

(** C37. An address of forty hexadecimal digits has a valid direct account number, from
    which the address is read back. *)
Theorem iban_address rm h :
  length h = 40%nat -> forallb is_lower_hex h = true ->
  exists iban, fromAddress rm h = Some iban /\ isValid iban = Some true /\ isDirect iban = true /\ address rm iban = Some h.
Proof.
  intros Hl Hh. destruct (hex_address h Hl Hh) as (ds & -> & Hd & Hlen & Hr). set (z := of_digits 16 ds) in *.
  unfold fromAddress. rewrite new_BigNumber_digits; [|by destruct ds|done|lia|lia]. fold z. cbn [mbind option_bind toString_base].
  assert (2 ^ 160 <= 36 ^ Z.of_nat 31) by (vm_compute; discriminate).
  pose proof (to_base_length 36 z 31 ltac:(lia) ltac:(lia) ltac:(lia)) as H31.
  unfold iban_padLeft. rewrite to_base_nonneg in * by lia. rewrite length_fmap in *.
  set (k := (2 * 15 - length (digits 36 z))%nat). change 48 with (digit_char 0).
  rewrite <-fmap_replicate, <-fmap_app. set (d36 := replicate k 0 ++ digits 36 z).
  assert (Forall (is_digit 36) d36) as Hv.
  { apply Forall_app. split; [apply Forall_replicate; unfold is_digit; lia|apply digits_valid; lia]. }
  assert (length d36 = 30 \/ length d36 = 31)%nat as Hlb.
  { unfold d36. rewrite length_app, length_replicate. unfold k. lia. }
  assert (of_digits 36 d36 = z) as Hz by (unfold d36; rewrite of_digits_zeros, of_digits_digits by lia; done).
  destruct (upper_digits d36 Hv) as (_ & Ha & _). set (bban := js_upper (digit_char <$> d36)) in *.
  assert (length bban = length d36) as Hbl by (unfold bban, js_upper; by rewrite !length_fmap).
  destruct (fromBban_spec bban Ha) as (cc & E & Hcl & Hcd & Hm). exists (str "XE" ++ cc ++ bban).
  assert (js_len (str "XE" ++ cc ++ bban) = Z.of_nat (4 + length d36)) as Hjl.
  { unfold js_len. rewrite !length_app, Hcl, Hbl. done. }
  split_and!; [done| | |].
  - apply isValid_built; [done|done| |done]. unfold bban_format. rewrite Ha. unfold js_len. rewrite Hbl.
    cbn [andb]. destruct Hlb as [-> | ->]; by rewrite !orb_true_r.
  - unfold isDirect. rewrite Hjl. destruct Hlb as [-> | ->]; done.
  - unfold address, isDirect. rewrite Hjl.
    assert ((Z.of_nat (4 + length d36) =? 34) || (Z.of_nat (4 + length d36) =? 35) = true) as -> by (destruct Hlb as [-> | ->]; done).
    rewrite js_substr_from_nonneg by lia. destruct cc as [|a [|b [|? ?]]]; try done.
    change (drop (Z.to_nat 4) (str "XE" ++ [a; b] ++ bban)) with bban. unfold bban. rewrite new_BigNumber_upper; [|intros E'; rewrite E' in Hlb; cbn in Hlb; lia|done].
    rewrite Hz. cbn [mbind option_bind toString_base]. unfold iban_padLeft, z. f_equal. apply (padded_digits 16 ds 40); (done || lia).
Qed.

Lemma iban_address_witness :
  exists iban, fromAddress ROUND_HALF_UP (str "00c5496aee77c1ba1f0854206a26dda82a81d6d8") = Some iban /\
    isValid iban = Some true /\ isDirect iban = true /\
    address ROUND_HALF_UP iban = Some (str "00c5496aee77c1ba1f0854206a26dda82a81d6d8").
Proof. apply (iban_address ROUND_HALF_UP); reflexivity. Defined.

(** * Where it fails *)

(** The address with its prefix, as every other function of the library takes it,
    is not accepted: the number cannot be read. *)
Theorem iban_prefixed_address rm h :
  h <> [] -> forallb (is_base_digit 16) h = true -> fromAddress rm (str "0x" ++ h) = None.
Proof. intros Hn Hh. unfold fromAddress. by rewrite (proj1 (hex_prefix_throws rm h Hn Hh)). Qed.

Lemma parseInt_word c s :
  is_space c = false -> is_dec_digit c = false -> c <> 43 -> c <> 45 -> parseInt_signed (c :: s) = None.
Proof.
  intros H1 H2 H3 H4. unfold parseInt_signed. cbn [trim_left]. rewrite H1.
  replace (c =? 45) with false by lia. replace (c =? 43) with false by lia.
  unfold parseInt10. cbn [span]. by rewrite H2.
Qed.

(** The remainder never ends on a string that starts with a character no number
    starts with: NaN is written back in front of the rest, longer than the two
    characters the loop ends with. *)
Theorem iban_check_diverges fuel c s :
  is_space c = false -> is_dec_digit c = false -> c <> 43 -> c <> 45 -> (2 <= length s)%nat ->
  mod97_loop fuel (c :: s) = None.
Proof.
  revert c s. induction fuel as [|fuel IH]; intros c s H1 H2 H3 H4 Hs; cbn [mod97_loop];
    (assert ((js_len (c :: s) <=? 2) = false) as -> by (apply Z.leb_gt; unfold js_len; rewrite length_cons; lia)); [done|].
  change 9 with (Z.of_nat 9). rewrite slice_prefix. cbn [take]. rewrite parseInt_word by done. cbn [rem97_text].
  change (str "NaN" ++ ?r) with (78 :: [97; 78] ++ r).
  apply IH; [done|done|done|done|]. rewrite length_app. cbn [length]. lia.
Qed.

Lemma iban_check_diverges_witness : mod97_loop 1000 (str "*123") = None.
Proof. apply iban_check_diverges; [reflexivity|reflexivity|discriminate|discriminate|cbn; lia]. Defined.
