(* ===== verification/Rpc.v ===== *)
(** JSON-RPC messages (web3.js 4874-4931), the request manager that sends them and
    polls for filters (6316-6540), batches (2749-2786) and the error texts
    (3124-3146).

    The provider, the timers and the callbacks belong to the environment: an
    operation returns the new state and the list of its effects, in order, and an
    answer of the provider or a timer that fires is an event. *)
From S2P Require Import Prelude BigNumber Utils.

(** * Messages *)

(** [v[k]] of an object; other values have no such field here. *)
Definition field (k : jsstr) (v : value) : value :=
  match v with
  | VObj fs => default VUndefined (assoc k fs)
  | _ => VUndefined
  end.
Definition truthy (v : value) : bool := negb (falsy v).
Definition is_number (v : value) : bool := match v with VNum _ => true | _ => false end.
Definition is_undefined (v : value) : bool := match v with VUndefined => true | _ => false end.

Definition validateSingleMessage (message : value) : bool :=
  truthy message && falsy (field (str "error") message) &&
  match field (str "jsonrpc") message with VStr s => bool_decide (s = str "2.0") | _ => false end &&
  is_number (field (str "id") message) &&
  negb (is_undefined (field (str "result") message)).
Definition isValidResponse (response : value) : bool :=
  match response with
  | VArr l => forallb validateSingleMessage l
  | _ => validateSingleMessage response
  end.

Record payload := Payload { pl_id : Z; pl_method : jsstr; pl_params : list value }.
(** [toPayload]: the counter is advanced, then used. *)
Definition toPayload (messageId : Z) (method : jsstr) (params : list value) : payload * Z :=
  (Payload (messageId + 1) method params, messageId + 1).
Fixpoint toBatchPayload (messageId : Z) (messages : list (jsstr * list value)) : list payload * Z :=
  match messages with
  | [] => ([], messageId)
  | (method, params) :: messages =>
      let '(p, i) := toPayload messageId method params in
      let '(ps, i) := toBatchPayload i messages in
      (p :: ps, i)
  end.

(** A message with its result, as the node answers. *)
Definition answer_of (result : value) : value :=
  VObj [(str "jsonrpc", VStr (str "2.0")); (str "id", VNum 1); (str "result", result)].

(** * Errors *)

Definition InvalidResponse (result : value) : jsstr :=
  let e := field (str "error") result in
  let m := field (str "message") e in
  if truthy result && truthy e && truthy m then js_to_string m
  else str "Invalid JSON RPC response: " ++ default (str "undefined") (JSON_stringify result).
Definition InvalidProvider : jsstr := str "Provider not set or invalid".
Definition InvalidNumberOfRPCParams : jsstr := str "Invalid number of input parameters to RPC method".
Definition InvalidNumberOfSolidityArgs : jsstr := str "Invalid number of arguments to Solidity function".

(** * The request manager *)

(** Callbacks are known by number. *)
Abbreviation callback := nat.
Record poll := Poll { po_method : jsstr; po_params : list value; po_callback : callback; po_uninstall : callback }.

Inductive effect :=
  | Send (payloads : list payload)            (* to the provider, one message or a batch *)
  | Call (cb : callback) (error : option jsstr) (result : value)
  | Uninstall (cb : callback)
  | ConsoleError (text : jsstr)
  | Throw (text : jsstr).

(** An object used as a map keeps its keys in the order they were first set; the
    keys here are filter identifiers, not array indices. *)
Fixpoint set_key {A} (k : jsstr) (x : A) (l : list (jsstr * A)) : list (jsstr * A) :=
  match l with
  | [] => [(k, x)]
  | (k', y) :: l => if bool_decide (k = k') then (k, x) :: l else (k', y) :: set_key k x l
  end.
Definition delete_key {A} (k : jsstr) (l : list (jsstr * A)) : list (jsstr * A) :=
  filter (fun x => x.1 <> k) l.

(** [timers]: the timers that are set and have not fired.  [inflight]: the batches
    sent by [poll] that wait for an answer, each with its map from request
    identifiers to poll identifiers. *)
Record manager := Manager {
  provider : bool;
  polls : list (jsstr * poll);
  timeout : option Z;
  timers : list Z;
  nextTimer : Z;
  messageId : Z;
  inflight : list (Z * list (jsstr * jsstr));
  nextBatch : Z
}.
Definition newManager (provider : bool) : manager := Manager provider [] None [] 1 0 [] 0.

Definition with_polls (ps : list (jsstr * poll)) (s : manager) : manager :=
  Manager (provider s) ps (timeout s) (timers s) (nextTimer s) (messageId s) (inflight s) (nextBatch s).
Definition with_messageId (i : Z) (s : manager) : manager :=
  Manager (provider s) (polls s) (timeout s) (timers s) (nextTimer s) i (inflight s) (nextBatch s).

(** The identifiers of a batch, paired with the polls they ask for. *)
Definition pollsIdMap (payloads : list payload) (ids : list jsstr) : list (jsstr * jsstr) :=
  zip (number_to_string ∘ pl_id <$> payloads) ids.

(** [setTimeout] and [clearTimeout] *)
Definition set_timeout (s : manager) : manager :=
  Manager (provider s) (polls s) (Some (nextTimer s)) (timers s ++ [nextTimer s]) (nextTimer s + 1)
    (messageId s) (inflight s) (nextBatch s).
Definition clear_timeout (s : manager) : manager :=
  Manager (provider s) (polls s) None
    (match timeout s with Some t => filter (fun x => x <> t) (timers s) | None => timers s end)
    (nextTimer s) (messageId s) (inflight s) (nextBatch s).

Definition do_poll (s : manager) : manager * list effect :=
  let s := set_timeout s in
  match polls s with
  | [] => (s, [])
  | _ =>
      if provider s then
        let '(payloads, i) := toBatchPayload (messageId s) ((fun '(_, p) => (po_method p, po_params p)) <$> polls s) in
        (Manager true (polls s) (timeout s) (timers s) (nextTimer s) i
           (inflight s ++ [(nextBatch s, pollsIdMap payloads (fst <$> polls s))]) (nextBatch s + 1),
         [Send payloads])
      else (s, [ConsoleError InvalidProvider])
  end.

Definition startPolling (key : jsstr) (p : poll) (s : manager) : manager * list effect :=
  let s := with_polls (set_key key p (polls s)) s in
  match timeout s with
  | None => do_poll s
  | Some _ => (s, [])
  end.

(** The timer is cleared with the last poll. *)
Definition stop_if_idle (s : manager) : manager :=
  match polls s, timeout s with
  | [], Some _ => clear_timeout s
  | _, _ => s
  end.
Definition stopPolling (key : jsstr) (s : manager) : manager :=
  stop_if_idle (with_polls (delete_key key (polls s)) s).

(** Every poll but, on demand, those of the synchronisation state is uninstalled
    and deleted.  (The [uninstall] of a filter stops its poll, which deletes the
    same key.) *)
Definition is_sync_key (key : jsstr) : bool := match indexOf (str "syncPoll_") key with Some _ => true | None => false end.
Fixpoint reset_polls (keepIsSyncing : bool) (keys : list (jsstr * poll)) (s : manager) : manager * list effect :=
  match keys with
  | [] => (s, [])
  | (key, p) :: keys =>
      if negb keepIsSyncing || negb (is_sync_key key) then
        let '(s, es) := reset_polls keepIsSyncing keys (with_polls (delete_key key (polls s)) s) in
        (s, Uninstall (po_uninstall p) :: es)
      else reset_polls keepIsSyncing keys s
  end.
Definition reset_manager (keepIsSyncing : bool) (s : manager) : manager * list effect :=
  let '(s, es) := reset_polls keepIsSyncing (polls s) s in (stop_if_idle s, es).

Definition setProvider (b : bool) (s : manager) : manager :=
  Manager b (polls s) (timeout s) (timers s) (nextTimer s) (messageId s) (inflight s) (nextBatch s).

(** A result of a polled batch with the callback of its poll, when the poll is
    still installed. *)
Definition poll_target (idMap : list (jsstr * jsstr)) (ps : list (jsstr * poll)) (result : value) : option (callback * value) :=
  let id := default (str "undefined") (assoc (js_to_string (field (str "id") result)) idMap) in
  (fun p => (po_callback p, result)) <$> assoc id ps.
(** The callbacks of invalid results run before those of valid ones. *)
Definition deliver (targets : list (callback * value)) : list effect :=
  ((fun '(cb, r) => Call cb (Some (InvalidResponse r)) VUndefined) <$>
     filter (fun t => isValidResponse t.2 = false) targets) ++
  ((fun '(cb, r) => Call cb None (field (str "result") r)) <$>
     filter (fun t => isValidResponse t.2 = true) targets).
(** The answer to a batch of [poll].  A result that is undefined or null has no
    identifier to ask for and throws. *)
Definition poll_answer (idMap : list (jsstr * jsstr)) (error : option jsstr) (results : value) (s : manager) : list effect :=
  match error, results with
  | Some _, _ => []
  | None, VArr rs =>
      if existsb (fun r => match r with VUndefined | VNull => true | _ => false end) rs
      then [Throw (str "TypeError")]
      else deliver (omap (poll_target idMap (polls s)) rs)
  | None, _ => [Throw (InvalidResponse results)]
  end.

(** [send]: the provider's answer is given; [None] is a throw. *)
Definition send (method : jsstr) (params : list value) (answer : value) (s : manager) : manager * list effect * option value :=
  if provider s then
    let '(p, i) := toPayload (messageId s) method params in
    let s := with_messageId i s in
    if isValidResponse answer then (s, [Send [p]], Some (field (str "result") answer))
    else (s, [Send [p]; Throw (InvalidResponse answer)], None)
  else (s, [ConsoleError InvalidProvider], Some VNull).

(** [sendAsync]: what is sent, and what the callback is called with when the answer
    arrives. *)
Definition sendAsync (method : jsstr) (params : list value) (cb : callback) (s : manager) : manager * list effect :=
  if provider s then
    let '(p, i) := toPayload (messageId s) method params in (with_messageId i s, [Send [p]])
  else (s, [Call cb (Some InvalidProvider) VUndefined]).
Definition async_answer (cb : callback) (error : option jsstr) (result : value) : effect :=
  match error with
  | Some e => Call cb (Some e) VUndefined
  | None => if isValidResponse result then Call cb None (field (str "result") result)
            else Call cb (Some (InvalidResponse result)) VUndefined
  end.

(** * Batches *)

(** A request of a batch: its method and parameters, its callback if it has one,
    and the formatter of its result, which may throw. *)
Record request := Request {
  rq_method : jsstr; rq_params : list value; rq_callback : option callback; rq_format : value -> option value
}.
(** The results of a batch are taken by position; one that is missing is an empty
    object, and an error of the provider counts as no results. *)
Definition batch_results (error : option jsstr) (results : value) : list value :=
  match error, results with
  | None, VArr l => l
  | _, _ => []
  end.
(** The effects of one result, and whether the loop goes on after it. *)
Definition batch_callback (r : request) (result : value) : list effect * bool :=
  let result := if truthy result then result else VObj [] in
  match rq_callback r with
  | None => ([], true)
  | Some cb =>
      if isValidResponse result then
        match rq_format r (field (str "result") result) with
        | Some v => ([Call cb None v], true)
        | None => ([Throw (str "Error")], false)
        end
      else ([Call cb (Some (InvalidResponse result)) VUndefined], true)
  end.
Fixpoint batch_callbacks (requests : list request) (results : list value) : list effect :=
  match requests with
  | [] => []
  | r :: requests =>
      let '(fx, go_on) := batch_callback r (default VUndefined (head results)) in
      fx ++ if go_on then batch_callbacks requests (tail results) else []
  end.
Definition batch_answer (requests : list request) (error : option jsstr) (results : value) : list effect :=
  batch_callbacks requests (batch_results error results).

(** [execute]: without a provider the callbacks are called at once. *)
Definition batch_execute (requests : list request) (s : manager) : manager * list effect :=
  if provider s then
    let '(ps, i) := toBatchPayload (messageId s) ((fun r => (rq_method r, rq_params r)) <$> requests) in
    (with_messageId i s, [Send ps])
  else (s, batch_answer requests (Some InvalidProvider) VUndefined).

(** * Runs *)

Inductive event :=
  | EStart (key : jsstr) (p : poll)
  | EStop (key : jsstr)
  | EReset (keepIsSyncing : bool)
  | ESetProvider (b : bool)
  | ESend (method : jsstr) (params : list value) (answer : value)
  | ESendAsync (method : jsstr) (params : list value) (cb : callback)
  | EBatch (requests : list request)
  | ETimer (t : Z)
  | EAnswer (batch : Z) (error : option jsstr) (results : value).

Fixpoint take_batch (n : Z) (l : list (Z * list (jsstr * jsstr))) : option (list (jsstr * jsstr) * list (Z * list (jsstr * jsstr))) :=
  match l with
  | [] => None
  | (m, idMap) :: l => if m =? n then Some (idMap, l)
                       else (fun '(x, l) => (x, (m, idMap) :: l)) <$> take_batch n l
  end.

(** A timer fires when it is set, and a batch is answered when it is in flight;
    otherwise the event does not happen. *)
Definition step (s : manager) (e : event) : manager * list effect :=
  match e with
  | EStart key p => startPolling key p s
  | EStop key => (stopPolling key s, [])
  | EReset keep => reset_manager keep s
  | ESetProvider b => (setProvider b s, [])
  | ESend m ps a => (send m ps a s).1
  | ESendAsync m ps cb => sendAsync m ps cb s
  | EBatch rs => batch_execute rs s
  | ETimer t =>
      if bool_decide (t ∈ timers s) then
        do_poll (Manager (provider s) (polls s) (timeout s) (filter (fun x => x <> t) (timers s)) (nextTimer s)
                   (messageId s) (inflight s) (nextBatch s))
      else (s, [])
  | EAnswer n error results =>
      match take_batch n (inflight s) with
      | Some (idMap, rest) =>
          (Manager (provider s) (polls s) (timeout s) (timers s) (nextTimer s) (messageId s) rest (nextBatch s),
           poll_answer idMap error results s)
      | None => (s, [])
      end
  end.
Fixpoint run (s : manager) (es : list event) : manager * list effect :=
  match es with
  | [] => (s, [])
  | e :: es => let '(s, fx) := step s e in let '(s, fx') := run s es in (s, fx ++ fx')
  end.

(** * Timers *)

(** At most one timer is set, it is the one the manager knows, and without it
    nothing is polled. *)
Definition timer_ok (s : manager) : Prop :=
  match timeout s with
  | Some t => timers s = [t]
  | None => timers s = [] /\ polls s = []
  end.

Lemma filter_self (t : Z) : filter (fun x => x <> t) [t] = [].
Proof. rewrite filter_cons, decide_False by (intros H; by apply H). done. Qed.

Lemma set_timeout_ok s : timers s = [] -> timer_ok (set_timeout s).
Proof. intros H. unfold timer_ok, set_timeout. cbn. by rewrite H. Qed.

Lemma do_poll_timers s : timeout (do_poll s).1 = timeout (set_timeout s) /\ timers (do_poll s).1 = timers (set_timeout s) /\
  polls (do_poll s).1 = polls s.
Proof.
  unfold do_poll. cbv zeta. change (polls (set_timeout s)) with (polls s).
  destruct (polls s) eqn:E; [done|]. change (provider (set_timeout s)) with (provider s). destruct (provider s); [|done].
  destruct (toBatchPayload _ _). cbn. done.
Qed.
Lemma do_poll_ok s : timers s = [] -> timer_ok (do_poll s).1.
Proof.
  intros H. destruct (do_poll_timers s) as (E1 & E2 & E3). unfold timer_ok. rewrite E1, E2. cbn. by rewrite H.
Qed.

Lemma stop_if_idle_ok s : match timeout s with Some t => timers s = [t] | None => timers s = [] /\ polls s = [] end ->
  timer_ok (stop_if_idle s).
Proof.
  unfold timer_ok, stop_if_idle. destruct (timeout s) as [t|] eqn:E.
  - intros H. destruct (polls s) eqn:Ep; [|by rewrite E]. cbn. rewrite E, H, filter_self. done.
  - intros [H1 H2]. rewrite H2. by rewrite E.
Qed.

Lemma delete_ok key s : timer_ok s -> timer_ok (with_polls (delete_key key (polls s)) s).
Proof.
  unfold timer_ok. cbn. destruct (timeout s); [done|]. intros [H1 H2]. by rewrite H2.
Qed.
Lemma stopPolling_ok key s : timer_ok s -> timer_ok (stopPolling key s).
Proof. intros H. by apply stop_if_idle_ok, delete_ok. Qed.

Lemma reset_polls_ok keep keys s : timer_ok s -> timer_ok (reset_polls keep keys s).1.
Proof.
  revert s. induction keys as [|[key p] keys IH]; intros s H; [done|]. cbn [reset_polls].
  destruct (_ || _); [|by apply IH]. pose proof (IH _ (delete_ok key s H)) as H'.
  by destruct (reset_polls keep keys (with_polls (delete_key key (polls s)) s)).
Qed.

Lemma set_key_nonempty {A} k (x : A) l : set_key k x l <> [].
Proof. destruct l as [|[k' y] l]; [done|]. cbn. by destruct (bool_decide _). Qed.

Lemma step_timer_ok s e : timer_ok s -> timer_ok (step s e).1.
Proof.
  intros H. destruct e as [key p|key|keep|b|m ps a|m ps cb|rs|t|n err results]; cbn [step].
  - unfold startPolling. cbv zeta. destruct (timeout (with_polls _ s)) as [t|] eqn:E; cbn in E.
    + unfold timer_ok in *. cbn. by rewrite E in *.
    + apply do_poll_ok. unfold timer_ok in H. rewrite E in H. by destruct H.
  - by apply stopPolling_ok.
  - unfold reset_manager. pose proof (reset_polls_ok keep (polls s) s H) as H'.
    destruct (reset_polls keep (polls s) s) as [s' es]. by apply stop_if_idle_ok.
  - done.
  - unfold send. destruct (provider s); [|done]. cbn. by destruct (isValidResponse a).
  - unfold sendAsync. by destruct (provider s).
  - unfold batch_execute. destruct (provider s); [|done]. destruct (toBatchPayload _ _). done.
  - case_bool_decide as Ht; [|done]. apply do_poll_ok. cbn. unfold timer_ok in H.
    destruct (timeout s) as [t'|].
    + rewrite H in *. apply list_elem_of_singleton in Ht as ->. apply filter_self.
    + destruct H as [-> _]. done.
  - destruct (take_batch n (inflight s)) as [[idMap rest]|]; [|done]. done.
Qed.

Lemma run_timer_ok es s : timer_ok s -> timer_ok (run s es).1.
Proof.
  revert s. induction es as [|e es IH]; intros s H; [done|]. cbn [run].
  pose proof (step_timer_ok s e H) as H'. destruct (step s e) as [s' fx]. specialize (IH s' H').
  by destruct (run s' es).
Qed.

(** * Identifiers *)

Definition sent_ids (fx : list effect) : list Z :=
  fx ≫= (fun e => match e with Send ps => pl_id <$> ps | _ => [] end).

Lemma batch_ids i ms :
  pl_id <$> (toBatchPayload i ms).1 = seqZ (i + 1) (Z.of_nat (length ms)) /\
  (toBatchPayload i ms).2 = i + Z.of_nat (length ms).
Proof.
  revert i. induction ms as [|[m ps] ms IH]; intros i; cbn [toBatchPayload toPayload]; [cbn; split; [done|lia]|].
  destruct (IH (i + 1)) as [E1 E2]. destruct (toBatchPayload (i + 1) ms) as [l j]. cbn [fst snd] in *.
  cbn [fmap list_fmap length]. rewrite seqZ_cons by lia. split; [|lia]. f_equal.
  change (list_fmap _ _ pl_id l) with (pl_id <$> l). rewrite E1. f_equal; lia.
Qed.

Lemma deliver_ids ts : sent_ids (deliver ts) = [].
Proof.
  unfold deliver, sent_ids. rewrite bind_app.
  assert (forall (f : callback * value -> effect) l, (forall x, match f x with Send _ => False | _ => True end) ->
            (f <$> l) ≫= (fun e => match e with Send ps => pl_id <$> ps | _ => [] end) = []) as H.
  { intros f l Hf. induction l as [|x l IH]; [done|]. rewrite fmap_cons, bind_cons, IH. specialize (Hf x). by destruct (f x). }
  rewrite !H; [done|by intros []..].
Qed.
Lemma batch_callbacks_ids rs results : sent_ids (batch_callbacks rs results) = [].
Proof.
  revert results. induction rs as [|r rs IH]; intros results; [done|]. cbn [batch_callbacks].
  assert (sent_ids (batch_callback r (default VUndefined (head results))).1 = []) as E.
  { unfold batch_callback. destruct (rq_callback r); [|done]. destruct (isValidResponse _); [|done]. by destruct (rq_format r _). }
  destruct (batch_callback r _) as [fx go_on]. unfold sent_ids in *. cbn [fst] in E. rewrite bind_app, E.
  destruct go_on; [apply IH|done].
Qed.
Lemma reset_ids keep keys s : sent_ids (reset_polls keep keys s).2 = [] /\ messageId (reset_polls keep keys s).1 = messageId s.
Proof.
  revert s. induction keys as [|[key p] keys IH]; intros s; [done|]. cbn [reset_polls].
  destruct (_ || _); [|apply IH]. destruct (IH (with_polls (delete_key key (polls s)) s)) as [E1 E2].
  by destruct (reset_polls keep keys (with_polls (delete_key key (polls s)) s)) as [s' es].
Qed.

Lemma do_poll_ids s : 
  sent_ids (do_poll s).2 = seqZ (messageId s + 1) (messageId (do_poll s).1 - messageId s) /\
  messageId s <= messageId (do_poll s).1.
Proof.
  unfold do_poll. cbv zeta. change (polls (set_timeout s)) with (polls s).
  assert (forall x, seqZ x (messageId (set_timeout s) - messageId s) = []) as E0.
  { intros x. cbn. by rewrite Z.sub_diag. }
  destruct (polls s) eqn:E; [by rewrite E0|]. change (provider (set_timeout s)) with (provider s). destruct (provider s); [|by rewrite E0].
  destruct (batch_ids (messageId (set_timeout s)) ((fun '(_, p) => (po_method p, po_params p)) <$> p :: l)) as [E1 E2].
  destruct (toBatchPayload _ _) as [ps i]. cbn [fst snd messageId sent_ids] in *. unfold sent_ids. rewrite bind_singleton, E1, E2.
  cbn [set_timeout messageId]. split; [f_equal; lia|lia].
Qed.

Lemma step_ids s e : 
  sent_ids (step s e).2 = seqZ (messageId s + 1) (messageId (step s e).1 - messageId s) /\
  messageId s <= messageId (step s e).1.
Proof.
  assert (forall s' fx, messageId s' = messageId s -> sent_ids fx = [] ->
            sent_ids fx = seqZ (messageId s + 1) (messageId s' - messageId s) /\ messageId s <= messageId s') as Hsame.
  { intros s' fx E Ef. by rewrite E, Ef, Z.sub_diag. }
  assert (forall s' p, messageId s' = messageId s + 1 -> pl_id p = messageId s + 1 ->
            [pl_id p] = seqZ (messageId s + 1) (messageId s' - messageId s) /\ messageId s <= messageId s') as Hone.
  { intros s' p E Ep. rewrite E, Ep. replace (messageId s + 1 - messageId s) with 1 by lia. split; [done|lia]. }
  destruct e as [key p|key|keep|b|m ps a|m ps cb|rs|t|n err results]; cbn [step].
  - unfold startPolling. cbv zeta. destruct (timeout _); [by apply Hsame|]. apply (do_poll_ids (with_polls (set_key key p (polls s)) s)).
  - apply Hsame; [|done]. unfold stopPolling, stop_if_idle. cbn. by destruct (delete_key _ _), (timeout s).
  - unfold reset_manager. destruct (reset_ids keep (polls s) s) as [E1 E2].
    destruct (reset_polls keep (polls s) s) as [s' es]. cbn [fst snd] in *. apply Hsame; [|done].
    rewrite <-E2. unfold stop_if_idle. by destruct (polls s'), (timeout s').
  - by apply Hsame.
  - unfold send. destruct (provider s); [|by apply Hsame]. cbn.
    destruct (isValidResponse a); apply (Hone _ (Payload (messageId s + 1) m ps)); done.
  - unfold sendAsync. destruct (provider s); [|by apply Hsame]. apply (Hone _ (Payload (messageId s + 1) m ps)); done.
  - unfold batch_execute. destruct (provider s).
    + destruct (batch_ids (messageId s) ((fun r => (rq_method r, rq_params r)) <$> rs)) as [E1 E2].
      destruct (toBatchPayload _ _) as [l i]. cbn [fst snd] in *. unfold sent_ids. rewrite bind_singleton, E1. cbn.
      rewrite E2. split; [f_equal; lia|lia].
    + apply Hsame; [done|]. apply batch_callbacks_ids.
  - case_bool_decide; [|by apply Hsame]. by destruct (do_poll_ids (Manager (provider s) (polls s) (timeout s)
      (filter (fun x => x <> t) (timers s)) (nextTimer s) (messageId s) (inflight s) (nextBatch s))).
  - destruct (take_batch n (inflight s)) as [[idMap rest]|]; [|by apply Hsame]. apply Hsame; [done|].
    unfold poll_answer. destruct err; [done|]. destruct results as [| | | | | |l|]; try done.
    destruct (existsb _ _); [done|]. apply deliver_ids.
Qed.

(** Every message ever sent has its own identifier, counted from 1 in the order of
    sending. *)
Theorem message_ids b es :
  sent_ids (run (newManager b) es).2 = seqZ 1 (messageId (run (newManager b) es).1).
Proof.
  assert (forall s, sent_ids (run s es).2 = seqZ (messageId s + 1) (messageId (run s es).1 - messageId s) /\
                    messageId s <= messageId (run s es).1) as H.
  { induction es as [|e es IH]; intros s; cbn [run]; [cbn; by rewrite Z.sub_diag|].
    destruct (step_ids s e) as [E1 L1]. destruct (step s e) as [s1 fx]. destruct (IH s1) as [E2 L2].
    destruct (run s1 es) as [s2 fx']. cbn [fst snd] in *. split; [|lia].
    unfold sent_ids in *. rewrite bind_app, E1, E2.
    replace (messageId s2 - messageId s) with ((messageId s1 - messageId s) + (messageId s2 - messageId s1)) by lia.
    rewrite seqZ_app by lia. do 2 f_equal. lia. }
  destruct (H (newManager b)) as [E _]. rewrite E. cbn [newManager messageId]. f_equal. lia.
Qed.

(** * Delivery *)

Lemma assoc_lookup {A} (k : jsstr) (x : A) l :
  assoc k l = Some x -> exists j, l !! j = Some (k, x).
Proof.
  induction l as [|[k' y] l IH]; cbn [assoc]; [done|]. case_bool_decide as E.
  - intros [= ->]. subst. by exists O.
  - intros H. destruct (IH H) as [j Hj]. by exists (S j).
Qed.
Lemma assoc_nodup {A} (k : jsstr) (x : A) l j :
  NoDup (fst <$> l) -> l !! j = Some (k, x) -> assoc k l = Some x.
Proof.
  revert j. induction l as [|[k' y] l IH]; intros j Hn Hj; [done|]. rewrite fmap_cons in Hn.
  apply NoDup_cons in Hn as [Hk Hn]. cbn [assoc]. destruct j as [|j].
  - injection Hj as -> ->. by rewrite bool_decide_true.
  - case_bool_decide as E; [|by eapply IH]. subst. exfalso. apply Hk.
    apply list_elem_of_fmap. exists (k', x). split; [done|]. by eapply list_elem_of_lookup_2.
Qed.

Lemma batch_lookup i ms j :
  (toBatchPayload i ms).1 !! j = (fun '(m, ps) => Payload (i + 1 + Z.of_nat j) m ps) <$> ms !! j.
Proof.
  revert i j. induction ms as [|[m ps] ms IH]; intros i j; [done|]. cbn [toBatchPayload toPayload].
  specialize (IH (i + 1)). destruct (toBatchPayload (i + 1) ms) as [l k]. cbn [fst] in *. destruct j as [|j].
  - cbn. do 2 f_equal. lia.
  - cbn [lookup list_lookup]. change (l !! j = (fun '(m, ps) => Payload (i + 1 + Z.of_nat (S j)) m ps) <$> ms !! j).
    rewrite IH. destruct (ms !! j) as [[m' ps']|]; [|done]. cbn. do 2 f_equal. lia.
Qed.

Lemma number_to_string_inj x y :
  0 <= x < 2 ^ 53 -> 0 <= y < 2 ^ 53 -> number_to_string x = number_to_string y -> x = y.
Proof.
  intros Hx Hy. unfold number_to_string. rewrite !js_dec_value_safe by lia. apply to_base_inj; lia.
Qed.

Lemma idMap_keys i n (ids : list jsstr) :
  0 <= i -> i + Z.of_nat n < 2 ^ 53 -> length ids = n ->
  NoDup (fst <$> zip (number_to_string <$> seqZ (i + 1) (Z.of_nat n)) ids).
Proof.
  intros Hi Hb Hl. rewrite fst_zip by (rewrite length_fmap, length_seqZ; lia).
  apply NoDup_fmap_2_strong; [|apply NoDup_seqZ].
  intros x y Hx%elem_of_seqZ Hy%elem_of_seqZ. apply number_to_string_inj; lia.
Qed.

(** What [poll] sends: one message for every installed poll, with an identifier
    that leads back to the poll. *)
Lemma do_poll_sends s key p :
  provider s = true -> assoc key (polls s) = Some p -> 0 <= messageId s ->
  messageId s + Z.of_nat (length (polls s)) < 2 ^ 53 ->
  exists payloads id idMap,
    (do_poll s).2 = [Send payloads] /\ Payload id (po_method p) (po_params p) ∈ payloads /\
    (nextBatch s, idMap) ∈ inflight (do_poll s).1 /\ assoc (number_to_string id) idMap = Some key.
Proof.
  intros Hp Hk Hm Hb. destruct (assoc_lookup key p (polls s) Hk) as [j Hj].
  unfold do_poll. cbv zeta. change (polls (set_timeout s)) with (polls s). change (provider (set_timeout s)) with (provider s).
  rewrite Hp. destruct (polls s) as [|x l] eqn:E; [done|]. rewrite <-E in *.
  set (ms := (fun '(_, p) => (po_method p, po_params p)) <$> polls s).
  change (messageId (set_timeout s)) with (messageId s).
  pose proof (batch_lookup (messageId s) ms j) as Hl. destruct (batch_ids (messageId s) ms) as [Ei _].
  destruct (toBatchPayload (messageId s) ms) as [ps i]. cbn [fst snd inflight nextBatch set_timeout] in *.
  unfold ms in Hl. rewrite list_lookup_fmap, Hj in Hl. cbn in Hl.
  exists ps, (messageId s + 1 + Z.of_nat j), (pollsIdMap ps (fst <$> polls s)). split_and!; [done| | |].
  - by eapply list_elem_of_lookup_2.
  - apply elem_of_app. right. by apply list_elem_of_singleton.
  - assert (pollsIdMap ps (fst <$> polls s) =
            zip (number_to_string <$> seqZ (messageId s + 1) (Z.of_nat (length (polls s)))) (fst <$> polls s)) as Em.
    { unfold pollsIdMap. rewrite list_fmap_compose, Ei. unfold ms. by rewrite length_fmap. }
    apply (assoc_nodup _ _ _ j).
    + rewrite Em. apply idMap_keys; [lia|lia|by rewrite length_fmap].
    + rewrite Em, lookup_zip_with, !list_lookup_fmap, Hj.
      rewrite lookup_seqZ_lt by (apply lookup_lt_Some in Hj; lia). done.
Qed.

(** An answer reaches the callback of its poll while the poll is installed. *)
Lemma answer_reaches idMap s rs r id key p :
  assoc (number_to_string id) idMap = Some key -> assoc key (polls s) = Some p ->
  r ∈ rs -> Forall (fun r => r <> VUndefined /\ r <> VNull) rs ->
  field (str "id") r = VNum id -> isValidResponse r = true ->
  Call (po_callback p) None (field (str "result") r) ∈ poll_answer idMap None (VArr rs) s.
Proof.
  intros Hi Hk Hr Hrs Hf Hv. unfold poll_answer.
  assert (existsb (fun r => match r with VUndefined | VNull => true | _ => false end) rs = false) as ->.
  { apply not_true_iff_false. rewrite existsb_exists. intros (x & Hx%list_elem_of_In & E).
    rewrite Forall_forall in Hrs. destruct (Hrs x Hx). by destruct x. }
  assert (poll_target idMap (polls s) r = Some (po_callback p, r)) as Ht.
  { unfold poll_target. rewrite Hf. cbn [js_to_string]. rewrite Hi. cbn. by rewrite Hk. }
  unfold deliver. apply elem_of_app. right. apply list_elem_of_fmap. exists (po_callback p, r). split; [done|].
  apply list_elem_of_filter. split; [done|]. apply list_elem_of_omap. by exists r.
Qed.

(** C4. Installed filters are polled again and again: in every reachable state one
    timer is set as long as there is a poll; when it fires, a message is sent for
    the poll; and the answer to it reaches the poll's callback if the poll is
    still there when it arrives. *)
Theorem poll_progress b es key p :
  assoc key (polls (run (newManager b) es).1) = Some p ->
  messageId (run (newManager b) es).1 + Z.of_nat (length (polls (run (newManager b) es).1)) < 2 ^ 53 ->
  let s := (run (newManager b) es).1 in
  exists t, timers s = [t] /\
    timers (step s (ETimer t)).1 <> [] /\
    (provider s = true ->
     exists payloads id idMap,
       (step s (ETimer t)).2 = [Send payloads] /\ Payload id (po_method p) (po_params p) ∈ payloads /\
       (nextBatch s, idMap) ∈ inflight (step s (ETimer t)).1 /\
       forall s' rs r,
         assoc key (polls s') = Some p -> r ∈ rs -> Forall (fun r => r <> VUndefined /\ r <> VNull) rs ->
         field (str "id") r = VNum id -> isValidResponse r = true ->
         Call (po_callback p) None (field (str "result") r) ∈ poll_answer idMap None (VArr rs) s').
Proof.
  intros Hk Hb. pose proof (run_timer_ok es (newManager b) (conj eq_refl eq_refl)) as Hok.
  assert (0 <= messageId (run (newManager b) es).1) as Hm.
  { clear. assert (forall s, messageId s <= messageId (run s es).1) as H.
    { induction es as [|e es IH]; intros s; cbn [run]; [cbn; lia|]. destruct (step_ids s e) as [_ L].
      destruct (step s e) as [s1 fx]. specialize (IH s1). destruct (run s1 es). cbn in *. lia. }
    exact (H (newManager b)). }
  destruct (run (newManager b) es) as [s fx]. cbn [fst] in *. cbv zeta. unfold timer_ok in Hok.
  destruct (timeout s) as [t|]; [|destruct Hok as [_ E]; by rewrite E in Hk].
  exists t. split; [done|]. cbn [step]. rewrite bool_decide_true by (rewrite Hok; by apply list_elem_of_singleton).
  set (s1 := Manager _ _ _ _ _ _ _ _). split.
  - destruct (do_poll_timers s1) as (_ & -> & _). cbn. by destruct (filter _ _).
  - intros Hp. destruct (do_poll_sends s1 key p Hp Hk Hm Hb) as (ps & id & idMap & E1 & E2 & E3 & E4).
    exists ps, id, idMap. split_and!; [done|done|done|]. intros s' rs r H1 H2 H3 H4 H5. by eapply answer_reaches.
Qed.

Lemma poll_progress_witness :
  exists t, timers (run (newManager true) [EStart (str "0x1") (Poll (str "eth_getFilterChanges") [] 7 8)]).1 = [t].
Proof.
  destruct (poll_progress true [EStart (str "0x1") (Poll (str "eth_getFilterChanges") [] 7 8)] (str "0x1")
              (Poll (str "eth_getFilterChanges") [] 7 8)) as (t & Ht & _); [reflexivity|reflexivity|].
  exists t. exact Ht.
Defined.

(** C21. Callbacks are called for answers only: whatever the provider answers to a
    polled batch, a callback that runs is the one of an installed poll that the
    identifier of some result leads to; it gets the result of that message when
    the message is valid and an error otherwise. *)
Theorem poll_routing idMap error results s cb e v :
  Call cb e v ∈ poll_answer idMap error results s ->
  exists rs r key p,
    results = VArr rs /\ r ∈ rs /\
    key = default (str "undefined") (assoc (js_to_string (field (str "id") r)) idMap) /\
    assoc key (polls s) = Some p /\ cb = po_callback p /\
    if isValidResponse r then e = None /\ v = field (str "result") r
    else e = Some (InvalidResponse r) /\ v = VUndefined.
Proof.
  unfold poll_answer. destruct error; [by intros ?%elem_of_nil|].
  destruct results as [| | | | | |rs|]; try (intros H%list_elem_of_singleton; discriminate H).
  destruct (existsb _ rs); [intros H%list_elem_of_singleton; discriminate H|]. unfold deliver.
  assert (forall b (f : callback * value -> effect),
            Call cb e v ∈ (f <$> filter (fun t => isValidResponse t.2 = b) (omap (poll_target idMap (polls s)) rs)) ->
            exists r key p, r ∈ rs /\ key = default (str "undefined") (assoc (js_to_string (field (str "id") r)) idMap) /\
              assoc key (polls s) = Some p /\ isValidResponse r = b /\ Call cb e v = f (po_callback p, r)) as H.
  { intros b f (x & Hx & Hin)%list_elem_of_fmap. apply list_elem_of_filter in Hin as [Hb Hin].
    apply list_elem_of_omap in Hin as (r & Hr & Ht). unfold poll_target in Ht.
    apply fmap_Some in Ht as (p & Hp & ->). exists r, (default (str "undefined") (assoc (js_to_string (field (str "id") r)) idMap)), p. done. }
  rewrite elem_of_app. intros [(r & key & p & Hr & Hk & Hp & Hv & [= -> -> ->])%H|(r & key & p & Hr & Hk & Hp & Hv & [= -> -> ->])%H];
    exists rs, r, key, p; by rewrite Hv.
Qed.

Lemma poll_routing_witness :
  let r := VObj [(str "id", VNum 1); (str "jsonrpc", VStr (str "2.0")); (str "result", VNum 5)] in
  let s := (run (newManager true) [EStart (str "0x1") (Poll (str "m") [] 7 8)]).1 in
  exists p, assoc (str "0x1") (polls s) = Some p /\ 7%nat = po_callback p.
Proof.
  destruct (poll_routing [(str "1", str "0x1")] None
              (VArr [VObj [(str "id", VNum 1); (str "jsonrpc", VStr (str "2.0")); (str "result", VNum 5)]])
              (run (newManager true) [EStart (str "0x1") (Poll (str "m") [] 7 8)]).1 7%nat None (VNum 5))
    as (rs & r & key & p & E1 & E2 & E3 & E4 & E5 & _).
  - apply list_elem_of_singleton. reflexivity.
  - exists p. injection E1 as <-. apply list_elem_of_singleton in E2 as ->. rewrite E3 in E4.
    split; [exact E4|exact E5].
Defined.

(** An error of the provider is lost in a batch: every callback is told that an
    empty object is not a valid response. *)
Theorem batch_error_lost rs e results :
  batch_answer rs (Some e) results =
  (fun cb => Call cb (Some (str "Invalid JSON RPC response: {}")) VUndefined) <$> omap rq_callback rs.
Proof.
  unfold batch_answer. cbn [batch_results]. induction rs as [|r rs IH]; [done|].
  cbn [batch_callbacks head tail omap list_omap]. unfold batch_callback.
  destruct (rq_callback r); cbn; by rewrite IH.
Qed.
