(* ===== verification/Json.v ===== *)
(** JSON texts as the providers write and read them: [JSON.stringify] is in Utils;
    here are [JSON.parse] by recursive descent and what the two have to do with each
    other.

    A number is the decimal it is written as; rounding it to a double, and the sign
    of zero, are left out.  An object has its fields in the order they first occur,
    and the last value of each. *)
From S2P Require Import Prelude BigNumber Utils Iban Rpc.

Inductive json :=
  | JNull
  | JBool (b : bool)
  | JNum (x : bignumber)
  | JStr (s : jsstr)
  | JArr (l : list json)
  | JObj (fields : list (jsstr * json)).

(** * JSON.parse *)

Definition is_ws (c : Z) : bool := (c =? 32) || (c =? 9) || (c =? 10) || (c =? 13).
Fixpoint skip_ws (s : jsstr) : jsstr :=
  match s with
  | c :: r => if is_ws c then skip_ws r else s
  | [] => []
  end.

Definition escape_char (e : Z) : option Z :=
  if (e =? 34) || (e =? 92) || (e =? 47) then Some e
  else if e =? 98 then Some 8 else if e =? 102 then Some 12 else if e =? 110 then Some 10
  else if e =? 114 then Some 13 else if e =? 116 then Some 9 else None.

(** The rest of a string after its opening quote. *)
Fixpoint parse_string (s : jsstr) : option (jsstr * jsstr) :=
  match s with
  | [] => None
  | c :: r =>
      if c =? 34 then Some ([], r)
      else if c =? 92 then
        match r with
        | [] => None
        | e :: r =>
            if e =? 117 then
              match r with
              | h1 :: h2 :: h3 :: h4 :: r =>
                  u ← of_base 16 [h1; h2; h3; h4]; '(t, r) ← parse_string r; Some (u :: t, r)
              | _ => None
              end
            else x ← escape_char e; '(t, r) ← parse_string r; Some (x :: t, r)
        end
      else if c <? 32 then None
      else '(t, r) ← parse_string r; Some (c :: t, r)
  end.

(** The integer part has no leading zero. *)
Definition parse_integer (s : jsstr) : jsstr * jsstr :=
  match s with
  | c :: r => if c =? 48 then ([48], r) else span is_dec_digit s
  | [] => ([], [])
  end.
Definition parse_fraction (s : jsstr) : option (jsstr * jsstr) :=
  match s with
  | c :: r =>
      if c =? 46 then
        match span is_dec_digit r with
        | ([], _) => None
        | (ds, r) => Some (ds, r)
        end
      else Some ([], s)
  | [] => Some ([], [])
  end.
Definition exponent_sign (s : jsstr) : bool * jsstr :=
  match s with
  | c :: r => if c =? 45 then (true, r) else if c =? 43 then (false, r) else (false, s)
  | [] => (false, [])
  end.
Definition parse_exponent (s : jsstr) : option (Z * jsstr) :=
  match s with
  | c :: r =>
      if (c =? 101) || (c =? 69) then
        let '(neg, r) := exponent_sign r in
        match span is_dec_digit r with
        | ([], _) => None
        | (ds, r) => Some (signed neg (dec_value ds), r)
        end
      else Some (0, s)
  | [] => Some (0, [])
  end.
Definition parse_number (s : jsstr) : option (json * jsstr) :=
  let '(neg, s) := strip_minus s in
  match parse_integer s with
  | ([], _) => None
  | (ip, s) =>
      '(fp, s) ← parse_fraction s;
      '(e, s) ← parse_exponent s;
      Some (JNum (scale (signed neg (dec_value (ip ++ fp))) (e - Z.of_nat (length fp))), s)
  end.

Definition parse_word (w : jsstr) (v : json) (s : jsstr) : option (json * jsstr) :=
  if js_starts_with w s then Some (v, drop (length w) s) else None.

(** An object keeps the last of the values given for a key. *)
Definition fields_of (fs : list (jsstr * json)) : list (jsstr * json) :=
  fold_left (fun acc '(k, v) => set_key k v acc) fs [].

(** Arrays and objects are read after their opening bracket. *)
Fixpoint parse_value (n : nat) (s : jsstr) : option (json * jsstr) :=
  match n with
  | O => None
  | S n =>
      match skip_ws s with
      | [] => None
      | c :: r =>
          if c =? 123 then
            match skip_ws r with
            | [] => None
            | d :: r' =>
                if d =? 125 then Some (JObj [], r')
                else '(fs, r) ← parse_members n r; Some (JObj (fields_of fs), r)
            end
          else if c =? 91 then
            match skip_ws r with
            | [] => None
            | d :: r' =>
                if d =? 93 then Some (JArr [], r')
                else '(l, r) ← parse_elements n r; Some (JArr l, r)
            end
          else if c =? 34 then '(t, r) ← parse_string r; Some (JStr t, r)
          else if c =? 116 then parse_word (str "true") (JBool true) (c :: r)
          else if c =? 102 then parse_word (str "false") (JBool false) (c :: r)
          else if c =? 110 then parse_word (str "null") JNull (c :: r)
          else parse_number (c :: r)
      end
  end
with parse_elements (n : nat) (s : jsstr) : option (list json * jsstr) :=
  match n with
  | O => None
  | S n =>
      '(v, r) ← parse_value n s;
      match skip_ws r with
      | c :: r =>
          if c =? 44 then '(l, r) ← parse_elements n r; Some (v :: l, r)
          else if c =? 93 then Some ([v], r) else None
      | [] => None
      end
  end
with parse_members (n : nat) (s : jsstr) : option (list (jsstr * json) * jsstr) :=
  match n with
  | O => None
  | S n =>
      match skip_ws s with
      | q :: r =>
          if q =? 34 then
            '(k, r) ← parse_string r;
            match skip_ws r with
            | c :: r =>
                if c =? 58 then
                  '(v, r) ← parse_value n r;
                  match skip_ws r with
                  | c :: r =>
                      if c =? 44 then '(l, r) ← parse_members n r; Some ((k, v) :: l, r)
                      else if c =? 125 then Some ([(k, v)], r) else None
                  | [] => None
                  end
                else None
            | [] => None
            end
          else None
      | [] => None
      end
  end.

(** Each step but the entry into an array's elements reads a character. *)
Definition json_fuel (s : jsstr) : nat := 2 * length s + 1.
(** [JSON.parse(s)]; [None] is a SyntaxError. *)
Definition JSON_parse (s : jsstr) : option json :=
  match parse_value (json_fuel s) s with
  | Some (v, r) => match skip_ws r with [] => Some v | _ => None end
  | None => None
  end.

(** What [JSON.stringify] keeps of a value: a BigNumber becomes its text, a field
    that is undefined is left out, an element that is undefined is null. *)
Fixpoint json_of (v : value) : option json :=
  match v with
  | VUndefined => None
  | VNull => Some JNull
  | VBool b => Some (JBool b)
  | VNum z => Some (JNum (Big (js_dec_value z) 0))
  | VBig x => Some (JStr (big_to_string x))
  | VStr s => Some (JStr s)
  | VArr l => Some (JArr (map (fun v => default JNull (json_of v)) l))
  | VObj fs => Some (JObj (omap (fun '(k, v) => (fun t => (k, t)) <$> v) (map (fun '(k, v) => (k, json_of v)) fs)))
  end.

(** * Continuing a text *)

Lemma skip_ws_app s t : skip_ws s <> [] -> skip_ws (s ++ t) = skip_ws s ++ t.
Proof. induction s as [|c s IH]; [done|]. cbn. destruct (is_ws c); [done|]. done. Qed.
Lemma skip_ws_cons s c r t : skip_ws s = c :: r -> skip_ws (s ++ t) = c :: r ++ t.
Proof. intros H. rewrite skip_ws_app, H; [done|by rewrite H]. Qed.

Lemma span_app p s a c r t : span p s = (a, c :: r) -> span p (s ++ t) = (a, c :: r ++ t).
Proof.
  revert a. induction s as [|x s IH]; intros a; cbn; [done|]. destruct (p x); [|by intros [= <- <- <-]].
  destruct (span p s) as [b r'] eqn:E. intros [= <- ->]. by rewrite (IH b).
Qed.

Lemma parse_string_app s x r t : parse_string s = Some (x, r) -> parse_string (s ++ t) = Some (x, r ++ t).
Proof.
  revert x. induction s as [s IH] using (induction_ltof1 _ (@length Z)). unfold ltof in IH. intros x.
  destruct s as [|c s]; [done|]. cbn [parse_string app].
  destruct (c =? 34); [by intros [= <- <-]|].
  assert (forall s' y (f : jsstr -> jsstr), (length s' < length (c :: s))%nat ->
    ('(t0, r0) ← parse_string s'; Some (f t0, r0)) = Some (y, r) ->
    ('(t0, r0) ← parse_string (s' ++ t); Some (f t0, r0)) = Some (y, r ++ t)) as Hk.
  { intros s' y f Hl. destruct (parse_string s') as [[t0 r0]|] eqn:E; [|done]. cbn.
    intros [= <- ->]. by rewrite (IH s' Hl t0). }
  destruct (c =? 92).
  - destruct s as [|e s]; [done|]. cbn [app]. destruct (e =? 117).
    + destruct s as [|h1 [|h2 [|h3 [|h4 s]]]]; try done. cbn [app].
      destruct (of_base 16 _) as [u|]; [|done]. cbn [mbind option_bind]. apply (Hk s x (cons u)). cbn. lia.
    + destruct (escape_char e) as [u|]; [|done]. cbn [mbind option_bind]. apply (Hk s x (cons u)). cbn. lia.
  - destruct (c <? 32); [done|]. apply (Hk s x (cons c)). cbn. lia.
Qed.

Lemma parse_integer_app s a c r t : parse_integer s = (a, c :: r) -> parse_integer (s ++ t) = (a, c :: r ++ t).
Proof.
  destruct s as [|x s]; [done|]. unfold parse_integer. cbn [app].
  destruct (x =? 48); [by intros [= <- ->]|]. intros H. exact (span_app _ (x :: s) a c r t H).
Qed.
Lemma parse_fraction_app s a c r t : parse_fraction s = Some (a, c :: r) -> parse_fraction (s ++ t) = Some (a, c :: r ++ t).
Proof.
  destruct s as [|x s]; [done|]. unfold parse_fraction. cbn [app].
  destruct (x =? 46); [|by intros [= <- <- <-]].
  destruct (span is_dec_digit s) as [[|d ds] r'] eqn:E; [done|]. intros [= <- ->].
  by rewrite (span_app _ _ _ _ _ t E).
Qed.
Lemma parse_exponent_app s e c r t : parse_exponent s = Some (e, c :: r) -> parse_exponent (s ++ t) = Some (e, c :: r ++ t).
Proof.
  destruct s as [|x s]; [done|]. unfold parse_exponent. cbn [app].
  destruct ((x =? 101) || (x =? 69)); [|by intros [= <- <- <-]].
  destruct s as [|y s]; [done|]. cbn [exponent_sign app].
  destruct (y =? 45); [|destruct (y =? 43)].
  1,2: destruct (span is_dec_digit s) as [[|d ds] r'] eqn:E; [done|]; intros [= <- ->]; by rewrite (span_app _ _ _ _ _ t E).
  destruct (span is_dec_digit (y :: s)) as [[|d ds] r'] eqn:E; [done|]. intros [= <- ->].
  pose proof (span_app _ _ _ _ _ t E) as Hs. cbn [app] in Hs. by rewrite Hs.
Qed.

(** A part of a number that is read before something else leaves something. *)
Lemma parse_exponent_left s e r : parse_exponent s = Some (e, r) -> r <> [] -> s <> [].
Proof. destruct s; [|done]. by intros [= _ <-]. Qed.
Lemma parse_fraction_left s a r : parse_fraction s = Some (a, r) -> r <> [] -> s <> [].
Proof. destruct s; [|done]. by intros [= _ <-]. Qed.

Lemma parse_number_app s v r t :
  parse_number s = Some (v, r) -> r <> [] -> parse_number (s ++ t) = Some (v, r ++ t).
Proof.
  intros H Hr. unfold parse_number in *.
  destruct (strip_minus s) as [neg s1] eqn:Es.
  destruct (parse_integer s1) as [[|i ip] s2] eqn:Ei; [done|].
  destruct (parse_fraction s2) as [[fp s3]|] eqn:Ef; [|done].
  cbn [mbind option_bind] in H. destruct (parse_exponent s3) as [[e s4]|] eqn:Ee; [|done].
  cbn [mbind option_bind] in H. injection H as <- ->.
  pose proof (parse_exponent_left _ _ _ Ee Hr) as H3. pose proof (parse_fraction_left _ _ _ Ef H3) as H2.
  destruct s1 as [|c s1]; [done|].
  assert (strip_minus (s ++ t) = (neg, (c :: s1) ++ t)) as ->.
  { destruct s as [|x s]; [done|]. unfold strip_minus in *. cbn [app]. destruct (x =? 45); by simplify_eq. }
  destruct s2 as [|c2 s2]; [done|]. destruct s3 as [|c3 s3]; [done|]. destruct r as [|c4 r]; [done|].
  rewrite (parse_integer_app _ _ _ _ t Ei). change (c2 :: s2 ++ t) with ((c2 :: s2) ++ t).
  rewrite (parse_fraction_app _ _ _ _ t Ef). cbn [mbind option_bind]. change (c3 :: s3 ++ t) with ((c3 :: s3) ++ t).
  by rewrite (parse_exponent_app _ _ _ _ t Ee).
Qed.

Lemma parse_word_app w v s x r t : parse_word w v s = Some (x, r) -> parse_word w v (s ++ t) = Some (x, r ++ t).
Proof.
  unfold parse_word, js_starts_with. case_bool_decide as E; [|done]. intros [= <- <-].
  assert (length w <= length s)%nat as Hl by (rewrite <-E at 1; rewrite length_take; lia).
  rewrite take_app_le, bool_decide_eq_true_2 by done. by rewrite drop_app_le.
Qed.

Definition is_num (v : json) : bool := match v with JNum _ => true | _ => false end.

Lemma parse_number_num s v r : parse_number s = Some (v, r) -> is_num v = true.
Proof.
  unfold parse_number. destruct (strip_minus s) as [neg s1], (parse_integer s1) as [[|i ip] s2]; [done|].
  destruct (parse_fraction s2) as [[fp s3]|]; [|done]. cbn [mbind option_bind].
  destruct (parse_exponent s3) as [[e s4]|]; [|done]. by intros [= <- _].
Qed.

(** What has been read stays read when the text goes on; only a number that ends
    the text may be longer. *)
Lemma parse_app n t :
  (forall s v r, parse_value n s = Some (v, r) -> (is_num v = true -> r <> []) -> parse_value n (s ++ t) = Some (v, r ++ t)) /\
  (forall s l r, parse_elements n s = Some (l, r) -> parse_elements n (s ++ t) = Some (l, r ++ t)) /\
  (forall s l r, parse_members n s = Some (l, r) -> parse_members n (s ++ t) = Some (l, r ++ t)).
Proof.
  induction n as [|n (IHv & IHe & IHm)]; [done|]. split_and!.
  - intros s v r. cbn [parse_value]. destruct (skip_ws s) as [|c s1] eqn:Es; [done|].
    rewrite (skip_ws_cons _ _ _ t Es). destruct (c =? 123); [|destruct (c =? 91)].
    1,2: destruct (skip_ws s1) as [|d s2] eqn:Es1; [done|]; rewrite (skip_ws_cons _ _ _ t Es1).
    + destruct (d =? 125); [by intros [= <- <-]|]. destruct (parse_members n s1) as [[fs r']|] eqn:E; [|done].
      intros [= <- <-] _. by rewrite (IHm _ _ _ E).
    + destruct (d =? 93); [by intros [= <- <-]|]. destruct (parse_elements n s1) as [[fs r']|] eqn:E; [|done].
      intros [= <- <-] _. by rewrite (IHe _ _ _ E).
    + destruct (c =? 34).
      { destruct (parse_string s1) as [[x r']|] eqn:E; [|done]. intros [= <- <-] _. by rewrite (parse_string_app _ _ _ t E). }
      destruct (c =? 116); [intros H _; exact (parse_word_app _ _ _ _ _ t H)|].
      destruct (c =? 102); [intros H _; exact (parse_word_app _ _ _ _ _ t H)|].
      destruct (c =? 110); [intros H _; exact (parse_word_app _ _ _ _ _ t H)|].
      intros H Hr. exact (parse_number_app _ _ _ t H (Hr (parse_number_num _ _ _ H))).
  - intros s l r. cbn [parse_elements]. destruct (parse_value n s) as [[v s1]|] eqn:E; [|done]. cbn [mbind option_bind].
    destruct (skip_ws s1) as [|c s2] eqn:Es; [done|]. intros H.
    rewrite (IHv _ _ _ E) by (intros _ ->; done). cbn [mbind option_bind]. rewrite (skip_ws_cons _ _ _ t Es).
    destruct (c =? 44); [|destruct (c =? 93); [by injection H as <- <-|done]].
    destruct (parse_elements n s2) as [[l' r']|] eqn:E'; [|done]. injection H as <- <-. by rewrite (IHe _ _ _ E').
  - intros s l r. cbn [parse_members]. destruct (skip_ws s) as [|q s1] eqn:Es; [done|].
    rewrite (skip_ws_cons _ _ _ t Es). destruct (q =? 34); [|done].
    destruct (parse_string s1) as [[k s2]|] eqn:E; [|done]. cbn [mbind option_bind]. rewrite (parse_string_app _ _ _ t E). cbn [mbind option_bind].
    destruct (skip_ws s2) as [|c s3] eqn:E2; [done|]. rewrite (skip_ws_cons _ _ _ t E2). destruct (c =? 58); [|done].
    destruct (parse_value n s3) as [[v s4]|] eqn:E3; [|done]. cbn [mbind option_bind].
    destruct (skip_ws s4) as [|c' s5] eqn:E4; [done|]. intros H.
    rewrite (IHv _ _ _ E3) by (intros _ ->; done). cbn [mbind option_bind]. rewrite (skip_ws_cons _ _ _ t E4).
    destruct (c' =? 44); [|destruct (c' =? 125); [by injection H as <- <-|done]].
    destruct (parse_members n s5) as [[l' r']|] eqn:E'; [|done]. injection H as <- <-. by rewrite (IHm _ _ _ E').
Qed.

(** * Enough fuel *)

Lemma skip_ws_length s : (length (skip_ws s) <= length s)%nat.
Proof. induction s as [|c s IH]; [done|]. cbn. destruct (is_ws c); cbn; lia. Qed.
Lemma skip_ws_shorter s c r : skip_ws s = c :: r -> (length r < length s)%nat.
Proof. intros H. pose proof (skip_ws_length s) as Hl. rewrite H in Hl. cbn in Hl. lia. Qed.
Lemma span_length p s a r : span p s = (a, r) -> (length a + length r)%nat = length s.
Proof.
  revert a. induction s as [|x s IH]; intros a; cbn; [by intros [= <- <-]|]. destruct (p x); [|by intros [= <- <-]].
  destruct (span p s) as [b r'] eqn:E. intros [= <- ->]. cbn. by rewrite (IH b).
Qed.
Lemma parse_string_shorter s x r : parse_string s = Some (x, r) -> (length r < length s)%nat.
Proof.
  revert x. induction s as [s IH] using (induction_ltof1 _ (@length Z)). unfold ltof in IH. intros x.
  destruct s as [|c s]; [done|]. cbn [parse_string].
  destruct (c =? 34); [intros [= <- <-]; cbn; lia|].
  assert (forall s' y (f : jsstr -> jsstr), (length s' < length (c :: s))%nat ->
    ('(t0, r0) ← parse_string s'; Some (f t0, r0)) = Some (y, r) -> (length r < length (c :: s))%nat) as Hk.
  { intros s' y f Hl. destruct (parse_string s') as [[t0 r0]|] eqn:E; [|done]. cbn [mbind option_bind].
    intros [= <- ->]. specialize (IH s' Hl t0 E). lia. }
  destruct (c =? 92).
  - destruct s as [|e s]; [done|]. destruct (e =? 117).
    + destruct s as [|h1 [|h2 [|h3 [|h4 s]]]]; try done.
      destruct (of_base 16 _) as [u|]; [|done]. cbn [mbind option_bind]. apply (Hk s x (cons u)). cbn. lia.
    + destruct (escape_char e) as [u|]; [|done]. cbn [mbind option_bind]. apply (Hk s x (cons u)). cbn. lia.
  - destruct (c <? 32); [done|]. apply (Hk s x (cons c)). cbn. lia.
Qed.
Lemma parse_integer_shorter s i a r : parse_integer s = (i :: a, r) -> (length r < length s)%nat.
Proof.
  destruct s as [|x s]; [done|]. unfold parse_integer. destruct (x =? 48); [intros [= _ _ <-]; cbn; lia|].
  intros H%span_length. cbn in *. lia.
Qed.
Lemma parse_fraction_length s a r : parse_fraction s = Some (a, r) -> (length r <= length s)%nat.
Proof.
  destruct s as [|x s]; [by intros [= _ <-]|]. unfold parse_fraction. destruct (x =? 46); [|by intros [= _ <-]].
  destruct (span is_dec_digit s) as [[|d ds] r'] eqn:E; [done|]. intros [= _ <-]. apply span_length in E. cbn in *. lia.
Qed.
Lemma parse_exponent_length s e r : parse_exponent s = Some (e, r) -> (length r <= length s)%nat.
Proof.
  destruct s as [|x s]; [by intros [= _ <-]|]. unfold parse_exponent.
  destruct ((x =? 101) || (x =? 69)); [|by intros [= _ <-]].
  destruct (exponent_sign s) as [neg s'] eqn:Es.
  assert (length s' <= length s)%nat as Hs.
  { destruct s as [|y s]; cbn [exponent_sign] in Es; [by simplify_eq|].
    destruct (y =? 45); [|destruct (y =? 43)]; simplify_eq; cbn; lia. }
  destruct (span is_dec_digit s') as [[|d ds] r'] eqn:E; [done|]. intros [= _ <-]. apply span_length in E. cbn in *. lia.
Qed.
Lemma parse_number_shorter s v r : parse_number s = Some (v, r) -> (length r < length s)%nat.
Proof.
  unfold parse_number. destruct (strip_minus s) as [neg s1] eqn:Es.
  destruct (parse_integer s1) as [[|i ip] s2] eqn:Ei; [done|]. apply parse_integer_shorter in Ei.
  destruct (parse_fraction s2) as [[fp s3]|] eqn:Ef; [|done]. apply parse_fraction_length in Ef. cbn [mbind option_bind].
  destruct (parse_exponent s3) as [[e s4]|] eqn:Ee; [|done]. apply parse_exponent_length in Ee. intros [= _ <-].
  assert (length s1 <= length s)%nat; [|lia].
  destruct s as [|y s]; cbn [strip_minus] in Es; [by simplify_eq|]. destruct (y =? 45); simplify_eq; cbn; lia.
Qed.
Lemma parse_word_shorter w v s x r : w <> [] -> parse_word w v s = Some (x, r) -> (length r < length s)%nat.
Proof.
  intros Hw. unfold parse_word, js_starts_with. case_bool_decide as E; [|done]. intros [= _ <-].
  rewrite length_drop. destruct w; [done|]. destruct s; [done|]. cbn. lia.
Qed.

Lemma parse_shorter n :
  (forall s v r, parse_value n s = Some (v, r) -> (length r < length s)%nat) /\
  (forall s l r, parse_elements n s = Some (l, r) -> (length r < length s)%nat) /\
  (forall s l r, parse_members n s = Some (l, r) -> (length r < length s)%nat).
Proof.
  induction n as [|n (IHv & IHe & IHm)]; [done|]. split_and!.
  - intros s v r. cbn [parse_value]. destruct (skip_ws s) as [|c s1] eqn:Es; [done|].
    pose proof (skip_ws_length s) as Hs. rewrite Es in Hs. cbn [length] in Hs.
    assert (forall x, x = Some (v, r) -> (x = Some (v, r) -> (length r < S (length s1))%nat) -> (length r < length s)%nat) as Hk.
    { intros x Hx Hl. specialize (Hl Hx). lia. }
    intros H. apply (Hk _ H). clear Hk H. destruct (c =? 123); [|destruct (c =? 91)].
    1,2: destruct (skip_ws s1) as [|d s2] eqn:Es1; [done|]; apply skip_ws_shorter in Es1.
    + destruct (d =? 125); [intros [= _ <-]; lia|]. destruct (parse_members n s1) as [[fs r']|] eqn:E; [|done].
      intros [= _ <-]. apply IHm in E. lia.
    + destruct (d =? 93); [intros [= _ <-]; lia|]. destruct (parse_elements n s1) as [[fs r']|] eqn:E; [|done].
      intros [= _ <-]. apply IHe in E. lia.
    + destruct (c =? 34).
      { destruct (parse_string s1) as [[x r']|] eqn:E; [|done]. intros [= _ <-]. apply parse_string_shorter in E. lia. }
      destruct (c =? 116); [by apply (parse_word_shorter _ _ (c :: s1))|].
      destruct (c =? 102); [by apply (parse_word_shorter _ _ (c :: s1))|].
      destruct (c =? 110); [by apply (parse_word_shorter _ _ (c :: s1))|].
      apply (parse_number_shorter (c :: s1)).
  - intros s l r. cbn [parse_elements]. destruct (parse_value n s) as [[v s1]|] eqn:E; [|done]. cbn [mbind option_bind].
    apply IHv in E. destruct (skip_ws s1) as [|c s2] eqn:Es; [done|]. apply skip_ws_shorter in Es.
    destruct (c =? 44); [|destruct (c =? 93); [intros [= _ <-]; lia|done]].
    destruct (parse_elements n s2) as [[l' r']|] eqn:E'; [|done]. intros [= _ <-]. apply IHe in E'. lia.
  - intros s l r. cbn [parse_members]. destruct (skip_ws s) as [|q s1] eqn:Es; [done|]. apply skip_ws_shorter in Es.
    destruct (q =? 34); [|done].
    destruct (parse_string s1) as [[k s2]|] eqn:E; [|done]. cbn [mbind option_bind]. apply parse_string_shorter in E.
    destruct (skip_ws s2) as [|c s3] eqn:E2; [done|]. apply skip_ws_shorter in E2. destruct (c =? 58); [|done].
    destruct (parse_value n s3) as [[v s4]|] eqn:E3; [|done]. cbn [mbind option_bind]. apply IHv in E3.
    destruct (skip_ws s4) as [|c' s5] eqn:E4; [done|]. apply skip_ws_shorter in E4.
    destruct (c' =? 44); [|destruct (c' =? 125); [intros [= _ <-]; lia|done]].
    destruct (parse_members n s5) as [[l' r']|] eqn:E'; [|done]. intros [= _ <-]. apply IHm in E'. lia.
Qed.

(** The fuel [JSON_parse] takes is enough: more changes nothing. *)
Lemma parse_enough n : forall m,
  (forall s, (2 * length s < n)%nat -> (2 * length s < m)%nat -> parse_value n s = parse_value m s) /\
  (forall s, (2 * length s + 1 < n)%nat -> (2 * length s + 1 < m)%nat -> parse_elements n s = parse_elements m s) /\
  (forall s, (2 * length s < n)%nat -> (2 * length s < m)%nat -> parse_members n s = parse_members m s).
Proof.
  induction n as [|n IH]; intros [|m]; [split_and!; intros; lia..|].
  destruct (IH m) as (IHv & IHe & IHm), (parse_shorter m) as (Sv & _ & _). split_and!; intros s Hn Hm.
  - cbn [parse_value]. destruct (skip_ws s) as [|c s1] eqn:Es; [done|]. apply skip_ws_shorter in Es.
    destruct (c =? 123); [|destruct (c =? 91); [|done]].
    all: destruct (skip_ws s1) as [|d s2]; [done|].
    + destruct (d =? 125); [done|]. by rewrite IHm by lia.
    + destruct (d =? 93); [done|]. by rewrite IHe by lia.
  - cbn [parse_elements]. rewrite IHv by lia. destruct (parse_value m s) as [[v s1]|] eqn:E; [|done].
    apply Sv in E. cbn [mbind option_bind]. destruct (skip_ws s1) as [|c s2] eqn:Es; [done|]. apply skip_ws_shorter in Es.
    destruct (c =? 44); [|done]. by rewrite IHe by lia.
  - cbn [parse_members]. destruct (skip_ws s) as [|q s1] eqn:Es; [done|]. apply skip_ws_shorter in Es.
    destruct (q =? 34); [|done]. destruct (parse_string s1) as [[k s2]|] eqn:E; [|done]. apply parse_string_shorter in E.
    cbn [mbind option_bind]. destruct (skip_ws s2) as [|c s3] eqn:E2; [done|]. apply skip_ws_shorter in E2.
    destruct (c =? 58); [|done]. rewrite IHv by lia. destruct (parse_value m s3) as [[v s4]|] eqn:E3; [|done].
    apply Sv in E3. cbn [mbind option_bind]. destruct (skip_ws s4) as [|c' s5] eqn:E4; [done|]. apply skip_ws_shorter in E4.
    destruct (c' =? 44); [|done]. by rewrite IHm by lia.
Qed.
Lemma parse_fuel n s : (2 * length s < n)%nat -> parse_value n s = parse_value (json_fuel s) s.
Proof. intros H. apply (parse_enough n (json_fuel s)); unfold json_fuel; lia. Qed.

(** * Prefixes *)

Lemma skip_ws_all w s : forallb is_ws w = true -> skip_ws (w ++ s) = skip_ws s.
Proof. induction w as [|c w IH]; [done|]. cbn. intros [-> H]%andb_prop. by apply IH. Qed.
Lemma skip_ws_nil w : forallb is_ws w = true -> skip_ws w = [].
Proof. intros H. rewrite <-(app_nil_r w). by rewrite skip_ws_all. Qed.
Lemma skip_ws_inv s : skip_ws s = [] -> forallb is_ws s = true.
Proof. induction s as [|c s IH]; [done|]. cbn. destruct (is_ws c); [by apply IH|done]. Qed.
Lemma parse_value_ws n w s : forallb is_ws w = true -> parse_value n (w ++ s) = parse_value n s.
Proof. intros H. destruct n as [|n]; [done|]. cbn [parse_value]. by rewrite skip_ws_all. Qed.

(** A text that starts with a bracket, is the value, and nothing is left. *)
Definition opens (s : jsstr) : bool := match s with c :: _ => (c =? 123) || (c =? 91) | [] => false end.
Definition message (m : jsstr) (v : json) : Prop := opens m = true /\ parse_value (json_fuel m) m = Some (v, []).

Lemma opens_not_num n s v r : opens s = true -> parse_value n s = Some (v, r) -> is_num v = false.
Proof.
  destruct s as [|c s]; [done|]. destruct n as [|n]; [done|]. cbn [opens parse_value skip_ws]. intros Hc.
  assert (is_ws c = false) as -> by (unfold is_ws; lia).
  destruct (c =? 123); [|destruct (c =? 91); [|done]].
  all: destruct (skip_ws s) as [|d s2]; [done|].
  - destruct (d =? 125); [by intros [= <- _]|]. destruct (parse_members n s) as [[]|]; [|done]. by intros [= <- _].
  - destruct (d =? 93); [by intros [= <- _]|]. destruct (parse_elements n s) as [[]|]; [|done]. by intros [= <- _].
Qed.

Lemma parse_value_app n s t v r :
  parse_value n s = Some (v, r) -> is_num v = false -> parse_value n (s ++ t) = Some (v, r ++ t).
Proof. intros H Hv. apply (proj1 (parse_app n t) _ _ _ H). by rewrite Hv. Qed.

Lemma JSON_parse_message w m v t :
  forallb is_ws w = true -> message m v -> forallb is_ws t = true -> JSON_parse (w ++ m ++ t) = Some v.
Proof.
  intros Hw [Ho Hm] Ht. unfold JSON_parse. rewrite parse_value_ws by done.
  rewrite parse_fuel by (unfold json_fuel; rewrite !length_app; lia).
  rewrite <-(parse_fuel (json_fuel (m ++ t)) m) in Hm by (unfold json_fuel; rewrite !length_app; lia).
  rewrite (parse_value_app _ _ _ _ _ Hm (opens_not_num _ _ _ _ Ho Hm)). cbn [app]. by rewrite skip_ws_nil.
Qed.

(** A text that is cut short cannot be read. *)
Lemma JSON_parse_prefix w p q v :
  forallb is_ws w = true -> message (p ++ q) v -> q <> [] -> JSON_parse (w ++ p) = None.
Proof.
  intros Hw [Ho Hm] Hq. unfold JSON_parse. rewrite parse_value_ws by done.
  rewrite parse_fuel by (unfold json_fuel; rewrite !length_app; lia).
  destruct (parse_value (json_fuel p) p) as [[v' r]|] eqn:E; [|done].
  destruct p as [|c p]; [done|]. assert (opens (c :: p) = true) as Ho' by done.
  rewrite <-(parse_fuel (json_fuel ((c :: p) ++ q))) in E by (unfold json_fuel; rewrite !length_app; lia).
  pose proof (parse_value_app _ _ q _ _ E (opens_not_num _ _ _ _ Ho' E)) as H. rewrite H in Hm.
  injection Hm as _ Hn. by apply app_nil in Hn as [_ ->].
Qed.

Lemma JSON_parse_ws w : forallb is_ws w = true -> JSON_parse w = None.
Proof.
  intros Hw. unfold JSON_parse, json_fuel. rewrite Nat.add_comm. cbn [Nat.add parse_value]. by rewrite skip_ws_nil.
Qed.

(** * What is written can be read *)

Definition units (s : jsstr) : bool := forallb (fun c => 0 <=? c) s.
(** The keys of every object are distinct, and strings consist of code units. *)
Fixpoint json_ok (v : value) : bool :=
  match v with
  | VBig x => units (big_to_string x)
  | VStr s => units s
  | VArr l => forallb json_ok l
  | VObj fs => bool_decide (NoDup (fst <$> fs)) && forallb (fun '(k, v) => units k && json_ok v) fs
  | _ => true
  end.

Lemma parse_json_char c t x r :
  0 <= c -> parse_string t = Some (x, r) -> parse_string (json_char c ++ t) = Some (c :: x, r).
Proof.
  intros Hc Ht. unfold json_char.
  destruct (Z.eqb_spec c 34) as [->|N34]; [by cbn; rewrite Ht|].
  destruct (Z.eqb_spec c 92) as [->|N92]; [by cbn; rewrite Ht|].
  destruct (Z.eqb_spec c 8) as [->|_]; [change (str "\b") with [92; 98]; by cbn; rewrite Ht|].
  destruct (Z.eqb_spec c 12) as [->|_]; [change (str "\f") with [92; 102]; by cbn; rewrite Ht|].
  destruct (Z.eqb_spec c 10) as [->|_]; [change (str "\n") with [92; 110]; by cbn; rewrite Ht|].
  destruct (Z.eqb_spec c 13) as [->|_]; [change (str "\r") with [92; 114]; by cbn; rewrite Ht|].
  destruct (Z.eqb_spec c 9) as [->|_]; [change (str "\t") with [92; 116]; by cbn; rewrite Ht|].
  destruct (Z.ltb_spec c 32).
  - change (str "\u00") with [92; 117; 48; 48]. cbn -[of_base]. rewrite Ht. unfold hex_byte.
    assert (of_base 16 [48; 48; digit_char (c / 16); digit_char (c mod 16)] = Some c) as ->; [|done].
    change [48; 48; digit_char (c / 16); digit_char (c mod 16)] with (digit_char <$> [0; 0; c / 16; c mod 16]).
    rewrite of_base_digits; [f_equal; unfold of_digits; cbn [fold_left]| |lia].
    { Z.to_euclidean_division_equations; lia. }
    repeat constructor; Z.to_euclidean_division_equations; lia.
  - cbn. replace (c =? 34) with false by lia. replace (c =? 92) with false by lia.
    replace (c <? 32) with false by lia. by rewrite Ht.
Qed.
Lemma parse_quoted s r : units s = true -> parse_string ((s ≫= json_char) ++ 34 :: r) = Some (s, r).
Proof.
  induction s as [|c s IH]; [done|]. cbn [units forallb]. intros [Hc Hs]%andb_prop.
  cbn [mbind list_bind]. rewrite <-app_assoc. apply parse_json_char; [lia|by apply IH].
Qed.

(** The first digit of a positive number is not zero. *)
Lemma digits_rev_last b fuel z :
  2 <= b -> 0 < z < b ^ Z.of_nat fuel -> exists l d, digits_rev fuel b z = l ++ [d] /\ d <> 0.
Proof.
  intros Hb. revert z. induction fuel as [|f IH]; intros z Hz; [cbn in Hz; lia|]. cbn [digits_rev].
  pose proof (Z.div_mod z b) as Hdm. destruct (Z.eqb_spec (z / b) 0) as [E|E].
  - exists [], (z mod b). split; [done|]. rewrite E in Hdm. lia.
  - destruct (IH (z / b)) as (l & d & -> & Hd).
    + rewrite Nat2Z.inj_succ, Z.pow_succ_r in Hz by lia. pose proof (Z.div_pos z b).
      split; [lia|]. apply Z.div_lt_upper_bound; lia.
    + by exists (z mod b :: l), d.
Qed.
Lemma to_base_lead z : 0 < z -> exists c r, to_base 10 z = c :: r /\ c <> 48 /\ is_dec_digit c = true.
Proof.
  intros Hz. pose proof (to_base_dec z) as Hdec. rewrite to_base_nonneg in * by lia. unfold digits in *.
  destruct (digits_rev_last 10 (S (Z.to_nat (Z.log2 z))) z) as (l & d & E & Hd); [lia|split; [done|apply digits_fuel; lia]|].
  rewrite E in *. rewrite reverse_app in *. cbn in *. exists (digit_char d), (digit_char <$> reverse l).
  specialize (Hdec ltac:(lia)). apply andb_prop in Hdec as [Hc _]. split_and!; [done| |done].
  unfold digit_char, is_dec_digit in *. destruct (d <? 10) eqn:E10; lia.
Qed.

(** What can follow a value. *)
Definition delimited (r : jsstr) : bool :=
  match r with c :: _ => negb (is_dec_digit c || (c =? 46) || (c =? 101) || (c =? 69)) | [] => true end.

Lemma span_delimited s r : forallb is_dec_digit s = true -> delimited r = true -> span is_dec_digit (s ++ r) = (s, r).
Proof.
  intros Hs Hr. destruct r as [|c r]; [rewrite app_nil_r; by apply span_all|].
  apply span_stop; [done|]. unfold delimited in Hr. by destruct (is_dec_digit c).
Qed.
Lemma parse_integer_base z r : 0 <= z -> delimited r = true -> parse_integer (to_base 10 z ++ r) = (to_base 10 z, r).
Proof.
  intros Hz Hr. destruct (decide (z = 0)) as [->|Hn]; [done|].
  destruct (to_base_lead z) as (c & t & E & Hc & _); [lia|]. pose proof (to_base_dec z Hz) as Hd. rewrite E in *.
  unfold parse_integer. cbn [app]. replace (c =? 48) with false by lia. exact (span_delimited (c :: t) r Hd Hr).
Qed.
Lemma parse_tail_delimited r : delimited r = true -> parse_fraction r = Some ([], r) /\ parse_exponent r = Some (0, r).
Proof.
  destruct r as [|c r]; [done|]. cbn [delimited]. unfold parse_fraction, parse_exponent. intros H.
  apply negb_true_iff, orb_false_iff in H as [[[_ ->]%orb_false_iff ->]%orb_false_iff ->]. done.
Qed.
Lemma parse_number_base z r :
  delimited r = true -> parse_number (to_base 10 z ++ r) = Some (JNum (Big z 0), r).
Proof.
  intros Hr. destruct (parse_tail_delimited r Hr) as [Hf He].
  assert (forall neg y, 0 <= y ->
    match parse_integer (to_base 10 y ++ r) with
    | ([], _) => None
    | (ip, s) => '(fp, s) ← parse_fraction s; '(e, s) ← parse_exponent s;
        Some (JNum (scale (signed neg (dec_value (ip ++ fp))) (e - Z.of_nat (length fp))), s)
    end = Some (JNum (Big (signed neg y) 0), r)) as Hk.
  { intros neg y Hy. rewrite parse_integer_base by done.
    assert (to_base 10 y <> []) as Hne.
    { rewrite to_base_nonneg by done. pose proof (digits_length_pos 10 y). by destruct (digits 10 y); [cbn in *; lia|]. }
    destruct (to_base 10 y) as [|i ip] eqn:E; [done|]. rewrite Hf. cbn [mbind option_bind]. rewrite He. cbn [mbind option_bind].
    rewrite app_nil_r, <-E, dec_value_base by done. unfold scale. cbn. by rewrite Z.mul_1_r. }
  unfold parse_number. destruct (Z.ltb_spec z 0).
  - unfold to_base. replace (z <? 0) with true by lia. cbn [app strip_minus Z.eqb]. change (45 =? 45) with true. cbn iota.
    rewrite <-(to_base_nonneg 10) by lia. etrans; [exact (Hk true (- z) ltac:(lia))|]. cbn. by rewrite Z.opp_involutive.
  - specialize (Hk false z ltac:(lia)). pose proof (to_base_dec z ltac:(lia)) as Hd.
    destruct (to_base 10 z) as [|c t] eqn:E; [|cbn [app strip_minus forallb] in *].
    { rewrite to_base_nonneg in E by lia. pose proof (digits_length_pos 10 z). destruct (digits 10 z); [cbn in *; lia|done]. }
    apply andb_prop in Hd as [Hd _]. unfold is_dec_digit in Hd. replace (c =? 45) with false by lia. exact Hk.
Qed.

(** [text] reads as [j], whatever comes after it. *)
Definition reads (text : jsstr) (j : json) : Prop :=
  forall n r, delimited r = true -> (2 * length (text ++ r) < n)%nat -> parse_value n (text ++ r) = Some (j, r).
(** It does not start like the end of an array, nor with a blank. *)
Definition starts (text : jsstr) : bool :=
  match text with c :: _ => negb (is_ws c) && negb (c =? 93) && negb (c =? 125) | [] => false end.
Lemma skip_ws_starts text r : starts text = true -> skip_ws (text ++ r) = text ++ r.
Proof.
  destruct text as [|c t]; [done|]. cbn [starts]. intros [[Hc _]%andb_prop _]%andb_prop.
  cbn. by apply negb_true_iff in Hc as ->.
Qed.

Lemma join_cons sep s l : join sep (s :: l) = s ++ match l with [] => [] | _ => sep ++ join sep l end.
Proof. destruct l; [by rewrite app_nil_r|done]. Qed.

Lemma elements_join l n r :
  l <> [] -> Forall (fun x => reads x.1 x.2) l ->
  (2 * length (join (str ",") (fst <$> l) ++ 93%Z :: r) + 1 < n)%nat ->
  parse_elements n (join (str ",") (fst <$> l) ++ 93 :: r) = Some (snd <$> l, r).
Proof.
  intros Hl H. revert n. induction H as [|[t j] l Ht H IH]; [done|]. intros [|n] Hn; [lia|].
  rewrite !fmap_cons in *. cbn [fst snd] in *. rewrite join_cons, <-app_assoc in *. cbn [parse_elements].
  destruct l as [|y l].
  - cbn [fmap list_fmap app] in *. rewrite Ht by (done || lia). done.
  - rewrite fmap_cons in *. change (str ",") with [44] in *. cbn [app] in *.
    rewrite Ht by (done || lia). cbn [mbind option_bind]. change (skip_ws (44 :: ?s)) with (44 :: s). cbv beta iota.
    change (44 =? 44) with true. cbv iota. rewrite <-fmap_cons, IH; [done|done|].
    rewrite length_app in Hn. cbn [length] in Hn. rewrite ?fmap_cons. lia.
Qed.

Definition member_text (x : jsstr * (jsstr * json)) : jsstr := json_quote x.1 ++ str ":" ++ x.2.1.
Lemma members_join l n r :
  l <> [] -> Forall (fun x => units x.1 = true /\ reads x.2.1 x.2.2) l ->
  (2 * length (join (str ",") (member_text <$> l) ++ 125%Z :: r) < n)%nat ->
  parse_members n (join (str ",") (member_text <$> l) ++ 125 :: r) = Some ((fun x => (x.1, x.2.2)) <$> l, r).
Proof.
  intros Hl H. revert n. induction H as [|[k [t j]] l [Hk Ht] H IH]; [done|]. intros [|n] Hn; [lia|].
  rewrite !fmap_cons in *. cbn [fst snd] in *. rewrite join_cons, <-app_assoc in *. unfold member_text at 1 in Hn. unfold member_text at 1.
  unfold json_quote in *. cbn [fst snd] in *. rewrite <-!app_assoc in *. change (str ":") with [58] in *. cbn [app] in *.
  cbn [parse_members skip_ws]. change (is_ws 34) with false. cbv beta iota. change (34 =? 34) with true. cbv iota.
  rewrite parse_quoted by done. cbn [mbind option_bind skip_ws]. change (is_ws 58) with false. cbv beta iota.
  change (58 =? 58) with true. cbv iota. cbn [length] in Hn. rewrite length_app in Hn. cbn [length] in Hn.
  destruct l as [|y l].
  - cbn [fmap list_fmap app] in *. rewrite Ht by (done || lia). done.
  - rewrite fmap_cons in *. change (str ",") with [44] in *. cbn [app] in *.
    rewrite Ht by (done || lia). cbn [mbind option_bind skip_ws]. change (is_ws 44) with false. cbv beta iota.
    change (44 =? 44) with true. cbv iota. rewrite <-(fmap_cons member_text), IH; [done|done|].
    rewrite length_app in Hn. cbn [length] in Hn. rewrite ?fmap_cons. lia.
Qed.

Lemma value_nested_ind (P : value -> Prop) :
  (forall v, match v with VArr _ | VObj _ => False | _ => True end -> P v) ->
  (forall l, Forall P l -> P (VArr l)) -> (forall fs, Forall (fun x => P x.2) fs -> P (VObj fs)) -> forall v, P v.
Proof.
  intros Ha Hl Ho. fix IH 1. intros [| |b|z|x|s|l|fs]; try (apply Ha; done).
  - apply Hl. induction l as [|v l IHl]; constructor; [apply IH|exact IHl].
  - apply Ho. induction fs as [|[k v] fs IHl]; constructor; [apply IH|exact IHl].
Qed.

(** The text and the data of a value: both or neither, and then the text reads as the data. *)
Definition agree (t : option jsstr) (j : option json) : Prop :=
  match t, j with
  | Some t, Some j => reads t j /\ starts t = true
  | None, None => True
  | _, _ => False
  end.

Lemma agree_word w j c t :
  w = c :: t -> (c = 116 \/ c = 102 \/ c = 110) ->
  (forall r, parse_value 1 (w ++ r) = Some (j, r)) -> agree (Some w) (Some j).
Proof.
  intros -> Hc H. split; [|cbn; unfold is_ws; lia]. intros n r _ Hn. rewrite <-(H r).
  destruct n as [|n]; [lia|]. cbn [parse_value app skip_ws].
  assert (is_ws c = false) as -> by (unfold is_ws; lia).
  replace (c =? 123) with false by lia. replace (c =? 91) with false by lia. done.
Qed.
Lemma agree_string s : units s = true -> agree (Some (json_quote s)) (Some (JStr s)).
Proof.
  intros Hs. split; [|done]. intros [|n] r _ Hn; [lia|]. unfold json_quote. rewrite <-!app_assoc.
  cbn [app parse_value skip_ws]. change (is_ws 34) with false. cbv beta iota.
  change (34 =? 123) with false. change (34 =? 91) with false. change (34 =? 34) with true. cbv iota.
  by rewrite parse_quoted.
Qed.
Lemma agree_number z : agree (Some (to_base 10 z)) (Some (JNum (Big z 0))).
Proof.
  assert (exists c t, to_base 10 z = c :: t /\ (c = 45 \/ is_dec_digit c = true)) as (c & t & E & Hc).
  { destruct (Z.ltb_spec z 0); [unfold to_base; replace (z <? 0) with true by lia; eauto|].
    pose proof (to_base_dec z ltac:(lia)) as Hd. rewrite to_base_nonneg in * by lia. pose proof (digits_length_pos 10 z).
    destruct (digits 10 z) as [|d ds]; [cbn in *; lia|]. rewrite fmap_cons in *. cbn [forallb] in Hd.
    apply andb_prop in Hd as [Hd _]. eauto. }
  assert (is_ws c = false /\ c <> 93 /\ c <> 125 /\ c <> 123 /\ c <> 91 /\ c <> 34 /\ c <> 116 /\ c <> 102 /\ c <> 110)
    as (Hw & ? & ? & ? & ? & ? & ? & ? & ?) by (unfold is_ws, is_dec_digit in *; lia).
  split; [|rewrite E; cbn; rewrite Hw; lia]. intros [|n] r Hr Hn; [lia|].
  rewrite <-(parse_number_base z r Hr). rewrite E. cbn [app parse_value skip_ws]. rewrite Hw.
  replace (c =? 123) with false by lia. replace (c =? 91) with false by lia. replace (c =? 34) with false by lia.
  replace (c =? 116) with false by lia. replace (c =? 102) with false by lia. by replace (c =? 110) with false by lia.
Qed.

Lemma agree_array (l : list (jsstr * json)) :
  Forall (fun x => reads x.1 x.2 /\ starts x.1 = true) l ->
  agree (Some (str "[" ++ join (str ",") (fst <$> l) ++ str "]")) (Some (JArr (snd <$> l))).
Proof.
  intros H. split; [|done]. intros [|n] r _ Hn; [lia|]. change (str "[") with [91] in *. change (str "]") with [93] in *.
  rewrite <-!app_assoc in *. cbn [app parse_value skip_ws] in *. change (is_ws 91) with false. cbv beta iota.
  change (91 =? 123) with false. change (91 =? 91) with true. cbv iota.
  destruct H as [|[t j] l [Ht Hs] H]; [done|]. rewrite fmap_cons in *. cbn [fst] in *. rewrite join_cons in *.
  rewrite <-app_assoc, skip_ws_starts, app_assoc, <-join_cons by done.
  destruct t as [|c t]; [done|]. rewrite join_cons. cbn [app]. cbn [starts] in Hs.
  replace (c =? 93) with false by lia.
  change (c :: (t ++ ?x) ++ 93 :: r) with (((c :: t) ++ x) ++ 93 :: r). rewrite <-join_cons.
  change (join (str ",") ((c :: t) :: (fst <$> l))) with (join (str ",") (fst <$> ((c :: t, j) :: l))).
  rewrite elements_join; [done|done| |].
  - constructor; [done|]. eapply Forall_impl; [exact H|]. by intros ? [? _].
  - rewrite fmap_cons, join_cons. cbn [length fst] in *. lia.
Qed.

Lemma fields_of_nodup_acc (acc fs : list (jsstr * json)) :
  NoDup (fst <$> (acc ++ fs)) -> fold_left (fun acc '(k, v) => set_key k v acc) fs acc = acc ++ fs.
Proof.
  revert acc. induction fs as [|[k v] fs IH]; intros acc H; cbn [fold_left]; [by rewrite app_nil_r|].
  assert (set_key k v acc = acc ++ [(k, v)]) as ->.
  { rewrite fmap_app in H. apply NoDup_app in H as (_ & H & _). clear IH. induction acc as [|[k' y] acc IH]; [done|].
    cbn [set_key app]. rewrite bool_decide_eq_false_2; [rewrite IH; [done|]|].
    - intros x Hx. apply H. rewrite fmap_cons. by right.
    - intros ->. apply (H k'); rewrite fmap_cons; by left. }
  rewrite IH; rewrite <-app_assoc; done.
Qed.
Lemma fields_of_nodup fs : NoDup (fst <$> fs) -> fields_of fs = fs.
Proof. intros H. by apply (fields_of_nodup_acc []). Qed.

Lemma agree_object (l : list (jsstr * (jsstr * json))) :
  NoDup (fst <$> l) -> Forall (fun x => units x.1 = true /\ reads x.2.1 x.2.2) l ->
  agree (Some (str "{" ++ join (str ",") (member_text <$> l) ++ str "}")) (Some (JObj ((fun x => (x.1, x.2.2)) <$> l))).
Proof.
  intros Hd H. split; [|done]. intros [|n] r _ Hn; [lia|]. change (str "{") with [123] in *. change (str "}") with [125] in *.
  rewrite <-!app_assoc in *. cbn [app parse_value skip_ws] in *. change (is_ws 123) with false. cbv beta iota.
  change (123 =? 123) with true. cbv iota. destruct l as [|x l]; [done|].
  assert (exists t, join (str ",") (member_text <$> x :: l) ++ 125 :: r = 34 :: t) as [t Et].
  { rewrite fmap_cons, join_cons. unfold member_text, json_quote. eexists. rewrite <-!app_assoc. reflexivity. }
  rewrite Et. cbn [skip_ws]. change (is_ws 34) with false. cbv beta iota. change (34 =? 125) with false. cbv iota.
  rewrite <-Et, members_join; [|done|done|cbn [length] in Hn; lia]. cbn [mbind option_bind].
  rewrite fields_of_nodup; [done|]. by rewrite <-list_fmap_compose.
Qed.

(** The members an object has in its text. *)
Fixpoint members_of (fs : list (jsstr * value)) : list (jsstr * (jsstr * json)) :=
  match fs with
  | [] => []
  | (k, v) :: fs =>
      match JSON_stringify v, json_of v with
      | Some t, Some j => (k, (t, j)) :: members_of fs
      | _, _ => members_of fs
      end
  end.
Lemma members_of_spec fs :
  Forall (fun x => agree (JSON_stringify x.2) (json_of x.2)) fs ->
  omap (fun '(k, v) => (fun t => json_quote k ++ str ":" ++ t) <$> v) (map (fun '(k, v) => (k, JSON_stringify v)) fs) =
    member_text <$> members_of fs /\
  omap (fun '(k, v) => (fun t => (k, t)) <$> v) (map (fun '(k, v) => (k, json_of v)) fs) =
    (fun x => (x.1, x.2.2)) <$> members_of fs.
Proof.
  induction 1 as [|[k v] fs H _ [IH1 IH2]]; [done|]. cbn [map omap list_omap members_of snd] in *. rewrite IH1, IH2.
  unfold agree in H. by destruct (JSON_stringify v), (json_of v).
Qed.
Lemma members_of_keys fs : (fst <$> members_of fs) `sublist_of` (fst <$> fs).
Proof.
  induction fs as [|[k v] fs IH]; [done|]. cbn [members_of]. rewrite fmap_cons.
  destruct (JSON_stringify v), (json_of v); [by apply sublist_skip|by apply sublist_cons..].
Qed.
Lemma members_of_read fs :
  Forall (fun x => agree (JSON_stringify x.2) (json_of x.2)) fs -> forallb (fun '(k, v) => units k && json_ok v) fs = true ->
  Forall (fun x => units x.1 = true /\ reads x.2.1 x.2.2) (members_of fs).
Proof.
  induction 1 as [|[k v] fs H _ IH]; [done|]. cbn [forallb members_of snd] in *. intros [[Hk _]%andb_prop Hf]%andb_prop.
  specialize (IH Hf). destruct (JSON_stringify v), (json_of v); try done. constructor; [|done]. split; [done|by destruct H].
Qed.

Lemma stringify_agree v : json_ok v = true -> agree (JSON_stringify v) (json_of v).
Proof.
  induction v as [v Hv|l IH|fs IH] using value_nested_ind; cbn [json_ok].
  - destruct v as [| |b|z|x|s|l|fs]; try done; intros H; cbn [JSON_stringify json_of].
    + apply (agree_word (str "null") JNull 110 (str "ull")); [done|lia|done].
    + destruct b; [apply (agree_word _ _ 116 (str "rue"))|apply (agree_word _ _ 102 (str "alse"))]; done || lia.
    + apply agree_number.
    + by apply agree_string.
    + by apply agree_string.
  - intros H. cbn [JSON_stringify json_of].
    set (l' := (fun v => (default (str "null") (JSON_stringify v), default JNull (json_of v))) <$> l).
    replace (map (fun v => default (str "null") (JSON_stringify v)) l) with (fst <$> l') by by unfold l'; rewrite <-list_fmap_compose.
    replace (map (fun v => default JNull (json_of v)) l) with (snd <$> l') by by unfold l'; rewrite <-list_fmap_compose.
    apply agree_array. apply Forall_fmap. induction IH as [|v l Hv IH IHl]; [done|].
    cbn [forallb] in H. apply andb_prop in H as [H1 H2]. constructor; [|by apply IHl]. cbn.
    specialize (Hv H1). destruct (JSON_stringify v), (json_of v); try done. cbn.
    apply (agree_word (str "null") JNull 110 (str "ull")); [done|lia|done].
  - intros [Hd%bool_decide_eq_true_1 Hf]%andb_prop. cbn [JSON_stringify json_of].
    assert (Forall (fun x => agree (JSON_stringify x.2) (json_of x.2)) fs) as Ha.
    { clear Hd. induction IH as [|[k v] fs Hv IH IHl]; [done|]. cbn [forallb] in Hf.
      apply andb_prop in Hf as [[_ Hv']%andb_prop Hf]. constructor; [by apply Hv|by apply IHl]. }
    destruct (members_of_spec fs Ha) as [-> ->].
    apply agree_object; [|by apply members_of_read]. by eapply sublist_NoDup; [|apply members_of_keys].
Qed.

Lemma agree_parse t j : agree (Some t) (Some j) -> JSON_parse t = Some j.
Proof.
  intros [Hr _]. unfold JSON_parse. specialize (Hr (json_fuel t) [] eq_refl). rewrite app_nil_r in Hr.
  by rewrite Hr by (unfold json_fuel; lia).
Qed.

(** What [JSON.stringify] writes of a value, [JSON.parse] reads as the data of the
    value: a request arrives as it was made, whatever its strings contain. *)
Theorem json_roundtrip v text :
  json_ok v = true -> JSON_stringify v = Some text -> JSON_parse text = json_of v.
Proof.
  intros Hv Ht. pose proof (stringify_agree v Hv) as Ha. rewrite Ht in Ha. destruct (json_of v) as [j|]; [|done].
  by apply agree_parse.
Qed.

Lemma json_roundtrip_witness :
  JSON_parse [123; 34; 97; 34; 58; 91; 45; 55; 44; 34; 92; 34; 125; 34; 93; 125] =
  Some (JObj [(str "a", JArr [JNum (Big (-7) 0); JStr [34; 125]])]).
Proof.
  apply (json_roundtrip (VObj [(str "a", VArr [VNum (-7); VStr [34; 125]])])); vm_compute; reflexivity.
Defined.
