(* ===== verification/DashApp.v ===== *)
(** The dashboard as a whole: [Main] of src/dashboard/assets/components/Main.jsx connects
    the log page with the container it scrolls in and with the life cycle of the
    components, and the log page's requests go to the server through [send] of the
    dashboard.

    The browser's layout is an input of every step: the sizes of the container, of the
    content and of the first chunk before and after the change.  React calls the
    methods in the order of its documentation: the snapshot before the elements
    change, then the mounting of a new page, then [componentDidUpdate] of [Main]. *)
From Stdlib Require Import ZArith Lia.
From S2P Require Import Prelude Utils Rpc Json DashLogs DashContent DashView.
Open Scope Z_scope.

Record geometry := Geometry { g_container : container; g_content : Z; g_first : option Z }.

(** What happens to the dashboard: the socket, and the handlers of its elements. *)
Inductive input :=
| Opened (s : nat)
| Received (m : val)
| Closed
| Handler (h : handler).

Definition input_event (i : input) : option event :=
  match i with
  | Opened s => Some (OnOpen s)
  | Received m => Some (OnMessage m)
  | Closed => Some OnClose
  | Handler h => event_of h
  end.

(** The state, and the mounted log page ([this.content] of [Main]) with its
    [requestAllowed]. *)
Record app := App { a_dash : dashboard; a_logs : option bool }.

Definition app_initial : app := App initial None.

Definition page_at (allowed : bool) (g : geometry) : page := Page (Some (g_container g)) (Some (g_content g)) allowed [].
Definition logs_at (d : dashboard) : logs := logs_of_val (field (content d) (str "logs")).
(** [typeof shouldUpdate.logs !== 'undefined'] *)
Definition logs_in_update (s : shape) : bool :=
  match s with
  | STrue => false
  | SObj l => bool_decide (is_Some (assoc (str "logs") l))
  end.

(** The argument of [send] in [sendRequest]. *)
Definition request (r : jsstr * bool) : value :=
  Utils.VObj [(str "Logs", Utils.VObj [(str "Name", Utils.VStr r.1); (str "Past", Utils.VBool r.2)])].
Definition request_text (r : jsstr * bool) : jsstr := default [] (JSON_stringify (request r)).

Section App.
Context (new_Date : jsstr -> option date) (escapeHtml : option jsstr -> jsstr).

(** [getSnapshotBeforeUpdate], the change of the page, and [componentDidUpdate]. *)
Definition main_update (before after : geometry) (mounted : option bool) (d : dashboard) : option (option page) :=
  if bool_decide (active d = str "logs") then
    let sn := (fun _ => beforeUpdate (g_container before) (g_first before)) <$> mounted in
    p ← match mounted with
        | None => componentDidMount (logs_at d) (page_at true after)
        | Some allowed => Some (page_at allowed after)
        end;
    Some <$> didUpdate (logs_in_update (should d)) sn (default 0 (g_first after)) (logs_at d) p
  else Some None.

(** The requests of the page are sent as they are made. *)
Definition send_requests (p : page) (d : dashboard) : option dashboard :=
  handle_all new_Date escapeHtml ((fun r => Send (request_text r)) <$> p_sent p) d.
Definition deliver (p : option page) (d : dashboard) : option app :=
  match p with
  | None => Some (App d None)
  | Some p => d ← send_requests p d; Some (App d (Some (p_requestAllowed p)))
  end.

(** An input without an event is the scrolling of the container: [onScroll] of [Main]. *)
Definition app_step (i : input) (before after : geometry) (s : app) : option app :=
  match input_event i with
  | Some e =>
      d ← handle new_Date escapeHtml e (a_dash s);
      if sets_state e then p ← main_update before after (a_logs s) d; deliver p d
      else Some (App d (a_logs s))
  | None =>
      match a_logs s with
      | Some allowed => p ← onScroll (logs_at (a_dash s)) (page_at allowed after); deliver (Some p) (a_dash s)
      | None => Some s
      end
  end.

(** * Requests *)

(** What a method of the page asks for: nothing, or the file before the first or after
    the last chunk, where there is one; then no more until the answer. *)
Inductive asks (l : logs) : page -> Prop :=
| asks_nothing p : p_sent p = [] -> asks l p
| asks_older c cs h k : chunks l = Some (c :: cs) -> endTop l = false -> asks l (Page h k false [(name c, true)])
| asks_newer cs c h k : chunks l = Some cs -> last cs = Some c -> endBottom l = false -> asks l (Page h k false [(name c, false)]).

Lemma asks_first l c cs p : chunks l = Some (c :: cs) -> p_sent p = [] ->
  asks l (if negb (endTop l) then sendRequest (name c) true p else p).
Proof.
  intros Hc Hp. destruct (endTop l) eqn:E; cbn [negb]; [by constructor|]. unfold sendRequest. rewrite Hp. by eapply asks_older.
Qed.
Lemma mount_asks l g p : componentDidMount l (page_at true g) = Some p -> asks l p.
Proof.
  unfold componentDidMount, page_at. cbn [p_container p_content set_scrollTop].
  destruct (chunks l) as [[|c cs]|] eqn:Ec; cbn [mbind option_bind]; [..|done]; intros [= <-]; [by constructor|].
  destruct (g_content g <? _); [|by constructor]. cbn [andb]. by eapply asks_first.
Qed.
Lemma update_asks b sn f l a g p : didUpdate b sn f l (page_at a g) = Some p -> asks l p.
Proof.
  unfold didUpdate, page_at. cbn [p_container p_content].
  destruct b; [|intros [= <-]; by constructor]. destruct sn as [sn|]; [|intros [= <-]; by constructor].
  destruct (chunks l) as [[|c cs]|] eqn:Ec; cbn [mbind option_bind]; [intros [= <-]; by constructor| |done].
  cbn [mbind option_bind]. destruct (g_content g <? _); intros [= <-]; [by eapply asks_first|by constructor].
Qed.
Lemma scroll_asks l a g p : onScroll l (page_at a g) = Some p -> asks l p.
Proof.
  unfold onScroll, page_at. cbn [p_container p_content p_requestAllowed].
  destruct a; [|intros [= <-]; by constructor]. cbn [negb].
  destruct (chunks l) as [[|c cs]|] eqn:Ec; cbn [mbind option_bind]; [intros [= <-]; by constructor| |done]. cbn [mbind option_bind].
  destruct (last (c :: cs)) as [x|] eqn:El; [|intros [= <-]; by constructor]. cbn [mbind option_bind]. intros [= <-].
  destruct (atTop _); cbn [andb].
  - destruct (endTop l) eqn:Et; cbn [negb]; [|by eapply asks_older].
    destruct (atBottom _ && _) eqn:Eb; [|by constructor]. apply andb_prop in Eb as [_ Eb]. apply negb_true_iff in Eb. by eapply asks_newer.
  - destruct (atBottom _ && _) eqn:Eb; [|by constructor]. apply andb_prop in Eb as [_ Eb]. apply negb_true_iff in Eb. by eapply asks_newer.
Qed.
Lemma main_update_asks b a m d p : main_update b a m d = Some (Some p) -> active d = str "logs" /\ asks (logs_at d) p.
Proof.
  unfold main_update. case_bool_decide as Ha; [|done]. intros H. split; [done|]. destruct m as [al|]; cbn [fmap option_fmap option_map] in H.
  - cbn [mbind option_bind] in H. destruct (didUpdate _ _ _ _ _) as [q|] eqn:Eq; [|done]. injection H as <-. by eapply update_asks.
  - destruct (componentDidMount _ _) as [q|] eqn:Eq; [|done]. cbn [mbind option_bind] in H.
    assert (p = q) as ->; [|by eapply mount_asks]. unfold didUpdate in H. destruct (logs_in_update _), (p_content q); by injection H.
Qed.

(** The request the server reads. *)
Definition request_json (n : jsstr) (past : bool) : json :=
  JObj [(str "Logs", JObj [(str "Name", JStr n); (str "Past", JBool past)])].
(** The file asked for is the one before the first chunk or after the last. *)
Definition wanted (l : logs) (n : jsstr) (past : bool) : Prop :=
  exists cs c, chunks l = Some cs /\ n = name c /\
    if past then head cs = Some c /\ endTop l = false else last cs = Some c /\ endBottom l = false.
Definition names_ok (l : logs) : Prop := forall cs, chunks l = Some cs -> Forall (fun c => units (name c) = true) cs.

Lemma request_parse n past : units n = true -> JSON_parse (request_text (n, past)) = Some (request_json n past).
Proof.
  intros Hn. assert (json_ok (request (n, past)) = true) as Hok.
  { unfold request. cbn [json_ok forallb fst snd]. rewrite Hn. reflexivity. }
  pose proof (stringify_agree _ Hok) as Ha. unfold request_text.
  destruct (JSON_stringify (request (n, past))) as [t|] eqn:Et; [|done]. by apply agree_parse.
Qed.

(** What [deliver] sends for a page that [asks]. *)
Inductive sends (d d' : dashboard) (allowed : option bool) : Prop :=
| sends_nothing : sent d' = sent d -> sends d d' allowed
| sends_request srv text n past :
    sent d' = sent d ++ [(srv, text)] -> server d' = Some srv -> active d' = str "logs" -> allowed = Some false ->
    wanted (logs_at d') n past -> (units n = true -> JSON_parse text = Some (request_json n past)) ->
    sends d d' allowed.

Lemma deliver_sends p d s : active d = str "logs" -> asks (logs_at d) p -> deliver (Some p) d = Some s ->
  sends d (a_dash s) (a_logs s) /\ active (a_dash s) = str "logs" /\ content (a_dash s) = content d.
Proof.
  intros Ha Hp. unfold deliver, send_requests, handle_all.
  destruct Hp as [p Hp|c cs h k Hc Ht|cs c h k Hc Hl Hb]; cbn [p_sent p_requestAllowed].
  - rewrite Hp. cbn. intros [= <-]. split; [by apply sends_nothing|done].
  - cbn [fmap list_fmap foldl mbind option_bind handle]. intros [= <-]. cbn [a_dash a_logs].
    destruct (server d) as [srv|] eqn:Es; [|by split; [apply sends_nothing|]].
    split; [|done]. eapply (sends_request _ _ _ srv _ (name c) true); try done; [|apply request_parse]. exists (c :: cs), c. done.
  - cbn [fmap list_fmap foldl mbind option_bind handle]. intros [= <-]. cbn [a_dash a_logs].
    destruct (server d) as [srv|] eqn:Es; [|by split; [apply sends_nothing|]].
    split; [|done]. eapply (sends_request _ _ _ srv _ (name c) false); try done; [|apply request_parse]. exists cs, c. done.
Qed.
Lemma input_sent i e d d' : input_event i = Some e -> handle new_Date escapeHtml e d = Some d' -> sent d' = sent d.
Proof.
  intros Hi H. destruct e as [s|m| |t|x|]; cbn [handle] in H; [by injection H as <-| |by injection H as <-| |by injection H as <-|by injection H as <-].
  - destruct (truthy m); [|by injection H as <-]. unfold update in H. destruct (deepUpdate _ _ _); [|done]. cbn [mbind option_bind] in H.
    destruct (shouldUpdate _ _); [|done]. by injection H as <-.
  - destruct i as [| | |[]]; done.
Qed.

(** The log page is mounted just while its entry of the menu is active. *)
Definition mounted_ok (s : app) : Prop := is_Some (a_logs s) -> active (a_dash s) = str "logs".

Lemma app_step_sends i b a s s' : mounted_ok s -> app_step i b a s = Some s' ->
  mounted_ok s' /\ sends (a_dash s) (a_dash s') (a_logs s').
Proof.
  intros Hm. unfold app_step. destruct (input_event i) as [e|] eqn:Ei.
  - destruct (handle _ _ e (a_dash s)) as [d|] eqn:Eh; [|done]. cbn [mbind option_bind].
    pose proof (input_sent i e _ _ Ei Eh) as Hs. destruct (sets_state e) eqn:Es.
    + destruct (main_update b a (a_logs s) d) as [[p|]|] eqn:Ep; [| |done]; cbn [mbind option_bind].
      * destruct (main_update_asks _ _ _ _ _ Ep) as [Ha Hp]. intros Hd. destruct (deliver_sends p d s' Ha Hp Hd) as (Hx & Ha' & _).
        split; [intros _; exact Ha'|]. destruct Hx as [Hx|srv text n past Hx]; [apply sends_nothing; congruence|].
        eapply sends_request; try done. congruence.
      * intros [= <-]. split; [by intros [? ?]|by apply sends_nothing].
    + intros [= <-]. split; [|by apply sends_nothing]. intros Hl. specialize (Hm Hl).
      destruct e; try done; cbn [handle sets_state] in *; [rewrite Es in Eh; by injection Eh as <-|].
      destruct i as [| | |[]]; done.
  - destruct (a_logs s) as [al|] eqn:El; [|intros [= <-]; split; [by intros [? E]; rewrite El in E|by apply sends_nothing]].
    specialize (Hm ltac:(by rewrite El)). destruct (onScroll _ _) as [p|] eqn:Ep; [|done]. cbn [mbind option_bind]. intros Hd.
    destruct (deliver_sends p (a_dash s) s' Hm (scroll_asks _ _ _ _ Ep) Hd) as (Hx & Ha & _). split; [intros _; exact Ha|done].
Qed.

(** * Runs *)

Definition ok_input (i : input) (d : dashboard) : Prop :=
  match input_event i with Some e => ok_message e d | None => True end.

Lemma main_update_some b a m d : drawable (content d) -> is_Some (main_update b a m d).
Proof.
  intros (_ & _ & _ & [cs Hc]). fold (logs_at d) in Hc. unfold main_update. case_bool_decide; [|eauto].
  assert (forall b sn f p, is_Some (p_container p) -> is_Some (didUpdate b sn f (logs_at d) p)) as Hu.
  { intros b0 sn f p [c Ec]. unfold didUpdate. destruct b0, (p_content p), sn; try (by eexists). rewrite Ec, Hc. cbn [mbind option_bind].
    destruct cs; [eauto|]. destruct (_ <? _); eauto. }
  destruct m as [al|]; cbn [mbind option_bind fmap option_fmap option_map].
  - apply fmap_is_Some, Hu. by eexists.
  - assert (exists p, componentDidMount (logs_at d) (page_at true a) = Some p /\ is_Some (p_container p)) as (p & -> & Hp).
    { unfold componentDidMount, page_at. cbn [p_container p_content set_scrollTop]. rewrite Hc. cbn [mbind option_bind].
      destruct cs as [|c cs]; [eauto|]. eexists. split; [reflexivity|]. destruct (_ && _); by eexists. }
    cbn [mbind option_bind]. by apply fmap_is_Some, Hu.
Qed.
Lemma deliver_some p d : drawable (content d) -> exists s, deliver p d = Some s /\ content (a_dash s) = content d.
Proof.
  intros Hd. destruct p as [p|]; [|by eexists]. unfold deliver, send_requests, handle_all.
  assert (forall l d, exists d', foldl (fun d e => d ≫= handle new_Date escapeHtml e) (Some d) ((fun r => Send (request_text r)) <$> l) = Some d' /\ content d' = content d) as Hl.
  { induction l as [|r l IH]; intros d0; [by eexists|]. cbn [fmap list_fmap foldl mbind option_bind handle].
    destruct (IH (match server d0 with Some s => Dashboard (active d0) (sideBar d0) (content d0) (should d0) (server d0) (fieldPadding d0) (sent d0 ++ [(s, request_text r)]) (timers d0) | None => d0 end)) as (d' & E & Hc).
    exists d'. split; [exact E|]. rewrite Hc. by destruct (server d0). }
  destruct (Hl (p_sent p) d) as (d' & -> & Hc). by eexists.
Qed.
Lemma app_step_some i b a s : ok_input i (a_dash s) -> drawable (content (a_dash s)) ->
  exists s', app_step i b a s = Some s' /\ drawable (content (a_dash s')).
Proof.
  intros Hi Hd. unfold app_step, ok_input in *. destruct (input_event i) as [e|].
  - destruct (ok_handles new_Date escapeHtml e _ Hi Hd) as [d Hh]. pose proof (handle_drawable _ _ _ _ _ Hi Hd Hh) as Hd'.
    rewrite Hh. cbn [mbind option_bind]. destruct (sets_state e); [|by eexists].
    destruct (main_update_some b a (a_logs s) d Hd') as [p ->]. cbn [mbind option_bind].
    destruct (deliver_some p d Hd') as (s' & -> & Hc). exists s'. by rewrite Hc.
  - destruct (a_logs s) as [al|]; [|by eexists]. pose proof Hd as (_ & _ & _ & [cs Hc]). fold (logs_at (a_dash s)) in Hc.
    assert (exists p, onScroll (logs_at (a_dash s)) (page_at al a) = Some p) as [p ->].
    { unfold onScroll, page_at. cbn [p_requestAllowed p_content p_container]. destruct (negb al); [eauto|]. rewrite Hc. cbn [mbind option_bind].
      destruct cs as [|c cs]; [eauto|]. destruct (last (c :: cs)); eauto. }
    cbn [mbind option_bind]. destruct (deliver_some (Some p) _ Hd) as (s' & -> & Hc'). exists s'. by rewrite Hc'.
Qed.

(** A run: each input with the layout before and after. *)
Definition app_run (ts : list (input * geometry * geometry)) (s : app) : option app :=
  foldl (fun s '(i, b, a) => s ≫= app_step i b a) (Some s) ts.
Fixpoint app_ok (ts : list (input * geometry * geometry)) (s : app) : Prop :=
  match ts with
  | [] => True
  | (i, b, a) :: ts => ok_input i (a_dash s) /\ forall s', app_step i b a s = Some s' -> app_ok ts s'
  end.

End App.

Definition ex_geometry (y : Z) : geometry := Geometry (Container y 1000 300) 1000 (Some 200).
Definition ex_inputs : list (input * geometry * geometry) :=
  [(Opened 0, ex_geometry 0, ex_geometry 0); (Received ex_message, ex_geometry 0, ex_geometry 0);
   (Handler (ClickOn (str "logs")), ex_geometry 0, ex_geometry 0)].

(** A page that is open, connected and allowed to ask, scrolled to its top while older
    files are known to exist, asks for the file before its first chunk, once: further
    scrolling sends nothing. *)
Theorem scroll_asks_once new_Date escapeHtml s srv c cs b a :
  a_logs s = Some true -> server (a_dash s) = Some srv -> chunks (logs_at (a_dash s)) = Some (c :: cs) ->
  endTop (logs_at (a_dash s)) = false -> atTop (g_container a) = true ->
  exists s', app_step new_Date escapeHtml (Handler OnScrollH) b a s = Some s' /\
    sent (a_dash s') = sent (a_dash s) ++ [(srv, request_text (name c, true))] /\
    forall b' a', app_step new_Date escapeHtml (Handler OnScrollH) b' a' s' = Some s'.
Proof.
  intros Hl Hs Hc Ht Ha. unfold app_step. cbn [input_event event_of]. rewrite Hl. unfold onScroll at 1. cbn [page_at p_requestAllowed negb p_content p_container].
  rewrite Hc. cbn [mbind option_bind]. destruct (last (c :: cs)) as [x|] eqn:El; [|by apply last_None in El].
  cbn [mbind option_bind]. rewrite Ha, Ht. cbn [andb negb deliver send_requests sendRequest p_sent p_requestAllowed page_at List.app fmap list_fmap handle_all foldl mbind option_bind handle].
  rewrite Hs. eexists. split; [reflexivity|]. split; [reflexivity|]. intros b' a'. reflexivity.
Qed.
