(* ===== verification/Ipc.v ===== *)
(** The IPC provider (web3.js 4669-4844): answers come in pieces over a socket, are
    put together and cut into messages, and go to the callback that waits for them.

    The socket, the timer and the callbacks belong to the environment: an operation
    returns the new provider and its effects, in order.  Callbacks are known by
    number and run after the operation. *)
From S2P Require Import Prelude BigNumber Utils Rpc Json.

(** * The de-chunker *)

Fixpoint strip_prefix (p s : jsstr) : option jsstr :=
  match p, s with
  | [], _ => Some s
  | c :: p, d :: s => if c =? d then strip_prefix p s else None
  | _ :: _, [] => None
  end.
(** [\n\r]? *)
Definition skip_line (s : jsstr) : jsstr :=
  match s with
  | c :: r => if (c =? 10) || (c =? 13) then r else s
  | [] => []
  end.
(** What follows a closing bracket, an optional line break and an opening bracket. *)
Definition match_break (close open s : jsstr) : option jsstr :=
  r ← strip_prefix close s; strip_prefix open (skip_line r).

Definition mark : jsstr := str "|--|".
(** [s.replace(/close[\n\r]?open/g, 'close|--|open')]; each step reads a character. *)
Fixpoint replace_fuel (n : nat) (close open s : jsstr) : jsstr :=
  match n with
  | O => s
  | S n =>
      match match_break close open s, s with
      | Some r, _ => close ++ mark ++ open ++ replace_fuel n close open r
      | None, c :: r => c :: replace_fuel n close open r
      | None, [] => []
      end
  end.
Definition replace_breaks (close open s : jsstr) : jsstr := replace_fuel (length s) close open s.

(** [s.split('|--|')] *)
Definition cons_head (c : Z) (l : list jsstr) : list jsstr :=
  match l with
  | x :: l => (c :: x) :: l
  | [] => [[c]]
  end.
Fixpoint split_fuel (n : nat) (s : jsstr) : list jsstr :=
  match n with
  | O => [s]
  | S n =>
      match strip_prefix mark s, s with
      | Some r, _ => [] :: split_fuel n r
      | None, c :: r => cons_head c (split_fuel n r)
      | None, [] => [[]]
      end
  end.
Definition split_mark (s : jsstr) : list jsstr := split_fuel (length s) s.

Definition breaks : list (jsstr * jsstr) :=
  [(str "}", str "{"); (str "}]", str "[{"); (str "}", str "[{"); (str "}]", str "{")].
Definition dechunk (data : jsstr) : list jsstr :=
  split_mark (fold_left (fun s '(close, open) => replace_breaks close open s) breaks data).

(** * The provider *)

(** [lastChunkTimeout]: the data of the timer that is set. *)
Record ipc := Ipc {
  responseCallbacks : list (jsstr * callback);
  lastChunk : option jsstr;
  lastChunkTimeout : option jsstr;
  writable : bool
}.
Definition new_ipc (writable : bool) : ipc := Ipc [] None None writable.

Inductive ipc_effect :=
  | Connect
  | Write (text : jsstr)
  | Reply (cb : callback) (result : json)
  | Cancel (cb : callback) (error : jsstr)
  | LogError (text : jsstr)
  | Fault (text : option jsstr).               (* an exception; [None] is a TypeError *)

Definition with_callbacks (cbs : list (jsstr * callback)) (s : ipc) : ipc :=
  Ipc cbs (lastChunk s) (lastChunkTimeout s) (writable s).
Definition with_chunk (chunk timer : option jsstr) (s : ipc) : ipc :=
  Ipc (responseCallbacks s) chunk timer (writable s).

Definition json_truthy (v : json) : bool :=
  match v with
  | JNull | JBool false | JStr [] => false
  | JNum (Big m _) => negb (m =? 0)
  | _ => true
  end.

(** One part of the data: read together with what was left over, or left over. *)
Definition read_part (s : ipc) (data : jsstr) : ipc * list json :=
  let data := default [] (lastChunk s) ++ data in
  match JSON_parse data with
  | None => (with_chunk (Some data) (Some data) s, [])
  | Some result => (with_chunk None None s, if json_truthy result then [result] else [])
  end.
Fixpoint read_parts (s : ipc) (parts : list jsstr) : ipc * list json :=
  match parts with
  | [] => (s, [])
  | data :: parts =>
      let '(s, vs) := read_part s data in
      let '(s, ws) := read_parts s parts in
      (s, vs ++ ws)
  end.
Definition _parseResponse (s : ipc) (data : jsstr) : ipc * list json := read_parts s (dechunk data).

(** [v.id]: null has no fields, and only objects have this one. *)
Definition get_id (v : json) : option (option json) :=
  match v with
  | JNull => None
  | JObj fs => Some (assoc (str "id") fs)
  | _ => Some None
  end.
(** A value as the key of an object. *)
Fixpoint json_key (v : json) : jsstr :=
  match v with
  | JNull => str "null"
  | JBool b => if b then str "true" else str "false"
  | JNum x => big_to_string x
  | JStr s => s
  | JArr l => join (str ",") (map (fun v => match v with JNull => [] | _ => json_key v end) l)
  | JObj _ => str "[object Object]"
  end.
Definition id_key (id : option json) : jsstr := match id with Some v => json_key v | None => str "undefined" end.

(** Every object has these members; calling the last three as callbacks throws. *)
Definition builtins : list jsstr :=
  [str "constructor"; str "hasOwnProperty"; str "isPrototypeOf"; str "propertyIsEnumerable";
   str "toLocaleString"; str "toString"; str "valueOf"; str "__lookupGetter__"; str "__lookupSetter__"].
Definition bad_builtins : list jsstr := [str "__proto__"; str "__defineGetter__"; str "__defineSetter__"].
Definition has_callback (s : ipc) (key : jsstr) : bool :=
  bool_decide (is_Some (assoc key (responseCallbacks s))) || bool_decide (key ∈ builtins ++ bad_builtins).

(** The identifier of an answer: of a batch, the last one that is waited for. *)
Fixpoint batch_id (s : ipc) (id : jsstr) (loads : list json) : option jsstr :=
  match loads with
  | [] => Some id
  | load :: loads =>
      i ← get_id load;
      batch_id s (if has_callback s (id_key i) then id_key i else id) loads
  end.
Definition answer_id (s : ipc) (result : json) : option jsstr :=
  match result with
  | JArr loads => batch_id s (str "null") loads
  | _ => id_key <$> get_id result
  end.

(** The callback is called and forgotten.  [true]: nothing was thrown. *)
Definition fire (s : ipc) (result : json) : ipc * list ipc_effect * bool :=
  match answer_id s result with
  | None => (s, [Fault None], false)
  | Some id =>
      match assoc id (responseCallbacks s) with
      | Some cb => (with_callbacks (delete_key id (responseCallbacks s)) s, [Reply cb result], true)
      | None => if bool_decide (id ∈ bad_builtins) then (s, [Fault None], false) else (s, [], true)
      end
  end.
Fixpoint fire_all (s : ipc) (results : list json) : ipc * list ipc_effect * bool :=
  match results with
  | [] => (s, [], true)
  | result :: results =>
      let '(s, fx, ok) := fire s result in
      if ok : bool then let '(s, fx', ok) := fire_all s results in (s, fx ++ fx', ok) else (s, fx, false)
  end.
Definition on_data (s : ipc) (data : jsstr) : ipc * list ipc_effect :=
  let '(s, results) := _parseResponse s data in
  let '(s, fx, _) := fire_all s results in
  (s, fx).

(** [for (key in ...)]: array indices in their order come first. *)
Definition key_index (key : jsstr) : option Z :=
  match of_base 10 key with
  | Some z => if bool_decide (to_base 10 z = key) && (z <? 2 ^ 32 - 1) then Some z else None
  | None => None
  end.
Fixpoint insert_index (z : Z) (cb : callback) (l : list (Z * callback)) : list (Z * callback) :=
  match l with
  | [] => [(z, cb)]
  | (y, d) :: r => if z <=? y then (z, cb) :: l else (y, d) :: insert_index z cb r
  end.
Definition for_in (l : list (jsstr * callback)) : list callback :=
  (snd <$> foldr (fun '(k, cb) acc => match key_index k with Some z => insert_index z cb acc | None => acc end) [] l) ++
  (snd <$> filter (fun x => key_index x.1 = None) l).

Definition InvalidConnection (host : jsstr) : jsstr :=
  str "CONNECTION ERROR: Couldn't connect to node " ++ host ++ str ".".
Definition _timeout (s : ipc) : ipc * list ipc_effect :=
  (with_callbacks [] s, (fun cb => Cancel cb (InvalidConnection (str "on IPC"))) <$> for_in (responseCallbacks s)).

(** * Requests *)

Inductive request_payload := Single (p : payload) | Batch (ps : list payload).
Definition payload_value (p : payload) : value :=
  VObj [(str "jsonrpc", VStr (str "2.0")); (str "id", VNum (pl_id p)); (str "method", VStr (pl_method p));
        (str "params", VArr (pl_params p))].
Definition request_value (r : request_payload) : value :=
  match r with
  | Single p => payload_value p
  | Batch ps => VArr (payload_value <$> ps)
  end.
Definition request_text (r : request_payload) : jsstr := default (str "undefined") (JSON_stringify (request_value r)).

(** [payload.id || payload[0].id]: a single message with the identifier 0, and an
    empty batch, throw. *)
Definition request_key (r : request_payload) : option jsstr :=
  match r with
  | Single p => if pl_id p =? 0 then None else Some (number_to_string (pl_id p))
  | Batch ps => number_to_string ∘ pl_id <$> head ps
  end.
Definition _addResponseCallback (s : ipc) (r : request_payload) (cb : callback) : ipc * list ipc_effect :=
  match request_key r with
  | Some key => (with_callbacks (set_key key cb (responseCallbacks s)) s, [])
  | None => (s, [Fault None])
  end.
Definition reconnect (s : ipc) : list ipc_effect := if writable s then [] else [Connect].
Definition sendAsync (s : ipc) (r : request_payload) (cb : callback) : ipc * list ipc_effect :=
  let '(s', fx) := _addResponseCallback s r cb in
  (s', reconnect s ++ [Write (request_text r)] ++ fx).

(** A socket that can write and wait; what comes back is a message or an error. *)
Definition send_sync (writeSync : option (jsstr -> jsstr)) (s : ipc) (r : request_payload) :
    list ipc_effect * (json + jsstr) :=
  match writeSync with
  | Some write =>
      let data := write (request_text r) in
      (reconnect s,
       match JSON_parse data with Some v => inl v | None => inr (InvalidResponse (VStr data)) end)
  | None =>
      ([], inr (str "You tried to send " ++ [34] ++
                match r with Single p => pl_method p | Batch _ => str "undefined" end ++ [34] ++
                str " synchronously. Synchronous requests are not supported by the IPC provider."))
  end.
(** [after]: whether the socket can be written to after connecting. *)
Definition isConnected (s : ipc) (after : bool) : list ipc_effect * bool :=
  (reconnect s, if writable s then true else after).

(** * Events *)

Inductive ipc_event :=
  | Data (data : jsstr)
  | End
  | ConnectionError (e : jsstr)
  | ChunkTimer
  | SendAsync (r : request_payload) (cb : callback)
  | Writable (b : bool).                        (* the socket opens or closes *)
Definition handle (s : ipc) (ev : ipc_event) : ipc * list ipc_effect :=
  match ev with
  | Data data => on_data s data
  | End => _timeout s
  | ConnectionError e => let '(s, fx) := _timeout s in (s, LogError e :: fx)
  | ChunkTimer =>
      match lastChunkTimeout s with
      | Some data =>
          let '(s, fx) := _timeout (with_chunk (lastChunk s) None s) in
          (s, fx ++ [Fault (Some (InvalidResponse (VStr data)))])
      | None => (s, [])
      end
  | SendAsync r cb => sendAsync s r cb
  | Writable b => (Ipc (responseCallbacks s) (lastChunk s) (lastChunkTimeout s) b, [])
  end.
Fixpoint ipc_run (s : ipc) (evs : list ipc_event) : ipc * list ipc_effect :=
  match evs with
  | [] => (s, [])
  | ev :: evs =>
      let '(s, fx) := handle s ev in
      let '(s, fx') := ipc_run s evs in
      (s, fx ++ fx')
  end.

(** * Cutting texts

    The replacements and the split together cut a text at the breaks. *)

Lemma strip_prefix_spec p s r : strip_prefix p s = Some r <-> s = p ++ r.
Proof.
  revert s. induction p as [|c p IH]; intros s; [cbn; naive_solver|].
  destruct s as [|d s]; [done|]. cbn. destruct (Z.eqb_spec c d) as [->|Hn]; [rewrite IH; naive_solver|naive_solver].
Qed.
Lemma strip_prefix_app p r : strip_prefix p (p ++ r) = Some r.
Proof. by apply strip_prefix_spec. Qed.

Definition is_line (c : Z) : bool := (c =? 10) || (c =? 13).
(** An optional line break. *)
Definition is_sep (s : jsstr) : Prop := s = [] \/ exists c, is_line c = true /\ s = [c].
Lemma match_break_spec close open s r :
  match_break close open s = Some r -> exists sep, is_sep sep /\ s = close ++ sep ++ open ++ r.
Proof.
  unfold match_break. destruct (strip_prefix close s) as [t|] eqn:E; [|done]. apply strip_prefix_spec in E as ->.
  cbn [mbind option_bind]. intros H%strip_prefix_spec. destruct t as [|c t]; cbn [skip_line] in H; [exists []; split; [by left|by rewrite <-H]|].
  destruct ((c =? 10) || (c =? 13)) eqn:Ec; [exists [c]; split; [right; by exists c|by rewrite <-H]|].
  exists []. split; [by left|by rewrite <-H].
Qed.

(** Brackets: no line break, and no character of the mark. *)
Definition bracket (c : Z) : bool := (c =? 123) || (c =? 125) || (c =? 91) || (c =? 93).
Definition brackets (s : jsstr) : Prop := forallb bracket s = true /\ s <> [].
Lemma breaks_brackets close open : (close, open) ∈ breaks -> brackets close /\ brackets open.
Proof. unfold breaks. rewrite !elem_of_cons, elem_of_nil. intros H. destruct_or!; simplify_eq; done. Qed.

(** The split. *)
Lemma split_fuel_enough n m s : (length s <= n)%nat -> (length s <= m)%nat -> split_fuel n s = split_fuel m s.
Proof.
  revert m s. induction n as [|n IH]; intros m s Hn Hm; [destruct s; [by destruct m|cbn in *; lia]|].
  destruct m as [|m]; [destruct s; [done|cbn in *; lia]|].
  cbn [split_fuel]. destruct (strip_prefix mark s) as [r|] eqn:E.
  - apply strip_prefix_spec in E as ->. rewrite length_app in *. change (length mark) with 4%nat in *.
    by rewrite (IH m r) by lia.
  - destruct s as [|c s]; [done|]. cbn in *. by rewrite (IH m s) by lia.
Qed.
Lemma split_marked r : split_mark (124 :: 45 :: 45 :: 124 :: r) = [] :: split_mark r.
Proof.
  unfold split_mark. cbn [length]. rewrite <-(split_fuel_enough (S (S (S (length r)))) (length r) r) by lia. done.
Qed.
Lemma split_plain c s : strip_prefix mark (c :: s) = None -> split_mark (c :: s) = cons_head c (split_mark s).
Proof. intros H. unfold split_mark. cbn [length split_fuel]. by rewrite H. Qed.
Lemma split_head s : exists h t q, split_mark s = h :: t /\ s = h ++ q.
Proof.
  induction s as [s IH] using (induction_ltof1 _ (@length Z)). unfold ltof in IH.
  destruct (strip_prefix mark s) as [r|] eqn:E.
  - apply strip_prefix_spec in E as ->. exists [], (split_mark r), (mark ++ r). split; [apply split_marked|done].
  - destruct s as [|c s]; [by exists [], [], []|]. rewrite split_plain by done.
    destruct (IH s) as (h & t & q & -> & ->); [cbn; lia|]. by exists (c :: h), t, q.
Qed.
Lemma split_unmarked p s :
  forallb (fun c => negb (c =? 124)) p = true -> split_mark (p ++ s) = foldr cons_head (split_mark s) p.
Proof.
  induction p as [|c p IH]; [done|]. cbn [forallb app foldr]. intros [Hc Hp]%andb_prop. rewrite split_plain; [by rewrite IH|].
  destruct (strip_prefix mark (c :: p ++ s)) as [r|] eqn:E; [|done]. apply strip_prefix_spec in E.
  change mark with [124; 45; 45; 124] in E. injection E as -> _. done.
Qed.
Lemma split_bracketed p s : brackets p -> split_mark (p ++ s) = foldr cons_head (split_mark s) p.
Proof.
  intros [Hp _]. apply split_unmarked. rewrite forallb_forall in *. intros c Hc. specialize (Hp c Hc).
  unfold bracket in Hp. lia.
Qed.

Section Cut.
Context (close open : jsstr) (Hclose : brackets close) (Hopen : brackets open).

Lemma skip_line_open r : skip_line (open ++ r) = open ++ r.
Proof.
  destruct Hopen as [Ho Hne]. destruct open as [|c o]; [done|]. cbn [forallb] in Ho.
  apply andb_prop in Ho as [Hc _]. cbn. unfold bracket in Hc. by replace ((c =? 10) || (c =? 13)) with false by lia.
Qed.
Lemma match_break_sep sep r : is_sep sep -> match_break close open (close ++ sep ++ open ++ r) = Some r.
Proof.
  intros Hs. unfold match_break. rewrite strip_prefix_app. cbn [mbind option_bind].
  destruct Hs as [->|(c & Hc & ->)]; cbn [app]; [rewrite skip_line_open|cbn [skip_line]; unfold is_line in Hc; rewrite Hc];
    apply strip_prefix_app.
Qed.
Lemma match_break_app s r t : match_break close open s = Some r -> match_break close open (s ++ t) = Some (r ++ t).
Proof.
  intros (sep & Hs & ->)%match_break_spec. rewrite <-!app_assoc. by apply match_break_sep.
Qed.
Lemma match_break_nil : match_break close open [] = None.
Proof.
  destruct (match_break close open []) as [r|] eqn:E; [|done]. apply match_break_spec in E as (sep & _ & E).
  symmetry in E. apply app_nil in E as [E _]. by destruct Hclose.
Qed.
Lemma match_break_shorter s r : match_break close open s = Some r -> (length r < length s)%nat.
Proof.
  intros (sep & _ & ->)%match_break_spec. rewrite !length_app.
  destruct Hclose as [_ H]. assert (length close <> O) by by intros ?%nil_length_inv. lia.
Qed.

(** The pieces of a text, cut in the middle of every break. *)
Definition prepend (p : jsstr) (l : list jsstr) : list jsstr := foldr cons_head l p.
Fixpoint cut_fuel (n : nat) (s : jsstr) : list jsstr :=
  match n with
  | O => [s]
  | S n =>
      match match_break close open s, s with
      | Some r, _ => close :: prepend open (cut_fuel n r)
      | None, c :: r => cons_head c (cut_fuel n r)
      | None, [] => [[]]
      end
  end.
Definition cut (s : jsstr) : list jsstr := cut_fuel (length s) s.

Lemma cut_fuel_enough n m s : (length s <= n)%nat -> (length s <= m)%nat -> cut_fuel n s = cut_fuel m s.
Proof.
  revert m s. induction n as [|n IH]; intros m s Hn Hm.
  { destruct s; [|cbn in *; lia]. destruct m; [done|]. cbn. by rewrite match_break_nil. }
  destruct m as [|m]; [destruct s; [|cbn in *; lia]; cbn; by rewrite match_break_nil|].
  cbn [cut_fuel]. destruct (match_break close open s) as [r|] eqn:E.
  - apply match_break_shorter in E. rewrite (IH m r) by lia. done.
  - destruct s as [|c s]; [done|]. cbn in *. rewrite (IH m s) by lia. done.
Qed.
Lemma cut_eq s :
  cut s = match match_break close open s, s with
          | Some r, _ => close :: prepend open (cut r)
          | None, c :: r => cons_head c (cut r)
          | None, [] => [[]]
          end.
Proof.
  unfold cut at 1. rewrite (cut_fuel_enough _ (S (length s))) by lia. cbn [cut_fuel].
  destruct (match_break close open s) as [r|] eqn:E.
  - apply match_break_shorter in E. unfold cut. by rewrite (cut_fuel_enough (length s) (length r)) by lia.
  - destruct s as [|c s]; [done|]. unfold cut. cbn [length]. by rewrite (cut_fuel_enough (S (length s)) (length s)) by lia.
Qed.

Lemma cons_head_nonempty c l : exists x t, cons_head c l = x :: t.
Proof. destruct l; eauto. Qed.
Lemma cut_nonempty s : exists x l, cut s = x :: l.
Proof.
  rewrite cut_eq. destruct (match_break close open s); [eauto|]. destruct s; [eauto|apply cons_head_nonempty].
Qed.

Lemma replace_fuel_enough n m s : (length s <= n)%nat -> (length s <= m)%nat -> replace_fuel n close open s = replace_fuel m close open s.
Proof.
  revert m s. induction n as [|n IH]; intros m s Hn Hm.
  { destruct s; [|cbn in *; lia]. destruct m; [done|]. cbn. by rewrite match_break_nil. }
  destruct m as [|m]; [destruct s; [|cbn in *; lia]; cbn; by rewrite match_break_nil|].
  cbn [replace_fuel]. destruct (match_break close open s) as [r|] eqn:E.
  - apply match_break_shorter in E. rewrite (IH m r) by lia. done.
  - destruct s as [|c s]; [done|]. cbn in *. rewrite (IH m s) by lia. done.
Qed.
Lemma replace_eq s :
  replace_breaks close open s =
  match match_break close open s, s with
  | Some r, _ => close ++ mark ++ open ++ replace_breaks close open r
  | None, c :: r => c :: replace_breaks close open r
  | None, [] => []
  end.
Proof.
  unfold replace_breaks at 1. rewrite (replace_fuel_enough _ (S (length s))) by lia. cbn [replace_fuel].
  destruct (match_break close open s) as [r|] eqn:E.
  - apply match_break_shorter in E. unfold replace_breaks. by rewrite (replace_fuel_enough (length s) (length r)) by lia.
  - destruct s as [|c s]; [done|]. unfold replace_breaks. cbn [length]. by rewrite (replace_fuel_enough (S (length s)) (length s)) by lia.
Qed.

Lemma match_break_plain c s : bracket c = false -> match_break close open (c :: s) = None.
Proof.
  intros Hc. destruct (match_break close open (c :: s)) as [r|] eqn:E; [|done].
  apply match_break_spec in E as (sep & _ & E). destruct Hclose as [Hb Hn]. destruct close as [|b t]; [done|].
  injection E as -> _. cbn [forallb] in Hb. rewrite Hc in Hb. done.
Qed.
Lemma replace_plain c s : bracket c = false -> replace_breaks close open (c :: s) = c :: replace_breaks close open s.
Proof. intros Hc. rewrite replace_eq by done. by rewrite match_break_plain. Qed.

(** What starts the replaced text and is not a bracket started the text. *)
Lemma replace_prefix p s t :
  forallb (fun c => negb (bracket c)) p = true -> replace_breaks close open s = p ++ t -> exists t', s = p ++ t'.
Proof.
  revert s t. induction p as [|c p IH]; intros s t Hp E; [by exists s|]. cbn [forallb] in Hp.
  apply andb_prop in Hp as [Hc Hp]. apply negb_true_iff in Hc. rewrite replace_eq in E by done.
  destruct (match_break close open s) as [r|].
  - destruct Hclose as [Hb Hn]. destruct close as [|b q]; [done|]. injection E as -> _. cbn [forallb] in Hb. by rewrite Hc in Hb.
  - destruct s as [|d s]; [done|]. injection E as -> E. destruct (IH s t Hp E) as [t' ->]. by exists t'.
Qed.

Lemma prepend_cons p x l : prepend p (x :: l) = (p ++ x) :: l.
Proof. induction p as [|c p IH]; [done|]. unfold prepend in *. cbn [foldr app]. by rewrite IH. Qed.

Lemma split_replace s : split_mark (replace_breaks close open s) = split_mark s ≫= cut.
Proof.
  induction s as [s IH] using (induction_ltof1 _ (@length Z)). unfold ltof in IH.
  destruct (strip_prefix mark s) as [r|] eqn:Em.
  { apply strip_prefix_spec in Em as ->. change mark with [124; 45; 45; 124] in *. cbn [app] in *.
    rewrite !replace_plain by done. rewrite !split_marked. cbn [mbind list_bind]. rewrite IH by (cbn; lia).
    rewrite cut_eq by done. by rewrite match_break_nil. }
  rewrite replace_eq by done. destruct (match_break close open s) as [r|] eqn:Eb.
  - pose proof (match_break_shorter _ _ Eb) as Hl. destruct (match_break_spec _ _ _ _ Eb) as (sep & Hs & ->).
    destruct (split_head r) as (h & t & q & Er & Eq). change mark with [124; 45; 45; 124]. cbn [app].
    rewrite (split_bracketed close), split_marked, (split_bracketed open), IH by done.
    assert (split_mark (close ++ sep ++ open ++ r) = (close ++ sep ++ open ++ h) :: t) as ->.
    { rewrite split_bracketed by done. rewrite split_unmarked by (destruct Hs as [->|(c & Hc & ->)]; unfold is_line in *; cbn; lia).
      rewrite split_bracketed by done. fold (prepend open (split_mark r)). rewrite Er, prepend_cons.
      fold (prepend sep ((open ++ h) :: t)). rewrite prepend_cons. apply prepend_cons. }
    rewrite Er. cbn [mbind list_bind]. rewrite (cut_eq (close ++ sep ++ open ++ h)) by done.
    rewrite match_break_sep by done. destruct (cut_nonempty h) as (x & l & ->). cbn [app].
    etrans; [exact (prepend_cons close [] _)|]. rewrite app_nil_r. f_equal.
    etrans; [exact (prepend_cons open x _)|]. by rewrite prepend_cons.
  - destruct s as [|c s]; [done|]. rewrite (split_plain c s Em). rewrite split_plain.
    + rewrite IH by (cbn; lia). destruct (split_head s) as (h & t & q & Er & ->). rewrite Er. cbn [cons_head mbind list_bind].
      rewrite (cut_eq (c :: h)) by done.
      destruct (match_break close open (c :: h)) as [r|] eqn:E.
      { apply (match_break_app _ _ q) in E. cbn [app] in E. congruence. }
      by destruct (cut_nonempty h) as (x & l & ->).
    + destruct (strip_prefix mark (c :: replace_breaks close open s)) as [r|] eqn:E; [|done].
      apply strip_prefix_spec in E. change mark with [124; 45; 45; 124] in *. cbn [app] in E. injection E as -> E.
      destruct (replace_prefix [45; 45; 124] s r eq_refl E) as [t' ->].
      change (strip_prefix mark (mark ++ t') = None) in Em. by rewrite strip_prefix_app in Em.
Qed.
End Cut.

(** * Pieces

    The pieces of a text with a line break or nothing between them; neighbours are
    related by [R]. *)
Inductive glued (R : jsstr -> jsstr -> Prop) : list jsstr -> jsstr -> Prop :=
  | glued_one x : glued R [x] x
  | glued_cons x y ps sep t :
      is_sep sep -> R x y -> glued R (y :: ps) t -> glued R (x :: y :: ps) (x ++ sep ++ t).

Lemma glued_app R ps qs s sep t :
  glued R ps s -> glued R qs t -> is_sep sep -> (forall x y, last ps = Some x -> head qs = Some y -> R x y) ->
  glued R (ps ++ qs) (s ++ sep ++ t).
Proof.
  intros Hp Hq Hs. induction Hp as [x|x y ps sep' s Hs' Hr Hp IH]; intros HR.
  - destruct qs as [|y qs]; [inversion Hq|]. cbn [app]. apply glued_cons; [done|by apply HR|done].
  - cbn [app] in *. rewrite <-!app_assoc. by apply glued_cons; [..|apply IH].
Qed.
Lemma glued_impl (R S : jsstr -> jsstr -> Prop) ps s : (forall x y, R x y -> S x y) -> glued R ps s -> glued S ps s.
Proof. intros H. induction 1; constructor; auto. Qed.
Lemma glued_substring R ps s p : glued R ps s -> p ∈ ps -> exists a b, s = a ++ p ++ b.
Proof.
  induction 1 as [x|x y ps sep t Hs Hr Hp IH]; intros Hin.
  - apply list_elem_of_singleton in Hin as ->. exists [], []. by rewrite app_nil_r.
  - apply elem_of_cons in Hin as [->|Hin]; [by exists [], (sep ++ t)|].
    destruct (IH Hin) as (a & b & ->). exists (x ++ sep ++ a), b. by rewrite <-!app_assoc.
Qed.

(** The neighbours at a break. *)
Definition edge (x y : jsstr) : Prop :=
  (last x = Some 125 \/ last x = Some 93) /\ (head y = Some 123 \/ head y = Some 91).
Lemma edge_nonempty x y : edge x y -> x <> [] /\ y <> [].
Proof. intros [Hx Hy]. split; intros ->; cbn in *; by destruct_or!. Qed.
Lemma glued_nonempty R y ps t : y <> [] -> glued R (y :: ps) t -> t <> [].
Proof. intros Hy. inversion 1; subst; [done|]. by intros [? _]%app_nil. Qed.
Lemma glued_ends ps s :
  glued edge ps s -> s <> [] -> exists x y, head ps = Some x /\ last ps = Some y /\ head x = head s /\ last y = last s.
Proof.
  induction 1 as [x|x y ps sep t Hs Hr Hp IH]; intros Hne; [by exists x, x|].
  destruct (edge_nonempty _ _ Hr) as [Hx Hy]. pose proof (glued_nonempty _ _ _ _ Hy Hp) as Ht.
  destruct (IH Ht) as (x' & y' & _ & Hl & _ & Hy'). exists x, y'. split_and!; [done|done| |].
  - by destruct x.
  - rewrite Hy', !last_app. destruct (last t) eqn:E; [done|]. by apply last_None in E.
Qed.
Lemma edge_prepend p x y : edge x y -> edge (p ++ x) y.
Proof. intros [Hx Hy]. split; [|done]. rewrite last_app. by destruct Hx as [-> | ->]; auto. Qed.
Lemma glued_prepend p x l s : glued edge (x :: l) s -> glued edge ((p ++ x) :: l) (p ++ s).
Proof.
  inversion 1 as [|? ? ? ? ? Hs Hr Hp]; subst; [constructor|]. rewrite app_assoc. by constructor; [|apply edge_prepend|].
Qed.

(** No break of the kind is inside the text. *)
Definition clean (close open s : jsstr) : Prop :=
  forall a sep b, is_sep sep -> s <> a ++ close ++ sep ++ open ++ b.

Section CutPieces.
Context (close open : jsstr) (Hclose : brackets close) (Hopen : brackets open) (Hedge : edge close open).
Context (Hhead : head close = Some 125) (Hno : 125 ∉ open).

Lemma cut_glued s : glued edge (cut close open s) s.
Proof.
  induction s as [s IH] using (induction_ltof1 _ (@length Z)). unfold ltof in IH. rewrite cut_eq by done.
  destruct (match_break close open s) as [r|] eqn:E.
  - pose proof (match_break_shorter _ _ Hclose _ _ E) as Hl. destruct (match_break_spec _ _ _ _ E) as (sep & Hs & ->).
    specialize (IH r Hl). destruct (cut_nonempty close open Hclose r) as (x & l & Ex). rewrite Ex in *. rewrite prepend_cons.
    apply glued_cons; [done| |by apply glued_prepend]. destruct Hedge as [He1 He2]. split; [done|].
    destruct Hopen as [_ Hn]. by destruct open.
  - destruct s as [|c s]; [constructor|]. specialize (IH s ltac:(cbn; lia)).
    destruct (cut_nonempty close open Hclose s) as (x & l & Ex). rewrite Ex in *. exact (glued_prepend [c] x l s IH).
Qed.

Lemma clean_prepend s : clean close open s -> clean close open (open ++ s).
Proof.
  intros Hc a sep b Hs E. apply app_eq_inv in E as [(k & Ea & Eb)|(k & Ea & Eb)].
  - destruct k as [|z k]; cbn [app] in Eb; [by apply (Hc [] sep b Hs)|].
    destruct close as [|z' cl]; [done|]. injection Eb as <- Eb. cbn in Hhead. injection Hhead as ->.
    apply Hno. rewrite Ea. apply elem_of_app. right. by left.
  - by apply (Hc k sep b Hs).
Qed.
Lemma cut_clean s : Forall (clean close open) (cut close open s).
Proof.
  induction s as [s IH] using (induction_ltof1 _ (@length Z)). unfold ltof in IH. rewrite cut_eq by done.
  destruct (match_break close open s) as [r|] eqn:E.
  - pose proof (match_break_shorter _ _ Hclose _ _ E) as Hl. specialize (IH r Hl).
    destruct (cut_nonempty close open Hclose r) as (x & l & Ex). rewrite Ex in *. rewrite prepend_cons.
    apply Forall_cons in IH as [Hx Hr]. constructor; [|constructor; [by apply clean_prepend|done]].
    intros a sep b _ E'. destruct Hopen as [_ Hn]. apply (f_equal length) in E'. rewrite !length_app in E'.
    assert (length open <> O) by by intros ?%nil_length_inv. lia.
  - destruct s as [|c s].
    { constructor; [|done]. intros a sep b _ E'. symmetry in E'. apply app_nil in E' as [_ [E' _]%app_nil]. by destruct Hclose. }
    specialize (IH s ltac:(cbn; lia)). pose proof (cut_glued s) as Hg.
    destruct (cut_nonempty close open Hclose s) as (x & l & Ex). rewrite Ex in *. cbn [cons_head].
    apply Forall_cons in IH as [Hx Hr]. constructor; [|done]. intros a sep b Hs E'.
    destruct a as [|z a]; [|injection E' as -> E'; by apply (Hx a sep b Hs)]. cbn [app] in E'.
    assert (exists q, s = x ++ q) as [q ->].
    { inversion Hg as [|? ? ? sep' t]; subst; [exists []; by rewrite app_nil_r|by exists (sep' ++ t)]. }
    assert (match_break close open (c :: x) = Some b) as Em by (rewrite E'; by apply match_break_sep).
    apply (match_break_app _ _ Hopen _ _ q) in Em. cbn [app] in Em. congruence.
Qed.

Lemma bind_cut_glued ps s : s <> [] -> glued edge ps s -> glued edge (ps ≫= cut close open) s.
Proof.
  intros Hne. induction 1 as [x|x y ps sep t Hs Hr Hp IH]; cbn [mbind list_bind] in *.
  - rewrite app_nil_r. apply cut_glued.
  - destruct (edge_nonempty _ _ Hr) as [Hx Hy]. pose proof (glued_nonempty _ _ _ _ Hy Hp) as Ht.
    specialize (IH Ht). apply glued_app; [apply cut_glued|exact IH|done|]. intros a b Ha Hb.
    destruct (glued_ends _ _ (cut_glued x) Hx) as (_ & a' & _ & Ha' & _ & Hla).
    destruct (glued_ends _ _ IH Ht) as (b' & _ & Hb' & _ & Hhb & _). simplify_eq.
    destruct (glued_ends _ _ Hp Ht) as (y' & _ & Hy' & _ & Hhy & _). simplify_eq/=.
    destruct Hr as [Hr1 Hr2]. split; [by rewrite Hla|by rewrite Hhb, <-Hhy].
Qed.
Lemma bind_cut_clean c o ps : Forall (clean c o) ps -> Forall (clean c o) (ps ≫= cut close open).
Proof.
  intros H. apply Forall_forall. intros p Hp. apply list_elem_of_bind in Hp as (x & Hp & Hx).
  rewrite Forall_forall in H. intros a sep b Hs E. destruct (glued_substring _ _ _ _ (cut_glued x) Hp) as (a' & b' & Ex).
  apply (H x Hx (a' ++ a) sep (b ++ b') Hs). rewrite Ex, E. by rewrite <-!app_assoc.
Qed.
Lemma bind_cut_cleaned ps : Forall (clean close open) (ps ≫= cut close open).
Proof.
  apply Forall_forall. intros p Hp. apply list_elem_of_bind in Hp as (x & Hp & _).
  pose proof (cut_clean x) as H. rewrite Forall_forall in H. by apply H.
Qed.
End CutPieces.

Lemma breaks_good close open :
  (close, open) ∈ breaks -> edge close open /\ head close = Some 125 /\ 125 ∉ open.
Proof.
  unfold breaks. rewrite !elem_of_cons, elem_of_nil. intros H.
  destruct_or!; simplify_eq; (split_and!; [split; vm_compute; auto|done|apply (bool_decide_eq_true_1 (_ ∉ _)); done]).
Qed.

(** The text has no mark of its own. *)
Definition unmarked (s : jsstr) : Prop := forall a b, s <> a ++ mark ++ b.
Lemma split_unmarked_one s : unmarked s -> split_mark s = [s].
Proof.
  induction s as [|c s IH]; [done|]. intros H. rewrite split_plain.
  - rewrite IH; [done|]. intros a b ->. by apply (H (c :: a) b).
  - destruct (strip_prefix mark (c :: s)) as [r|] eqn:E; [|done]. apply strip_prefix_spec in E. by destruct (H [] r).
Qed.

Lemma fold_breaks bs s :
  (forall close open, (close, open) ∈ bs -> (close, open) ∈ breaks) ->
  split_mark (fold_left (fun s '(close, open) => replace_breaks close open s) bs s) =
  fold_left (fun ps '(close, open) => ps ≫= cut close open) bs (split_mark s).
Proof.
  revert s. induction bs as [|[close open] bs IH]; intros s Hb; [done|]. cbn [fold_left].
  destruct (breaks_brackets close open) as [Hc Ho]; [apply Hb; by left|].
  rewrite IH, split_replace by (intros; auto; apply Hb; by right). done.
Qed.
Lemma fold_cut_clean bs ps c o :
  (forall close open, (close, open) ∈ bs -> (close, open) ∈ breaks) ->
  (Forall (clean c o) ps \/ (c, o) ∈ bs) -> Forall (clean c o) (fold_left (fun ps '(close, open) => ps ≫= cut close open) bs ps).
Proof.
  revert ps. induction bs as [|[close open] bs IH]; intros ps Hb H; cbn [fold_left].
  { destruct H as [H|H]; [done|by apply elem_of_nil in H]. }
  assert ((close, open) ∈ breaks) as Hin by (apply Hb; by left).
  destruct (breaks_brackets close open Hin) as [Hc Ho], (breaks_good close open Hin) as (He & Hh & Hn).
  apply IH; [intros; apply Hb; by right|]. destruct H as [H|H]; [left; by apply bind_cut_clean|].
  apply elem_of_cons in H as [[= -> ->]|H]; [left; by apply bind_cut_cleaned|by right].
Qed.
Lemma fold_cut_glued bs ps s :
  (forall close open, (close, open) ∈ bs -> (close, open) ∈ breaks) -> s <> [] ->
  glued edge ps s -> glued edge (fold_left (fun ps '(close, open) => ps ≫= cut close open) bs ps) s.
Proof.
  intros Hb Hs. revert ps. induction bs as [|[close open] bs IH]; intros ps H; [done|]. cbn [fold_left].
  assert ((close, open) ∈ breaks) as Hin by (apply Hb; by left).
  destruct (breaks_brackets close open Hin) as [Hc Ho], (breaks_good close open Hin) as (He & Hh & Hn).
  apply IH; [intros; apply Hb; by right|]. by apply bind_cut_glued.
Qed.

Lemma dechunk_pieces data :
  data <> [] -> unmarked data ->
  glued edge (dechunk data) data /\ Forall (fun p => forall c o, (c, o) ∈ breaks -> clean c o p) (dechunk data).
Proof.
  intros Hd Hu. unfold dechunk. rewrite fold_breaks, split_unmarked_one by done. split.
  - apply fold_cut_glued; [done|done|constructor].
  - apply Forall_forall. intros p Hp c o Hco. revert p Hp. apply Forall_forall. apply fold_cut_clean; [done|by right].
Qed.

(** * Messages on the wire *)

Definition is_object (m : jsstr) : Prop := exists k, m = 123 :: k ++ [125].
Definition is_batch (m : jsstr) : Prop := exists k, m = 91 :: 123 :: k ++ [125; 93].

(** A message on one line, an object or an array of objects, and what the node writes
    after it. *)
Record frame := Frame { f_text : jsstr; f_value : json; f_sep : jsstr }.
Definition good_frame (f : frame) : Prop :=
  message (f_text f) (f_value f) /\ (is_object (f_text f) \/ is_batch (f_text f)) /\
  Forall (fun c => is_line c = false) (f_text f) /\ is_sep (f_sep f).
Definition stream (fs : list frame) : jsstr := mjoin ((fun f => f_text f ++ f_sep f) <$> fs).

(** A cut that does not separate the two brackets an array of objects starts or ends with. *)
Definition safe (x y : jsstr) : Prop :=
  ~ (last x = Some 125 /\ head y = Some 93) /\ ~ (last x = Some 91 /\ head y = Some 123).

Lemma opens_value n s v r : opens s = true -> parse_value n s = Some (v, r) -> json_truthy v = true.
Proof.
  destruct s as [|c s]; [done|]. destruct n as [|n]; [done|]. cbn [opens parse_value skip_ws]. intros Hc.
  assert (is_ws c = false) as -> by (unfold is_ws; lia).
  destruct (c =? 123); [|destruct (c =? 91); [|done]].
  all: destruct (skip_ws s) as [|d s2]; [done|].
  - destruct (d =? 125); [by intros [= <- _]|]. destruct (parse_members n s) as [[]|]; [|done]. by intros [= <- _].
  - destruct (d =? 93); [by intros [= <- _]|]. destruct (parse_elements n s) as [[]|]; [|done]. by intros [= <- _].
Qed.
Lemma message_truthy m v : message m v -> json_truthy v = true.
Proof. intros [Ho Hm]. by eapply opens_value. Qed.

Lemma is_sep_ws u : is_sep u -> forallb is_ws u = true.
Proof. intros [->|(c & Hc & ->)]; [done|]. cbn. unfold is_line, is_ws in *. lia. Qed.
Lemma frame_head f : good_frame f -> exists c r, f_text f = c :: r /\ (c = 123 \/ c = 91).
Proof. intros (_ & [[k ->]|[k ->]] & _); eauto. Qed.
Lemma stream_head fs : Forall good_frame fs -> fs <> [] -> exists c r, stream fs = c :: r /\ (c = 123 \/ c = 91).
Proof.
  intros H Hn. destruct H as [|f fs' Hf _]; [done|].
  destruct (frame_head f Hf) as (c & r & E & Hc). exists c. eexists. split; [|done]. unfold stream. cbn. by rewrite E.
Qed.
(** Line breaks and a stream: the stream does not start with one. *)
Lemma sep_stream sep t fsep fs :
  is_sep sep -> is_sep fsep -> Forall good_frame fs -> sep ++ t = fsep ++ stream fs ->
  exists u, is_sep u /\ t = u ++ stream fs.
Proof.
  intros Hs Hf Hg E. destruct Hs as [->|(c & Hc & ->)]; cbn [app] in E; [by exists fsep|].
  destruct Hf as [->|(d & Hd & ->)]; cbn [app] in E; [|injection E as _ ->; exists []; split; [by left|done]].
  destruct fs as [|f fs]; [done|]. destruct (stream_head (f :: fs)) as (b & r & Er & Hb); [done|done|].
  rewrite Er in E. injection E as -> _. unfold is_line in Hc. lia.
Qed.
Lemma suffix_last {A} (p q a b : list A) :
  p ++ q = a ++ b -> (length b <= length q)%nat -> exists q', q = q' ++ b.
Proof.
  intros E Hl. apply app_eq_inv in E as [(k & -> & ->)|(k & -> & ->)]; [|by exists k].
  rewrite length_app in Hl. assert (length k = O) as ->%nil_length_inv by lia. by exists [].
Qed.

Section Stream.
Context (O : Prop).

(** What has been left over, what is still to come, and the answers in it. *)
Inductive pending : jsstr -> jsstr -> list json -> Prop :=
  | pending_done acc u : forallb is_ws acc = true -> is_sep u -> pending acc u []
  | pending_part w p q u f fs :
      forallb is_ws w = true -> f_text f = p ++ q -> q <> [] -> u = [] \/ p = [] -> is_sep u ->
      Forall good_frame (f :: fs) -> (O -> Forall (fun f => is_object (f_text f)) (f :: fs)) ->
      (is_batch (f_text f) -> (2 <= length q)%nat) ->
      pending (w ++ p) (u ++ q ++ f_sep f ++ stream fs) (f_value <$> f :: fs).

Lemma pending_stream acc u fs :
  forallb is_ws acc = true -> is_sep u -> Forall good_frame fs -> (O -> Forall (fun f => is_object (f_text f)) fs) ->
  pending acc (u ++ stream fs) (f_value <$> fs).
Proof.
  intros Hw Hu Hg HO. destruct fs as [|f fs].
  { unfold stream. cbn. rewrite app_nil_r. by apply pending_done. }
  pose proof (pending_part acc [] (f_text f) u f fs) as H. rewrite app_nil_r in H. unfold stream. cbn [fmap list_fmap mjoin list_join].
  rewrite <-app_assoc. apply H; try done; [|by right|].
  - apply Forall_cons in Hg as [Hg _]. destruct (frame_head f Hg) as (c & r & -> & _). done.
  - intros [k ->]. cbn. lia.
Qed.

(** The next piece, if there is one. *)
Definition next_piece (x sep t : jsstr) : Prop :=
  (sep = [] /\ t = []) \/ exists y t', y <> [] /\ t = y ++ t' /\ (O \/ safe x y).
Lemma next_head x sep t c r : next_piece x sep t -> t = c :: r -> O \/ (forall y, head y = Some c -> safe x y).
Proof.
  intros [[_ ->]|(y & t' & Hy & -> & [HO|Hs])] E; [done|by left|right]. destruct y as [|d y]; [done|]. injection E as -> _.
  intros y' Hy'. unfold safe in *. cbn in *. by rewrite Hy'.
Qed.

(** An object is not a batch. *)
Lemma object_not_batch m : is_object m -> is_batch m -> False.
Proof. intros [k ->] [k' [=]]. Qed.

(** A piece ends before the next message starts: otherwise there is a break in it. *)
Lemma no_crossing p q u f fs k sep t :
  f_text f = p ++ q -> q <> [] -> Forall good_frame (f :: fs) -> (O -> Forall (fun f => is_object (f_text f)) (f :: fs)) ->
  (is_batch (f_text f) -> (2 <= length q)%nat) ->
  (forall c o, (c, o) ∈ breaks -> clean c o (u ++ q ++ f_sep f ++ k)) ->
  next_piece (u ++ q ++ f_sep f ++ k) sep t -> is_sep sep -> k ++ sep ++ t = stream fs -> k = [].
Proof.
  intros Ht Hq Hg HO Hb Hclean Hnext Hsep E. destruct k as [|c k]; [done|exfalso].
  apply Forall_cons in Hg as [Hf Hg]. destruct Hg as [|f2 fs2 Hf2 _]; [done|].
  assert (exists close q', (close = str "}" \/ close = str "}]") /\ q = q' ++ close) as (close & q' & Hc & Eq).
  { destruct Hf as (_ & [[m Em]|[m Em]] & _).
    - destruct (suffix_last p q (123 :: m) [125]) as [q' ->]; [by rewrite <-Ht, Em|destruct q; [done|cbn; lia]|].
      exists (str "}"), q'. auto.
    - destruct (suffix_last p q (91 :: 123 :: m) [125; 93]) as [q' ->]; [by rewrite <-Ht, Em|apply Hb; by exists m|].
      exists (str "}]"), q'. auto. }
  assert (exists open k', (open = str "{" \/ open = str "[{") /\ c :: k = open ++ k') as (open & k' & Ho & Ek).
  { unfold stream in E. cbn [fmap list_fmap mjoin list_join] in E. destruct Hf2 as (_ & [[m Em]|[m Em]] & _); rewrite Em in E.
    - injection E as -> _. exists (str "{"), k. auto.
    - injection E as -> E. destruct k as [|d k]; [|injection E as -> _; exists (str "[{"), k; auto]. exfalso.
      cbn [app] in E. destruct Hsep as [->|(d & Hd & ->)]; [|injection E as -> _; done].
      destruct (next_head _ _ _ _ _ Hnext E) as [HO'|Hsafe].
      + specialize (HO HO'). apply Forall_cons in HO as [_ [HO _]%Forall_cons]. apply (object_not_batch _ HO). by exists m.
      + destruct (Hsafe [123] eq_refl) as [_ Hs]. apply Hs. split; [|done]. rewrite !last_app. done. }
  assert ((close, open) ∈ breaks) as Hin.
  { destruct Hc as [->| ->], Ho as [->| ->]; unfold breaks; rewrite !elem_of_cons; auto. }
  destruct Hf as (_ & _ & _ & Hfs).
  apply (Hclean _ _ Hin (u ++ q') (f_sep f) k' Hfs). rewrite Ek, Eq. by rewrite <-!app_assoc.
Qed.

(** A piece [z] of the message [p ++ q], after [p]. *)
Lemma piece_in_message w p q u f fs z sep t :
  forallb is_ws w = true -> f_text f = p ++ q -> q <> [] -> Forall good_frame (f :: fs) ->
  (O -> Forall (fun f => is_object (f_text f)) (f :: fs)) -> (is_batch (f_text f) -> (2 <= length q)%nat) ->
  z <> [] -> (forall c o, (c, o) ∈ breaks -> clean c o (u ++ z)) -> is_sep sep -> next_piece (u ++ z) sep t ->
  z ++ sep ++ t = q ++ f_sep f ++ stream fs ->
  (JSON_parse (w ++ p ++ z) = None /\ pending ((w ++ p) ++ z) t (f_value <$> f :: fs)) \/
  (JSON_parse (w ++ p ++ z) = Some (f_value f) /\ pending [] t (f_value <$> fs)).
Proof.
  intros Hw Ht Hq Hg HO Hb Hz Hclean Hsep Hnext E.
  pose proof Hg as [(Hm & Hsh & Hl & Hfs) Hg']%Forall_cons.
  assert (O -> Forall (fun f => is_object (f_text f)) fs) as HO' by (intros HO1; by apply HO, Forall_cons in HO1 as [_ ?]).
  assert (forall k sep' t', is_sep k -> z = q ++ k -> is_sep sep' -> sep' ++ t = t' ++ stream fs -> is_sep t' ->
    JSON_parse (w ++ p ++ z) = Some (f_value f) /\ pending [] t (f_value <$> fs)) as Hwhole.
  { intros k sep' t' Hk -> Hs' Es Ht'. split.
    - rewrite (app_assoc p q k), <-Ht. apply JSON_parse_message; [done|done|by apply is_sep_ws].
    - destruct (sep_stream _ _ _ _ Hs' Ht' Hg' Es) as (u' & Hu & ->). by apply pending_stream. }
  apply app_eq_inv in E as [(k & -> & E)|(q2 & -> & E)].
  - (* past the end of the message *)
    right. symmetry in E. apply app_eq_inv in E as [(k2 & -> & E)|(k2 & Ed & E)].
    + assert (k2 = []) as ->; [|].
      { apply (no_crossing p q u f fs k2 sep t); try done. }
      rewrite app_nil_r in *. apply (Hwhole (f_sep f) sep []); try done; by left.
    + destruct k as [|c k].
      { cbn [app] in *. subst k2. apply (Hwhole [] sep (f_sep f)); try done; by left. }
      destruct Hfs as [Hfs|(d & Hd & Hfs)]; rewrite Hfs in Ed; [done|]. injection Ed as <- Ed. symmetry in Ed. apply app_nil in Ed as [-> ->].
      cbn [app] in *. apply (Hwhole [d] sep []); try done; [right; by exists d|by left].
  - destruct (decide (q2 = [])) as [->|Hq2].
    { right. apply (Hwhole [] sep (f_sep f)); try done; [by left|by rewrite !app_nil_r]. }
    left. rewrite app_assoc in Ht. split.
    { apply (JSON_parse_prefix w (p ++ z) q2 (f_value f)); [done|by rewrite <-Ht|done]. }
    assert (sep = []) as ->.
    { destruct Hsep as [->|(c & Hc & ->)]; [done|]. destruct q2 as [|d q2]; [done|]. injection E as -> _.
      rewrite Ht in Hl. apply Forall_app in Hl as [_ [Hl _]%Forall_cons]. congruence. }
    cbn [app] in E. rewrite E, <-app_assoc.
    apply (pending_part w (p ++ z) q2 [] f fs); try done; [by left|]. intros [m Em].
    destruct q2 as [|c [|d q2]]; [done| |cbn; lia]. exfalso.
    rewrite Ht in Em. change (91 :: 123 :: m ++ [125; 93]) with ((91 :: 123 :: m) ++ [125; 93]) in Em.
    change [125; 93] with ([125] ++ [93]) in Em. rewrite (app_assoc _ [125]) in Em. apply app_inj_2 in Em as [Em [= ->]]; [|done].
    destruct (next_head _ _ _ _ _ Hnext E) as [HO1|Hsafe].
    + specialize (HO HO1). apply Forall_cons in HO as [HO _]. apply (object_not_batch _ HO). exists m. rewrite Ht, Em. by rewrite <-app_assoc.
    + destruct (Hsafe [93] eq_refl) as [Hs _]. apply Hs. split; [|done]. rewrite last_app.
      apply (f_equal last) in Em. rewrite !last_app in Em. cbn in Em. destruct (last z) eqn:Ez; [done|]. by apply last_None in Ez.
Qed.

Lemma piece_step acc x sep t vs :
  pending acc (x ++ sep ++ t) vs -> x <> [] -> (forall c o, (c, o) ∈ breaks -> clean c o x) -> is_sep sep -> next_piece x sep t ->
  (JSON_parse (acc ++ x) = None /\ pending (acc ++ x) t vs) \/
  (exists v vs', JSON_parse (acc ++ x) = Some v /\ json_truthy v = true /\ vs = v :: vs' /\ pending [] t vs').
Proof.
  intros Hp Hx Hclean Hsep Hnext. remember (x ++ sep ++ t) as s eqn:Es. destruct Hp as [acc u Hw Hu|w p q u f fs Hw Ht Hq Hup Hu Hg HO Hb].
  { left. destruct Hu as [->|(c & Hc & ->)]; [by destruct x|]. destruct x as [|d x]; [done|]. injection Es as -> Es.
    symmetry in Es. apply app_nil in Es as [-> Es]. apply app_nil in Es as [-> ->].
    assert (forallb is_ws (acc ++ [d]) = true) as Hw'.
    { rewrite forallb_app, Hw. apply is_sep_ws. right. by exists d. }
    split; [by apply JSON_parse_ws|]. apply pending_done; [done|by left]. }
  assert (forall v, f_value f = v -> json_truthy v = true) as Htruthy.
  { intros v <-. apply Forall_cons in Hg as [[Hm _] _]. by eapply message_truthy. }
  destruct Hu as [->|(c & Hc & ->)].
  - cbn [app] in Es. rewrite <-app_assoc.
    destruct (piece_in_message w p q [] f fs x sep t) as [[H1 H2]|[H1 H2]]; try done; rewrite ?app_assoc in *; [by left|right].
    exists (f_value f), (f_value <$> fs). split_and!; [done|by apply Htruthy|done|done].
  - destruct Hup as [| ->]; [done|]. rewrite app_nil_r. destruct x as [|d x]; [done|]. cbn [app] in Es. injection Es as -> Es.
    assert (forallb is_ws (w ++ [d]) = true) as Hw' by (rewrite forallb_app, Hw; apply is_sep_ws; right; by exists d).
    destruct (decide (x = [])) as [->|Hx'].
    + left. split; [by apply JSON_parse_ws|]. cbn [app] in Es.
      destruct (sep_stream sep t [] (f :: fs)) as (u & Hu & ->); [done|by left|done| |].
      { unfold stream. cbn. by rewrite <-app_assoc, Ht. }
      by apply pending_stream.
    + destruct (piece_in_message (w ++ [d]) [] q [d] f fs x sep t) as [[H1 H2]|[H1 H2]]; try done;
        rewrite ?app_nil_r, <-?app_assoc in *; cbn [app] in *; [by left|right].
      exists (f_value f), (f_value <$> fs). split_and!; [done|by apply Htruthy|done|done].
Qed.

(** The answers in the pieces, and that nothing but blanks is left over. *)
Lemma read_parts_pending ps s :
  glued (fun x y => O \/ safe x y) ps s -> Forall (fun p => p <> [] /\ forall c o, (c, o) ∈ breaks -> clean c o p) ps ->
  forall st vs, pending (default [] (lastChunk st)) s vs ->
  exists st', read_parts st ps = (st', vs) /\ forallb is_ws (default [] (lastChunk st')) = true /\
    responseCallbacks st' = responseCallbacks st /\ writable st' = writable st.
Proof.
  assert (forall acc vs, pending acc [] vs -> vs = [] /\ forallb is_ws acc = true) as Hend.
  { intros acc vs. remember [] as s' eqn:E'. destruct 1 as [|w p q u f fs ? ? Hq]; [done|].
    apply app_nil in E' as [_ E']. by apply app_nil in E' as [? _]. }
  assert (forall x sep t st vs, pending (default [] (lastChunk st)) (x ++ sep ++ t) vs ->
    (x <> [] /\ forall c o, (c, o) ∈ breaks -> clean c o x) -> is_sep sep -> next_piece x sep t ->
    exists st' vs1 vs2, read_part st x = (st', vs1) /\ vs = vs1 ++ vs2 /\ pending (default [] (lastChunk st')) t vs2 /\
      responseCallbacks st' = responseCallbacks st /\ writable st' = writable st) as Hstep.
  { intros x sep t st vs Hp [Hx Hc] Hs Hn. unfold read_part.
    destruct (piece_step _ _ _ _ _ Hp Hx Hc Hs Hn) as [[-> Hp']|(v & vs' & -> & Hv & -> & Hp')].
    - by exists (with_chunk (Some (default [] (lastChunk st) ++ x)) (Some (default [] (lastChunk st) ++ x)) st), [], vs.
    - rewrite Hv. by exists (with_chunk None None st), [v], vs'. }
  induction 1 as [x|x y ps sep t Hs Hr Hg IH]; intros Hall st vs Hp; apply Forall_cons in Hall as [Hx Hall]; cbn [read_parts].
  - destruct (Hstep x [] [] st vs) as (st1 & vs1 & vs2 & -> & -> & Hp' & Hcb & Hwr);
      [by rewrite !app_nil_r|done|by left|by left|].
    destruct (Hend _ _ Hp') as [-> Hw]. by exists st1.
  - destruct (Hstep x sep t st vs) as (st1 & vs1 & vs2 & -> & -> & Hp' & Hcb & Hwr); try done.
    { right. apply Forall_cons in Hall as [[Hy _] _]. inversion Hg as [|? ? ? sep' t']; subst.
      - exists t, []. by rewrite app_nil_r.
      - by exists y, (sep' ++ t'). }
    destruct (IH Hall st1 vs2 Hp') as (st2 & E2 & Hw & Hcb2 & Hwr2). cbn [read_parts] in E2. rewrite E2.
    exists st2. split_and!; [done|done|congruence..].
Qed.
End Stream.

(** * Chunks *)

Fixpoint safe_cuts (chunks : list jsstr) : Prop :=
  match chunks with
  | x :: ((y :: _) as r) => safe x y /\ safe_cuts r
  | _ => True
  end.

Lemma unmarked_app a b : unmarked (a ++ b) -> unmarked a /\ unmarked b.
Proof.
  intros H. split; intros x y ->; [apply (H x (y ++ b))|apply (H (a ++ x) y)]; by rewrite <-!app_assoc.
Qed.
Lemma edge_safe x y : edge x y -> safe x y.
Proof. intros [[H1|H1] [H2|H2]]; unfold safe; rewrite H1, H2; naive_solver. Qed.

Lemma chunks_glued O chunks :
  Forall (fun c => c <> []) chunks -> unmarked (mjoin chunks) -> O \/ safe_cuts chunks -> chunks <> [] ->
  glued (fun x y => O \/ safe x y) (chunks ≫= dechunk) (mjoin chunks) /\
  Forall (fun p => p <> [] /\ forall c o, (c, o) ∈ breaks -> clean c o p) (chunks ≫= dechunk) /\
  (exists x, head (chunks ≫= dechunk) = Some x /\ head x = head (mjoin chunks)).
Proof.
  intros Hne Hu Hs Hn. induction Hne as [|x chunks Hx Hne IH]; [done|]. clear Hn. cbn [mjoin list_join mbind list_bind] in *.
  apply unmarked_app in Hu as [Hux Hu]. destruct (dechunk_pieces x Hx Hux) as [Hg Hc].
  destruct (glued_ends _ _ Hg Hx) as (a & b & Ha & Hb & Hah & Hbl).
  assert (Forall (fun p => p <> [] /\ forall c o, (c, o) ∈ breaks -> clean c o p) (dechunk x)) as Hall.
  { apply Forall_and. split; [|done]. clear -Hg Hx. induction Hg as [z|z y ps sep t Hs Hr Hg IH]; [by repeat constructor|].
    destruct (edge_nonempty _ _ Hr) as [Hz Hy]. constructor; [done|]. apply IH. by eapply glued_nonempty. }
  assert (glued (fun x y => O \/ safe x y) (dechunk x) x) as Hg'.
  { eapply glued_impl; [|exact Hg]. intros ? ? ?%edge_safe. by right. }
  assert (head (dechunk x ++ (chunks ≫= dechunk)) = Some a /\ head a = head (x ++ mjoin chunks)) as [Hh1 Hh2].
  { destruct (dechunk x); [done|]. split; [done|]. rewrite Hah. by destruct x. }
  destruct chunks as [|y chunks].
  - cbn [mjoin list_join mbind list_bind]. rewrite !app_nil_r in *. split_and!; [done|done|by exists a].
  - destruct IH as (IHg & IHc & z & Hz & Hzh); [done|destruct Hs as [|[_ ?]]; auto|done|].
    split_and!; [|by apply Forall_app|by exists a].
    apply (glued_app _ _ _ x []); [done|done|by left|]. intros b' z' Hb' Hz'.
    assert (b' = b) as -> by congruence. assert (z' = z) as -> by congruence.
    destruct Hs as [|[Hs _]]; [by left|right]. unfold safe in *. rewrite Hbl, Hzh.
    apply Forall_cons in Hne as [Hy _]. cbn [mjoin list_join]. by destruct y.
Qed.

(** An answer that throws nothing, whatever is waited for. *)
Definition calm_load (v : json) : bool :=
  match get_id v with Some i => bool_decide (id_key i ∉ bad_builtins) | None => false end.
Definition calm (v : json) : bool := match v with JArr l => forallb calm_load l | _ => calm_load v end.

Lemma batch_id_calm s id loads :
  id ∉ bad_builtins -> forallb calm_load loads = true -> exists k, batch_id s id loads = Some k /\ k ∉ bad_builtins.
Proof.
  revert id. induction loads as [|v l IH]; intros id Hid Hc; [by exists id|]. cbn [forallb] in Hc.
  apply andb_prop in Hc as [Hv Hc]. unfold calm_load in Hv. cbn [batch_id]. destruct (get_id v) as [i|]; [|done].
  apply bool_decide_eq_true_1 in Hv. cbn [mbind option_bind]. apply IH; [|done]. by destruct (has_callback s (id_key i)).
Qed.
Lemma fire_calm s v : calm v = true -> exists s' fx, fire s v = (s', fx, true).
Proof.
  intros H. assert (exists k, answer_id s v = Some k /\ k ∉ bad_builtins) as (k & Hk & Hb).
  { unfold calm in H. unfold answer_id. destruct v as [|b|x|t|l|fs]; [| | | |apply batch_id_calm; [|done]; vm_compute; set_solver|].
    all: unfold calm_load in H; destruct (get_id _) as [i|]; [|done]; apply bool_decide_eq_true_1 in H; eauto. }
  unfold fire. rewrite Hk. destruct (assoc k (responseCallbacks s)); [eauto|]. rewrite bool_decide_eq_false_2 by done. eauto.
Qed.
Lemma fire_all_calm s vs : forallb calm vs = true -> exists s' fx, fire_all s vs = (s', fx, true).
Proof.
  revert s. induction vs as [|v vs IH]; intros s H; [by exists s, []|]. cbn [forallb] in H. apply andb_prop in H as [Hv H].
  cbn [fire_all]. destruct (fire_calm s v Hv) as (s1 & fx1 & ->). destruct (IH s1 H) as (s2 & fx2 & ->). eauto.
Qed.
Lemma fire_all_app s vs ws :
  forallb calm vs = true ->
  fire_all s (vs ++ ws) =
  let '(s1, fx1, _) := fire_all s vs in let '(s2, fx2, ok) := fire_all s1 ws in (s2, fx1 ++ fx2, ok).
Proof.
  revert s. induction vs as [|v vs IH]; intros s H; cbn [fire_all app]; [by destruct (fire_all s ws) as [[]]|].
  cbn [forallb] in H. apply andb_prop in H as [Hv H]. destruct (fire_calm s v Hv) as (s1 & fx1 & ->). rewrite IH by done.
  destruct (fire_all_calm s1 vs H) as (s2 & fx2 & ->). destruct (fire_all s2 ws) as [[s3 fx3] ok]. by rewrite app_assoc.
Qed.

(** Reading does not depend on the callbacks, nor answering on what is left over. *)
Lemma read_parts_callbacks cbs s ps :
  read_parts (with_callbacks cbs s) ps = let '(s', vs) := read_parts s ps in (with_callbacks cbs s', vs).
Proof.
  revert s. induction ps as [|p ps IH]; intros s; [done|]. cbn [read_parts].
  assert (read_part (with_callbacks cbs s) p = let '(s', vs) := read_part s p in (with_callbacks cbs s', vs)) as ->.
  { unfold read_part. cbn [lastChunk with_callbacks]. by destruct (JSON_parse _). }
  destruct (read_part s p) as [s1 vs1]. rewrite IH. by destruct (read_parts s1 ps).
Qed.
Lemma read_parts_app s ps qs :
  read_parts s (ps ++ qs) = let '(s1, vs1) := read_parts s ps in let '(s2, vs2) := read_parts s1 qs in (s2, vs1 ++ vs2).
Proof.
  revert s. induction ps as [|p ps IH]; intros s; cbn [read_parts app]; [by destruct (read_parts s qs)|].
  destruct (read_part s p) as [s1 vs1]. rewrite IH. destruct (read_parts s1 ps) as [s2 vs2].
  destruct (read_parts s2 qs) as [s3 vs3]. by rewrite app_assoc.
Qed.
Lemma read_parts_keep s ps : responseCallbacks (read_parts s ps).1 = responseCallbacks s.
Proof.
  revert s. induction ps as [|p ps IH]; intros s; [done|]. cbn [read_parts].
  assert (responseCallbacks (read_part s p).1 = responseCallbacks s) by (unfold read_part; by destruct (JSON_parse _)).
  destruct (read_part s p) as [s1 vs1] eqn:E. specialize (IH s1). destruct (read_parts s1 ps) as [s2 vs2]. cbn in *. congruence.
Qed.
Lemma fire_all_reader s s' vs :
  responseCallbacks s = responseCallbacks s' ->
  (fire_all s vs).1.2 = (fire_all s' vs).1.2 /\ (fire_all s vs).2 = (fire_all s' vs).2 /\
  (fire_all s vs).1.1 = with_callbacks (responseCallbacks (fire_all s' vs).1.1) s.
Proof.
  revert s s'. induction vs as [|v vs IH]; intros s s' E; cbn [fire_all].
  { cbn. rewrite <-E. by destruct s. }
  assert (answer_id s v = answer_id s' v) as Ea.
  { unfold answer_id. destruct v; try done. generalize (str "null"). induction l as [|x l IHl]; intros id; [done|].
    cbn [batch_id]. unfold has_callback. rewrite E. destruct (get_id x); [apply IHl|done]. }
  unfold fire. rewrite Ea, E. destruct (answer_id s' v) as [k|]; [|cbn; rewrite <-E; by destruct s].
  destruct (assoc k (responseCallbacks s')) as [cb|].
  - specialize (IH (with_callbacks (delete_key k (responseCallbacks s')) s) (with_callbacks (delete_key k (responseCallbacks s')) s') eq_refl).
    destruct (fire_all _ vs) as [[s1 fx1] ok1], (fire_all (with_callbacks _ s') vs) as [[s2 fx2] ok2].
    cbn in *. destruct IH as (-> & -> & ->). done.
  - destruct (bool_decide (k ∈ bad_builtins)); [by cbn; rewrite <-E; destruct s|].
    specialize (IH s s' E). destruct (fire_all s vs) as [[s1 fx1] ok1], (fire_all s' vs) as [[s2 fx2] ok2]. done.
Qed.

Lemma run_data chunks s :
  let '(s1, vs) := read_parts s (chunks ≫= dechunk) in
  forallb calm vs = true ->
  ipc_run s (Data <$> chunks) = (with_callbacks (responseCallbacks (fire_all s vs).1.1) s1, (fire_all s vs).1.2).
Proof.
  revert s. induction chunks as [|c chunks IH]; intros s; cbn [mbind list_bind fmap list_fmap].
  { cbn. by destruct s. }
  rewrite read_parts_app. pose proof (read_parts_keep s (dechunk c)) as Hk. cbn [ipc_run handle]. unfold on_data, _parseResponse.
  destruct (read_parts s (dechunk c)) as [s1 vs1] eqn:E1. cbn [fst] in Hk.
  pose proof (fire_all_reader s1 s vs1 Hk) as (Hfx & Hok & Hst).
  destruct (fire_all s1 vs1) as [[s1' fx1] ok1] eqn:Ef. cbn [fst snd] in *. specialize (IH s1').
  rewrite Hst, read_parts_callbacks in IH. destruct (read_parts s1 (chunks ≫= dechunk)) as [s2 vs2].
  intros Hv. rewrite forallb_app in Hv. apply andb_prop in Hv as [Hv1 Hv2].
  rewrite <-Hst in IH. rewrite (IH Hv2). rewrite fire_all_app by done.
  destruct (fire_all s vs1) as [[s3 fx3] ok3] eqn:E3. cbn [fst snd] in *.
  pose proof (fire_all_reader s1' s3 vs2) as H. destruct (fire_all s1' vs2) as [[s4 fx4] ok4], (fire_all s3 vs2) as [[s5 fx5] ok5].
  cbn [fst snd] in *. destruct H as (H1 & H2 & H3); [by rewrite Hst|]. rewrite Hfx, H1, H3. done.
Qed.


Lemma split_marked_two a b : (2 <= length (split_mark (a ++ mark ++ b)))%nat.
Proof.
  assert (forall s, (1 <= length (split_mark s))%nat) as Hs.
  { intros s. destruct (split_head s) as (h & t & _ & -> & _). cbn. lia. }
  induction a as [|c a IH]; [change (mark ++ b) with (124 :: 45 :: 45 :: 124 :: b); cbn [app]; rewrite split_marked; specialize (Hs b); cbn; lia|].
  cbn [app]. destruct (strip_prefix mark (c :: a ++ mark ++ b)) as [r|] eqn:E.
  - apply strip_prefix_spec in E. rewrite E. change (mark ++ r) with (124 :: 45 :: 45 :: 124 :: r). rewrite split_marked.
    specialize (Hs r). cbn. lia.
  - rewrite split_plain by done. destruct (split_mark (a ++ mark ++ b)); cbn in *; lia.
Qed.
Lemma unmarked_split s : split_mark s = [s] -> unmarked s.
Proof. intros H a b ->. pose proof (split_marked_two a b) as Hl. rewrite H in Hl. cbn in Hl. lia. Qed.

Definition answer_text (id : jsstr) : jsstr := [123; 34; 105; 100; 34; 58] ++ id ++ [125].
Definition answer_json (id : Z) : json := JObj [(str "id", JNum (Big id 0))].


(** * Every request is answered once *)

Definition called (fx : list ipc_effect) : list callback :=
  omap (fun e => match e with Reply cb _ | Cancel cb _ => Some cb | _ => None end) fx.
(** The requests made, with the keys they wait under. *)
Definition requested (ev : ipc_event) : list (jsstr * callback) :=
  match ev with
  | SendAsync r cb => match request_key r with Some k => [(k, cb)] | None => [] end
  | _ => []
  end.
Definition keys (l : list (jsstr * callback)) : list jsstr := fst <$> l.
Definition waiting (s : ipc) : list callback := snd <$> responseCallbacks s.

Lemma called_app fx fx' : called (fx ++ fx') = called fx ++ called fx'.
Proof. apply omap_app. Qed.

Lemma insert_index_perm z cb l : insert_index z cb l ≡ₚ (z, cb) :: l.
Proof.
  induction l as [|[y d] l IH]; [done|]. cbn [insert_index]. destruct (z <=? y); [done|]. rewrite IH. apply Permutation_swap.
Qed.
Lemma for_in_perm l : for_in l ≡ₚ snd <$> l.
Proof.
  unfold for_in. induction l as [|[k cb] l IH]; [done|]. cbn [foldr]. rewrite filter_cons, fmap_cons. cbn [fst snd].
  destruct (key_index k) as [z|]; case_decide; try done.
  - rewrite insert_index_perm, fmap_cons. cbn [app snd]. by rewrite IH.
  - rewrite fmap_cons, <-Permutation_middle. by rewrite IH.
Qed.
Lemma called_cancel e l : called ((fun cb => Cancel cb e) <$> l) = l.
Proof. induction l as [|cb l IH]; [done|]. unfold called in *. cbn. by rewrite IH. Qed.

Lemma delete_key_absent k (l : list (jsstr * callback)) : k ∉ keys l -> delete_key k l = l.
Proof.
  unfold delete_key, keys. induction l as [|[k' y] l IH]; [done|]. rewrite fmap_cons, not_elem_of_cons. intros [Hn Hl].
  rewrite filter_cons, decide_True by (cbn in *; congruence). by rewrite IH.
Qed.
Lemma delete_key_perm (l : list (jsstr * callback)) k cb :
  NoDup (keys l) -> assoc k l = Some cb -> snd <$> l ≡ₚ cb :: (snd <$> delete_key k l).
Proof.
  unfold delete_key, keys. induction l as [|[k' y] l IH]; [done|]. rewrite !fmap_cons, filter_cons. cbn [fst snd assoc].
  intros [Hn Hd]%NoDup_cons. case_bool_decide as E.
  - intros [= ->]. subst k'. rewrite decide_False by tauto. fold (delete_key k l). by rewrite delete_key_absent.
  - intros H. rewrite decide_True by (intros ->; done). rewrite fmap_cons, (IH Hd H). cbn. apply Permutation_swap.
Qed.
Lemma delete_key_keys k (l : list (jsstr * callback)) : keys (delete_key k l) `sublist_of` keys l.
Proof.
  unfold keys, delete_key. induction l as [|[k' y] l IH]; [done|]. rewrite filter_cons. cbn [fst]. case_decide.
  - rewrite !fmap_cons. by apply sublist_skip.
  - rewrite fmap_cons. by apply sublist_cons.
Qed.
Lemma callback_fresh k (cb : callback) l : k ∉ keys l -> set_key k cb l = l ++ [(k, cb)].
Proof.
  unfold keys. induction l as [|[k' y] l IH]; [done|]. rewrite fmap_cons, not_elem_of_cons. intros [Hn Hl]. cbn [set_key app].
  rewrite bool_decide_eq_false_2 by done. by rewrite IH.
Qed.

Lemma fire_once s v : NoDup (keys (responseCallbacks s)) ->
  waiting s ≡ₚ called (fire s v).1.2 ++ waiting (fire s v).1.1 /\
  keys (responseCallbacks (fire s v).1.1) `sublist_of` keys (responseCallbacks s).
Proof.
  intros Hd. unfold fire. destruct (answer_id s v) as [k|]; [|done].
  destruct (assoc k (responseCallbacks s)) as [cb|] eqn:E; [|by destruct (bool_decide _)].
  cbn. split; [by apply delete_key_perm|apply delete_key_keys].
Qed.
Lemma fire_all_once vs s : NoDup (keys (responseCallbacks s)) ->
  waiting s ≡ₚ called (fire_all s vs).1.2 ++ waiting (fire_all s vs).1.1 /\
  keys (responseCallbacks (fire_all s vs).1.1) `sublist_of` keys (responseCallbacks s).
Proof.
  revert s. induction vs as [|v vs IH]; intros s Hd; [done|]. cbn [fire_all]. pose proof (fire_once s v Hd) as [Hp Hk].
  destruct (fire s v) as [[s1 fx1] ok1]. cbn [fst snd] in *. destruct ok1; [|done].
  destruct (IH s1) as [Hp' Hk']; [by eapply sublist_NoDup|]. destruct (fire_all s1 vs) as [[s2 fx2] ok2]. cbn [fst snd] in *.
  split; [|by etrans]. rewrite called_app, <-app_assoc, <-Hp'. done.
Qed.
Lemma timeout_once s :
  waiting s ≡ₚ called (_timeout s).2 /\ responseCallbacks (_timeout s).1 = [].
Proof. split; [|done]. unfold _timeout. cbn. rewrite called_cancel. symmetry. apply for_in_perm. Qed.

Lemma handle_once s ev :
  NoDup (keys (responseCallbacks s) ++ keys (requested ev)) ->
  waiting s ++ (snd <$> requested ev) ≡ₚ called (handle s ev).2 ++ waiting (handle s ev).1 /\
  keys (responseCallbacks (handle s ev).1) `sublist_of` keys (responseCallbacks s) ++ keys (requested ev).
Proof.
  intros Hd. destruct ev as [data| |e| |r cb|b]; cbn [handle requested] in *;
    unfold keys in *; cbn [fmap list_fmap] in *; try rewrite app_nil_r in Hd; rewrite ?(app_nil_r (waiting s)), ?(app_nil_r (_ <$> _)).
  - unfold on_data, _parseResponse. pose proof (read_parts_keep s (dechunk data)) as Hk.
    destruct (read_parts s (dechunk data)) as [s1 vs]. cbn [fst] in Hk.
    pose proof (fire_all_once vs s1) as Hf. rewrite Hk in Hf. specialize (Hf Hd).
    unfold waiting at 1. rewrite <-Hk. fold (waiting s1). rewrite Hk. by destruct (fire_all s1 vs) as [[s2 fx] ok].
  - pose proof (timeout_once s) as [H1 H2]. destruct (_timeout s) as [s1 fx]. cbn [fst snd] in *.
    unfold waiting at 2. rewrite H2, app_nil_r. split; [done|apply sublist_nil_l].
  - pose proof (timeout_once s) as [H1 H2]. destruct (_timeout s) as [s1 fx]. cbn [fst snd] in *.
    unfold waiting at 2. rewrite H2, app_nil_r. split; [done|apply sublist_nil_l].
  - destruct (lastChunkTimeout s) as [data|]; [|split; reflexivity].
    pose proof (timeout_once (with_chunk (lastChunk s) None s)) as [H1 H2].
    destruct (_timeout (with_chunk (lastChunk s) None s)) as [s1 fx]. cbn [fst snd] in *.
    unfold waiting at 2. rewrite H2, app_nil_r, called_app. cbn. rewrite app_nil_r. split; [done|apply sublist_nil_l].
  - unfold sendAsync, _addResponseCallback. destruct (request_key r) as [k|].
    + cbn [fst snd]. rewrite !called_app. cbn. assert (called (reconnect s) = []) as -> by (unfold reconnect; by destruct (writable s)).
      assert (k ∉ keys (responseCallbacks s)) as Hk.
      { apply NoDup_app in Hd as (_ & Hd & _). intros Hin. by apply (Hd k Hin), list_elem_of_singleton. }
      rewrite callback_fresh by done. unfold keys, waiting. cbn. rewrite !fmap_app. done.
    + cbn [fst snd]. rewrite !called_app. cbn. unfold reconnect. rewrite !app_nil_r. by destruct (writable s).
  - split; reflexivity.
Qed.

Lemma ipc_run_once evs s :
  NoDup (keys (responseCallbacks s) ++ keys (evs ≫= requested)) ->
  waiting s ++ (snd <$> (evs ≫= requested)) ≡ₚ called (ipc_run s evs).2 ++ waiting (ipc_run s evs).1.
Proof.
  revert s. induction evs as [|ev evs IH]; intros s Hd; cbn [ipc_run mbind list_bind] in *; [by rewrite app_nil_r|].
  unfold keys in Hd. rewrite fmap_app in Hd. fold (keys (responseCallbacks s)) (keys (requested ev)) (keys (evs ≫= requested)) in Hd.
  rewrite app_assoc in Hd. destruct (handle_once s ev) as [Hp Hk]; [by apply NoDup_app in Hd as (? & _)|].
  destruct (handle s ev) as [s1 fx1]. cbn [fst snd] in *. specialize (IH s1).
  destruct (ipc_run s1 evs) as [s2 fx2]. cbn [fst snd] in *.
  rewrite fmap_app, called_app, app_assoc, Hp, <-!app_assoc, IH; [done|].
  eapply sublist_NoDup; [exact Hd|]. by apply sublist_app.
Qed.


Definition ask (id : Z) (cb : callback) : ipc_event := SendAsync (Single (Payload id (str "eth_syncing") [])) cb.

(** * Where it fails *)

(** A batch that is cut before its closing bracket, with the next message behind it:
    neither is answered, and nothing after them will be. *)
Theorem batch_cut_lost :
  let '(s, fx) := ipc_run (Ipc [(str "1", 10%nat); (str "2", 20%nat)] None None true)
    [Data ([91] ++ answer_text (str "1")); Data ([93; 10] ++ answer_text (str "2"))] in
  fx = [] /\ lastChunk s = Some ([91] ++ answer_text (str "1") ++ [93; 10] ++ answer_text (str "2")).
Proof. vm_compute. done. Qed.

(** A line break that arrives alone starts the timer: the requests made since then are
    cancelled with it, although nothing is wrong. *)
Theorem line_break_cancels :
  ipc_run (new_ipc true) [ask 1 10; Data (answer_text (str "1")); Data [10]; ask 2 20; ChunkTimer] =
  (Ipc [] (Some [10]) None true,
   [Write (request_text (Single (Payload 1 (str "eth_syncing") []))); Reply 10%nat (answer_json 1);
    Write (request_text (Single (Payload 2 (str "eth_syncing") []))); Cancel 20%nat (InvalidConnection (str "on IPC"));
    Fault (Some (InvalidResponse (VStr [10])))]).
Proof. vm_compute. reflexivity. Qed.

(** What was left over when the timer fires stays, and spoils the next answer. *)
Theorem stale_chunk_kept :
  called (ipc_run (new_ipc true)
    [Data (take 4 (answer_text (str "1"))); ChunkTimer; ask 2 20; Data (answer_text (str "2"))]).2 = [].
Proof. vm_compute. reflexivity. Qed.

(** The mark is taken out of an answer that contains it. *)
Theorem mark_removed :
  (_parseResponse (new_ipc true) ([123; 34; 97; 34; 58; 34; 120] ++ mark ++ [121; 34; 125])).2 =
  [JObj [(str "a", JStr (str "xy"))]].
Proof. vm_compute. reflexivity. Qed.
