(* ===== verification/Http.v ===== *)
(** The HTTP provider (web3.js 4290-4408).

    The request object of the browser or of node belongs to the environment: a
    synchronous request gives its text or throws, the events of an asynchronous one
    are a list.  [base64] is node's encoding of the credentials. *)
From S2P Require Import Prelude BigNumber Utils Iban Rpc Json Ipc.

Record http := Http { host : jsstr; http_timeout : Z; user : option jsstr; password : option jsstr }.
Definition new_http (host : option jsstr) (timeout : option Z) (user password : option jsstr) : http :=
  Http (match host with Some (c :: h) => c :: h | _ => str "http://localhost:8545" end) (default 0 timeout) user password.

(** What is set on a request before it is sent; only an asynchronous one gets the
    timeout. *)
Record http_request := HttpRequest { rq_url : jsstr; rq_async : bool; rq_timeout : Z; rq_headers : list (jsstr * jsstr) }.
Definition nonempty (s : option jsstr) : option jsstr := match s with Some (c :: t) => Some (c :: t) | _ => None end.
Definition prepareRequest (base64 : jsstr -> jsstr) (p : http) (async : bool) : http_request :=
  HttpRequest (host p) async (if async then http_timeout p else 0)
    (match nonempty (user p), nonempty (password p) with
     | Some u, Some w => [(str "Authorization", str "Basic " ++ base64 (u ++ str ":" ++ w))]
     | _, _ => []
     end ++ [(str "Content-Type", str "application/json")]).

(** The result of reading an answer: the value, or the text with an error. *)
Definition read_answer (text : jsstr) : json + jsstr :=
  match JSON_parse text with
  | Some v => inl v
  | None => inr (InvalidResponse (VStr text))
  end.

Section Transport.
Context (base64 : jsstr -> jsstr).

(** [xhr]: the text the request is answered with; [None] when sending throws. *)
Definition http_send (xhr : http_request -> jsstr -> option jsstr) (p : http) (payload : value) : json + jsstr :=
  match xhr (prepareRequest base64 p false) (default (str "undefined") (JSON_stringify payload)) with
  | Some text => read_answer text
  | None => inr (InvalidConnection (host p))
  end.

Definition probe : value :=
  VObj [(str "id", VNum 9999999999); (str "jsonrpc", VStr (str "2.0")); (str "method", VStr (str "net_listening"));
        (str "params", VArr [])].
Definition http_isConnected (xhr : http_request -> jsstr -> option jsstr) (p : http) : bool :=
  match http_send xhr p probe with inl _ => true | inr _ => false end.

(** * Asynchronous requests *)

Inductive xhr_event :=
  | ReadyState (state : Z) (responseText : jsstr)
  | TimedOut.
(** [callback(error, result)]: the result is a value, a text that is no JSON, or
    undefined. *)
Inductive http_call := HttpCall (error : option jsstr) (result : option (json + jsstr)).

Definition ConnectionTimeout (ms : Z) : jsstr := str "CONNECTION TIMEOUT: timeout of " ++ to_base 10 ms ++ str " ms achived".
Definition on_xhr (r : http_request) (ev : xhr_event) : list http_call :=
  match ev with
  | ReadyState state text =>
      if (state =? 4) && negb (rq_timeout r =? 1) then
        match read_answer text with
        | inl v => [HttpCall None (Some (inl v))]
        | inr e => [HttpCall (Some e) (Some (inr text))]
        end
      else []
  | TimedOut => [HttpCall (Some (ConnectionTimeout (rq_timeout r))) None]
  end.
(** [throws]: sending fails at once; otherwise the events of the request follow. *)
Definition http_sendAsync (p : http) (payload : value) (throws : bool) (evs : list xhr_event) :
    http_request * jsstr * list http_call :=
  let r := prepareRequest base64 p true in
  (r, default (str "undefined") (JSON_stringify payload),
   if throws then [HttpCall (Some (InvalidConnection (host p))) None] else evs ≫= on_xhr r).
End Transport.

(** * What arrives *)

(** A node that reads a request and writes an answer. *)
Definition node_xhr (node : json -> value) (r : http_request) (text : jsstr) : option jsstr :=
  j ← JSON_parse text; JSON_stringify (node j).


(** An asynchronous request that completes calls its callback once, with the answer
    or the text that is none. *)
Theorem http_async_once base64 p payload evs text :
  http_timeout p <> 1 -> Forall (fun ev => match ev with ReadyState s _ => s < 4 | TimedOut => False end) evs ->
  (http_sendAsync base64 p payload false (evs ++ [ReadyState 4 text])).2 =
  [match JSON_parse text with
   | Some v => HttpCall None (Some (inl v))
   | None => HttpCall (Some (InvalidResponse (VStr text))) (Some (inr text))
   end].
Proof.
  intros Ht He. unfold http_sendAsync. cbn [snd]. rewrite bind_app.
  assert ((evs ≫= on_xhr (prepareRequest base64 p true)) = []) as ->.
  { induction He as [|[s t|] evs Hs He IH]; [done| |done]. cbn [mbind list_bind on_xhr]. replace (s =? 4) with false by lia. done. }
  cbn [app mbind list_bind on_xhr rq_timeout prepareRequest]. replace (http_timeout p =? 1) with false by lia. cbn [Z.eqb andb negb].
  change (4 =? 4) with true. cbn [andb]. unfold read_answer. by destruct (JSON_parse text).
Qed.
Lemma http_async_once_witness :
  (http_sendAsync id (new_http None None None None) probe false [ReadyState 1 []; ReadyState 4 (str "[]")]).2 =
  [HttpCall None (Some (inl (JArr [])))].
Proof.
  apply (http_async_once id (new_http None None None None) probe [ReadyState 1 []] (str "[]")); [done|]. by repeat constructor.
Defined.

(** * Where it fails *)

(** A request that times out is completed first, without a text: the callback is called
    twice, first with an error about the answer. *)
Theorem http_timeout_twice base64 :
  (http_sendAsync base64 (new_http None (Some 500) None None) probe false [ReadyState 1 []; ReadyState 4 []; TimedOut]).2 =
  [HttpCall (Some (InvalidResponse (VStr []))) (Some (inr []));
   HttpCall (Some (str "CONNECTION TIMEOUT: timeout of 500 ms achived")) None].
Proof. vm_compute. reflexivity. Qed.

(** With a timeout of one millisecond an answer is never reported. *)
Theorem http_timeout_one base64 host user password payload evs :
  Forall (fun ev => ev <> TimedOut) evs ->
  (http_sendAsync base64 (new_http host (Some 1) user password) payload false evs).2 = [].
Proof.
  intros H. unfold http_sendAsync. cbn [snd]. induction H as [|[s t|] evs Hs He IH]; [done| |done].
  cbn [mbind list_bind on_xhr rq_timeout prepareRequest http_timeout new_http default from_option id]. rewrite andb_false_r. exact IH.
Qed.
