(* ===== verification/Formatters.v ===== *)
(** web3's formatters of requests and answers (web3.js 3694-3948) and the
    configuration they read (1794-1802).

    A formatter sets fields of the object it is given and returns it; here it
    returns the object with the new fields.  [None] is an exception. *)
From S2P Require Import Prelude WordArray Digests BigNumber Utils Iban Rpc.

Record config := Config { defaultBlock : value; defaultAccount : value }.
Definition initial_config : config := Config (VStr (str "latest")) VUndefined.

(** [o[k]] and [o[k] = v]: undefined and null have no fields; a field set on a
    string, number or boolean is lost. *)
Definition get (k : jsstr) (o : value) : option value :=
  match o with
  | VUndefined | VNull => None
  | _ => Some (field k o)
  end.
Definition put (k : jsstr) (v : value) (o : value) : option value :=
  match o with
  | VUndefined | VNull => None
  | VObj fs => Some (VObj (set_key k v fs))
  | _ => Some o
  end.
(** [o[k] = f(o[k])] *)
Definition update_field (f : value -> option value) (k : jsstr) (o : value) : option value :=
  v ← get k o; w ← f v; put k w o.
Definition update_when (p : value -> bool) (f : value -> option value) (k : jsstr) (o : value) : option value :=
  v ← get k o;
  if p v then w ← f v; put k w o else Some o.

Definition not_null (v : value) : bool := match v with VNull => false | _ => true end.
Definition is_defined (v : value) : bool := negb (is_undefined v).
Definition is_str (s : jsstr) (v : value) : bool := match v with VStr t => bool_decide (t = s) | _ => false end.

Section Rounding.
Context (rm : rounding).

(** The conversions as functions on values *)
Definition decimal (v : value) : option value := VNum <$> toDecimal rm v.
Definition big (v : value) : option value := VBig <$> toBigNumber rm v.
Definition hex_decimal (v : value) : option value := VStr <$> fromDecimal rm v.
Definition hex_value (v : value) : option value := VStr <$> toHex rm v.

Definition outputBigNumberFormatter (number : value) : option value := big number.

Definition isPredefinedBlockNumber (blockNumber : value) : bool :=
  is_str (str "latest") blockNumber || is_str (str "pending") blockNumber || is_str (str "earliest") blockNumber.
Definition inputBlockNumberFormatter (blockNumber : value) : option value :=
  match blockNumber with
  | VUndefined => Some VUndefined
  | _ => if isPredefinedBlockNumber blockNumber then Some blockNumber else hex_value blockNumber
  end.
Definition inputDefaultBlockNumberFormatter (c : config) (blockNumber : value) : option value :=
  match blockNumber with
  | VUndefined => Some (defaultBlock c)
  | _ => inputBlockNumberFormatter blockNumber
  end.

(** Only a string has the methods that the check digits and the checksum need; the
    regular expressions are tested on the text of any value. *)
Definition inputAddressFormatter (address : value) : option value :=
  match address with
  | VStr s =>
      valid ← isValid s;
      if (valid : bool) && isDirect s then a ← Iban.address rm s; Some (VStr (str "0x" ++ a))
      else if isStrictAddress s then Some address
      else ok ← isAddress s; if ok : bool then Some (VStr (str "0x" ++ s)) else None
  | _ =>
      let s := js_to_string address in
      if iban_format s then None
      else if isStrictAddress s then Some address
      else if test_case is_lower_hex 40 s || test_case is_upper_hex 40 s then Some (VStr (str "0x" ++ s))
      else None
  end.

Definition number_keys : list jsstr := [str "gasPrice"; str "gas"; str "value"; str "nonce"].
Fixpoint format_numbers (keys : list jsstr) (options : value) : option value :=
  match keys with
  | [] => Some options
  | key :: keys => options ← update_when is_defined hex_decimal key options; format_numbers keys options
  end.
(** [options.from = options.from || config.defaultAccount] *)
Definition default_from (c : config) (options : value) : option value :=
  from ← get (str "from") options;
  put (str "from") (if truthy from then from else defaultAccount c) options.

Definition inputCallFormatter (c : config) (options : value) : option value :=
  options ← default_from c options;
  options ← update_when truthy inputAddressFormatter (str "from") options;
  options ← update_when truthy inputAddressFormatter (str "to") options;
  format_numbers number_keys options.
Definition inputTransactionFormatter (c : config) (options : value) : option value :=
  options ← default_from c options;
  options ← update_field inputAddressFormatter (str "from") options;
  options ← update_when truthy inputAddressFormatter (str "to") options;
  format_numbers number_keys options.

Definition outputTransactionFormatter (tx : value) : option value :=
  tx ← update_when not_null decimal (str "blockNumber") tx;
  tx ← update_when not_null decimal (str "transactionIndex") tx;
  tx ← update_field decimal (str "nonce") tx;
  tx ← update_field decimal (str "gas") tx;
  tx ← update_field big (str "gasPrice") tx;
  update_field big (str "value") tx.

Definition outputLogFormatter (log : value) : option value :=
  log ← update_when truthy decimal (str "blockNumber") log;
  log ← update_when truthy decimal (str "transactionIndex") log;
  update_when truthy decimal (str "logIndex") log.

Definition outputTransactionReceiptFormatter (receipt : value) : option value :=
  receipt ← update_when not_null decimal (str "blockNumber") receipt;
  receipt ← update_when not_null decimal (str "transactionIndex") receipt;
  receipt ← update_field decimal (str "cumulativeGasUsed") receipt;
  receipt ← update_field decimal (str "gasUsed") receipt;
  logs ← get (str "logs") receipt;
  match logs with
  | VArr ls => ls ← mapM outputLogFormatter ls; put (str "logs") (VArr ls) receipt
  | _ => Some receipt
  end.

(** The transactions of a block are formatted in place when they are not hashes. *)
Definition format_item (item : value) : option value :=
  if isString item then Some item else outputTransactionFormatter item.
Definition outputBlockFormatter (block : value) : option value :=
  block ← update_field decimal (str "gasLimit") block;
  block ← update_field decimal (str "gasUsed") block;
  block ← update_field decimal (str "size") block;
  block ← update_field decimal (str "timestamp") block;
  block ← update_when not_null decimal (str "number") block;
  block ← update_field big (str "difficulty") block;
  block ← update_field big (str "totalDifficulty") block;
  txs ← get (str "transactions") block;
  match txs with
  | VArr l => l ← mapM format_item l; put (str "transactions") (VArr l) block
  | _ => Some block
  end.

(** A topic is a string. *)
Definition post_topic (topic : value) : option value :=
  match topic with
  | VStr s => if js_starts_with (str "0x") s then Some topic else VStr <$> fromUtf8 s
  | _ => None
  end.
Definition topics_list (topics : value) : list value :=
  match topics with
  | VArr l => l
  | _ => if truthy topics then [topics] else []
  end.
Definition inputPostFormatter (post : value) : option value :=
  post ← update_field hex_decimal (str "ttl") post;
  post ← update_field hex_decimal (str "workToProve") post;
  post ← update_field hex_decimal (str "priority") post;
  topics ← get (str "topics") post;
  l ← mapM post_topic (topics_list topics);
  put (str "topics") (VArr l) post.

Definition output_topic (topic : value) : option value :=
  match topic with VStr s => Some (VStr (toAscii s)) | _ => None end.
Definition outputPostFormatter (post : value) : option value :=
  post ← update_field decimal (str "expiry") post;
  post ← update_field decimal (str "sent") post;
  post ← update_field decimal (str "ttl") post;
  post ← update_field decimal (str "workProved") post;
  topics ← get (str "topics") post;
  l ← match topics with
      | VArr l => mapM output_topic l
      | _ => if truthy topics then None else Some []
      end;
  put (str "topics") (VArr l) post.

Definition outputSyncingFormatter (result : value) : option value :=
  if falsy result then Some result
  else
    result ← update_field decimal (str "startingBlock") result;
    result ← update_field decimal (str "currentBlock") result;
    result ← update_field decimal (str "highestBlock") result;
    known ← get (str "knownStates") result;
    if truthy known then
      result ← update_field decimal (str "knownStates") result;
      update_field decimal (str "pulledStates") result
    else Some result.
End Rounding.

(** * Addresses *)

Lemma alnum_digit c : is_alnum c = true -> exists d, c = char_upper (digit_char d) /\ is_digit 36 d.
Proof.
  unfold is_alnum, is_dec_digit, char_upper, digit_char, is_digit. intros H. destruct (Z.leb_spec c 57).
  - exists (c - 48). replace (c - 48 <? 10) with true by lia.
    replace ((97 <=? 48 + (c - 48)) && (48 + (c - 48) <=? 122)) with false by lia. lia.
  - exists (c - 55). replace (c - 55 <? 10) with false by lia.
    replace ((97 <=? 87 + (c - 55)) && (87 + (c - 55) <=? 122)) with true by lia. lia.
Qed.
Lemma alnum_digits s :
  forallb is_alnum s = true -> exists ds, s = js_upper (digit_char <$> ds) /\ Forall (is_digit 36) ds.
Proof.
  induction s as [|c s IH]; [by exists []|]. cbn [forallb]. intros [Hc Hs]%andb_prop.
  destruct (alnum_digit c Hc) as (d & -> & Hd). destruct (IH Hs) as (ds & -> & Hds).
  exists (d :: ds). split; [done|]. by constructor.
Qed.

Lemma hex_digit_chars ds : Forall (is_digit 16) ds -> forallb is_any_hex (digit_char <$> ds) = true.
Proof.
  induction 1 as [|d ds Hd _ IH]; [done|]. cbn [fmap list_fmap forallb].
  change (list_fmap _ _ digit_char ds) with (digit_char <$> ds). rewrite IH, andb_true_r.
  unfold is_any_hex, is_lower_hex, is_upper_hex, is_dec_digit, digit_char, is_digit in *. destruct (Z.ltb_spec d 10); lia.
Qed.

Lemma strict_prefixed h : length h = 40%nat -> forallb is_any_hex h = true -> isStrictAddress (str "0x" ++ h) = true.
Proof. intros Hl Hh. unfold isStrictAddress, hex_run. change (drop 2 (str "0x" ++ h)) with h. by rewrite Hl, Hh. Qed.

Lemma to_base16_hex z n :
  0 <= z < 16 ^ Z.of_nat n -> (1 <= n)%nat ->
  length (replicate (n - length (to_base 16 z)) 48 ++ to_base 16 z) = n /\
  forallb is_any_hex (replicate (n - length (to_base 16 z)) 48 ++ to_base 16 z) = true.
Proof.
  intros Hz Hn. pose proof (to_base_length 16 z n ltac:(lia) Hz Hn). split; [rewrite length_app, length_replicate; lia|].
  rewrite to_base_nonneg by lia. change 48 with (digit_char 0). rewrite <-fmap_replicate, <-fmap_app.
  apply hex_digit_chars, Forall_app. split; [apply Forall_replicate; unfold is_digit; lia|apply digits_valid; lia].
Qed.

(** The address of a direct account number of 34 characters has forty digits. *)
Lemma direct_address rm s a :
  iban_format s = true -> js_len s = 34 -> Iban.address rm s = Some a ->
  length a = 40%nat /\ forallb is_any_hex a = true.
Proof.
  unfold iban_format, bban_format. intros [_ [Ha _]%andb_prop]%andb_prop Hl.
  unfold Iban.address, isDirect. rewrite Hl. cbn [Z.eqb Pos.eqb orb]. rewrite js_substr_from_nonneg by lia.
  change (Z.to_nat 4) with 4%nat. assert (length (drop 4 s) = 30%nat) as Hd by (rewrite length_drop; unfold js_len in Hl; lia).
  destruct (alnum_digits (drop 4 s) Ha) as (ds & E & Hds). rewrite E in *.
  unfold js_upper in Hd. rewrite !length_fmap in Hd.
  rewrite new_BigNumber_upper; [|by intros ->|done]. cbn [mbind option_bind toString_base]. intros [= <-].
  pose proof (of_digits_bound 36 ltac:(lia) ds Hds) as Hb. rewrite Hd in Hb.
  assert (36 ^ Z.of_nat 30 < 16 ^ Z.of_nat 40) by (vm_compute; reflexivity).
  apply (to_base16_hex (of_digits 36 ds) 40); lia.
Qed.

Lemma strict_not_iban s : isStrictAddress s = true -> iban_format s = false.
Proof.
  unfold isStrictAddress, iban_format, js_starts_with. intros [H _]%andb_prop. do 3 (apply andb_false_iff; left).
  apply bool_decide_eq_false. intros E. destruct s as [|a [|b s]]; cbv in E; simplify_eq; cbn in H; discriminate H.
Qed.
Lemma strict_fixed rm a : isStrictAddress a = true -> inputAddressFormatter rm (VStr a) = Some (VStr a).
Proof.
  intros H. unfold inputAddressFormatter, isValid. rewrite strict_not_iban by done. cbn [mbind option_bind andb]. by rewrite H.
Qed.

(** A value that is accepted as an address, not a direct account number of 35
    characters. *)
Definition plain_address (v : value) : Prop := exists s, v = VStr s /\ (js_len s = 35 -> iban_format s = false).

Lemma address_strict rm v r :
  inputAddressFormatter rm v = Some r -> plain_address v -> exists a, r = VStr a /\ isStrictAddress a = true.
Proof.
  intros H (s & -> & Hp). unfold inputAddressFormatter in H. destruct (isValid s) as [valid|] eqn:Ev; [|done].
  cbn [mbind option_bind] in H. destruct (valid && isDirect s) eqn:Ed.
  - apply andb_prop in Ed as [-> Hd]. apply bind_Some in H as (a & Ha & [= <-]).
    assert (iban_format s = true) as Hf by (unfold isValid in Ev; by destruct (iban_format s)).
    exists (str "0x" ++ a). split; [done|]. unfold isDirect in Hd. destruct (direct_address rm s a Hf) as [H1 H2]; [|done|].
    + destruct (Z.eqb_spec (js_len s) 34); [done|]. destruct (Z.eqb_spec (js_len s) 35); [|done]. by rewrite Hp in Hf.
    + by apply strict_prefixed.
  - destruct (isStrictAddress s) eqn:Es; [injection H as <-; by exists s|].
    apply bind_Some in H as (ok & Hok & H). destruct ok; [|done]. injection H as <-. exists (str "0x" ++ s). split; [done|].
    unfold isAddress in Hok. destruct (test_any 40 s) eqn:Et; [|done]. unfold test_any in Et. unfold isStrictAddress in Es.
    rewrite Es, orb_false_r in Et. apply andb_prop in Et as [E1 E2]. apply strict_prefixed; [by apply Nat.eqb_eq|done].
Qed.

(** * Amounts *)

(** The text of an integer in a request *)
Definition hex_int (m : Z) : jsstr := (if m <? 0 then str "-0x" else str "0x") ++ to_base 16 (Z.abs m).

Lemma fromDecimal_int rm v m : toBigNumber rm v = Some (Big m 0) -> hex_decimal rm v = Some (VStr (hex_int m)).
Proof.
  intros H. unfold hex_decimal, fromDecimal. rewrite H. cbn [mbind option_bind fmap option_fmap option_map toString_base].
  unfold lessThan0, hex_int. do 2 f_equal. unfold to_base. destruct (Z.ltb_spec m 0).
  - rewrite js_substr_from_nonneg by lia. cbn [Z.to_nat Pos.to_nat Pos.iter_op drop].
    replace (Z.abs m <? 0) with false by lia. replace (Z.abs m) with (- m) by lia.
    cbn [is_neg]. by replace (m <? 0) with true by lia.
  - replace (Z.abs m <? 0) with false by lia. replace (Z.abs m) with m by lia.
    cbn [is_neg]. by replace (m <? 0) with false by lia.
Qed.

Lemma new_BigNumber_neg rm b ds :
  ds <> [] -> Forall (is_digit b) ds -> b <= 36 -> b <> 10 ->
  new_BigNumber rm (45 :: (digit_char <$> ds)) (Some b) = Some (Big (- of_digits b ds) 0).
Proof.
  intros Hn Hd Hb H10. unfold new_BigNumber. rewrite Nat.add_succ_r. cbn [construct].
  replace (b =? 10) with false by lia. unfold read_base. cbn [strip_minus Z.eqb Pos.eqb].
  rewrite span_all by by apply digits_base. unfold base_value. rewrite of_base_digits by done. by destruct ds.
Qed.

Lemma toBigNumber_hex rm m : toBigNumber rm (VStr (hex_int m)) = Some (Big m 0).
Proof.
  unfold hex_int. rewrite to_base_nonneg by lia. destruct (Z.ltb_spec m 0).
  - change (toBigNumber rm (VStr (str "-0x" ++ (digit_char <$> digits 16 (Z.abs m)))))
      with (new_BigNumber rm (replace_first (str "0x") [] (45 :: str "0x" ++ (digit_char <$> digits 16 (Z.abs m)))) (Some 16)).
    change (replace_first (str "0x") [] (45 :: str "0x" ++ (digit_char <$> digits 16 (Z.abs m))))
      with (45 :: drop 0 (digit_char <$> digits 16 (Z.abs m))).
    rewrite drop_0, new_BigNumber_neg; [|apply digits_nonempty|apply digits_valid; lia|lia|lia].
    rewrite of_digits_digits by lia. do 2 f_equal. lia.
  - change (toBigNumber rm (VStr (str "0x" ++ (digit_char <$> digits 16 (Z.abs m)))))
      with (new_BigNumber rm (replace_first (str "0x") [] (str "0x" ++ (digit_char <$> digits 16 (Z.abs m)))) (Some 16)).
    rewrite replace_0x_prefixed, new_BigNumber_digits; [|apply digits_nonempty|apply digits_valid; lia|lia|lia].
    rewrite of_digits_digits by lia. do 2 f_equal. lia.
Qed.

Lemma hex_decimal_fixed rm m : hex_decimal rm (VStr (hex_int m)) = Some (VStr (hex_int m)).
Proof. apply fromDecimal_int, toBigNumber_hex. Qed.

(** * Objects *)

Lemma assoc_set_same {A} k (v : A) l : assoc k (set_key k v l) = Some v.
Proof.
  induction l as [|[k' y] l IH]; cbn [set_key assoc]; [by rewrite bool_decide_true|].
  case_bool_decide as E; cbn [assoc]; [by rewrite bool_decide_true|]. by rewrite bool_decide_false.
Qed.
Lemma assoc_set_other {A} k k' (v : A) l : k' <> k -> assoc k' (set_key k v l) = assoc k' l.
Proof.
  intros Hk. induction l as [|[k2 y] l IH]; cbn [set_key assoc]; [by rewrite bool_decide_false|].
  case_bool_decide as E; cbn [assoc]; [subst; by rewrite !(bool_decide_false (k' = k2))|]. by rewrite IH.
Qed.
Lemma set_key_id {A} k (v : A) l : assoc k l = Some v -> set_key k v l = l.
Proof.
  induction l as [|[k' y] l IH]; cbn [set_key assoc]; [done|]. case_bool_decide as E.
  - intros [= ->]. by subst.
  - intros H. by rewrite IH.
Qed.

Lemma field_set_same k v fs : field k (VObj (set_key k v fs)) = v.
Proof. cbn [field]. by rewrite assoc_set_same. Qed.
Lemma field_set_other k k' v fs : k' <> k -> field k' (VObj (set_key k v fs)) = field k' (VObj fs).
Proof. intros. cbn [field]. by rewrite assoc_set_other. Qed.
Lemma put_same k v fs : field k (VObj fs) = v -> v <> VUndefined -> put k v (VObj fs) = Some (VObj fs).
Proof.
  cbn [field put]. intros H Hv. destruct (assoc k fs) as [w|] eqn:E; cbn in H; [|by subst].
  subst. by rewrite set_key_id.
Qed.

(** What an update does to an object: the field, and no other. *)
Lemma update_when_spec p f k fs o :
  update_when p f k (VObj fs) = Some o ->
  exists gs, o = VObj gs /\ (forall k', k' <> k -> field k' o = field k' (VObj fs)) /\
    if p (field k (VObj fs)) then f (field k (VObj fs)) = Some (field k o) else gs = fs.
Proof.
  unfold update_when. cbn [get mbind option_bind]. destruct (p (field k (VObj fs))).
  - intros (w & Hw & [= <-])%bind_Some. exists (set_key k w fs). split_and!; [done| |].
    + intros k' Hk. by apply field_set_other.
    + by rewrite field_set_same.
  - intros [= <-]. by exists fs.
Qed.

Lemma update_fixed p f k fs :
  (p (field k (VObj fs)) = true -> f (field k (VObj fs)) = Some (field k (VObj fs)) /\ field k (VObj fs) <> VUndefined) ->
  update_when p f k (VObj fs) = Some (VObj fs).
Proof.
  intros H. unfold update_when. cbn [get mbind option_bind]. destruct (p _) eqn:E; [|done].
  destruct (H eq_refl) as [H1 H2]. rewrite H1. cbn [option_bind]. by apply put_same.
Qed.

(** [update_field] is an update that always happens. *)
Lemma update_field_when f k o : update_field f k o = update_when (fun _ => true) f k o.
Proof. done. Qed.

(** * Transactions *)

(** A transaction object as the node takes it: addresses of forty digits and amounts
    in hexadecimal. *)
Definition strict_value (v : value) : Prop := exists a, v = VStr a /\ isStrictAddress a = true.
Record tx_ready (o : value) : Prop := {
  ready_obj : exists fs, o = VObj fs;
  ready_from : strict_value (field (str "from") o);
  ready_to : truthy (field (str "to") o) = true -> strict_value (field (str "to") o);
  ready_amounts : Forall (fun k => field k o = VUndefined \/ exists m, field k o = VStr (hex_int m)) number_keys
}.
(** An amount that is absent or an integer. *)
Definition integer_amount (rm : rounding) (v : value) : Prop :=
  v = VUndefined \/ exists m, toBigNumber rm v = Some (Big m 0).

Lemma strict_truthy v : strict_value v -> truthy v = true.
Proof. intros (a & -> & H). by destruct a. Qed.

Lemma format_numbers_spec rm keys fs o :
  NoDup keys -> Forall (fun k => integer_amount rm (field k (VObj fs))) keys ->
  format_numbers rm keys (VObj fs) = Some o ->
  (exists gs, o = VObj gs) /\ (forall k, k ∉ keys -> field k o = field k (VObj fs)) /\
  Forall (fun k => field k o = VUndefined /\ field k (VObj fs) = VUndefined \/
            exists m, field k o = VStr (hex_int m) /\ toBigNumber rm (field k (VObj fs)) = Some (Big m 0)) keys.
Proof.
  revert fs. induction keys as [|key keys IH]; intros fs Hn Hk; cbn [format_numbers].
  { intros [= <-]. split_and!; [by exists fs|done|done]. }
  intros (o1 & H1 & H2)%bind_Some. apply NoDup_cons in Hn as [Hn1 Hn2]. apply Forall_cons in Hk as [Hk1 Hk2].
  destruct (update_when_spec _ _ _ _ _ H1) as (gs & -> & Ho & Hf).
  destruct (IH gs Hn2) as (E1 & E2 & E3); [|done|].
  { eapply Forall_impl_in; [exact Hk2|]. intros k Hin Hi. rewrite Ho; [done|]. by intros ->. }
  split_and!; [done| |].
  - intros k Hnk. apply not_elem_of_cons in Hnk as [Hne Hnk]. by rewrite E2, Ho.
  - constructor.
    + rewrite (E2 key Hn1). destruct Hk1 as [Hu|[m Hm]].
      * rewrite Hu in Hf. cbn in Hf. subst gs. by left.
      * destruct (is_defined (field key (VObj fs))) eqn:Ed.
        -- rewrite (fromDecimal_int rm _ m Hm) in Hf. right. exists m. split; [congruence|done].
        -- subst gs. left. by destruct (field key (VObj fs)).
    + eapply Forall_impl_in; [exact E3|]. intros k Hin. cbn beta. rewrite (Ho k); [done|]. by intros ->.
Qed.

Lemma ready_fixed rm c o : tx_ready o -> inputTransactionFormatter rm c o = Some o.
Proof.
  intros [[fs ->] Hf Ht Ha]. unfold inputTransactionFormatter, default_from. cbn [get mbind option_bind].
  rewrite (strict_truthy _ Hf). rewrite put_same; [|done|by destruct Hf as (a & -> & _)]. cbn [mbind option_bind].
  rewrite update_field_when, update_fixed by (intros _; destruct Hf as (a & -> & H); by rewrite strict_fixed). cbn [mbind option_bind].
  rewrite update_fixed by (intros H; destruct (Ht H) as (a & -> & H'); by rewrite strict_fixed). cbn [mbind option_bind].
  induction Ha as [|k ks [Hk|[m Hk]] _ IH]; cbn [format_numbers]; [done| |].
  - rewrite update_fixed by (rewrite Hk; intros E; discriminate E). exact IH.
  - rewrite update_fixed by (rewrite Hk; intros _; by rewrite hex_decimal_fixed). exact IH.
Qed.

(** The account a transaction is sent from *)
Definition sender (c : config) (o : value) : value :=
  let from := field (str "from") o in if truthy from then from else defaultAccount c.

Lemma number_keys_nodup : NoDup number_keys /\ (str "from" ∉ number_keys) /\ (str "to" ∉ number_keys).
Proof. split_and!; apply (bool_decide_unpack _); vm_compute; reflexivity. Qed.


Lemma format_numbers_other rm keys fs o k :
  k ∉ keys -> format_numbers rm keys (VObj fs) = Some o -> field k o = field k (VObj fs).
Proof.
  revert fs. induction keys as [|key keys IH]; intros fs Hk; cbn [format_numbers]; [by intros [= <-]|].
  apply not_elem_of_cons in Hk as [Hne Hk]. intros (o1 & H1 & H2)%bind_Some.
  destruct (update_when_spec _ _ _ _ _ H1) as (gs & -> & Ho & _). by rewrite (IH gs Hk H2), Ho.
Qed.

(** Without a recipient there is none after formatting. *)
Lemma no_recipient rm c fs o :
  truthy (field (str "to") (VObj fs)) = false -> inputTransactionFormatter rm c (VObj fs) = Some o ->
  field (str "to") o = field (str "to") (VObj fs).
Proof.
  intros Ht H. assert (str "to" <> str "from") as Htf by discriminate. destruct number_keys_nodup as (_ & _ & Hnt).
  unfold inputTransactionFormatter, default_from in H. cbn [get mbind option_bind put] in H.
  apply bind_Some in H as (o1 & H1 & H). rewrite update_field_when in H1.
  destruct (update_when_spec _ _ _ _ _ H1) as (f2 & -> & Ho1 & _).
  apply bind_Some in H as (o2 & H2 & H). destruct (update_when_spec _ _ _ _ _ H2) as (f3 & -> & _ & Hf2).
  specialize (Ho1 _ Htf). rewrite field_set_other in Ho1 by done. rewrite Ho1, Ht in Hf2. subst f3.
  rewrite (format_numbers_other rm number_keys f2 o _ Hnt H). exact Ho1.
Qed.


(** A valid account number of 35 characters can stand for a number of more than
    forty digits, and is then turned into an address that no node accepts. *)
Theorem long_iban_accepted :
  isValid (str "XE54ZZZZZZZZZZZZZZZZZZZZZZZZZZZZZZZ") = Some true /\
  inputAddressFormatter ROUND_HALF_UP (VStr (str "XE54ZZZZZZZZZZZZZZZZZZZZZZZZZZZZZZZ")) =
    Some (VStr (str "0x1343093195196b9fcca7c68ce3fffffffffffffff")) /\
  isStrictAddress (str "0x1343093195196b9fcca7c68ce3fffffffffffffff") = false.
Proof. split_and!; vm_compute; reflexivity. Qed.
