(* ===== verification/Methods.v ===== *)
(** RPC methods and properties (web3.js 4962-5098, 6166-6281), the tables that
    make up [web3.eth], [db], [net], [personal], [shh] and [bzz] and the filter
    methods (5125-6096), and how they are attached to the API objects.

    The arguments of a call are values followed, when the caller gives one, by a
    callback. *)
From S2P Require Import Prelude BigNumber Utils Rpc Formatters.

(** * Methods *)

Definition formatter : Type := value -> option value.

(** The name of the RPC method, fixed or computed from the arguments; the
    computation may drop arguments and change the number expected. *)
Inductive call :=
  | CallName (name : jsstr)
  | CallFun (f : nat -> list value -> jsstr * nat * list value).
Record method := Method {
  m_name : jsstr;
  m_call : call;
  m_params : nat;
  m_inputFormatter : option (list (option formatter));
  m_outputFormatter : option formatter
}.
Definition with_params (n : nat) (m : method) : method :=
  Method (m_name m) (m_call m) n (m_inputFormatter m) (m_outputFormatter m).

Definition getCall (m : method) (args : list value) : jsstr * method * list value :=
  match m_call m with
  | CallName name => (name, m, args)
  | CallFun f => let '(name, n, args) := f (m_params m) args in (name, with_params n m, args)
  end.

Definition arg (args : list value) (i : nat) : value := default VUndefined (args !! i).
Fixpoint format_args (fs : list (option formatter)) (i : nat) (args : list value) : option (list value) :=
  match fs with
  | [] => Some []
  | f :: fs =>
      v ← match f with Some f => f (arg args i) | None => Some (arg args i) end;
      vs ← format_args fs (S i) args;
      Some (v :: vs)
  end.
Definition formatInput (m : method) (args : list value) : option (list value) :=
  match m_inputFormatter m with
  | Some fs => format_args fs 0 args
  | None => Some args
  end.
Definition formatOutput (m : method) (result : value) : option value :=
  match m_outputFormatter m with
  | Some f => if truthy result then f result else Some result
  | None => Some result
  end.
Definition validateArgs (m : method) (args : list value) : bool := (length args =? m_params m)%nat.

(** What [toPayload] throws: the error of a formatter, or [InvalidNumberOfRPCParams]. *)
Inductive fault := FormatterThrows | InvalidParams.
Definition toPayload (m : method) (args : list value) : fault + (jsstr * list value) * method :=
  let '(name, m, args) := getCall m args in
  match formatInput m args with
  | None => inl FormatterThrows
  | Some params => if validateArgs m params then inr (name, params, m) else inl InvalidParams
  end.

(** A call without a callback: the message is sent and its answer, given here,
    formatted.  [None] is an exception. *)
Definition call_sync (m : method) (args : list value) (answer : value) (s : manager) : manager * list effect * option value :=
  match toPayload m args with
  | inl _ => (s, [], None)
  | inr (name, params, m) =>
      let '(s, fx, r) := send name params answer s in (s, fx, r ≫= formatOutput m)
  end.
(** A call with a callback, and what the callback gets when the answer is there. *)
Definition call_async (m : method) (args : list value) (cb : callback) (s : manager) : option (manager * list effect * method) :=
  match toPayload m args with
  | inl _ => None
  | inr (name, params, m) => let '(s, fx) := sendAsync name params cb s in Some (s, fx, m)
  end.
Definition call_answer (m : method) (cb : callback) (error : option jsstr) (answer : value) : option effect :=
  match async_answer cb error answer with
  | Call cb e r => r ← formatOutput m r; Some (Call cb e r)
  | e => Some e
  end.
(** [request]: the part of a batch *)
Definition method_request (m : method) (args : list value) (cb : option callback) : option request :=
  match toPayload m args with
  | inl _ => None
  | inr (name, params, m) => Some (Request name params cb (formatOutput m))
  end.

(** * Properties *)

Record property := Property {
  p_name : jsstr;
  p_getter : jsstr;
  p_inputFormatter : option formatter;
  p_outputFormatter : option formatter
}.
Definition prop_formatOutput (p : property) (result : value) : option value :=
  match p_outputFormatter p, result with
  | None, _ | _, VNull | _, VUndefined => Some result
  | Some f, _ => f result
  end.
Definition get_sync (p : property) (answer : value) (s : manager) : manager * list effect * option value :=
  let '(s, fx, r) := send (p_getter p) [] answer s in (s, fx, r ≫= prop_formatOutput p).
Definition get_async (p : property) (cb : callback) (s : manager) : manager * list effect := sendAsync (p_getter p) [] cb s.
Definition get_answer (p : property) (cb : callback) (error : option jsstr) (answer : value) : option effect :=
  match async_answer cb error answer with
  | Call cb e r => r ← prop_formatOutput p r; Some (Call cb e r)
  | e => Some e
  end.
Definition prop_request (p : property) (cb : option callback) : request :=
  Request (p_getter p) [] cb (prop_formatOutput p).

(** [name.split('.')] *)
Fixpoint split_dot (s : jsstr) : list jsstr :=
  match s with
  | [] => [[]]
  | c :: s => if c =? 46 then [] :: split_dot s
              else match split_dot s with
                   | w :: ws => (c :: w) :: ws
                   | [] => [[c]]
                   end
  end.
Definition asyncGetterName (name : jsstr) : jsstr :=
  str "get" ++ js_upper (take 1 name) ++ drop 1 name.

(** * API objects

    An object of the API by the paths of its members: one name, or two for a
    member of an inner object. *)
Inductive member := Func (m : method) | Getter (p : property) | AsyncGetter (p : property).
Abbreviation api := (list (list jsstr * member)).
Fixpoint lookup_path (k : list jsstr) (o : api) : option member :=
  match o with
  | [] => None
  | (k', x) :: o => if bool_decide (k = k') then Some x else lookup_path k o
  end.
Fixpoint set_path (k : list jsstr) (x : member) (o : api) : api :=
  match o with
  | [] => [(k, x)]
  | (k', y) :: o => if bool_decide (k = k') then (k, x) :: o else (k', y) :: set_path k x o
  end.
Definition path_of (name : jsstr) : list jsstr := take 2 (split_dot name).
Definition attach_method (o : api) (m : method) : api := set_path (path_of (m_name m)) (Func m) o.
Definition async_path (name : jsstr) : list jsstr :=
  match path_of name with
  | [n] => [asyncGetterName n]
  | [o; n] => [o; asyncGetterName n]
  | p => p
  end.
Definition attach_property (o : api) (p : property) : api :=
  set_path (async_path (p_name p)) (AsyncGetter p) (set_path (path_of (p_name p)) (Getter p) o).
Definition attach (ms : list method) (ps : list property) : api :=
  foldl attach_property (foldl attach_method [] ms) ps.

(** * The tables *)

Module DB.
Definition putString : method :=
  Method (str "putString") (CallName (str "db_putString")) 3 None None.
Definition getString : method :=
  Method (str "getString") (CallName (str "db_getString")) 2 None None.
Definition putHex : method :=
  Method (str "putHex") (CallName (str "db_putHex")) 3 None None.
Definition getHex : method :=
  Method (str "getHex") (CallName (str "db_getHex")) 2 None None.

Definition methods : list method := [putString; getString; putHex; getHex].
End DB.

Module Eth.
(** Whether a block is asked for by hash: a string that starts with 0x. *)
Definition by_hash (args : list value) : bool :=
  match arg args 0 with VStr s => js_starts_with (str "0x") s | _ => false end.
Definition choose (hash number : jsstr) (params : nat) (args : list value) : jsstr * nat * list value :=
  (if by_hash args then hash else number, params, args).
Definition blockCall := choose (str "eth_getBlockByHash") (str "eth_getBlockByNumber").
Definition transactionFromBlockCall :=
  choose (str "eth_getTransactionByBlockHashAndIndex") (str "eth_getTransactionByBlockNumberAndIndex").
Definition uncleCall := choose (str "eth_getUncleByBlockHashAndIndex") (str "eth_getUncleByBlockNumberAndIndex").
Definition getBlockTransactionCountCall :=
  choose (str "eth_getBlockTransactionCountByHash") (str "eth_getBlockTransactionCountByNumber").
Definition uncleCountCall := choose (str "eth_getUncleCountByBlockHash") (str "eth_getUncleCountByBlockNumber").
Definition to_bool (v : value) : option value := Some (VBool (truthy v)).

Section Tables.
Context (rm : rounding) (c : config).

Definition getBalance : method :=
  Method (str "getBalance") (CallName (str "eth_getBalance")) 2
    (Some [Some (inputAddressFormatter rm); Some (inputDefaultBlockNumberFormatter rm c)]) (Some (outputBigNumberFormatter rm)).
Definition getStorageAt : method :=
  Method (str "getStorageAt") (CallName (str "eth_getStorageAt")) 3
    (Some [None; Some (hex_value rm); Some (inputDefaultBlockNumberFormatter rm c)]) None.
Definition getCode : method :=
  Method (str "getCode") (CallName (str "eth_getCode")) 2
    (Some [Some (inputAddressFormatter rm); Some (inputDefaultBlockNumberFormatter rm c)]) None.
Definition getBlock : method :=
  Method (str "getBlock") (CallFun blockCall) 2
    (Some [Some (inputBlockNumberFormatter rm); Some to_bool]) (Some (outputBlockFormatter rm)).
Definition getUncle : method :=
  Method (str "getUncle") (CallFun uncleCall) 2
    (Some [Some (inputBlockNumberFormatter rm); Some (hex_value rm)]) (Some (outputBlockFormatter rm)).
Definition getCompilers : method :=
  Method (str "getCompilers") (CallName (str "eth_getCompilers")) 0 None None.
Definition getBlockTransactionCount : method :=
  Method (str "getBlockTransactionCount") (CallFun getBlockTransactionCountCall) 1
    (Some [Some (inputBlockNumberFormatter rm)]) (Some (decimal rm)).
Definition getBlockUncleCount : method :=
  Method (str "getBlockUncleCount") (CallFun uncleCountCall) 1
    (Some [Some (inputBlockNumberFormatter rm)]) (Some (decimal rm)).
Definition getTransaction : method :=
  Method (str "getTransaction") (CallName (str "eth_getTransactionByHash")) 1 None (Some (outputTransactionFormatter rm)).
Definition getTransactionFromBlock : method :=
  Method (str "getTransactionFromBlock") (CallFun transactionFromBlockCall) 2
    (Some [Some (inputBlockNumberFormatter rm); Some (hex_value rm)]) (Some (outputTransactionFormatter rm)).
Definition getTransactionReceipt : method :=
  Method (str "getTransactionReceipt") (CallName (str "eth_getTransactionReceipt")) 1 None (Some (outputTransactionReceiptFormatter rm)).
Definition getTransactionCount : method :=
  Method (str "getTransactionCount") (CallName (str "eth_getTransactionCount")) 2
    (Some [None; Some (inputDefaultBlockNumberFormatter rm c)]) (Some (decimal rm)).
Definition sendRawTransaction : method :=
  Method (str "sendRawTransaction") (CallName (str "eth_sendRawTransaction")) 1 (Some [None]) None.
Definition sendTransaction : method :=
  Method (str "sendTransaction") (CallName (str "eth_sendTransaction")) 1
    (Some [Some (inputTransactionFormatter rm c)]) None.
Definition signTransaction : method :=
  Method (str "signTransaction") (CallName (str "eth_signTransaction")) 1
    (Some [Some (inputTransactionFormatter rm c)]) None.
Definition sign : method :=
  Method (str "sign") (CallName (str "eth_sign")) 2 (Some [Some (inputAddressFormatter rm); None]) None.
Definition call : method :=
  Method (str "call") (CallName (str "eth_call")) 2
    (Some [Some (inputCallFormatter rm c); Some (inputDefaultBlockNumberFormatter rm c)]) None.
Definition estimateGas : method :=
  Method (str "estimateGas") (CallName (str "eth_estimateGas")) 1
    (Some [Some (inputCallFormatter rm c)]) (Some (decimal rm)).
Definition compileSolidity : method :=
  Method (str "compile.solidity") (CallName (str "eth_compileSolidity")) 1 None None.
Definition compileLLL : method :=
  Method (str "compile.lll") (CallName (str "eth_compileLLL")) 1 None None.
Definition compileSerpent : method :=
  Method (str "compile.serpent") (CallName (str "eth_compileSerpent")) 1 None None.
Definition submitWork : method :=
  Method (str "submitWork") (CallName (str "eth_submitWork")) 3 None None.
Definition getWork : method :=
  Method (str "getWork") (CallName (str "eth_getWork")) 0 None None.

Definition methods : list method :=
  [getBalance; getStorageAt; getCode; getBlock; getUncle; getCompilers; getBlockTransactionCount;
   getBlockUncleCount; getTransaction; getTransactionFromBlock; getTransactionReceipt; getTransactionCount;
   call; estimateGas; sendRawTransaction; signTransaction; sendTransaction; sign; compileSolidity; compileLLL;
   compileSerpent; submitWork; getWork].

Definition properties : list property :=
  [Property (str "coinbase") (str "eth_coinbase") None None;
   Property (str "mining") (str "eth_mining") None None;
   Property (str "hashrate") (str "eth_hashrate") None (Some (decimal rm));
   Property (str "syncing") (str "eth_syncing") None (Some (outputSyncingFormatter rm));
   Property (str "gasPrice") (str "eth_gasPrice") None (Some (outputBigNumberFormatter rm));
   Property (str "accounts") (str "eth_accounts") None None;
   Property (str "blockNumber") (str "eth_blockNumber") None (Some (decimal rm));
   Property (str "protocolVersion") (str "eth_protocolVersion") None None].
End Tables.
End Eth.

Module Net.
Definition properties (rm : rounding) : list property :=
  [Property (str "listening") (str "net_listening") None None;
   Property (str "peerCount") (str "net_peerCount") None (Some (decimal rm))].
End Net.

Module Personal.
Section Tables.
Context (rm : rounding) (c : config).

Definition newAccount : method :=
  Method (str "newAccount") (CallName (str "personal_newAccount")) 1 (Some [None]) None.
Definition importRawKey : method :=
  Method (str "importRawKey") (CallName (str "personal_importRawKey")) 2 None None.
Definition sign : method :=
  Method (str "sign") (CallName (str "personal_sign")) 3 (Some [None; Some (inputAddressFormatter rm); None]) None.
Definition ecRecover : method :=
  Method (str "ecRecover") (CallName (str "personal_ecRecover")) 2 None None.
Definition unlockAccount : method :=
  Method (str "unlockAccount") (CallName (str "personal_unlockAccount")) 3
    (Some [Some (inputAddressFormatter rm); None; None]) None.
Definition sendTransaction : method :=
  Method (str "sendTransaction") (CallName (str "personal_sendTransaction")) 2
    (Some [Some (inputTransactionFormatter rm c); None]) None.
Definition lockAccount : method :=
  Method (str "lockAccount") (CallName (str "personal_lockAccount")) 1
    (Some [Some (inputAddressFormatter rm)]) None.

Definition methods : list method :=
  [newAccount; importRawKey; unlockAccount; ecRecover; sign; sendTransaction; lockAccount].
Definition properties : list property := [Property (str "listAccounts") (str "personal_listAccounts") None None].
End Tables.
End Personal.

Module Shh.
Definition methods : list method :=
  [Method (str "version") (CallName (str "shh_version")) 0 None None;
   Method (str "info") (CallName (str "shh_info")) 0 None None;
   Method (str "setMaxMessageSize") (CallName (str "shh_setMaxMessageSize")) 1 None None;
   Method (str "setMinPoW") (CallName (str "shh_setMinPoW")) 1 None None;
   Method (str "markTrustedPeer") (CallName (str "shh_markTrustedPeer")) 1 None None;
   Method (str "newKeyPair") (CallName (str "shh_newKeyPair")) 0 None None;
   Method (str "addPrivateKey") (CallName (str "shh_addPrivateKey")) 1 None None;
   Method (str "deleteKeyPair") (CallName (str "shh_deleteKeyPair")) 1 None None;
   Method (str "hasKeyPair") (CallName (str "shh_hasKeyPair")) 1 None None;
   Method (str "getPublicKey") (CallName (str "shh_getPublicKey")) 1 None None;
   Method (str "getPrivateKey") (CallName (str "shh_getPrivateKey")) 1 None None;
   Method (str "newSymKey") (CallName (str "shh_newSymKey")) 0 None None;
   Method (str "addSymKey") (CallName (str "shh_addSymKey")) 1 None None;
   Method (str "generateSymKeyFromPassword") (CallName (str "shh_generateSymKeyFromPassword")) 1 None None;
   Method (str "hasSymKey") (CallName (str "shh_hasSymKey")) 1 None None;
   Method (str "getSymKey") (CallName (str "shh_getSymKey")) 1 None None;
   Method (str "deleteSymKey") (CallName (str "shh_deleteSymKey")) 1 None None;
   Method (str "post") (CallName (str "shh_post")) 1 (Some [None]) None].
End Shh.

Module Swarm.
Definition blockNetworkRead : method :=
  Method (str "blockNetworkRead") (CallName (str "bzz_blockNetworkRead")) 1 (Some [None]) None.
Definition syncEnabled : method :=
  Method (str "syncEnabled") (CallName (str "bzz_syncEnabled")) 1 (Some [None]) None.
Definition swapEnabled : method :=
  Method (str "swapEnabled") (CallName (str "bzz_swapEnabled")) 1 (Some [None]) None.
Definition download : method :=
  Method (str "download") (CallName (str "bzz_download")) 2 (Some [None; None]) None.
Definition upload : method :=
  Method (str "upload") (CallName (str "bzz_upload")) 2 (Some [None; None]) None.
Definition retrieve : method :=
  Method (str "retrieve") (CallName (str "bzz_retrieve")) 1 (Some [None]) None.
Definition store : method :=
  Method (str "store") (CallName (str "bzz_store")) 2 (Some [None; None]) None.
Definition get : method :=
  Method (str "get") (CallName (str "bzz_get")) 1 (Some [None]) None.
Definition put : method :=
  Method (str "put") (CallName (str "bzz_put")) 2 (Some [None; None]) None.
Definition modify : method :=
  Method (str "modify") (CallName (str "bzz_modify")) 4 (Some [None; None; None; None]) None.

Definition methods : list method :=
  [blockNetworkRead; syncEnabled; swapEnabled; download; upload; retrieve; store; get; put; modify].
Definition properties : list property :=
  [Property (str "hive") (str "bzz_hive") None None;
   Property (str "info") (str "bzz_info") None None].
End Swarm.

Module Watches.
(** A filter on a block state takes no parameter: the argument is dropped. *)
Definition newFilterCall (params : nat) (args : list value) : jsstr * nat * list value :=
  if is_str (str "latest") (arg args 0) then (str "eth_newBlockFilter", O, tail args)
  else if is_str (str "pending") (arg args 0) then (str "eth_newPendingTransactionFilter", O, tail args)
  else (str "eth_newFilter", params, args).
Definition newFilter : method :=
  Method (str "newFilter") (CallFun newFilterCall) 1 None None.
Definition uninstallFilter : method :=
  Method (str "uninstallFilter") (CallName (str "eth_uninstallFilter")) 1 None None.
Definition getLogs : method :=
  Method (str "getLogs") (CallName (str "eth_getFilterLogs")) 1 None None.
Definition poll : method :=
  Method (str "poll") (CallName (str "eth_getFilterChanges")) 1 None None.

Definition eth : list method := [newFilter; uninstallFilter; getLogs; poll].
Definition shh : list method :=
  [Method (str "newFilter") (CallName (str "shh_newMessageFilter")) 1 None None;
   Method (str "uninstallFilter") (CallName (str "shh_deleteMessageFilter")) 1 None None;
   Method (str "getLogs") (CallName (str "shh_getFilterMessages")) 1 None None;
   Method (str "poll") (CallName (str "shh_getFilterMessages")) 1 None None].
End Watches.

Module Web3.
(** The properties of [web3] itself; their conversions are given as formatters of
    the input, which a property never has. *)
Definition properties (rm : rounding) : list property :=
  [Property (str "version.node") (str "web3_clientVersion") None None;
   Property (str "version.network") (str "net_version") (Some (decimal rm)) None;
   Property (str "version.ethereum") (str "eth_protocolVersion") (Some (decimal rm)) None;
   Property (str "version.whisper") (str "shh_version") (Some (decimal rm)) None].
End Web3.

(** * Parameters *)

Definition all_methods (rm : rounding) (c : config) : list method :=
  DB.methods ++ Eth.methods rm c ++ Personal.methods rm c ++ Shh.methods ++ Swarm.methods ++ Watches.eth ++ Watches.shh.

(** What the tables keep to: a formatter for every parameter when there are any;
    and a name that is computed either leaves the parameters alone or is the one
    of a new filter. *)
Definition regular (m : method) : Prop :=
  (forall fs, m_inputFormatter m = Some fs -> length fs = m_params m) /\
  match m_call m with
  | CallName _ => True
  | CallFun f =>
      (forall n args, (f n args).1.2 = n /\ (f n args).2 = args) \/
      (f = Watches.newFilterCall /\ m_params m = 1%nat /\ m_inputFormatter m = None)
  end.

Lemma methods_regular rm c : Forall regular (all_methods rm c).
Proof.
  assert (forall h n k args, (Eth.choose h n k args).1.2 = k /\ (Eth.choose h n k args).2 = args) as Hc by done.
  assert (forall x l, regular x -> Forall regular l -> Forall regular (x :: l)) as Hcons by by constructor.
  repeat match goal with |- Forall _ _ => first [apply Hcons | apply Forall_nil_2] end;
    (split; [intros fs H; (injection H as <-; reflexivity) || discriminate H|
             first [exact I | left; apply Hc | right; split_and!; reflexivity]]).
Qed.

Lemma format_args_length fs i args vs : format_args fs i args = Some vs -> length vs = length fs.
Proof.
  revert i vs. induction fs as [|f fs IH]; intros i vs; cbn [format_args]; [by intros [= <-]|].
  intros (v & _ & (ws & Hw & [= <-])%bind_Some)%bind_Some. cbn. by rewrite (IH _ _ Hw).
Qed.

Lemma accepted_iff {A B} (e : A) (x : B) n k :
  (exists p, (if (n =? k)%nat then inr x else inl e) = inr p) <-> n = k.
Proof.
  destruct (Nat.eqb_spec n k) as [E|E]; (split; [|intros H]).
  - done.
  - by exists x.
  - intros [p Hp]. discriminate Hp.
  - done.
Qed.

Lemma new_filter_arity m args :
  m_call m = CallFun Watches.newFilterCall -> m_params m = 1%nat -> m_inputFormatter m = None ->
  (exists p, toPayload m args = inr p) <-> length args = 1%nat.
Proof.
  intros Hc Hp Hf. unfold toPayload, getCall. rewrite Hc, Hp. unfold Watches.newFilterCall.
  assert (forall name n l, (exists p, (match formatInput (with_params n m) l with
      | None => inl FormatterThrows
      | Some params => if validateArgs (with_params n m) params then inr (name, params, with_params n m) else inl InvalidParams
      end : fault + (jsstr * list value) * method) = inr p) <-> length l = n) as H.
  { intros name n l. unfold formatInput. cbn [with_params m_inputFormatter]. rewrite Hf. unfold validateArgs. cbn [m_params].
    apply accepted_iff. }
  destruct (is_str (str "latest") (arg args 0)) eqn:E1; [rewrite H|destruct (is_str (str "pending") (arg args 0)) eqn:E2; rewrite H].
  - destruct args as [|a args]; [done|]. cbn. lia.
  - destruct args as [|a args]; [done|]. cbn. lia.
  - done.
Qed.

(** Every message of the library's methods has the number of parameters its method
    is declared with.  A method with formatters builds them from whatever it is
    given and never complains; any other is accepted just when it is called with
    that number of arguments. *)
Theorem rpc_arity rm c m args :
  m ∈ all_methods rm c ->
  match m_inputFormatter m with
  | Some _ =>
      toPayload m args <> inl InvalidParams /\
      forall name params m', toPayload m args = inr (name, params, m') -> length params = m_params m
  | None => (exists p, toPayload m args = inr p) <-> length args = m_params m
  end.
Proof.
  intros Hm. destruct (proj1 (Forall_forall _ _) (methods_regular rm c) m Hm) as [Hr Hc]. clear Hm.
  assert (m_inputFormatter m = None /\ m_params m = 1%nat /\ m_call m = CallFun Watches.newFilterCall \/
          exists name m1, toPayload m args = 
            match formatInput m args with
            | None => inl FormatterThrows
            | Some params => if validateArgs m params then inr (name, params, m1) else inl InvalidParams
            end) as [(H1 & H2 & H3)|(name & m1 & H)].
  { unfold toPayload, getCall. destruct (m_call m) as [name|f]; [right; by exists name, m|].
    destruct Hc as [Hf|(-> & H2 & H3)]; [right|by left]. destruct (Hf (m_params m) args) as [E1 E2].
    destruct (f (m_params m) args) as [[name n] l]. cbn in E1, E2. subst. by exists name, (with_params (m_params m) m). }
  - rewrite H1, H2. by apply new_filter_arity.
  - unfold formatInput in H.
    destruct (m_inputFormatter m) as [fs|] eqn:Ef; rewrite H; unfold validateArgs.
    + destruct (format_args fs 0 args) as [vs|] eqn:Ev; [|done].
      apply format_args_length in Ev. rewrite Ev, (Hr fs eq_refl), Nat.eqb_refl. split; [done|].
      intros ? ? ? [= _ <- _]. by rewrite Ev, (Hr fs eq_refl).
    + apply accepted_iff.
Qed.

Lemma rpc_arity_witness :
  exists params m', toPayload (Eth.getBalance ROUND_DOWN initial_config)
    [VStr (str "0x00c5496aee77c1ba1f0854206a26dda82a81d6d8")] = inr (str "eth_getBalance", params, m') /\ length params = 2%nat.
Proof.
  destruct (rpc_arity ROUND_DOWN initial_config (Eth.getBalance ROUND_DOWN initial_config)
              [VStr (str "0x00c5496aee77c1ba1f0854206a26dda82a81d6d8")]) as [_ H].
  - right; right; right; right; left.
  - destruct (toPayload (Eth.getBalance ROUND_DOWN initial_config)
                [VStr (str "0x00c5496aee77c1ba1f0854206a26dda82a81d6d8")]) as [e|[[name params] m']] eqn:E.
    + discriminate E.
    + exists params, m'. assert (name = str "eth_getBalance") as -> by (injection E as <- _ _; reflexivity).
      split; [reflexivity|]. apply (H (str "eth_getBalance") params m'). reflexivity.
Defined.

(** Methods of one and of two formatted parameters *)
Lemma toPayload_one m name f v :
  m_call m = CallName name -> m_params m = 1%nat -> m_inputFormatter m = Some [Some f] ->
  toPayload m [v] = match f v with Some o => inr (name, [o], m) | None => inl FormatterThrows end.
Proof.
  intros Hc Hp Hf. unfold toPayload, getCall, formatInput, validateArgs. rewrite Hc, Hf, Hp. cbn. by destruct (f v).
Qed.
Lemma toPayload_two m name f g v w :
  m_call m = CallName name -> m_params m = 2%nat -> m_inputFormatter m = Some [Some f; Some g] ->
  toPayload m [v; w] = match o ← f v; b ← g w; Some [o; b] with Some l => inr (name, l, m) | None => inl FormatterThrows end.
Proof.
  intros Hc Hp Hf. unfold toPayload, getCall, formatInput, validateArgs. rewrite Hc, Hf, Hp. cbn.
  destruct (f v); [|done]. cbn. by destruct (g w).
Qed.

(** * Members *)

(** What is set on an API object, in order. *)
Definition entries (ms : list method) (ps : list property) : api :=
  ((fun m => (path_of (m_name m), Func m)) <$> ms) ++
  (ps ≫= (fun p => [(path_of (p_name p), Getter p); (async_path (p_name p), AsyncGetter p)])).
Definition set_all (o es : api) : api := foldl (fun o '(k, x) => set_path k x o) o es.

Lemma attach_entries ms ps : attach ms ps = set_all [] (entries ms ps).
Proof.
  unfold attach, entries, set_all. rewrite foldl_app.
  assert (forall o, foldl attach_method o ms = foldl (fun o '(k, x) => set_path k x o) o ((fun m => (path_of (m_name m), Func m)) <$> ms)) as ->.
  { induction ms as [|m ms IH]; intros o; [done|]. cbn. apply IH. }
  generalize (foldl (fun o '(k, x) => set_path k x o) [] ((fun m => (path_of (m_name m), Func m)) <$> ms)).
  induction ps as [|p ps IH]; intros o; [done|]. cbn. apply IH.
Qed.

Lemma lookup_set_path k k' x o :
  lookup_path k (set_path k' x o) = if bool_decide (k = k') then Some x else lookup_path k o.
Proof.
  induction o as [|[k2 y] o IH]; cbn [set_path lookup_path]; [done|].
  destruct (bool_decide_reflect (k' = k2)) as [->|E]; cbn [lookup_path].
  - by destruct (bool_decide (k = k2)).
  - rewrite IH. destruct (bool_decide_reflect (k = k2)) as [->|]; [|done]. by rewrite bool_decide_false.
Qed.

Lemma lookup_set_all es o k x : NoDup es.*1 -> (k, x) ∈ es -> lookup_path k (set_all o es) = Some x.
Proof.
  revert o. induction es as [|[k' y] es IH]; intros o Hn Hin; [by apply elem_of_nil in Hin|].
  apply NoDup_cons in Hn as [Hk Hn]. apply elem_of_cons in Hin as [[= -> ->]|Hin]; [|by apply IH].
  unfold set_all. cbn [foldl]. fold (set_all (set_path k' y o) es).
  assert (forall o, lookup_path k' (set_all o es) = lookup_path k' o) as ->.
  { clear IH Hn. induction es as [|[k2 z] es IH]; intros o'; [done|]. apply not_elem_of_cons in Hk as [Hne Hk].
    unfold set_all. cbn [foldl]. fold (set_all (set_path k2 z o') es). rewrite IH by done.
    rewrite lookup_set_path. by rewrite bool_decide_false. }
  rewrite lookup_set_path. by rewrite bool_decide_true.
Qed.

(** The objects of the API with what is attached to them. *)
Definition tables (rm : rounding) (c : config) : list (list method * list property) :=
  [(DB.methods, []); (Eth.methods rm c, Eth.properties rm); ([], Net.properties rm);
   (Personal.methods rm c, Personal.properties); (Shh.methods, []); (Swarm.methods, Swarm.properties);
   (Watches.eth, []); (Watches.shh, []); ([], Web3.properties rm)].

Lemma tables_nodup rm c : Forall (fun '(ms, ps) => NoDup (entries ms ps).*1) (tables rm c).
Proof.
  assert (forall ms ps l, bool_decide (NoDup (entries ms ps).*1) = true ->
            Forall (fun '(ms, ps) => NoDup (entries ms ps).*1) l -> 
            Forall (fun '(ms, ps) => NoDup (entries ms ps).*1) ((ms, ps) :: l)) as H.
  { intros ms ps l Hb Hl. constructor; [by apply bool_decide_eq_true in Hb|done]. }
  unfold tables. repeat (apply H; [vm_compute; reflexivity|]). constructor.
Qed.

(** No two members of an API object have the same name: each method is found under
    its name, each property under its name and, to be read with a callback, under
    the name of its getter. *)
Theorem api_members rm c ms ps :
  (ms, ps) ∈ tables rm c ->
  (forall m, m ∈ ms -> lookup_path (path_of (m_name m)) (attach ms ps) = Some (Func m)) /\
  (forall p, p ∈ ps -> lookup_path (path_of (p_name p)) (attach ms ps) = Some (Getter p) /\
                       lookup_path (async_path (p_name p)) (attach ms ps) = Some (AsyncGetter p)).
Proof.
  intros Hin. pose proof (proj1 (Forall_forall _ _) (tables_nodup rm c) _ Hin) as Hn. cbn beta iota in Hn.
  rewrite attach_entries. split.
  - intros m Hm. apply lookup_set_all; [done|]. apply elem_of_app. left. apply list_elem_of_fmap. by exists m.
  - intros p Hp. split; (apply lookup_set_all; [done|]; apply elem_of_app; right; apply list_elem_of_bind; exists p; split; [|done]).
    + left.
    + right. left.
Qed.

Lemma api_members_witness :
  lookup_path [str "compile"; str "lll"] (attach (Eth.methods ROUND_DOWN initial_config) (Eth.properties ROUND_DOWN)) =
    Some (Func Eth.compileLLL).
Proof.
  destruct (api_members ROUND_DOWN initial_config (Eth.methods ROUND_DOWN initial_config) (Eth.properties ROUND_DOWN)) as [H _].
  - right. left.
  - apply (H Eth.compileLLL). do 19 right. left.
Defined.

(** * Calls *)

(** A block number written in hexadecimal, which the formatters accept as such, is
    asked for by hash. *)
Theorem hex_number_by_hash rm n :
  toPayload (Eth.getBlockTransactionCount rm) [VStr (str "0x" ++ n)] =
    inr (str "eth_getBlockTransactionCountByHash", [VStr (str "0x" ++ n)], Eth.getBlockTransactionCount rm).
Proof. destruct n; reflexivity. Qed.

(** The properties of the version have no formatter of the output, so their numbers
    stay text. *)
Theorem version_not_converted rm p answer s :
  p ∈ Web3.properties rm -> provider s = true -> isValidResponse answer = true ->
  (get_sync p answer s).2 = Some (field (str "result") answer).
Proof.
  intros Hp Hs Ha. assert (p_outputFormatter p = None) as Hf.
  { repeat (apply elem_of_cons in Hp as [->|Hp]; [done|]). by apply elem_of_nil in Hp. }
  unfold get_sync, send. rewrite Hs, Ha. cbn. unfold prop_formatOutput. by rewrite Hf.
Qed.

Lemma version_not_converted_witness :
  (get_sync (Property (str "version.node") (str "web3_clientVersion") None None)
     (VObj [(str "jsonrpc", VStr (str "2.0")); (str "id", VNum 1); (str "result", VStr (str "1"))]) (newManager true)).2 =
  Some (VStr (str "1")).
Proof.
  apply (version_not_converted ROUND_DOWN (Property (str "version.node") (str "web3_clientVersion") None None)
     (VObj [(str "jsonrpc", VStr (str "2.0")); (str "id", VNum 1); (str "result", VStr (str "1"))]) (newManager true)).
  - left.
  - reflexivity.
  - reflexivity.
Defined.

(** A call sends one message, with the next identifier, and returns what the
    formatter makes of the result; it throws when the arguments are refused, before
    anything is sent, and when the answer is no valid message. *)
Theorem call_outcome m args answer s :
  provider s = true ->
  match toPayload m args with
  | inl _ => call_sync m args answer s = (s, [], None)
  | inr (name, params, m') =>
      exists fx,
        call_sync m args answer s =
          (with_messageId (messageId s + 1) s, Send [Payload (messageId s + 1) name params] :: fx,
           if isValidResponse answer then formatOutput m' (field (str "result") answer) else None)
  end.
Proof.
  intros Hp. unfold call_sync. destruct (toPayload m args) as [e|[[name params] m']]; [done|].
  unfold send. rewrite Hp. cbn. destruct (isValidResponse answer); by eexists.
Qed.

Lemma call_outcome_witness :
  exists fx, call_sync (Eth.getBlockTransactionCount ROUND_DOWN) [VNum 16]
    (VObj [(str "jsonrpc", VStr (str "2.0")); (str "id", VNum 1); (str "result", VStr (str "0xb"))]) (newManager true) =
  (with_messageId 1 (newManager true), Send [Payload 1 (str "eth_getBlockTransactionCountByNumber") [VStr (str "0x10")]] :: fx,
   Some (VNum 11)).
Proof.
  exact (call_outcome (Eth.getBlockTransactionCount ROUND_DOWN) [VNum 16]
    (VObj [(str "jsonrpc", VStr (str "2.0")); (str "id", VNum 1); (str "result", VStr (str "0xb"))]) (newManager true) eq_refl).
Defined.
