(* ===== verification/Web3Object.v ===== *)
(** The [Web3] object (web3.js 2530-2630), the defaults of [web3.eth] (5249-5266), the
    settings (6556-6559) and the extension of the API (3368-3403).

    [config] is the state the modules share; the members of the API are known by their
    paths from the object, as [eth.getBlock] or [version.network]. *)
From S2P Require Import Prelude BigNumber Digests Utils Iban Rpc Formatters Methods.

(** * Extensions *)

(** Methods and properties are attached under the extension's property, or to the
    object itself. *)
Definition extend (o : api) (property : option jsstr) (ms : list method) (ps : list Methods.property) : api :=
  let prefix := option_list property in
  let o := foldl (fun o m => set_path (prefix ++ path_of (m_name m)) (Func m) o) o ms in
  foldl (fun o p => set_path (prefix ++ async_path (p_name p)) (AsyncGetter p) (set_path (prefix ++ path_of (p_name p)) (Getter p) o)) o ps.

(** * The object *)

Definition Settings : config := Config (VStr (str "latest")) VUndefined.

Record web3 := Web3 {
  _requestManager : manager;
  currentProvider : bool;
  settings : config;
  shared : config;
  members : api
}.
(** The objects of the API in the order they are made, then the properties of the
    version. *)
Definition api_tables (rm : rounding) (c : config) : list (option jsstr * (list method * list Methods.property)) :=
  [(Some (str "eth"), (Eth.methods rm c, Eth.properties rm)); (Some (str "db"), (DB.methods, []));
   (Some (str "shh"), (Shh.methods, [])); (Some (str "net"), ([], Net.properties rm));
   (Some (str "personal"), (Personal.methods rm c, Personal.properties));
   (Some (str "bzz"), (Swarm.methods, Swarm.properties)); (None, ([], Web3.properties rm))].
Definition new_web3 (rm : rounding) (c : config) (provider : bool) : web3 :=
  Web3 (newManager provider) provider Settings c
    (foldl (fun o '(property, (ms, ps)) => extend o property ms ps) [] (api_tables rm c)).

Definition web3_setProvider (provider : bool) (w : web3) : web3 :=
  Web3 (setProvider provider (_requestManager w)) provider (settings w) (shared w) (members w).
Definition web3_reset (keepIsSyncing : bool) (w : web3) : web3 * list effect :=
  let '(m, fx) := reset_manager keepIsSyncing (_requestManager w) in
  (Web3 m (currentProvider w) Settings (shared w) (members w), fx).
(** [connected]: what the provider's own [isConnected] returns. *)
Definition web3_isConnected (connected : bool) (w : web3) : bool := currentProvider w && connected.
Definition web3_extend (property : option jsstr) (ms : list method) (ps : list Methods.property) (w : web3) : web3 :=
  Web3 (_requestManager w) (currentProvider w) (settings w) (shared w) (extend (members w) property ms ps).

Definition set_defaultBlock (v : value) (w : web3) : web3 :=
  Web3 (_requestManager w) (currentProvider w) (settings w) (Config v (defaultAccount (shared w))) (members w).
Definition set_defaultAccount (v : value) (w : web3) : web3 :=
  Web3 (_requestManager w) (currentProvider w) (settings w) (Config (defaultBlock (shared w)) v) (members w).

Definition web3_sha3 (s : jsstr) (hex : bool) : option jsstr := (fun h => str "0x" ++ h) <$> sha3 s hex.
Definition fromICAP (rm : rounding) (icap : jsstr) : option jsstr := address rm icap.

(** * Members *)

(** What an extension sets, in order. *)
Definition extension (property : option jsstr) (ms : list method) (ps : list Methods.property) : api :=
  (fun '(k, x) => (option_list property ++ k, x)) <$> entries ms ps.
Lemma extend_set_all o property ms ps : extend o property ms ps = set_all o (extension property ms ps).
Proof.
  unfold extend, extension, entries, set_all. set (prefix := option_list property). rewrite fmap_app, foldl_app.
  assert (forall o, foldl (fun o m => set_path (prefix ++ path_of (m_name m)) (Func m) o) o ms =
    foldl (fun o '(k, x) => set_path k x o) o ((fun '(k, x) => (prefix ++ k, x)) <$> ((fun m => (path_of (m_name m), Func m)) <$> ms))) as ->.
  { induction ms as [|m ms IH]; intros o'; [done|]. cbn. apply IH. }
  generalize (foldl (fun o '(k, x) => set_path k x o) o ((fun '(k, x) => (prefix ++ k, x)) <$> ((fun m => (path_of (m_name m), Func m)) <$> ms))).
  induction ps as [|p ps IH]; intros o'; [done|]. cbn. apply IH.
Qed.
Lemma set_all_app o es fs : set_all o (es ++ fs) = set_all (set_all o es) fs.
Proof. apply foldl_app. Qed.
Lemma lookup_set_all_other es o k : k ∉ es.*1 -> lookup_path k (set_all o es) = lookup_path k o.
Proof.
  revert o. induction es as [|[k' x] es IH]; intros o Hk; [done|]. rewrite fmap_cons, not_elem_of_cons in Hk. destruct Hk as [Hn Hk].
  unfold set_all. cbn [foldl]. fold (set_all (set_path k' x o) es). rewrite IH, lookup_set_path by done. by rewrite bool_decide_false.
Qed.

(** An extension puts every method and property under its name, and changes no other
    member. *)
Theorem extension_members property ms ps w :
  NoDup (entries ms ps).*1 ->
  let o := members (web3_extend property ms ps w) in
  (forall k x, (k, x) ∈ entries ms ps -> lookup_path (option_list property ++ k) o = Some x) /\
  (forall k, (forall k', k' ∈ (entries ms ps).*1 -> k <> option_list property ++ k') -> lookup_path k o = lookup_path k (members w)).
Proof.
  intros Hn. cbn. rewrite extend_set_all.
  assert ((extension property ms ps).*1 = (fun k => option_list property ++ k) <$> (entries ms ps).*1) as Hk.
  { unfold extension. rewrite <-!list_fmap_compose. apply list_fmap_ext. by intros i [k x] _. }
  split.
  - intros k x Hin. apply lookup_set_all.
    + rewrite Hk. apply NoDup_fmap_2; [intros ? ? ?%app_inj_2; naive_solver|done].
    + unfold extension. apply list_elem_of_fmap. by exists (k, x).
  - intros k Hnk. apply lookup_set_all_other. rewrite Hk. intros (k' & -> & Hin)%list_elem_of_fmap. by apply (Hnk k' Hin).
Qed.
Lemma extension_members_witness :
  lookup_path [str "admin"; str "peers"]
    (members (web3_extend (Some (str "admin")) [] [Property (str "peers") (str "admin_peers") None None]
       (new_web3 ROUND_DOWN initial_config true))) =
  Some (Getter (Property (str "peers") (str "admin_peers") None None)).
Proof.
  destruct (extension_members (Some (str "admin")) [] [Property (str "peers") (str "admin_peers") None None]
    (new_web3 ROUND_DOWN initial_config true)) as [H _].
  - apply (bool_decide_eq_true_1 (NoDup _)). vm_compute. reflexivity.
  - apply (H [str "peers"]). by left.
Defined.

Definition all_members (rm : rounding) (c : config) : api :=
  api_tables rm c ≫= (fun '(property, (ms, ps)) => extension property ms ps).
Lemma members_set_all rm c b : members (new_web3 rm c b) = set_all [] (all_members rm c).
Proof.
  cbn [members new_web3]. unfold all_members. generalize (api_tables rm c) ([] : api). intros l.
  induction l as [|[property [ms ps]] l IH]; intros o; [done|]. cbn [foldl mbind list_bind].
  by rewrite IH, set_all_app, extend_set_all.
Qed.
Lemma all_members_nodup rm c : NoDup (all_members rm c).*1.
Proof. apply (bool_decide_eq_true_1 (NoDup _)). vm_compute. reflexivity. Qed.

(** Every method and property of every table is found in a new object under the name
    of its part of the API and its own. *)
Theorem web3_members rm c b property ms ps k x :
  (property, (ms, ps)) ∈ api_tables rm c -> (k, x) ∈ entries ms ps ->
  lookup_path (option_list property ++ k) (members (new_web3 rm c b)) = Some x.
Proof.
  intros Ht Hk. rewrite members_set_all. apply lookup_set_all; [apply all_members_nodup|].
  apply list_elem_of_bind. exists (property, (ms, ps)). split; [|done].
  unfold extension. apply list_elem_of_fmap. by exists (k, x).
Qed.
Lemma web3_members_witness :
  lookup_path [str "personal"; str "listAccounts"] (members (new_web3 ROUND_DOWN initial_config false)) =
  Some (Getter (Property (str "listAccounts") (str "personal_listAccounts") None None)).
Proof.
  apply (web3_members ROUND_DOWN initial_config false (Some (str "personal"))
    (Personal.methods ROUND_DOWN initial_config) Personal.properties [str "listAccounts"]).
  - do 4 right. left.
  - apply elem_of_app. right. left.
Defined.

(** Resetting makes new settings, which nothing reads: the defaults the methods use
    stay as they were set. *)
Theorem reset_keeps_defaults keep v a w :
  let w' := (web3_reset keep (set_defaultAccount a (set_defaultBlock v w))).1 in
  settings w' = Settings /\ defaultBlock (shared w') = v /\ defaultAccount (shared w') = a.
Proof. unfold web3_reset. cbn. by destruct (reset_manager keep (_requestManager w)). Qed.
