(* ===== verification/Contracts.v ===== *)
(** Contract objects: Solidity functions (web3.js 3999-4248), Solidity events
    (3183-3355), all events of a contract (2665-2720) and the contract factory
    (2829-3101).

    The arguments of a call are values and, last, an optional callback. *)
From S2P Require Import Prelude WordArray Utf8 Digests BigNumber Utils Solidity Coder Iban Rpc Formatters Methods.

(** * The interface of a contract *)

(** A parameter of a function or an event; [indexed] may be missing. *)
Record abi_input := Input { in_name : jsstr; in_type : jsstr; in_indexed : option bool }.
Inductive abi_kind := AbiFunction | AbiEvent | AbiConstructor | AbiOther.
Record abi_item := Abi {
  a_kind : abi_kind; a_name : jsstr; a_inputs : list abi_input; a_outputs : list jsstr;
  a_constant : bool; a_payable : bool; a_anonymous : bool
}.
Definition full_name (json : abi_item) : jsstr := transformToFullName (a_name json) (in_type <$> a_inputs json).

Definition last_value (args : list value) : value := default VUndefined (last args).
(** An object that is neither an array nor a BigNumber *)
Definition is_options (v : value) : bool := isObject v && negb (isArray v) && negb (isBigNumber v).

(** [v > 0] of a JavaScript value *)
Definition text_positive (s : jsstr) : bool :=
  let t := reverse (trim_left (reverse (trim_left s))) in
  match t with
  | [] => false
  | z :: x :: ds =>
      if (z =? 48) && ((x =? 120) || (x =? 88)) then forallb (is_base_digit 16) ds && (0 <? base_value 16 ds)
      else match read_decimal (if z =? 43 then x :: ds else t) with
           | Some (Big m _) => 0 <? m
           | _ => bool_decide (t = str "Infinity" \/ t = str "+Infinity")
           end
  | [c] => is_dec_digit c && (48 <? c)
  end.
Definition is_positive (v : value) : bool :=
  match v with
  | VUndefined | VNull | VObj _ => false
  | VBool b => b
  | VNum z => 0 <? z
  | VBig (Big m _) => 0 <? m
  | VBig (Infinite neg) => negb neg
  | VBig NaN => false
  | VStr s => text_positive s
  | VArr _ => text_positive (js_to_string v)
  end.

(** * Functions *)

Record SolidityFunction := Function {
  _inputTypes : list jsstr; _outputTypes : list jsstr; _constant : bool; _payable : bool;
  _name : jsstr; _address : value
}.
Definition new_function (json : abi_item) (address : value) : SolidityFunction :=
  Function (in_type <$> a_inputs json) (a_outputs json) (a_constant json) (a_payable json) (full_name json) address.

Section Functions.
Context (rm : rounding) (c : config) (f : SolidityFunction).

(** The block, if the last argument is one, and the other arguments *)
Definition extractDefaultBlock (args : list value) : option (value * list value) :=
  if (length (_inputTypes f) <? length args)%nat && negb (isObject (last_value args)) then
    b ← inputDefaultBlockNumberFormatter rm c (last_value args); Some (b, removelast args)
  else Some (VUndefined, args).

Definition validArgs (args : list value) : bool :=
  (length (filter (fun a => is_options a = false) args) =? length (_inputTypes f))%nat.

Definition signature : option jsstr := h ← sha3 (_name f) false; Some (js_slice h 0 8).

Definition fn_toPayload (args : list value) : option value :=
  let options := if (length (_inputTypes f) <? length args)%nat && isObject (last_value args)
                 then last_value args else VObj [] in
  if validArgs args then
    options ← put (str "to") (_address f) options;
    sig ← signature;
    enc ← encodeParams rm (_inputTypes f) args;
    put (str "data") (VStr (str "0x" ++ sig ++ enc)) options
  else None.

(** The answer of a call is text; anything that is not is falsy. *)
Definition unpackOutput (output : value) : option value :=
  if falsy output then Some VUndefined
  else match output with
       | VStr o =>
           let o := if 2 <=? js_len o then js_slice_from o 2 else o in
           result ← decodeParams rm (_outputTypes f) o;
           Some (match result with [x] => x | _ => VArr result end)
       | _ => None
       end.

Definition defined_args (args : list value) : list value := filter (fun a => is_defined a = true) args.

(** [call] without a callback, with the answer of the node *)
Definition fn_call (args : list value) (answer : value) (s : manager) : manager * list effect * option value :=
  match '(block, args) ← extractDefaultBlock (defined_args args);
        payload ← fn_toPayload args; Some (payload, block) with
  | None => (s, [], None)
  | Some (payload, block) =>
      let '(s, fx, output) := call_sync (Eth.call rm c) [payload; block] answer s in
      (s, fx, output ≫= unpackOutput)
  end.
(** The callback of [call]: what [unpackOutput] throws is its error. *)
Definition fn_call_answer (cb : callback) (error : option jsstr) (output : value) : effect :=
  match error with
  | Some e => Call cb (Some e) VNull
  | None => match unpackOutput output with
            | Some v => Call cb None v
            | None => Call cb (Some (str "Error")) VNull
            end
  end.

(** The transaction that is sent; a value for a function that takes none throws. *)
Definition fn_transaction (args : list value) : option value :=
  payload ← fn_toPayload (defined_args args);
  if is_positive (field (str "value") payload) && negb (_payable f) then None else Some payload.
Definition fn_sendTransaction (args : list value) (answer : value) (s : manager) : manager * list effect * option value :=
  match fn_transaction args with
  | None => (s, [], None)
  | Some payload => call_sync (Eth.sendTransaction rm c) [payload] answer s
  end.
Definition fn_estimateGas (args : list value) (answer : value) (s : manager) : manager * list effect * option value :=
  match fn_toPayload args with
  | None => (s, [], None)
  | Some payload => call_sync (Eth.estimateGas rm c) [payload] answer s
  end.
Definition fn_getData (args : list value) : option value := payload ← fn_toPayload args; get (str "data") payload.
Definition fn_request (args : list value) (cb : option callback) : option request :=
  payload ← fn_toPayload args;
  Some (Request (if _constant f then str "eth_call" else str "eth_sendTransaction") [payload] cb unpackOutput).
Definition fn_execute (args : list value) (answer : value) (s : manager) : manager * list effect * option value :=
  if _constant f then fn_call args answer s else fn_sendTransaction args answer s.
End Functions.

(** * Events *)

Record SolidityEvent := Event {
  _params : list abi_input; e_name : jsstr; e_address : value; _anonymous : bool
}.
Definition new_event (json : abi_item) (address : value) : SolidityEvent :=
  Event (a_inputs json) (full_name json) address (a_anonymous json).

(** [fromBlock] and [toBlock] of the options, formatted, when they are given *)
Fixpoint block_fields (rm : rounding) (keys : list jsstr) (options : value) : option (list (jsstr * value)) :=
  match keys with
  | [] => Some []
  | k :: keys =>
      rest ← block_fields rm keys options;
      match field k options with
      | VUndefined => Some rest
      | v => b ← inputBlockNumberFormatter rm v; Some ((k, b) :: rest)
      end
  end.
Definition block_keys : list jsstr := [str "fromBlock"; str "toBlock"].

Section Events.
Context (rm : rounding) (e : SolidityEvent).

Definition types (indexed : bool) : list jsstr :=
  in_type <$> filter (fun i => in_indexed i = Some indexed) (_params e).

(** The topic of an indexed parameter: none, one or a choice *)
Definition topic (type : jsstr) (v : value) : option value :=
  s ← encodeParam rm type v; Some (VStr (str "0x" ++ s)).
Definition event_topic (indexed : value) (i : abi_input) : option value :=
  match field (in_name i) indexed with
  | VUndefined | VNull => Some VNull
  | VArr vs => VArr <$> mapM (topic (in_type i)) vs
  | v => topic (in_type i) v
  end.
Definition event_signature : option jsstr := sha3 (e_name e) false.
Definition event_encode (indexed options : value) : option value :=
  blocks ← block_fields rm block_keys options;
  sig ← if _anonymous e then Some [] else (s ← event_signature; Some [VStr (str "0x" ++ s)]);
  indexedTopics ← mapM (event_topic indexed) (filter (fun i => in_indexed i = Some true) (_params e));
  Some (VObj (blocks ++ [(str "topics", VArr (sig ++ indexedTopics)); (str "address", e_address e)])).

(** A topic of a log without its prefix *)
Definition topic_digits (t : value) : option jsstr :=
  match t with VStr s => Some (js_slice_from s 2) | _ => None end.
(** [args]: each parameter takes the next decoded value of its kind *)
Fixpoint event_args (ps : list abi_input) (indexed rest : list value) (acc : list (jsstr * value)) : list (jsstr * value) :=
  match ps with
  | [] => acc
  | p :: ps =>
      if default false (in_indexed p)
      then event_args ps (tail indexed) rest (set_key (in_name p) (default VUndefined (head indexed)) acc)
      else event_args ps indexed (tail rest) (set_key (in_name p) (default VUndefined (head rest)) acc)
  end.
Definition event_decode (log : value) : option value :=
  data ← get (str "data") log;
  log ← put (str "data") (if truthy data then data else VStr []) log;
  topics ← get (str "topics") log;
  log ← put (str "topics") (if truthy topics then topics else VArr []) log;
  match field (str "topics") log, field (str "data") log with
  | VArr topics, VStr data =>
      digits ← mapM topic_digits (if _anonymous e then topics else drop 1 topics);
      indexedParams ← decodeParams rm (types true) (mjoin digits);
      notIndexedParams ← decodeParams rm (types false) (js_slice_from data 2);
      result ← outputLogFormatter rm log;
      result ← put (str "event") (VStr (extractDisplayName (e_name e))) result;
      result ← put (str "address") (field (str "address") log) result;
      result ← put (str "args") (VObj (event_args (_params e) indexedParams notIndexedParams [])) result;
      match result with
      | VObj fs => Some (VObj (delete_key (str "topics") (delete_key (str "data") fs)))
      | _ => Some result
      end
  | _, _ => None
  end.
End Events.

(** All events of a contract: the event of a log is the first whose signature is the
    first topic. *)
Section AllEvents.
Context (rm : rounding) (json : list abi_item) (address : value).

Definition all_encode (options : value) : option value :=
  blocks ← block_fields rm block_keys options; Some (VObj (blocks ++ [(str "address", address)])).
Fixpoint find_event (eventTopic : jsstr) (l : list abi_item) : option (option abi_item) :=
  match l with
  | [] => Some None
  | j :: l =>
      h ← sha3 (full_name j) false;
      r ← find_event eventTopic l;
      Some (if bool_decide (eventTopic = h) then Some j else r)
  end.
Definition all_decode (log : value) : option value :=
  data ← get (str "data") log;
  log ← put (str "data") (if truthy data then data else VStr []) log;
  topics ← get (str "topics") log;
  log ← put (str "topics") (if truthy topics then topics else VArr []) log;
  match field (str "topics") log with
  | VArr (VStr t :: _) =>
      m ← find_event (js_slice_from t 2) json;
      match m with
      | None => Some log
      | Some j => event_decode rm (new_event j address) log
      end
  | _ => None
  end.
End AllEvents.

(** * Contract objects *)

(** A member that was attached: a function, an event, or all events.  The typed name
    of an event is bound to the contract itself as its first argument. *)
Inductive binding := BindFunction (f : SolidityFunction) | BindEvent (e : SolidityEvent) | BindEventOn (e : SolidityEvent) | BindAll.
(** What a name of the contract holds: a field of the object itself that is truthy,
    or what was attached first under it, with the bindings by type name. *)
Inductive slot := Reserved | Attached (b : binding) (typed : list (jsstr * binding)).
Abbreviation members := (list (jsstr * slot)).

Definition attach_binding (first typed_as : binding) (display typeName : jsstr) (o : members) : members :=
  match assoc display o with
  | Some Reserved => o
  | Some (Attached b typed) => set_key display (Attached b (set_key typeName typed_as typed)) o
  | None => set_key display (Attached first [(typeName, typed_as)]) o
  end.
Definition attach_function (o : members) (f : SolidityFunction) : members :=
  attach_binding (BindFunction f) (BindFunction f) (extractDisplayName (_name f)) (extractTypeName (_name f)) o.
Definition attach_event (o : members) (e : SolidityEvent) : members :=
  attach_binding (BindEvent e) (BindEventOn e) (extractDisplayName (e_name e)) (extractTypeName (e_name e)) o.

Definition functions_of (abi : list abi_item) : list abi_item :=
  filter (fun j => match a_kind j with AbiFunction => true | _ => false end = true) abi.
Definition events_of (abi : list abi_item) : list abi_item :=
  filter (fun j => match a_kind j with AbiEvent => true | _ => false end = true) abi.
Definition addFunctionsToContract (abi : list abi_item) (address : value) (o : members) : members :=
  foldl attach_function o ((fun j => new_function j address) <$> functions_of abi).
Definition addEventsToContract (abi : list abi_item) (address : value) (o : members) : members :=
  foldl attach_event (set_key (str "allEvents") (Attached BindAll []) o) ((fun j => new_event j address) <$> events_of abi).

(** [new Contract(eth, abi, address)]: the transaction hash is null, and the address
    may be missing; both count as free names. *)
Definition new_members (address : value) : members :=
  [(str "_eth", Reserved)] ++ (if truthy address then [(str "address", Reserved)] else []) ++ [(str "abi", Reserved)].
Definition contract_at (abi : list abi_item) (address : value) : members :=
  addEventsToContract abi address (addFunctionsToContract abi address (new_members address)).

(** ** The factory *)

Section Factory.
Context (rm : rounding) (abi : list abi_item).

Definition constructors (n : nat) : list abi_item :=
  filter (fun j => match a_kind j with AbiConstructor => (length (a_inputs j) =? n)%nat | _ => false end = true) abi.
(** All matching constructors are encoded; the first counts. *)
Definition encodeConstructorParams (params : list value) : option jsstr :=
  encs ← mapM (fun j => encodeParams rm (in_type <$> a_inputs j) params) (constructors (length params));
  Some (default [] (head encs)).

Definition split_options (args : list value) : value * list value :=
  let l := last_value args in
  if isObject l && negb (isArray l) then (l, removelast args) else (VObj [], args).
(** [options.data += bytes] *)
Definition append_data (bytes : jsstr) (options : value) : option value :=
  update_field (fun d => Some (VStr (js_to_string d ++ bytes))) (str "data") options.
(** The transaction [new] sends; a value for a constructor that takes none throws. *)
Definition new_transaction (args : list value) : option value :=
  let '(options, args) := split_options args in
  let payable := match constructors (length args) with j :: _ => a_payable j | [] => false end in
  if is_positive (field (str "value") options) && negb payable then None
  else bytes ← encodeConstructorParams args; append_data bytes options.
Definition factory_getData (args : list value) : option value :=
  let '(options, args) := split_options args in
  bytes ← encodeConstructorParams args;
  options ← append_data bytes options;
  get (str "data") options.
End Factory.

(** ** Deployment

    After the transaction is sent, every new block asks for its receipt; with the
    receipt the code is asked for, and the first answer with code ends the wait,
    as does the fifty-first block. *)

Record deploy := Deploy {
  d_abi : list abi_item;
  d_callback : bool;             (* whether the caller gave a callback *)
  d_count : Z;
  d_fired : bool;
  d_watching : bool;
  d_receipts : nat;              (* requests for the receipt not answered yet *)
  d_codes : list value;          (* requests for the code at an address not answered yet *)
  d_address : value;
  d_members : members
}.
Inductive deploy_event :=
  | Block (error : bool)
  | Receipt (address : option value)      (* the contract address, when there is a receipt *)
  | Code (i : nat) (code : jsstr).        (* of the [i]-th request; empty when there is none *)
Inductive deploy_effect :=
  | AskReceipt
  | AskCode (address : value)
  | StopWatching
  | CallbackContract
  | CallbackError (text : jsstr)
  | ThrowError (text : jsstr).

Definition no_code : jsstr := str "The contract code couldn't be stored, please check your gas amount.".
Definition not_found : jsstr := str "Contract transaction couldn't be found after 50 blocks".
Definition new_deploy (abi : list abi_item) (callback : bool) : deploy :=
  Deploy abi callback 0 false true 0 [] VUndefined (new_members VUndefined).

Definition report (d : deploy) (text : jsstr) : deploy_effect := if d_callback d then CallbackError text else ThrowError text.

(** A block, for as long as the filter is watched *)
Definition on_block (error : bool) (d : deploy) : deploy * list deploy_effect :=
  if negb error && negb (d_fired d) then
    let count := d_count d + 1 in
    if 50 <? count then
      (Deploy (d_abi d) (d_callback d) count true false (d_receipts d) (d_codes d) (d_address d) (d_members d),
       [StopWatching; report d not_found])
    else
      (Deploy (d_abi d) (d_callback d) count (d_fired d) (d_watching d) (S (d_receipts d)) (d_codes d) (d_address d) (d_members d),
       [AskReceipt])
  else (d, []).
Definition on_receipt (receipt : option value) (d : deploy) : deploy * list deploy_effect :=
  match receipt with
  | Some address =>
      if negb (d_fired d) then
        (Deploy (d_abi d) (d_callback d) (d_count d) (d_fired d) (d_watching d) (d_receipts d) (d_codes d ++ [address])
           (d_address d) (d_members d),
         [AskCode address])
      else (d, [])
  | None => (d, [])
  end.
(** The contract gets its address and its members. *)
Definition deployed (address : value) (d : deploy) : deploy :=
  Deploy (d_abi d) (d_callback d) (d_count d) true false (d_receipts d) (d_codes d) address
    (addEventsToContract (d_abi d) address
       (addFunctionsToContract (d_abi d) address
          (if truthy address then set_key (str "address") Reserved (d_members d) else d_members d))).
Definition on_code (address : value) (code : jsstr) (d : deploy) : deploy * list deploy_effect :=
  if d_fired d || (js_len code =? 0) then (d, [])
  else if 3 <? js_len code then
    (deployed address d, StopWatching :: if d_callback d then [CallbackContract] else [])
  else
    (Deploy (d_abi d) (d_callback d) (d_count d) true false (d_receipts d) (d_codes d) (d_address d) (d_members d),
     [StopWatching; report d no_code]).

(** Only what was asked for is answered. *)
Definition deploy_step (d : deploy) (ev : deploy_event) : deploy * list deploy_effect :=
  match ev with
  | Block error => if d_watching d then on_block error d else (d, [])
  | Receipt r =>
      match d_receipts d with
      | O => (d, [])
      | S n => on_receipt r (Deploy (d_abi d) (d_callback d) (d_count d) (d_fired d) (d_watching d) n (d_codes d)
                               (d_address d) (d_members d))
      end
  | Code i code =>
      match d_codes d !! i with
      | None => (d, [])
      | Some address =>
          on_code address code (Deploy (d_abi d) (d_callback d) (d_count d) (d_fired d) (d_watching d) (d_receipts d)
                                  (delete i (d_codes d)) (d_address d) (d_members d))
      end
  end.
Fixpoint deploy_run (d : deploy) (evs : list deploy_event) : deploy * list deploy_effect :=
  match evs with
  | [] => (d, [])
  | ev :: evs => let '(d, fx) := deploy_step d ev in let '(d, fx') := deploy_run d evs in (d, fx ++ fx')
  end.

(** * The end of a deployment *)

Definition is_outcome (e : deploy_effect) : bool :=
  match e with CallbackContract | CallbackError _ | ThrowError _ => true | _ => false end.
Definition outcomes (fx : list deploy_effect) : nat := length (filter (fun e => is_outcome e = true) fx).
Definition blocks (evs : list deploy_event) : Z :=
  Z.of_nat (length (filter (fun ev => match ev with Block false => true | _ => false end = true) evs)).

(** The wait goes on after [n] blocks, or it is over. *)
Definition waiting (n : Z) (d : deploy) : Prop := d_fired d = false /\ d_watching d = true /\ d_count d = n /\ n <= 50.
Definition over (d : deploy) : Prop := d_fired d = true /\ d_watching d = false.

Lemma outcomes_app fx fx' : outcomes (fx ++ fx') = (outcomes fx + outcomes fx')%nat.
Proof. unfold outcomes. by rewrite filter_app, length_app. Qed.

Lemma over_step d ev : over d -> over (deploy_step d ev).1 /\ outcomes (deploy_step d ev).2 = O.
Proof.
  intros [Hf Hw]. destruct ev as [error|r|i code]; cbn [deploy_step].
  - by rewrite Hw.
  - destruct (d_receipts d); [done|]. unfold on_receipt. destruct r; [|done]. cbn [d_fired]. by rewrite Hf.
  - destruct (d_codes d !! i); [|done]. unfold on_code. cbn [d_fired]. by rewrite Hf.
Qed.

Lemma waiting_step d n ev :
  waiting n d -> 0 <= n -> d_callback d = true ->
  d_callback (deploy_step d ev).1 = true /\
  (waiting (n + blocks [ev]) (deploy_step d ev).1 /\ outcomes (deploy_step d ev).2 = O \/
   over (deploy_step d ev).1 /\ outcomes (deploy_step d ev).2 = 1%nat).
Proof.
  intros (Hf & Hw & Hc & Hn) H0 Hcb. destruct ev as [error|r|i code]; cbn [deploy_step].
  - rewrite Hw. unfold on_block. rewrite Hf, Hc. unfold report. rewrite Hcb. destruct error; cbn [negb andb].
    + change (blocks [Block true]) with 0. split; [done|]. left. split; [|done]. unfold waiting. cbn [fst d_fired d_watching d_count]. split_and!; try done; lia.
    + change (blocks [Block false]) with 1. destruct (Z.ltb_spec 50 (n + 1)); (split; [done|]); [right; done|left].
      split; [|done]. unfold waiting. cbn [fst d_fired d_watching d_count]. split_and!; try done; lia.
  - assert (n + blocks [Receipt r] = n) as -> by (change (blocks [Receipt r]) with 0; lia).
    destruct (d_receipts d); [split; [done|left; done]|]. unfold on_receipt. cbn [d_fired]. rewrite Hf.
    destruct r; (split; [done|]); left; done.
  - assert (n + blocks [Code i code] = n) as -> by (change (blocks [Code i code]) with 0; lia).
    destruct (d_codes d !! i); [|split; [done|left; done]]. unfold on_code, report. cbn [d_fired d_callback]. rewrite Hf, Hcb.
    cbn [orb]. destruct (js_len code =? 0); [split; [done|left; done]|]. destruct (3 <? js_len code); (split; [done|]); right; done.
Qed.

Lemma deploy_run_app d evs evs' :
  deploy_run d (evs ++ evs') =
  let '(d1, fx) := deploy_run d evs in let '(d2, fx') := deploy_run d1 evs' in (d2, fx ++ fx').
Proof.
  revert d. induction evs as [|ev evs IH]; intros d; cbn [deploy_run app].
  - by destruct (deploy_run d evs').
  - destruct (deploy_step d ev) as [d1 fx]. rewrite IH. destruct (deploy_run d1 evs) as [d2 fx2].
    destruct (deploy_run d2 evs') as [d3 fx3]. by rewrite app_assoc.
Qed.

Lemma deploy_outcome abi evs :
  let '(d, fx) := deploy_run (new_deploy abi true) evs in
  outcomes fx = (if d_fired d then 1%nat else 0%nat) /\ (50 < blocks evs -> d_fired d = true).
Proof.
  assert (let '(d, fx) := deploy_run (new_deploy abi true) evs in
          d_callback d = true /\ (waiting (blocks evs) d /\ outcomes fx = O \/ over d /\ outcomes fx = 1%nat)) as H.
  { induction evs as [|ev evs IH] using rev_ind; [by split; [|left]|].
    rewrite deploy_run_app. destruct (deploy_run (new_deploy abi true) evs) as [d fx]. cbn [deploy_run].
    assert (blocks (evs ++ [ev]) = blocks evs + blocks [ev]) as -> by (unfold blocks; rewrite filter_app, length_app; lia).
    destruct IH as [Hcb [[Hw Ho]|[Hov Ho]]].
    - destruct (waiting_step d _ ev Hw) as [Hcb' Hs]; [unfold blocks; lia|done|].
      destruct (deploy_step d ev) as [d1 fx1]. cbn [fst snd] in *. rewrite app_nil_r, outcomes_app, Ho. by split.
    - destruct (over_step d ev Hov) as [Hov' Ho']. assert (d_callback (deploy_step d ev).1 = true) as Hcb'.
      { destruct ev as [error|r|i code]; cbn [deploy_step].
        - destruct (d_watching d); [|done]. unfold on_block. destruct (negb error && negb (d_fired d)); [|done]. by destruct (50 <? _).
        - destruct (d_receipts d); [done|]. unfold on_receipt. destruct r; [|done]. by destruct (negb _).
        - destruct (d_codes d !! i); [|done]. unfold on_code. destruct (_ || _); [done|]. by destruct (3 <? _). }
      destruct (deploy_step d ev) as [d1 fx1]. cbn [fst snd] in *. rewrite app_nil_r, outcomes_app, Ho, Ho'. split; [done|]. by right. }
  destruct (deploy_run (new_deploy abi true) evs) as [d fx]. destruct H as [_ [[(Hf & _ & _ & Hn) Ho]|[[Hf _] Ho]]]; rewrite Hf.
  - split; [done|]. lia.
  - done.
Qed.

(** C18. The outcome of a deployment is reported once: never before it is decided, never
    again after it; and it is decided after fifty-one blocks at the latest, in
    whatever order the answers come. *)
Theorem deploy_reported abi evs :
  let '(d, fx) := deploy_run (new_deploy abi true) evs in
  outcomes fx = (if d_fired d then 1%nat else 0%nat) /\ (50 < blocks evs -> d_fired d = true).
Proof. apply deploy_outcome. Qed.

(** * Members of a contract *)

(** What is called under a name alone, and under a name and the types. *)
Definition default_at (o : members) (display : jsstr) : option binding :=
  match assoc display o with Some (Attached b _) => Some b | _ => None end.
Definition typed_at (o : members) (display typeName : jsstr) : option binding :=
  match assoc display o with Some (Attached _ typed) => assoc typeName typed | _ => None end.

Lemma attach_reserved a b display type o d :
  assoc d (attach_binding a b display type o) = Some Reserved <-> assoc d o = Some Reserved.
Proof.
  unfold attach_binding. destruct (assoc display o) as [[|x typed]|] eqn:E; [done| |];
    destruct (decide (d = display)) as [->|Hd]; rewrite ?assoc_set_same, ?assoc_set_other by done; rewrite ?E; done.
Qed.
Lemma typed_attach a b display type o d t :
  assoc display o <> Some Reserved ->
  typed_at (attach_binding a b display type o) d t =
    if bool_decide (d = display /\ t = type) then Some b else typed_at o d t.
Proof.
  intros Hr. unfold typed_at, attach_binding. destruct (decide (d = display)) as [->|Hd].
  - destruct (assoc display o) as [[|x typed]|] eqn:E; [done| |]; rewrite assoc_set_same.
    + destruct (decide (t = type)) as [->|Ht]; [by rewrite bool_decide_true, assoc_set_same|].
      rewrite bool_decide_false by naive_solver. by rewrite assoc_set_other.
    + cbn [assoc]. case_bool_decide as H1; case_bool_decide as H2; naive_solver.
  - rewrite bool_decide_false by naive_solver.
    destruct (assoc display o) as [[|x typed]|]; [done| |]; by rewrite assoc_set_other.
Qed.
Lemma default_attach a b display type o d :
  assoc display o <> Some Reserved ->
  default_at (attach_binding a b display type o) d =
    if bool_decide (d = display) then Some (default a (default_at o d)) else default_at o d.
Proof.
  intros Hr. unfold default_at, attach_binding. case_bool_decide as Hd; [subst d|].
  - destruct (assoc display o) as [[|x typed]|] eqn:E; [done| |]; by rewrite assoc_set_same.
  - destruct (assoc display o) as [[|x typed]|]; [done| |]; by rewrite assoc_set_other.
Qed.

(** One thing to attach: as it is called by name, and by its types. *)
Record attachment := Attach { at_first : binding; at_typed : binding; at_display : jsstr; at_type : jsstr }.
Definition attach_all (o : members) (l : list attachment) : members :=
  foldl (fun o x => attach_binding (at_first x) (at_typed x) (at_display x) (at_type x) o) o l.
Definition at_names (x : attachment) : jsstr * jsstr := (at_display x, at_type x).

Lemma attach_all_spec l o :
  NoDup (at_names <$> l) -> Forall (fun x => assoc (at_display x) o <> Some Reserved) l ->
  (forall x, x ∈ l -> typed_at (attach_all o l) (at_display x) (at_type x) = Some (at_typed x)) /\
  (forall d t, (d, t) ∉ at_names <$> l -> typed_at (attach_all o l) d t = typed_at o d t) /\
  (forall d, default_at (attach_all o l) d =
     match default_at o d with
     | Some b => Some b
     | None => at_first <$> head (filter (fun x => at_display x = d) l)
     end).
Proof.
  revert o. induction l as [|x l IH]; intros o Hn Hr.
  { split_and!; [by intros x Hx%elem_of_nil|done|]. intros d. cbn. by destruct (default_at o d). }
  rewrite fmap_cons in Hn. apply NoDup_cons in Hn as [Hx Hn]. apply Forall_cons in Hr as [Hrx Hr].
  unfold attach_all. cbn [foldl]. set (o1 := attach_binding _ _ _ _ o). fold (attach_all o1 l).
  destruct (IH o1 Hn) as (H1 & H2 & H3).
  { eapply Forall_impl; [exact Hr|]. intros y Hy. unfold o1. by rewrite attach_reserved. }
  split_and!.
  - intros y [->|Hy]%elem_of_cons; [|by apply H1]. rewrite H2 by done. unfold o1.
    rewrite typed_attach by done. by rewrite bool_decide_true.
  - intros d t Hd. rewrite fmap_cons in Hd. apply not_elem_of_cons in Hd as [Hd1 Hd2]. rewrite H2 by done. unfold o1.
    rewrite typed_attach by done. rewrite bool_decide_false; [done|]. intros [-> ->]. by apply Hd1.
  - intros d. rewrite H3. unfold o1. rewrite default_attach by done. rewrite filter_cons.
    case_bool_decide as E; [subst d|].
    + rewrite decide_True by done. by destruct (default_at o _).
    + rewrite decide_False by done. done.
Qed.

Definition function_attachment (address : value) (j : abi_item) : attachment :=
  let f := new_function j address in
  Attach (BindFunction f) (BindFunction f) (extractDisplayName (full_name j)) (extractTypeName (full_name j)).
Definition event_attachment (address : value) (j : abi_item) : attachment :=
  let e := new_event j address in
  Attach (BindEvent e) (BindEventOn e) (extractDisplayName (full_name j)) (extractTypeName (full_name j)).
Definition item_names (j : abi_item) : jsstr * jsstr := (extractDisplayName (full_name j), extractTypeName (full_name j)).

Lemma functions_attached abi address o :
  addFunctionsToContract abi address o = attach_all o (function_attachment address <$> functions_of abi).
Proof.
  unfold addFunctionsToContract, attach_all. revert o. induction (functions_of abi) as [|j l IH]; intros o; [done|]. cbn. apply IH.
Qed.
Lemma events_attached abi address o :
  addEventsToContract abi address o =
  attach_all (set_key (str "allEvents") (Attached BindAll []) o) (event_attachment address <$> events_of abi).
Proof.
  unfold addEventsToContract, attach_all. generalize (set_key (str "allEvents") (Attached BindAll []) o).
  induction (events_of abi) as [|j l IH]; intros o'; [done|]. cbn. apply IH.
Qed.

(** The names a contract object has of its own *)
Definition reserved_names : list jsstr := [str "_eth"; str "address"; str "abi"; str "allEvents"].

Lemma new_members_free address d : d ∉ reserved_names -> assoc d (new_members address) = None.
Proof.
  unfold reserved_names. rewrite !not_elem_of_cons. intros (H1 & H2 & H3 & _). unfold new_members.
  destruct (truthy address); cbn [app assoc]; by rewrite !bool_decide_false.
Qed.

Lemma head_filter_fmap {A B} (f : A -> B) (P : B -> Prop) `{!forall x, Decision (P x)} (l : list A) :
  head (filter P (f <$> l)) = f <$> head (filter (fun x => P (f x)) l).
Proof.
  induction l as [|x l IH]; [done|]. rewrite fmap_cons, !filter_cons. destruct (decide (P (f x))); [done|]. exact IH.
Qed.

Lemma attach_all_reserved l o d : assoc d (attach_all o l) = Some Reserved <-> assoc d o = Some Reserved.
Proof.
  revert o. induction l as [|x l IH]; intros o; [done|]. unfold attach_all. cbn [foldl].
  fold (attach_all (attach_binding (at_first x) (at_typed x) (at_display x) (at_type x) o) l). by rewrite IH, attach_reserved.
Qed.
Lemma names_of (g : abi_item -> attachment) (l : list abi_item) :
  (forall j, at_names (g j) = item_names j) -> at_names <$> (g <$> l) = item_names <$> l.
Proof. intros Hg. rewrite <-list_fmap_compose. apply list_fmap_ext. intros i j _. apply Hg. Qed.

(** Overloads are told apart: every function of the interface is called under its
    name and types, and the name alone calls the first function that has it; every
    event is reached under its name and types. *)
Theorem contract_members abi address :
  NoDup (item_names <$> functions_of abi ++ events_of abi) ->
  Forall (fun j => (item_names j).1 ∉ reserved_names) (functions_of abi ++ events_of abi) ->
  (forall j, j ∈ functions_of abi ->
     typed_at (contract_at abi address) (item_names j).1 (item_names j).2 = Some (BindFunction (new_function j address)) /\
     default_at (contract_at abi address) (item_names j).1 =
       (fun k => BindFunction (new_function k address)) <$>
         head (filter (fun k => (item_names k).1 = (item_names j).1) (functions_of abi))) /\
  (forall j, j ∈ events_of abi ->
     typed_at (contract_at abi address) (item_names j).1 (item_names j).2 = Some (BindEventOn (new_event j address))).
Proof.
  rewrite fmap_app, NoDup_app, Forall_app. intros (Hf & Hd & He) [Rf Re].
  unfold contract_at. rewrite events_attached, functions_attached. set (o := new_members address).
  destruct (attach_all_spec (function_attachment address <$> functions_of abi) o) as (F1 & F2 & F3).
  { by rewrite names_of. }
  { apply Forall_fmap. eapply Forall_impl; [exact Rf|]. intros j Hj.
    change (assoc (item_names j).1 o <> Some Reserved). unfold o. by rewrite new_members_free. }
  set (o1 := attach_all o _) in *. set (o2 := set_key (str "allEvents") (Attached BindAll []) o1).
  assert (forall d, d ∉ reserved_names -> assoc d o2 = assoc d o1) as Eo.
  { intros d Hr. unfold o2. apply assoc_set_other. intros ->. apply Hr. right; right; right. left. }
  destruct (attach_all_spec (event_attachment address <$> events_of abi) o2) as (E1 & E2 & E3).
  { by rewrite names_of. }
  { apply Forall_fmap. eapply Forall_impl; [exact Re|]. intros j Hj. change (assoc (item_names j).1 o2 <> Some Reserved). rewrite Eo by done. unfold o1.
    rewrite attach_all_reserved. unfold o. by rewrite new_members_free. }
  rewrite Forall_forall in Rf. split; intros j Hj.
  - specialize (Rf j Hj). rewrite E2, E3 by (rewrite names_of by done; apply Hd; apply list_elem_of_fmap; by exists j).
    unfold typed_at, default_at. rewrite !Eo by done. fold (default_at o1 (item_names j).1). fold (typed_at o1 (item_names j).1 (item_names j).2).
    split; [apply (F1 (function_attachment address j)); apply list_elem_of_fmap; by exists j|].
    rewrite F3. unfold default_at, o. rewrite new_members_free by done. rewrite head_filter_fmap.
    assert (j ∈ filter (fun k => (item_names k).1 = (item_names j).1) (functions_of abi)) as Hin by by apply list_elem_of_filter.
    change (fun x => at_display (function_attachment address x) = (item_names j).1) with (fun k => (item_names k).1 = (item_names j).1).
    destruct (filter _ (functions_of abi)); [by apply elem_of_nil in Hin|done].
  - apply (E1 (event_attachment address j)). apply list_elem_of_fmap. by exists j.
Qed.

Lemma contract_members_witness :
  let set1 := Abi AbiFunction (str "set") [Input (str "x") (str "uint256") None] [] false false false in
  let set2 := Abi AbiFunction (str "set") [Input (str "x") (str "uint256") None; Input (str "y") (str "bool") None] [] false false false in
  let ev := Abi AbiEvent (str "Changed") [Input (str "x") (str "uint256") (Some true)] [] false false false in
  typed_at (contract_at [set1; ev; set2] (VStr (str "0x1"))) (str "set") (str "uint256,bool") =
    Some (BindFunction (new_function set2 (VStr (str "0x1")))).
Proof.
  destruct (contract_members
    [Abi AbiFunction (str "set") [Input (str "x") (str "uint256") None] [] false false false;
     Abi AbiEvent (str "Changed") [Input (str "x") (str "uint256") (Some true)] [] false false false;
     Abi AbiFunction (str "set") [Input (str "x") (str "uint256") None; Input (str "y") (str "bool") None] [] false false false]
    (VStr (str "0x1"))) as [H _].
  - apply (bool_decide_unpack _). vm_compute. reflexivity.
  - repeat (apply Forall_cons; split); [..|apply Forall_nil; exact I]; apply (bool_decide_unpack _); vm_compute; reflexivity.
  - apply (H (Abi AbiFunction (str "set") [Input (str "x") (str "uint256") None; Input (str "y") (str "bool") None] [] false false false)).
    right. left.
Defined.
