(* ===== verification/Registrars.v ===== *)
(** The interfaces of the registrars and the exchange that come with the library
    (web3.js 2-514), their addresses (6125-6137), and transfers through them. *)
From S2P Require Import Prelude WordArray Utf8 Digests BigNumber Utils Solidity Coder Iban Rpc Formatters Methods Contracts.

Definition GlobalRegistrar_1 : list abi_item :=
  [Abi AbiFunction (str "name") [Input (str "_owner") (str "address") None] [str "bytes32"] true false false;
   Abi AbiFunction (str "owner") [Input (str "_name") (str "bytes32") None] [str "address"] true false false;
   Abi AbiFunction (str "content") [Input (str "_name") (str "bytes32") None] [str "bytes32"] true false false;
   Abi AbiFunction (str "addr") [Input (str "_name") (str "bytes32") None] [str "address"] true false false;
   Abi AbiFunction (str "reserve") [Input (str "_name") (str "bytes32") None] [] false false false;
   Abi AbiFunction (str "subRegistrar") [Input (str "_name") (str "bytes32") None] [str "address"] true false false;
   Abi AbiFunction (str "transfer") [Input (str "_name") (str "bytes32") None; Input (str "_newOwner") (str "address") None] [] false false false;
   Abi AbiFunction (str "setSubRegistrar") [Input (str "_name") (str "bytes32") None; Input (str "_registrar") (str "address") None] [] false false false].
Definition GlobalRegistrar_2 : list abi_item :=
  [Abi AbiFunction (str "Registrar") [] [] false false false;
   Abi AbiFunction (str "setAddress") [Input (str "_name") (str "bytes32") None; Input (str "_a") (str "address") None; Input (str "_primary") (str "bool") None] [] false false false;
   Abi AbiFunction (str "setContent") [Input (str "_name") (str "bytes32") None; Input (str "_content") (str "bytes32") None] [] false false false;
   Abi AbiFunction (str "disown") [Input (str "_name") (str "bytes32") None] [] false false false;
   Abi AbiEvent (str "AuctionEnded") [Input (str "_name") (str "bytes32") (Some true); Input (str "_winner") (str "address") (Some false)] [] false false false;
   Abi AbiEvent (str "NewBid") [Input (str "_name") (str "bytes32") (Some true); Input (str "_bidder") (str "address") (Some false); Input (str "_value") (str "uint256") (Some false)] [] false false false;
   Abi AbiEvent (str "Changed") [Input (str "name") (str "bytes32") (Some true)] [] false false false;
   Abi AbiEvent (str "PrimaryChanged") [Input (str "name") (str "bytes32") (Some true); Input (str "addr") (str "address") (Some true)] [] false false false].
Definition GlobalRegistrar : list abi_item := GlobalRegistrar_1 ++ GlobalRegistrar_2.

Definition ICAPRegistrar : list abi_item :=
  [Abi AbiFunction (str "owner") [Input (str "_name") (str "bytes32") None] [str "address"] true false false;
   Abi AbiFunction (str "disown") [Input (str "_name") (str "bytes32") None; Input (str "_refund") (str "address") None] [] false false false;
   Abi AbiFunction (str "addr") [Input (str "_name") (str "bytes32") None] [str "address"] true false false;
   Abi AbiFunction (str "reserve") [Input (str "_name") (str "bytes32") None] [] false false false;
   Abi AbiFunction (str "transfer") [Input (str "_name") (str "bytes32") None; Input (str "_newOwner") (str "address") None] [] false false false;
   Abi AbiFunction (str "setAddr") [Input (str "_name") (str "bytes32") None; Input (str "_a") (str "address") None] [] false false false;
   Abi AbiEvent (str "Changed") [Input (str "name") (str "bytes32") (Some true)] [] false false false].

Definition SmartExchange_1 : list abi_item :=
  [Abi AbiFunction (str "transfer") [Input (str "from") (str "bytes32") None; Input (str "to") (str "address") None; Input (str "value") (str "uint256") None] [] false false false;
   Abi AbiFunction (str "icapTransfer") [Input (str "from") (str "bytes32") None; Input (str "to") (str "address") None; Input (str "indirectId") (str "bytes32") None; Input (str "value") (str "uint256") None] [] false false false;
   Abi AbiFunction (str "deposit") [Input (str "to") (str "bytes32") None] [] false true false;
   Abi AbiEvent (str "AnonymousDeposit") [Input (str "from") (str "address") (Some true); Input (str "value") (str "uint256") (Some false)] [] false false false;
   Abi AbiEvent (str "Deposit") [Input (str "from") (str "address") (Some true); Input (str "to") (str "bytes32") (Some true); Input (str "value") (str "uint256") (Some false)] [] false false false;
   Abi AbiEvent (str "Transfer") [Input (str "from") (str "bytes32") (Some true); Input (str "to") (str "address") (Some true); Input (str "value") (str "uint256") (Some false)] [] false false false].
Definition SmartExchange_2 : list abi_item :=
  [Abi AbiEvent (str "IcapTransfer") [Input (str "from") (str "bytes32") (Some true); Input (str "to") (str "address") (Some true); Input (str "indirectId") (str "bytes32") (Some false); Input (str "value") (str "uint256") (Some false)] [] false false false].
Definition SmartExchange : list abi_item := SmartExchange_1 ++ SmartExchange_2.

Definition globalNameregAddress : value := VStr (str "0xc6d9d2cd449a754c494264e1809c50e34d64562b").
Definition icapNameregAddress : value := VStr (str "0xa1a111bc074c9cfa781f0c38e63bd51c91b8af00").
(** [eth.namereg()] and [eth.icapNamereg()] *)
Definition namereg : members := contract_at GlobalRegistrar globalNameregAddress.
Definition icapNamereg : members := contract_at ICAPRegistrar icapNameregAddress.

(** * Transfers *)

Section Transfers.
Context (rm : rounding) (c : config).

(** Calling a member of a contract by its name *)
Definition call_member (o : members) (name : jsstr) (args : list value) (answer : value) (s : manager)
    : manager * list effect * option value :=
  match default_at o name with
  | Some (BindFunction f) => fn_execute rm c f args answer s
  | _ => (s, [], None)
  end.

(** The transaction to an address: its recipient is given as [address]. *)
Definition transfer_transaction (from to amount : value) : value :=
  VObj [(str "address", to); (str "from", from); (str "value", amount)].
Definition transferToAddress (from to amount answer : value) (s : manager) : manager * list effect * option value :=
  call_sync (Eth.sendTransaction rm c) [transfer_transaction from to amount] answer s.
Definition deposit (from to amount : value) (client : jsstr) (answer : value) (s : manager) : manager * list effect * option value :=
  call_member (contract_at SmartExchange to) (str "deposit")
    [VStr client; VObj [(str "from", from); (str "value", amount)]] answer s.

(** [transfer] without a callback.  For an indirect number the registrar is asked
    first: [answer1] is its answer, [answer2] the one to the transaction. *)
Definition transfer (from : value) (to : jsstr) (amount answer1 answer2 : value) (s : manager) : manager * list effect * option value :=
  match isValid to with
  | Some true =>
      if isDirect to then
        match Iban.address rm to with
        | Some a => transferToAddress from (VStr a) amount answer2 s
        | None => (s, [], None)
        end
      else
        let '(s, fx, address) := call_member icapNamereg (str "addr") [VStr (institution to)] answer1 s in
        match address with
        | Some a => let '(s, fx', r) := deposit from a amount (client to) answer2 s in (s, fx ++ fx', r)
        | None => (s, fx, None)
        end
  | _ => (s, [], None)
  end.
End Transfers.

(** Every name of the three interfaces is reached. *)
Lemma interfaces_distinct :
  Forall (fun abi => bool_decide (NoDup (item_names <$> functions_of abi ++ events_of abi)) &&
            forallb (fun j => bool_decide ((item_names j).1 ∉ reserved_names)) (functions_of abi ++ events_of abi) = true)
    [GlobalRegistrar; ICAPRegistrar; SmartExchange].
Proof. repeat constructor; vm_compute; reflexivity. Qed.

(** A transfer to a direct account number, when it sends anything, sends a
    transaction without a recipient: the node takes it for the creation of a
    contract. *)
Theorem direct_transfer_lost rm c from to amount answer1 answer2 s params id :
  isDirect to = true ->
  Send [Payload id (str "eth_sendTransaction") params] ∈ (transfer rm c from to amount answer1 answer2 s).1.2 ->
  exists o, params = [o] /\ field (str "to") o = VUndefined.
Proof.
  intros Hd. unfold transfer. destruct (isValid to) as [[]|]; [|by intros ?%elem_of_nil..]. rewrite Hd.
  destruct (Iban.address rm to) as [a|]; [|by intros ?%elem_of_nil]. unfold transferToAddress, call_sync.
  erewrite toPayload_one by reflexivity.
  destruct (inputTransactionFormatter rm c _) as [o|] eqn:Ho; [|by intros ?%elem_of_nil].
  unfold send. destruct (provider s); [|intros H%list_elem_of_singleton; discriminate H]. cbn.
  intros Hin. assert (params = [o]) as ->.
  { destruct (isValidResponse answer2); cbn in Hin; apply elem_of_cons in Hin as [[= _ ->]|Hin]; try done; exfalso.
    - by apply elem_of_nil in Hin.
    - apply list_elem_of_singleton in Hin. discriminate Hin. }
  exists o. split; [done|]. unfold transfer_transaction in Ho. by apply no_recipient in Ho.
Qed.

Lemma direct_transfer_lost_witness :
  exists o,
    [VObj [(str "address", VStr (str "00c5496aee77c1ba1f0854206a26dda82a81d6d8"));
           (str "from", VStr (str "0x00c5496aee77c1ba1f0854206a26dda82a81d6d8")); (str "value", VStr (str "0x1"))]] = [o] /\
    field (str "to") o = VUndefined.
Proof.
  apply (direct_transfer_lost ROUND_DOWN initial_config (VStr (str "0x00c5496aee77c1ba1f0854206a26dda82a81d6d8"))
           (str "XE7338O073KYGTWWZN0F2WZ0R8PX5ZPPZS") (VNum 1) VUndefined VUndefined (newManager true) _ 1).
  - reflexivity.
  - vm_compute. apply elem_of_cons. left. reflexivity.
Defined.

(** A transfer to an indirect account number asks the registrar for the institution
    and deposits the amount, for the client, at the address it answers. *)
Theorem indirect_transfer :
  (transfer ROUND_DOWN initial_config (VStr (str "0x00c5496aee77c1ba1f0854206a26dda82a81d6d8")) (str "XE81ETHXREGGAVOFYORK") (VNum 9)
     (answer_of (VStr (str "0x000000000000000000000000c6d9d2cd449a754c494264e1809c50e34d64562b"))) (answer_of (VStr (str "0x01")))
     (newManager true)).1.2 =
  [Send [Payload 1 (str "eth_call")
     [VObj [(str "to", icapNameregAddress);
            (str "data", VStr (str "0x3b3b57de" ++ str "58524547" ++ replicate 56 48)); (str "from", VUndefined)];
      VStr (str "latest")]];
   Send [Payload 2 (str "eth_sendTransaction")
     [VObj [(str "from", VStr (str "0x00c5496aee77c1ba1f0854206a26dda82a81d6d8")); (str "value", VStr (str "0x9"));
            (str "to", globalNameregAddress);
            (str "data", VStr (str "0xb214faa5" ++ str "4741564f46594f524b" ++ replicate 46 48))]]]].
Proof. vm_compute. reflexivity. Qed.

(** A client that is a number is written as the number, not as its text. *)
Theorem numeric_client_lost :
  fn_getData ROUND_DOWN (new_function (Abi AbiFunction (str "deposit") [Input (str "to") (str "bytes32") None] [] false true false) VNull)
    [VStr (str "000000042")] =
  Some (VStr (str "0xb214faa5" ++ str "2a" ++ replicate 62 48)).
Proof. vm_compute. reflexivity. Qed.
