(* ===== verification/ContractCalls.v ===== *)
(** Calls of contract functions and logs of contract events, from the values to the
    messages and back: what a function sends is its selector and its encoded
    arguments, what it returns are the values the node's answer encodes; a decoded
    log has the values its topics and data encode, and a filter for these values
    asks for just those topics. *)
From S2P Require Import Prelude WordArray Utf8 Digests BigNumber Utils Solidity Coder CoderRoundtrip Iban Rpc Formatters Methods Contracts.

Lemma word_value_plain t base v : word_value t base v -> is_options v = false /\ is_defined v = true /\ v <> VNull /\ isArray v = false.
Proof. by destruct 1. Qed.
Lemma array_value_plain t base ns v : array_value t base ns v -> is_options v = false /\ is_defined v = true.
Proof. destruct ns as [|n ns]; [intros H%word_value_plain; naive_solver|]. by intros (vs & -> & _). Qed.
Lemma good_plain type v : good_param type v -> is_options v = false /\ is_defined v = true.
Proof. destruct 1; try done. by eapply array_value_plain. Qed.

Lemma filter_all {A} (P : A -> Prop) `{!forall x, Decision (P x)} l : Forall P l -> filter P l = l.
Proof. induction 1; [done|]. rewrite filter_cons, decide_True by done. by f_equal. Qed.

Lemma good_args_defined types args : Forall2 good_param types args -> defined_args args = args.
Proof.
  intros H. apply filter_all. induction H as [|type v types args Hv _ IH]; constructor; [|done]. by apply good_plain in Hv as [_ ?].
Qed.
Lemma good_args_valid f args : Forall2 good_param (_inputTypes f) args -> validArgs f args = true.
Proof.
  intros H. unfold validArgs. rewrite filter_all.
  - rewrite <-(Forall2_length _ _ _ H). by apply Nat.eqb_refl.
  - induction H as [|type v types args Hv _ IH]; constructor; [|done]. by apply good_plain in Hv as [? _].
Qed.

Lemma signature_digits f : is_Some (utf8encode (_name f)) -> exists sig, signature f = Some sig /\ length sig = 8%nat.
Proof.
  intros [h Hh]%sha3_text. unfold signature. rewrite Hh. cbn [mbind option_bind]. eexists. split; [done|].
  destruct (sha3_result _ _ _ Hh) as (ds & -> & _ & Hl). change 8 with (Z.of_nat 8). rewrite slice_prefix, length_take, length_fmap. lia.
Qed.

(** * Functions *)

(** The value of a call: the only output, or all of them. *)
Definition call_value (outs : list value) : value := match outs with [x] => x | _ => VArr outs end.

Lemma unpack_good rm f outs :
  Forall2 good_param (_outputTypes f) outs -> fold_right (fun v n => 64 + text_size v + n) 0 outs < 2 ^ 53 ->
  exists out, encodeParams rm (_outputTypes f) outs = Some out /\
    unpackOutput rm f (VStr (str "0x" ++ out)) = Some (call_value outs).
Proof.
  intros H Hs. destruct (good_items rm _ _ H Hs) as (xs & Hxs & E1 & E2 & Hsz).
  destruct (roundtrip_items rm xs Hxs Hsz) as (out & He & Hd). rewrite <-E1, <-E2 in He, Hd.
  exists out. split; [done|]. unfold unpackOutput. cbn [falsy].
  change (falsy (VStr (str "0x" ++ out))) with false. cbv iota.
  assert ((2 <=? js_len (str "0x" ++ out)) = true) as -> by (apply Z.leb_le; unfold js_len; rewrite length_app; change (length (str "0x")) with 2%nat; lia).
  change 2 with (Z.of_nat 2). rewrite slice_rest by (rewrite length_app; change (length (str "0x")) with 2%nat; lia).
  change (drop 2 (str "0x" ++ out)) with out. rewrite Hd. done.
Qed.

(** The message of a call, and its formatting for a contract at a strict address. *)
Lemma payload_good rm f args :
  Forall2 good_param (_inputTypes f) args -> fold_right (fun v n => 64 + text_size v + n) 0 args < 2 ^ 53 ->
  is_Some (utf8encode (_name f)) ->
  exists sig enc, signature f = Some sig /\ length sig = 8%nat /\ decodeParams rm (_inputTypes f) enc = Some args /\
    fn_toPayload rm f args = Some (VObj [(str "to", _address f); (str "data", VStr (str "0x" ++ sig ++ enc))]).
Proof.
  intros H Hs Hn. destruct (signature_digits f Hn) as (sig & Hsig & Hl). 
  destruct (good_items rm _ _ H Hs) as (xs & Hxs & E1 & E2 & Hsz).
  destruct (roundtrip_items rm xs Hxs Hsz) as (enc & He & Hd). rewrite <-E1, <-E2 in He, Hd.
  exists sig, enc. split_and!; try done. unfold fn_toPayload. rewrite good_args_valid by done.
  rewrite <-(Forall2_length _ _ _ H), Nat.ltb_irrefl. cbn [andb put mbind option_bind set_key].
  rewrite Hsig. cbn [mbind option_bind]. by rewrite He.
Qed.

Lemma call_formatted rm a d :
  isStrictAddress a = true ->
  inputCallFormatter rm initial_config (VObj [(str "to", VStr a); (str "data", d)]) =
    Some (VObj [(str "to", VStr a); (str "data", d); (str "from", VUndefined)]).
Proof.
  intros Ha. unfold inputCallFormatter, default_from. cbn [get mbind option_bind].
  change (put (str "from") (if truthy (field (str "from") (VObj [(str "to", VStr a); (str "data", d)])) then
            field (str "from") (VObj [(str "to", VStr a); (str "data", d)]) else defaultAccount initial_config)
            (VObj [(str "to", VStr a); (str "data", d)]))
    with (Some (VObj [(str "to", VStr a); (str "data", d); (str "from", VUndefined)])).
  cbn [mbind option_bind]. rewrite update_fixed by (intros E; discriminate E). cbn [mbind option_bind].
  rewrite update_fixed.
  2: { intros _. change (field (str "to") (VObj [(str "to", VStr a); (str "data", d); (str "from", VUndefined)])) with (VStr a).
       by rewrite strict_fixed. }
  reflexivity.
Qed.



(** * Events *)

(** A parameter of an event with its value: a word when it is indexed. *)
Definition good_event_param (x : abi_input * value) : Prop :=
  let '(p, v) := x in
  exists b, in_indexed p = Some b /\
    if b : bool then exists t, word_type t (in_type p) /\ word_value t (in_type p) v else good_param (in_type p) v.
Definition of_kind (b : bool) (pvs : list (abi_input * value)) : list (abi_input * value) :=
  filter (fun x => in_indexed x.1 = Some b) pvs.
Definition sizes (pvs : list (abi_input * value)) : Z := fold_right (fun x n => 64 + text_size x.2 + n) 0 pvs.

Lemma word_item rm t base v :
  word_type t base -> word_value t base v -> exists x, item_ok rm x /\ i_type x = base /\ i_v x = v /\ i_dyn x = false.
Proof.
  intros Ht Hv. destruct (static_item rm t base [] v Ht (Forall_nil_2 _) Hv) as (x & Hx & E1 & E2).
  exists x. split_and!; [done|by rewrite E1; apply app_nil_r|done|].
  destruct Hx as (Hr & Hd & _). rewrite E1 in Hr, Hd. rewrite (require_word t base []) in Hr by (done || constructor).
  injection Hr as Et. rewrite <-Et in Hd. destruct (word_type_base t base Ht) as [Hb Hs]. rewrite <-Hd. unfold isDynamicParam.
  by rewrite Hs, (proj1 (no_array base Hb)).
Qed.

Lemma static_heads xs o : Forall (fun x => i_dyn x = false) xs -> heads o xs ++ tails xs = mjoin (i_s <$> xs).
Proof.
  induction 1 as [|x xs Hx _ IH]; [done|]. cbn [heads tails fmap list_fmap mjoin list_join]. rewrite Hx, <-app_assoc. f_equal. exact IH.
Qed.

Lemma item_size_le xs x :
  x ∈ xs -> 64 + text_size (i_v x) <= fold_right (fun x n => 64 + text_size (i_v x) + n) 0 xs.
Proof.
  assert (forall xs : list item, 0 <= fold_right (fun x n => 64 + text_size (i_v x) + n) 0 xs) as Hpos.
  { induction xs0 as [|y l IH]; cbn [fold_right]; [lia|]. pose proof (text_size_pos (i_v y)). lia. }
  induction xs as [|y xs IH]; intros Hin; [by apply elem_of_nil in Hin|]. cbn [fold_right].
  apply elem_of_cons in Hin as [->|Hin]; [specialize (Hpos xs); lia|]. specialize (IH Hin). pose proof (text_size_pos (i_v y)). lia.
Qed.

(** Words are encoded one by one, and decoded together. *)
Lemma static_words rm xs :
  Forall (item_ok rm) xs -> Forall (fun x => i_dyn x = false) xs ->
  fold_right (fun x n => 64 + text_size (i_v x) + n) 0 xs < 2 ^ 53 ->
  Forall (fun x => encodeParam rm (i_type x) (i_v x) = Some (i_s x)) xs /\
  decodeParams rm (i_type <$> xs) (mjoin (i_s <$> xs)) = Some (i_v <$> xs).
Proof.
  intros Hx Hd Hsz. split.
  - apply Forall_forall. intros x Hin. pose proof (item_size_le xs x Hin).
    rewrite Forall_forall in Hx, Hd.
    destruct (encodeParams_items rm [x]) as (o & _ & E); [by constructor; [apply Hx|]|cbn [fold_right]; lia|].
    unfold encodeParam. change (encodeParams rm [i_type x] [i_v x] = Some (i_s x)) with
      (encodeParams rm (i_type <$> [x]) (i_v <$> [x]) = Some (i_s x)). rewrite E, static_heads by (constructor; [by apply Hd|done]).
    cbn. by rewrite app_nil_r.
  - destruct (encodeParams_items rm xs Hx Hsz) as (o & _ & E). destruct (roundtrip_items rm xs Hx Hsz) as (b & E' & Hb).
    rewrite E' in E. injection E as ->. by rewrite static_heads in Hb.
Qed.

Lemma of_kind_cons b x pvs :
  of_kind b (x :: pvs) = if decide (in_indexed x.1 = Some b) then x :: of_kind b pvs else of_kind b pvs.
Proof. unfold of_kind. by rewrite filter_cons. Qed.

Lemma types_of_kind e pvs b : _params e = fst <$> pvs -> types e b = (fun x => in_type x.1) <$> of_kind b pvs.
Proof.
  intros E. unfold types. rewrite E. clear E. induction pvs as [|x pvs IH]; [done|].
  rewrite fmap_cons, filter_cons, of_kind_cons. destruct (decide (in_indexed x.1 = Some b)); [|done]. by rewrite !fmap_cons, IH.
Qed.

Definition item_of (x : abi_input * value) (y : item) : Prop :=
  i_type y = in_type x.1 /\ i_v y = x.2 /\ x.2 <> VNull /\ x.2 <> VUndefined /\ isArray x.2 = false.
Lemma indexed_items rm pvs :
  Forall good_event_param pvs ->
  exists xs, Forall (item_ok rm) xs /\ Forall (fun x => i_dyn x = false) xs /\ Forall2 item_of (of_kind true pvs) xs.
Proof.
  induction 1 as [|[p v] pvs (b & Hb & Hv) _ (xs & H1 & H2 & H3)]; [by exists []|].
  rewrite of_kind_cons. cbn [fst]. destruct (decide (in_indexed p = Some true)) as [E|E]; [|by exists xs].
  rewrite E in Hb. injection Hb as <-. destruct Hv as (t & Ht & Hv). destruct (word_item rm t _ v Ht Hv) as (x & Hx & E1 & E2 & E3).
  apply word_value_plain in Hv as (_ & Hdef & Hnull & Harr).
  exists (x :: xs). split_and!; [by constructor|by constructor|]. constructor; [|done]. unfold item_of. cbn [fst snd].
  split_and!; try done. intros ->. discriminate Hdef.
Qed.
Lemma items_types l xs :
  Forall2 item_of l xs -> i_type <$> xs = (fun x => in_type x.1) <$> l /\ i_v <$> xs = snd <$> l.
Proof. induction 1 as [|x y l xs (E1 & E2 & _) _ [IH1 IH2]]; [done|]. by rewrite !fmap_cons, IH1, IH2, E1, E2. Qed.
Lemma other_items pvs :
  Forall good_event_param pvs ->
  Forall2 good_param ((fun x => in_type x.1) <$> of_kind false pvs) (snd <$> of_kind false pvs).
Proof.
  intros H. induction H as [|[p v] pvs (b & Hb & Hv) _ IH]; [constructor|].
  rewrite of_kind_cons. cbn [fst]. destruct (decide (in_indexed p = Some false)) as [E|E]; [|done].
  rewrite E in Hb. injection Hb as <-. rewrite !fmap_cons. by constructor.
Qed.

Lemma sizes_kind b pvs : fold_right (fun v n => 64 + text_size v + n) 0 (snd <$> of_kind b pvs) <= sizes pvs.
Proof.
  induction pvs as [|x pvs IH]; [done|]. rewrite of_kind_cons. unfold sizes in *. cbn [fold_right]. pose proof (text_size_pos x.2).
  destruct (decide _); [rewrite fmap_cons; cbn [fold_right]|]; lia.
Qed.
Lemma sizes_items xs :
  fold_right (fun v n => 64 + text_size v + n) 0 (i_v <$> xs) = fold_right (fun x n => 64 + text_size (i_v x) + n) 0 xs.
Proof. induction xs as [|x l IH]; [done|]. cbn [fmap list_fmap fold_right]. by rewrite <-IH. Qed.

Lemma set_key_fresh {A} k (v : A) l : assoc k l = None -> set_key k v l = l ++ [(k, v)].
Proof.
  induction l as [|[k' y] l IH]; [done|]. cbn [assoc set_key]. case_bool_decide; [done|]. intros H'. by rewrite IH.
Qed.
Lemma assoc_app_fresh {A} k (l l' : list (jsstr * A)) : assoc k l = None -> assoc k (l ++ l') = assoc k l'.
Proof. induction l as [|[k' y] l IH]; [done|]. cbn [assoc app]. by case_bool_decide. Qed.

(** The arguments of a log: every parameter with its value, in order. *)
Definition named (pvs : list (abi_input * value)) : list (jsstr * value) := (fun x => (in_name x.1, x.2)) <$> pvs.

Lemma event_args_spec pvs acc :
  Forall good_event_param pvs -> NoDup ((fun x => in_name x.1) <$> pvs) ->
  Forall (fun x => assoc (in_name x.1) acc = None) pvs ->
  event_args (fst <$> pvs) (snd <$> of_kind true pvs) (snd <$> of_kind false pvs) acc = acc ++ named pvs.
Proof.
  intros H. revert acc. induction H as [|[p v] pvs (b & Hb & _) _ IH]; intros acc Hn Ha; [cbn; by rewrite app_nil_r|].
  rewrite fmap_cons in Hn. apply NoDup_cons in Hn as [Hp Hn]. apply Forall_cons in Ha as [Hpa Ha]. cbn [fst] in Hpa.
  assert (Forall (fun x => assoc (in_name x.1) (acc ++ [(in_name p, v)]) = None) pvs) as Ha'.
  { eapply Forall_impl_in; [exact Ha|]. intros x Hin Hx. rewrite assoc_app_fresh by done. cbn.
    rewrite bool_decide_false; [done|]. intros E. apply Hp. cbn. rewrite <-E. apply list_elem_of_fmap. by exists x. }
  rewrite !of_kind_cons, !fmap_cons. cbn [fst event_args]. rewrite Hb. cbn [default].
  destruct b; repeat case_decide; try done;
    rewrite fmap_cons; cbn [head tail snd]; change (default VUndefined (Some v)) with v;
    rewrite (set_key_fresh (in_name p) v acc Hpa), (IH _ Hn Ha'); unfold named; rewrite fmap_cons; by rewrite <-app_assoc.
Qed.

Lemma params_of_kind e pvs : _params e = fst <$> pvs -> filter (fun i => in_indexed i = Some true) (_params e) = fst <$> of_kind true pvs.
Proof.
  intros ->. induction pvs as [|x pvs IH]; [done|]. rewrite fmap_cons, filter_cons, of_kind_cons.
  destruct (decide (in_indexed x.1 = Some true)); [|done]. by rewrite fmap_cons, IH.
Qed.

Lemma named_field pvs x : NoDup ((fun x => in_name x.1) <$> pvs) -> x ∈ pvs -> field (in_name x.1) (VObj (named pvs)) = x.2.
Proof.
  intros Hn Hx. apply list_elem_of_lookup in Hx as [j Hj]. cbn [field]. rewrite (assoc_nodup _ x.2 _ j); [done| |].
  - unfold named. rewrite <-list_fmap_compose. exact Hn.
  - unfold named. by rewrite list_lookup_fmap, Hj.
Qed.

(** The topics of the indexed values, in a filter and in a log. *)
Definition words_topics (xs : list item) : list value := (fun x => VStr (str "0x" ++ i_s x)) <$> xs.
Lemma topics_encoded rm pvs l xs :
  NoDup ((fun x => in_name x.1) <$> pvs) -> Forall (fun x => x ∈ pvs) l -> Forall2 item_of l xs ->
  Forall (fun x => encodeParam rm (i_type x) (i_v x) = Some (i_s x)) xs ->
  mapM (event_topic rm (VObj (named pvs))) (fst <$> l) = Some (words_topics xs).
Proof.
  intros Hn Hl H He. induction H as [|x y l xs (E1 & E2 & N1 & N2 & N3) _ IH]; [done|].
  apply Forall_cons in Hl as [Hx Hl]. apply Forall_cons in He as [Hy He].
  assert (event_topic rm (VObj (named pvs)) x.1 = Some (VStr (str "0x" ++ i_s y))) as Et.
  { unfold event_topic. rewrite named_field by done. rewrite <-E2, <-E1 in *.
    assert (topic rm (i_type y) (i_v y) = Some (VStr (str "0x" ++ i_s y))) as Et by (unfold topic; by rewrite Hy).
    by destruct (i_v y). }
  rewrite fmap_cons. cbn [mapM]. rewrite Et. cbn [mbind option_bind]. by rewrite (IH Hl He).
Qed.
Lemma topics_decoded xs : mapM topic_digits (words_topics xs) = Some (i_s <$> xs).
Proof.
  induction xs as [|x xs IH]; [done|]. unfold words_topics. rewrite !fmap_cons. cbn [mapM topic_digits]. cbn [mbind option_bind].
  fold (words_topics xs). rewrite IH. cbn [option_bind mret option_ret]. do 2 f_equal.
  change 2 with (Z.of_nat 2). rewrite slice_rest by (rewrite length_app; change (length (str "0x")) with 2%nat; lia). done.
Qed.

(** Two computations that start with the same step *)
Ltac case_same_bind :=
  match goal with |- mbind _ ?A = mbind _ ?B => change A with B; destruct B; cbn [mbind option_bind] end.

(** Decoding a log with an address, topics and data *)
Lemma event_decode_log rm e a l c data :
  event_decode rm e (VObj [(str "address", a); (str "topics", VArr l); (str "data", VStr (c :: data))]) =
  digits ← mapM topic_digits (if _anonymous e then l else drop 1 l);
  indexed ← decodeParams rm (types e true) (mjoin digits);
  rest ← decodeParams rm (types e false) (js_slice_from (c :: data) 2);
  Some (VObj [(str "address", a); (str "event", VStr (extractDisplayName (e_name e)));
              (str "args", VObj (event_args (_params e) indexed rest []))]).
Proof.
  unfold event_decode. 
  change (get (str "data") (VObj [(str "address", a); (str "topics", VArr l); (str "data", VStr (c :: data))])) with (Some (VStr (c :: data))).
  cbn [mbind option_bind].
  change (put (str "data") (if truthy (VStr (c :: data)) then VStr (c :: data) else VStr [])
            (VObj [(str "address", a); (str "topics", VArr l); (str "data", VStr (c :: data))]))
    with (Some (VObj [(str "address", a); (str "topics", VArr l); (str "data", VStr (c :: data))])).
  cbn [mbind option_bind].
  change (get (str "topics") (VObj [(str "address", a); (str "topics", VArr l); (str "data", VStr (c :: data))])) with (Some (VArr l)).
  cbn [mbind option_bind].
  change (put (str "topics") (if truthy (VArr l) then VArr l else VArr [])
            (VObj [(str "address", a); (str "topics", VArr l); (str "data", VStr (c :: data))]))
    with (Some (VObj [(str "address", a); (str "topics", VArr l); (str "data", VStr (c :: data))])).
  cbn [mbind option_bind].
  change (field (str "topics") (VObj [(str "address", a); (str "topics", VArr l); (str "data", VStr (c :: data))])) with (VArr l).
  change (field (str "data") (VObj [(str "address", a); (str "topics", VArr l); (str "data", VStr (c :: data))])) with (VStr (c :: data)).
  cbv beta iota. repeat (case_same_bind; [|reflexivity]). reflexivity.
Qed.

Lemma event_log_decoded rm e pvs sig a :
  _params e = fst <$> pvs -> Forall good_event_param pvs -> NoDup ((fun x => in_name x.1) <$> pvs) ->
  sizes pvs < 2 ^ 53 -> event_signature e = Some sig ->
  exists ts d,
    Forall (fun t => exists s, t = VStr (str "0x" ++ s)) ts /\
    let topics := VArr ((if _anonymous e then [] else [VStr (str "0x" ++ sig)]) ++ ts) in
    event_encode rm e (VObj (named pvs)) VUndefined = Some (VObj [(str "topics", topics); (str "address", e_address e)]) /\
    encodeParams rm (types e false) (snd <$> of_kind false pvs) = Some d /\
    event_decode rm e (VObj [(str "address", a); (str "topics", topics); (str "data", VStr (str "0x" ++ d))]) =
      Some (VObj [(str "address", a); (str "event", VStr (extractDisplayName (e_name e))); (str "args", VObj (named pvs))]).
Proof.
  intros Hp Hg Hn Hsz Hsig. destruct (indexed_items rm pvs Hg) as (xs & X1 & X2 & X3).
  destruct (items_types _ _ X3) as [Et Ev].
  pose proof (sizes_kind true pvs) as Hs1. rewrite <-Ev, sizes_items in Hs1.
  destruct (static_words rm xs X1 X2 ltac:(lia)) as [Henc Hdec].
  pose proof (sizes_kind false pvs) as Hs2.
  destruct (good_items rm _ _ (other_items pvs Hg) ltac:(lia)) as (ys & Y1 & Yt & Yv & Y2).
  destruct (roundtrip_items rm ys Y1 Y2) as (d & Hd & Hdd). rewrite <-Yt, <-Yv in Hd, Hdd.
  rewrite <-(types_of_kind e pvs false Hp) in Hd, Hdd. rewrite Et, <-(types_of_kind e pvs true Hp), Ev in Hdec.
  exists (words_topics xs), d. split.
  { unfold words_topics. apply Forall_fmap, Forall_true. intros x. by exists (i_s x). }
  cbv zeta. split_and!; [|done|].
  - unfold event_encode. cbn [block_fields block_keys field mbind option_bind].
    rewrite Hsig. rewrite (params_of_kind e pvs Hp).
    rewrite (topics_encoded rm pvs (of_kind true pvs) xs Hn) by (done || (apply Forall_forall; intros x Hx; by apply list_elem_of_filter in Hx as [_ Hx])).
    by destruct (_anonymous e).
  - change (str "0x" ++ d) with (48 :: 120 :: d). rewrite event_decode_log.
    assert ((if _anonymous e then (if _anonymous e then [] else [VStr (str "0x" ++ sig)]) ++ words_topics xs
             else drop 1 ((if _anonymous e then [] else [VStr (str "0x" ++ sig)]) ++ words_topics xs)) = words_topics xs) as ->
      by by destruct (_anonymous e).
    rewrite topics_decoded. cbn [mbind option_bind]. rewrite Hdec. cbn [mbind option_bind].
    assert (js_slice_from (48 :: 120 :: d) 2 = d) as -> by (change 2 with (Z.of_nat 2); rewrite slice_rest by (cbn; lia); done).
    rewrite Hdd. cbn [mbind option_bind].
    rewrite Hp, event_args_spec; [done|done|done|]. by apply Forall_true.
Qed.



(** * Where it fails *)

(** A parameter without the field [indexed] is decoded as undefined. *)
Theorem unmarked_param_undefined rm v :
  event_decode rm (Event [Input (str "x") (str "uint256") None] (str "E(uint256)") VNull true)
    (VObj [(str "address", VNull); (str "topics", VArr []); (str "data", VStr (48 :: v))]) =
  Some (VObj [(str "address", VNull); (str "event", VStr (str "E")); (str "args", VObj [(str "x", VUndefined)])]).
Proof. by rewrite event_decode_log. Qed.

(** An event with an indexed text is asked for by the encoding of the text, where the
    log has a hash of one word. *)
Theorem indexed_text_topic :
  exists t, event_topic ROUND_DOWN (VObj [(str "s", VStr (str "a"))]) (Input (str "s") (str "string") (Some true)) = Some (VStr t) /\
    js_len t = 2 + 3 * 64.
Proof. eexists. split; vm_compute; reflexivity. Qed.

(** The data of a contract creation without an options object starts with the text
    of an undefined value. *)
Theorem factory_data_undefined :
  factory_getData ROUND_DOWN [Abi AbiConstructor [] [Input (str "x") (str "uint256") None] [] false false false] [VNum 1] =
  Some (VStr (str "undefined" ++ w64 1)).
Proof. vm_compute. reflexivity. Qed.
