(* ===== verification/ConsoleScripts.v ===== *)
(** The example scripts for the node's console, src/monereum-examples/examples/7nodes:
    private-contract.js and public-contract.js (also samples/simple-storage), the
    scripts of samples/simple-event, and the deployment and scan scripts of porosity.
    They use the library modelled by the files before this one.

    A script is a program over the console's state that may throw; the node answers
    every message, [node k method params] being its answer to the message with the
    identifier [k].  Unlocking an account, which the console itself implements, and the
    node's extensions [quorum.getPrivatePayload] and [quorum.runPorosity] are parameters. *)
From Stdlib Require Import ZArith Lia.
From S2P Require Import Prelude WordArray BigNumber Utils Solidity Coder Rpc Json Formatters Methods Contracts.
Open Scope Z_scope.

(** * Scripts *)

(** What [console.log] is given. *)
Inductive printed := PrintText (s : jsstr) | PrintValue (v : value) | PrintContract.
(** What a script does, in order. *)
Inductive act :=
| Does (e : effect)
| Unlocks (account : value)
| Prints (l : list printed).

Record console := Console { cfg : config; mgr : manager; acts : list act }.
Definition script (A : Type) : Type := console -> console * option A.

#[export] Instance script_ret : MRet script := fun A x s => (s, Some x).
#[export] Instance script_bind : MBind script := fun A B f m s =>
  match m s with
  | (s, Some x) => f x s
  | (s, None) => (s, None)
  end.
Definition lift {A} (x : option A) : script A := fun s => (s, x).
Definition act_ (a : act) : script unit := fun s => (Console (cfg s) (mgr s) (acts s ++ [a]), Some tt).
Definition log (l : list printed) : script unit := act_ (Prints l).
Definition say (t : string) : script unit := log [PrintText (str t)].

(** [v[0]] *)
Definition first_of (v : value) : option value :=
  match v with
  | VUndefined | VNull => None
  | VArr (x :: _) => Some x
  | VStr (c :: _) => Some (VStr [c])
  | _ => Some VUndefined
  end.
Definition accounts : property := Property (str "accounts") (str "eth_accounts") None None.

(** The interface of a contract, read from JSON. *)
Definition jfield (k : string) (j : json) : json :=
  match j with JObj fs => default JNull (assoc (str k) fs) | _ => JNull end.
Definition jtext (j : json) : jsstr := match j with JStr s => s | _ => [] end.
Definition jlist (j : json) : list json := match j with JArr l => l | _ => [] end.
Definition jbool (j : json) : option bool := match j with JBool b => Some b | _ => None end.
Definition kind_of (t : jsstr) : abi_kind :=
  if bool_decide (t = str "function") then AbiFunction
  else if bool_decide (t = str "event") then AbiEvent
  else if bool_decide (t = str "constructor") then AbiConstructor else AbiOther.
Definition input_of (j : json) : abi_input :=
  Input (jtext (jfield "name" j)) (jtext (jfield "type" j)) (jbool (jfield "indexed" j)).
Definition item_of (j : json) : abi_item :=
  Abi (kind_of (jtext (jfield "type" j))) (jtext (jfield "name" j)) (input_of <$> jlist (jfield "inputs" j))
    ((fun o => jtext (jfield "type" o)) <$> jlist (jfield "outputs" j))
    (default false (jbool (jfield "constant" j))) (default false (jbool (jfield "payable" j)))
    (default false (jbool (jfield "anonymous" j))).
Definition abi_of (j : json) : list abi_item := item_of <$> jlist j.
(** JSON text written with apostrophes for quotation marks. *)
Definition quoted (s : string) : jsstr := (fun c => if c =? 39 then 34 else c) <$> str s.

(** * The contracts *)

Definition uint256 (n : string) : abi_input := Input (str n) (str "uint256") None.
Definition storage_abi : list abi_item :=
  [Abi AbiFunction (str "storedData") [] [str "uint256"] true false false;
   Abi AbiFunction (str "set") [uint256 "x"] [] false false false;
   Abi AbiFunction (str "get") [] [str "uint256"] true false false;
   Abi AbiConstructor [] [uint256 "initVal"] [] false false false].
Definition bytecode : jsstr := str "0x6060604052341561000f57600080fd5b604051602080610149833981016040528080519060200190919050505b806000819055505b505b610104806100456000396000f30060606040526000357c0100000000000000000000000000000000000000000000000000000000900463ffffffff1680632a1afcd914605157806360fe47b11460775780636d4ce63c146097575b600080fd5b3415605b57600080fd5b606160bd565b6040518082815260200191505060405180910390f35b3415608157600080fd5b6095600480803590602001909190505060c3565b005b341560a157600080fd5b60a760ce565b6040518082815260200191505060405180910390f35b60005481565b806000819055505b50565b6000805490505b905600a165627a7a72305820d5851baab720bba574474de3d09dbeaabc674a15f4dd93b974908476542c23f00029".
Definition event_abi_text : jsstr := quoted "[{'constant':false,'inputs':[{'name':'_x','type':'uint256'}],'name':'set','outputs':[],'payable':false,'stateMutability':'nonpayable','type':'function'},{'constant':false,'inputs':[],'name':'get','outputs':[{'name':'','type':'uint256'}],'payable':false,'stateMutability':'nonpayable','type':'function'},{'inputs':[{'name':'_x','type':'uint256'}],'payable':false,'stateMutability':'nonpayable','type':'constructor'},{'anonymous':false,'inputs':[{'indexed':false,'name':'msg','type':'string'},{'indexed':false,'name':'value','type':'uint256'}],'name':'LogSet','type':'event'}]".
Definition event_bin : jsstr := str "608060405234801561001057600080fd5b506040516020806101a483398101806040528101908080519060200190929190505050806000819055505061015a8061004a6000396000f30060806040526004361061004c576000357c0100000000000000000000000000000000000000000000000000000000900463ffffffff16806360fe47b1146100515780636d4ce63c1461007e575b600080fd5b34801561005d57600080fd5b5061007c600480360381019080803590602001909291905050506100a9565b005b34801561008a57600080fd5b50610093610125565b6040518082815260200191505060405180910390f35b7f446ca621af471b81ed3b6ae41d33349b4a872bb20f2eae9a2be6cdd82db0901f6000546040518080602001838152602001828103825260118152602001807f53657474696e672076616c756520746f200000000000000000000000000000008152506020019250505060405180910390a18060008190555050565b600080549050905600a165627a7a72305820f03a2932003a44ed4a714998be3262f9d76a612c0fda61f9bea0be32aa7203280029".
(** [contract_json.contracts] *)
Definition event_contracts : value :=
  VObj [(str "src/SimpleEvent.sol:SimpleStoreEvent", VObj [(str "abi", VStr event_abi_text); (str "bin", VStr event_bin);
    (str "bin-runtime", VStr (str "60806040526004361061004c576000357c0100000000000000000000000000000000000000000000000000000000900463ffffffff16806360fe47b1146100515780636d4ce63c1461007e575b600080fd5b34801561005d57600080fd5b5061007c600480360381019080803590602001909291905050506100a9565b005b34801561008a57600080fd5b50610093610125565b6040518082815260200191505060405180910390f35b7f446ca621af471b81ed3b6ae41d33349b4a872bb20f2eae9a2be6cdd82db0901f6000546040518080602001838152602001828103825260118152602001807f53657474696e672076616c756520746f200000000000000000000000000000008152506020019250505060405180910390a18060008190555050565b600080549050905600a165627a7a72305820f03a2932003a44ed4a714998be3262f9d76a612c0fda61f9bea0be32aa7203280029"));
    (str "srcmap", VStr (str "26:298:0:-;;;114:63;8:9:-1;5:2;;;30:1;27;20:12;5:2;114:63:0;;;;;;;;;;;;;;;;;;;;;;;;;;;;;170:2;166:1;:6;;;;114:63;26:298;;;;;;"));
    (str "srcmap-runtime", VStr (str "26:298:0:-;;;;;;;;;;;;;;;;;;;;;;;;;;;;;237:85;;8:9:-1;5:2;;;30:1;27;20:12;5:2;237:85:0;;;;;;;;;;;;;;;;;;;;;;;;;;181:52;;8:9:-1;5:2;;;30:1;27;20:12;5:2;181:52:0;;;;;;;;;;;;;;;;;;;;;;;237:85;275:30;303:1;;275:30;;;;;;;;;;;;;;;;;;;;;;;;;;;;;;;;;;;;;;;315:2;311:1;:6;;;;237:85;:::o;181:52::-;205:7;227:1;;220:8;;181:52;:::o"))])].
Definition simpleSource : jsstr := str "contract simplestorage { uint public storedData; function simplestorage(uint initVal) { storedData = initVal; } function set(uint x) { storedData = x; } function get() constant returns (uint retVal) { return storedData; } }".
Definition vulnerableSource : jsstr := str "contract SendBalance { mapping ( address => uint ) userBalances ; bool withdrawn = false ; function getBalance (address u) constant returns ( uint ){ return userBalances [u]; } function addToBalance () { userBalances[msg.sender] += msg.value ; } function withdrawBalance (){ if (!(msg.sender.call.gas(0x1111).value ( userBalances [msg . sender ])())) { throw ; } userBalances [msg.sender ] = 0; } }".
Definition node_key : jsstr := str "ROAZBWtSacxXQrOe3FGAqJDyJjFePR5ce4TSIzmJ0Bc=".

Section Scripts.
Context (rm : rounding) (node : Z -> jsstr -> list value -> value) (unlocks : value -> bool) (cb : callback).

(** A property and a method of the library, without a callback. *)
Definition get_prop (p : property) : script value := fun s =>
  let '(m, fx, r) := get_sync p (node (messageId (mgr s) + 1) (p_getter p) []) (mgr s) in
  (Console (cfg s) m (acts s ++ (Does <$> fx)), r).
Definition call_method (m : config -> method) (args : list value) : script value := fun s =>
  let name := match Methods.toPayload (m (cfg s)) args with inr (name, params, _) => node (messageId (mgr s) + 1) name params | _ => VUndefined end in
  let '(g, fx, r) := call_sync (m (cfg s)) args name (mgr s) in
  (Console (cfg s) g (acts s ++ (Does <$> fx)), r).
(** [eth.accounts[0]] *)
Definition account0 : script value := l ← get_prop accounts; lift (first_of l).
(** [a = eth.accounts[0]; web3.eth.defaultAccount = a;] *)
Definition use_account (a : value) : script unit := fun s =>
  (Console (Config (defaultBlock (cfg s)) a) (mgr s) (acts s), Some tt).
Definition set_default : script unit := a ← account0; use_account a.

(** The field only the private scripts have. *)
Definition private_field (private_ : bool) : list (jsstr * value) :=
  if private_ then [(str "privateFor", VArr [VStr node_key])] else [].
Definition send_async (tx : value) : script unit := fun s =>
  match call_async (Eth.sendTransaction rm (cfg s)) [tx] cb (mgr s) with
  | Some (g, fx, _) => (Console (cfg s) g (acts s ++ (Does <$> fx)), Some tt)
  | None => (s, None)
  end.
(** [contract.new(..args, {from, data, gas, privateFor}, callback)] *)
Definition new_contract (abi : list abi_item) (args : list value) (from : value) (code : jsstr) (gas : Z) (private_ : bool) : script unit :=
  tx ← lift (new_transaction rm abi (args ++ [VObj ([(str "from", from); (str "data", VStr code); (str "gas", VNum gas)] ++ private_field private_)]));
  send_async tx.

(** private-contract.js and public-contract.js *)
Definition storage_script (private_ : bool) : script unit :=
  _ ← set_default;
  from ← account0;
  new_contract storage_abi [VNum 42] from bytecode 4700000 private_.

(** private-contract-event.js and public-contract-event.js.  The public one reads the
    hash of its transaction at the end: [transactionHash], null when the node's answer
    is not there by then. *)
Definition unlock (account : value) : script unit :=
  _ ← act_ (Unlocks account); if unlocks account then mret tt else lift None.
Definition event_script (private_ : bool) (transactionHash : value) : script unit :=
  _ ← (if private_ then say "getting abi" else say "getting abit");
  _ ← log [PrintValue event_contracts];
  _ ← say "parse abi";
  abi ← lift (JSON_parse event_abi_text);
  _ ← say "get bin ";
  a ← account0;
  _ ← unlock a;
  from ← account0;
  _ ← new_contract (abi_of abi) (if private_ then [VNum 16] else []) from (str "0x" ++ event_bin) 1000000 private_;
  if private_ then mret tt
  else _ ← call_method (fun c => Eth.getTransactionReceipt rm) [transactionHash]; log [PrintValue transactionHash].

(** porosity/deploy-nonvulnerable.js and deploy-vulnerable.js: the contract as the node
    compiles it. *)
Definition array_abi (v : value) : option (list abi_item) :=
  match json_of v with Some (JArr l) => Some (abi_of (JArr l)) | _ => None end.
Definition compiled (source : jsstr) : script (value * jsstr) :=
  r ← call_method (fun c => Eth.compileSolidity) [VStr source];
  root ← lift (match r with VObj ((_, v) :: _) => Some v | VArr (v :: _) => Some v | _ => None end);
  info ← lift (get (str "info") root);
  def ← lift (get (str "abiDefinition") info);
  code ← lift (get (str "code") root);
  mret (def, js_to_string code).
Definition nonvulnerable_script : script unit :=
  _ ← set_default;
  '(def, code) ← compiled simpleSource;
  from ← account0;
  abi ← lift (array_abi def);
  new_contract abi [VNum 42] from code 300000 true.
Definition vulnerable_script : script unit :=
  '(def, code) ← compiled vulnerableSource;
  from ← account0;
  abi ← lift (array_abi def);
  new_contract abi [VNum 42] from code 300000 true.

(** simple-event/private-generate-events.js and public-generate-events.js *)
Definition event_address : value := VStr (str "0x1932c48b2bf8102ba33b4a6b545c32236e342f34").
Definition set_function : SolidityFunction :=
  new_function (Abi AbiFunction (str "set") [uint256 "x"] [] false false false) event_address.
Definition execute (f : SolidityFunction) (args : list value) : script value := fun s =>
  let answer := match fn_transaction rm f args with
                | Some p => match Methods.toPayload (Eth.sendTransaction rm (cfg s)) [p] with
                            | inr (name, params, _) => node (messageId (mgr s) + 1) name params | _ => VUndefined end
                | None => VUndefined
                end in
  let '(g, fx, r) := fn_execute rm (cfg s) f args answer (mgr s) in
  (Console (cfg s) g (acts s ++ (Does <$> fx)), r).
Fixpoint generate_events (n : nat) (private_ : bool) : script unit :=
  match n with
  | O => mret tt
  | S n =>
      from ← account0;
      _ ← execute set_function [VNum 4; VObj ((str "from", from) :: private_field private_)];
      generate_events n private_
  end.
Definition generate_script (private_ : bool) : script unit := generate_events 20 private_.
End Scripts.

(** * The callback of the deployments *)

(** [mined] is the text before the address. *)
Definition script_callback (mined : string) (e : option jsstr) (transactionHash address : value) : list (list printed) :=
  match e with
  | Some e => [[PrintText (str "err creating contract"); PrintText e]]
  | None =>
      if negb (truthy address) then
        [[PrintText (str "Contract transaction send: TransactionHash: " ++ js_to_string transactionHash ++ str " waiting to be mined...")]]
      else [[PrintText (str mined ++ js_to_string address)]; [PrintContract]]
  end.
Definition effect_prints (mined : string) (hash address : value) (e : deploy_effect) : list (list printed) :=
  match e with
  | CallbackContract => script_callback mined None hash address
  | CallbackError text => script_callback mined (Some text) hash address
  | _ => []
  end.
(** The answer to the transaction is an error, or its hash; then the library waits for
    the contract. *)
Definition script_prints (mined : string) (abi : list abi_item) (answer : jsstr + value) (evs : list deploy_event) : list (list printed) :=
  match answer with
  | inl e => script_callback mined (Some e) VNull VUndefined
  | inr hash =>
      let '(d, fx) := deploy_run (new_deploy abi true) evs in
      script_callback mined None hash VUndefined ++ flat_map (effect_prints mined hash (d_address d)) fx
  end.

(** * porosity/scan.js *)

(** [v == z] for a whole number [z] *)
Definition number_of_text (s : jsstr) : option bignumber :=
  let t := reverse (trim_left (reverse (trim_left s))) in
  match t with
  | [] => Some (Big 0 0)
  | z :: x :: ds =>
      if (z =? 48) && ((x =? 120) || (x =? 88)) then
        if (0 <? js_len ds) && forallb (is_base_digit 16) ds then Some (Big (base_value 16 ds) 0) else None
      else read_decimal (if z =? 43 then x :: ds else t)
  | _ => read_decimal t
  end.
Definition loosely (v : value) (z : Z) : bool :=
  match v with
  | VUndefined | VNull => false
  | VBool b => (if b then 1 else 0) =? z
  | VNum n => n =? z
  | VBig _ | VStr _ | VArr _ | VObj _ => bool_decide (number_of_text (js_to_string v) = Some (Big z 0))
  end.
Definition is_private (tx : value) : bool := let v := field (str "v") tx in loosely v 37 || loosely v 38.

Section Scan.
(** [eth.getBlock], [eth.getTransaction], and the node's extensions. *)
Context (getBlock : Z -> value) (getTransaction getPrivatePayload : value -> value) (runPorosity : value -> value).

Definition report_text (tx : value) : jsstr :=
  str "Reentrant vulnerability in block " ++ js_to_string (field (str "blockNumber") tx) ++
  str ":" ++ [10] ++ str "Transaction: " ++ js_to_string (field (str "hash") tx) ++
  [10] ++ str "From:        " ++ js_to_string (field (str "from") tx) ++
  [10] ++ str "To:          " ++ (match field (str "to") tx with VNull => str "Contract creation" | to => js_to_string to end).
(** One turn of the loop; [tx.v] of [null] throws. *)
Definition scan_transaction (h : value) : option (list jsstr) :=
  let tx := getTransaction h in
  _ ← get (str "v") tx;
  if is_private tx then
    let code := getPrivatePayload (field (str "input") tx) in
    if is_str (str "0x") code then Some []
    else
      let isVulnerable := runPorosity (VObj [(str "code", code); (str "decompile", VBool true); (str "silent", VBool true)]) in
      Some (if truthy isVulnerable then [report_text tx] else [])
  else Some [].
Definition scanBlock (blockNumber : Z) : option (list jsstr) :=
  txs ← get (str "transactions") (getBlock blockNumber);
  match txs with
  | VArr l => List.concat (A := jsstr) <$> mapM scan_transaction l
  | VStr s => List.concat (A := jsstr) <$> mapM (fun c => scan_transaction (VStr [c])) s
  | VUndefined | VNull => None
  | _ => Some []
  end.
(** The loop of the script: [blockNumber k] is what the node answers when it is asked
    for the number of its newest block the [k]-th time. *)
Fixpoint scan_from (fuel : nat) (i : Z) (blockNumber : Z -> Z) : option (list jsstr) :=
  match fuel with
  | O => None
  | S fuel =>
      if i <? blockNumber i then
        l ← scanBlock i; r ← scan_from fuel (i + 1) blockNumber; Some (l ++ r)
      else Some []
  end.
End Scan.

(** * What the deployments send *)

Definition asked_accounts (k : Z) : act := Does (Send [Payload k (str "eth_accounts") []]).
Definition sent_transaction (k : Z) (o : value) : act := Does (Send [Payload k (str "eth_sendTransaction") [o]]).
(** The object the node gets. *)
Definition transaction (a data : jsstr) (gas : Z) (private_ : bool) : value :=
  VObj ([(str "from", VStr a); (str "data", VStr data); (str "gas", VStr (str "0x" ++ to_base 16 gas))] ++ private_field private_).
Definition script_gas : list Z := [4700000; 1000000; 300000].

Lemma transaction_formatted_as rm c a data gas private_ : isStrictAddress a = true -> gas ∈ script_gas ->
  inputTransactionFormatter rm c (VObj ([(str "from", VStr a); (str "data", VStr data); (str "gas", VNum gas)] ++ private_field private_)) =
  Some (transaction a data gas private_).
Proof.
  intros Ha Hg. unfold inputTransactionFormatter, default_from, get at 1. cbn [mbind option_bind].
  assert (truthy (VStr a) = true) as Ht by (by destruct a). change (field (str "from") _) with (VStr a). rewrite Ht.
  change (put (str "from") (VStr a) _) with (Some (VObj ([(str "from", VStr a); (str "data", VStr data); (str "gas", VNum gas)] ++ private_field private_))).
  cbn [mbind option_bind]. unfold update_field at 1. unfold get at 1. cbn [mbind option_bind].
  change (field (str "from") _) with (VStr a). rewrite strict_fixed by done. cbn [mbind option_bind].
  change (put (str "from") (VStr a) _) with (Some (VObj ([(str "from", VStr a); (str "data", VStr data); (str "gas", VNum gas)] ++ private_field private_))).
  cbn [mbind option_bind]. unfold script_gas in Hg. rewrite !elem_of_cons, elem_of_nil in Hg.
  destruct_or! Hg; (done || (subst gas; destruct rm, private_; vm_compute; reflexivity)).
Qed.
Lemma new_transaction_as rm abi args a code gas private_ bytes :
  encodeConstructorParams rm abi args = Some bytes ->
  new_transaction rm abi (args ++ [VObj ([(str "from", VStr a); (str "data", VStr code); (str "gas", VNum gas)] ++ private_field private_)]) =
  Some (VObj ([(str "from", VStr a); (str "data", VStr (code ++ bytes)); (str "gas", VNum gas)] ++ private_field private_)).
Proof.
  intros He. unfold new_transaction, split_options, last_value. rewrite last_snoc. cbn [default from_option id isObject isArray andb negb].
  rewrite List.removelast_last. destruct private_; cbn; by rewrite He.
Qed.

Lemma script_bind_some {A B} (m : script A) (f : A -> script B) s s' x : m s = (s', Some x) -> (m ≫= f) s = f x s'.
Proof. intros H. unfold mbind, script_bind. by rewrite H. Qed.

Section Sends.
Context (rm : rounding) (node : Z -> jsstr -> list value -> value) (unlocks : value -> bool) (cb : callback) (a : jsstr).
(** The node lists the account [a] first. *)
Hypothesis Ha : isStrictAddress a = true.
Hypothesis Hnode : forall k, exists l, node k (str "eth_accounts") [] = answer_of (VArr (VStr a :: l)).

Definition after (n : Z) (c : config) (l : list act) (s : console) : console :=
  Console c (with_messageId (messageId (mgr s) + n) (mgr s)) (acts s ++ l).

Lemma account0_runs s : provider (mgr s) = true ->
  account0 node s = (after 1 (cfg s) [asked_accounts (messageId (mgr s) + 1)] s, Some (VStr a)).
Proof.
  intros Hs. unfold account0, mbind, script_bind, get_prop, get_sync, send. destruct (Hnode (messageId (mgr s) + 1)) as [l Hl].
  change (p_getter accounts) with (str "eth_accounts"). rewrite Hl, Hs. reflexivity.
Qed.
Lemma set_default_runs s : provider (mgr s) = true ->
  set_default node s = (after 1 (Config (defaultBlock (cfg s)) (VStr a)) [asked_accounts (messageId (mgr s) + 1)] s, Some tt).
Proof. intros Hs. unfold set_default. by rewrite (script_bind_some _ _ _ _ _ (account0_runs s Hs)). Qed.
Lemma new_contract_runs abi args code gas private_ bytes s :
  provider (mgr s) = true -> encodeConstructorParams rm abi args = Some bytes -> gas ∈ script_gas ->
  new_contract rm cb abi args (VStr a) code gas private_ s =
  (after 1 (cfg s) [sent_transaction (messageId (mgr s) + 1) (transaction a (code ++ bytes) gas private_)] s, Some tt).
Proof.
  intros Hs He Hg. unfold new_contract, lift, mbind, script_bind. rewrite (new_transaction_as _ _ _ _ _ _ _ _ He).
  unfold send_async, call_async, Methods.toPayload, Eth.sendTransaction, getCall, formatInput. cbn [m_call m_inputFormatter format_args].
  unfold arg. cbn [lookup list_lookup default from_option id]. rewrite transaction_formatted_as by done.
  cbn [mbind option_bind validateArgs length m_params Nat.eqb]. unfold sendAsync. rewrite Hs. reflexivity.
Qed.
Lemma after_after n c l n' c' l' s : after n' c' l' (after n c l s) = after (n + n') c' (l ++ l') s.
Proof. unfold after. cbn. rewrite app_assoc. f_equal. unfold with_messageId. cbn. f_equal. lia. Qed.
Lemma after_mgr n c l s : provider (mgr (after n c l s)) = provider (mgr s) /\ messageId (mgr (after n c l s)) = messageId (mgr s) + n /\ cfg (after n c l s) = c.
Proof. done. Qed.
Lemma storage_bytes : encodeConstructorParams rm storage_abi [VNum 42] = Some (replicate 62 48 ++ str "2a").
Proof. destruct rm; vm_compute; reflexivity. Qed.
Lemma event_abi_read : exists j, JSON_parse event_abi_text = Some j /\
  abi_of j = [Abi AbiFunction (str "set") [uint256 "_x"] [] false false false;
              Abi AbiFunction (str "get") [] [str "uint256"] false false false;
              Abi AbiConstructor [] [uint256 "_x"] [] false false false;
              Abi AbiEvent (str "LogSet") [Input (str "msg") (str "string") (Some false); Input (str "value") (str "uint256") (Some false)] [] false false false].
Proof. eexists. split; vm_compute; reflexivity. Qed.


(** A constructor that takes another number of arguments is not called: what [new] is
    given is dropped, and nothing complains. *)
Lemma arguments_dropped abi args :
  Forall (fun j => a_kind j = AbiConstructor -> length (a_inputs j) <> length args) abi ->
  encodeConstructorParams rm abi args = Some [].
Proof.
  intros H. unfold encodeConstructorParams. assert (constructors abi (length args) = []) as ->; [|done].
  unfold constructors. induction H as [|j abi Hj _ IH]; [done|]. rewrite filter_cons, IH. case_decide as E; [|done].
  destruct (a_kind j); try done. apply Nat.eqb_eq in E. by destruct (Hj eq_refl).
Qed.

(** The event scripts: the private one sends the code with its argument 16; the public
    one sends the code alone, although the constructor takes an argument. *)
Definition event_prints (private_ : bool) : list act :=
  [Prints [PrintText (str (if private_ then "getting abi" else "getting abit"))]; Prints [PrintValue event_contracts];
   Prints [PrintText (str "parse abi")]; Prints [PrintText (str "get bin ")]].
Lemma act_runs x s : act_ x s = (after 0 (cfg s) [x] s, Some tt).
Proof. unfold act_, after. f_equal. f_equal. unfold with_messageId. rewrite Z.add_0_r. by destruct (mgr s). Qed.
Ltac event_steps Hs Hj Hu :=
  do 3 (erewrite (script_bind_some (act_ _)) by apply act_runs);
  erewrite (script_bind_some (lift (JSON_parse event_abi_text))) by (unfold lift; by rewrite Hj);
  erewrite (script_bind_some (act_ _)) by apply act_runs;
  erewrite (script_bind_some (account0 _)) by (apply account0_runs; exact Hs);
  erewrite (script_bind_some (unlock _ _)) by (unfold unlock; erewrite (script_bind_some (act_ _)) by apply act_runs; rewrite Hu; reflexivity);
  erewrite (script_bind_some (account0 _)) by (apply account0_runs; exact Hs);
  rewrite !after_after; cbn [after mgr cfg messageId with_messageId app Z.add]; rewrite !Z.add_0_r, <-!Z.add_assoc.
Lemma event_start (private_ : bool) hash s :
  provider (mgr s) = true -> unlocks (VStr a) = true ->
  exists j, JSON_parse event_abi_text = Some j /\
  event_script rm node unlocks cb private_ hash s =
  (_ ← new_contract rm cb (abi_of j) (if private_ then [VNum 16] else []) (VStr a) (str "0x" ++ event_bin) 1000000 private_;
   if private_ then mret tt
   else _ ← call_method node (fun c => Eth.getTransactionReceipt rm) [hash]; log [PrintValue hash])
  (after 2 (cfg s) (event_prints private_ ++ [asked_accounts (messageId (mgr s) + 1); Unlocks (VStr a); asked_accounts (messageId (mgr s) + 2)]) s).
Proof.
  intros Hs Hu. destruct event_abi_read as (j & Hj & _). exists j. split; [done|]. unfold event_script, say, log.
  destruct private_.
  - event_steps Hs Hj Hu. reflexivity.
  - event_steps Hs Hj Hu. reflexivity.
Qed.
Theorem event_deployed (private_ : bool) hash s :
  provider (mgr s) = true -> unlocks (VStr a) = true ->
  exists word, decodeParams rm [str "uint256"] word = Some [VBig (Big 16 0)] /\
  event_script rm node unlocks cb private_ hash s =
  (if private_ then mret tt
   else _ ← call_method node (fun c => Eth.getTransactionReceipt rm) [hash]; log [PrintValue hash])
  (after 3 (cfg s) (event_prints private_ ++ [asked_accounts (messageId (mgr s) + 1); Unlocks (VStr a); asked_accounts (messageId (mgr s) + 2);
     sent_transaction (messageId (mgr s) + 3)
       (transaction a (str "0x" ++ event_bin ++ if private_ then word else []) 1000000 private_)]) s).
Proof.
  intros Hs Hu. exists (replicate 62 48 ++ str "10"). split; [destruct rm; vm_compute; reflexivity|].
  destruct (event_start private_ hash s Hs Hu) as (j & Hj & ->). destruct event_abi_read as (j' & Hj' & Habi).
  rewrite Hj in Hj'. injection Hj' as <-. rewrite Habi.
  erewrite (script_bind_some (new_contract _ _ _ _ _ _ _ _)).
  2: { apply new_contract_runs; [exact Hs| |apply (bool_decide_unpack _); vm_compute; reflexivity].
       instantiate (1 := if private_ then replicate 62 48 ++ str "10" else []). destruct private_, rm; vm_compute; reflexivity. }
  rewrite !after_after. cbn [after mgr cfg messageId with_messageId]. rewrite <-!Z.add_assoc, <-!app_assoc. reflexivity.
Qed.

(** The scripts that generate events send twenty transactions to the contract, each
    the selector of [set] and the argument 4. *)
Hypothesis Hsent : forall k o, exists h, node k (str "eth_sendTransaction") [o] = answer_of (VStr h).
Definition set_call (private_ : bool) : value :=
  VObj ((str "from", VStr a) :: private_field private_ ++
        [(str "to", event_address); (str "data", VStr (str "0x60fe47b1" ++ replicate 63 48 ++ str "4"))]).
Lemma set_transaction (private_ : bool) :
  fn_transaction rm set_function [VNum 4; VObj ((str "from", VStr a) :: private_field private_)] = Some (set_call private_).
Proof. destruct rm, private_; vm_compute; reflexivity. Qed.
Lemma set_call_formatted c (private_ : bool) : inputTransactionFormatter rm c (set_call private_) = Some (set_call private_).
Proof.
  apply ready_fixed. constructor.
  - by eexists.
  - exists a. by destruct private_.
  - intros _. exists (str "0x1932c48b2bf8102ba33b4a6b545c32236e342f34"). by destruct private_.
  - destruct private_; by repeat (constructor; [by left|]).
Qed.
Definition set_acts (private_ : bool) (k : Z) : list act := [asked_accounts (k + 1); sent_transaction (k + 2) (set_call private_)].
Lemma execute_runs (private_ : bool) s : provider (mgr s) = true ->
  exists v, execute rm node set_function [VNum 4; VObj ((str "from", VStr a) :: private_field private_)] s =
  (after 1 (cfg s) [sent_transaction (messageId (mgr s) + 1) (set_call private_)] s, Some v).
Proof.
  intros Hs. unfold execute, fn_execute. change (_constant set_function) with false. cbv iota. unfold fn_sendTransaction. rewrite set_transaction.
  unfold call_sync, Methods.toPayload, Eth.sendTransaction, getCall, formatInput. cbn [m_call m_inputFormatter format_args].
  unfold arg. cbn [lookup list_lookup default from_option id]. rewrite set_call_formatted. cbn [mbind option_bind validateArgs length m_params Nat.eqb].
  destruct (Hsent (messageId (mgr s) + 1) (set_call private_)) as [h ->]. unfold send. rewrite Hs. exists (VStr h). reflexivity.
Qed.
Theorem events_generated (private_ : bool) n s : provider (mgr s) = true ->
  generate_events rm node n private_ s =
  (after (2 * Z.of_nat n) (cfg s) (flat_map (fun i => set_acts private_ (messageId (mgr s) + 2 * Z.of_nat i)) (seq 0 n)) s, Some tt).
Proof.
  revert s. induction n as [|n IH]; intros s Hs.
  - unfold after. cbn. rewrite app_nil_r, Z.add_0_r. by destruct s as [c [] l].
  - cbn [generate_events]. erewrite (script_bind_some (account0 node)) by (apply account0_runs; exact Hs).
    edestruct (execute_runs private_) as [v Hv]; [|erewrite (script_bind_some (execute _ _ _ _)) by exact Hv]; [exact Hs|].
    rewrite IH by exact Hs. rewrite !after_after. cbn [after mgr cfg messageId with_messageId]. f_equal. f_equal; [lia|].
    rewrite <-cons_seq. cbn [flat_map app set_acts]. rewrite Z.add_0_r, <-!Z.add_assoc. do 2 f_equal.
    rewrite <-fmap_S_seq, !flat_map_concat_map, List.map_map. f_equal. apply List.map_ext. intros i. unfold set_acts.
    do 2 f_equal; f_equal; lia.
Qed.
End Sends.

(** * What the deployments print *)

Lemma step_no_throw d ev text : d_callback d = true -> d_callback (deploy_step d ev).1 = true /\ ThrowError text ∉ (deploy_step d ev).2.
Proof.
  intros Hc. destruct ev as [error|r|i code]; cbn [deploy_step].
  - destruct (d_watching d); [|split; [done|set_solver]]. unfold on_block, report. rewrite Hc.
    destruct (negb error && _); [|split; [done|set_solver]]. destruct (50 <? _); split; [done|set_solver|done|set_solver].
  - destruct (d_receipts d); [split; [done|set_solver]|]. unfold on_receipt. destruct r; [|split; [done|set_solver]].
    destruct (negb _); split; [done|set_solver|done|set_solver].
  - destruct (d_codes d !! i); [|split; [done|set_solver]]. unfold on_code, report. cbn [d_callback]. rewrite Hc.
    destruct (_ || _); [split; [done|set_solver]|]. destruct (3 <? _); split; [done|set_solver|done|set_solver].
Qed.
Lemma run_no_throw evs d text : d_callback d = true -> ThrowError text ∉ (deploy_run d evs).2.
Proof.
  revert d. induction evs as [|ev evs IH]; intros d Hc; cbn [deploy_run]; [set_solver|].
  destruct (step_no_throw d ev text Hc) as [Hc' Hn]. destruct (deploy_step d ev) as [d1 fx]. cbn [fst snd] in *.
  specialize (IH d1 Hc'). destruct (deploy_run d1 evs) as [d2 fx2]. cbn [snd] in *. rewrite elem_of_app. tauto.
Qed.
(** Only outcomes print, and with one outcome that is all that is printed. *)
Lemma outcome_prints mined hash address fx :
  (outcomes fx = O -> flat_map (effect_prints mined hash address) fx = []) /\
  (outcomes fx = 1%nat -> exists e, e ∈ fx /\ is_outcome e = true /\ flat_map (effect_prints mined hash address) fx = effect_prints mined hash address e).
Proof.
  induction fx as [|e fx [IH0 IH1]]; [by split|]. unfold outcomes in *. cbn [flat_map]. rewrite !filter_cons.
  destruct (decide (is_outcome e = true)) as [He|He]; cbn [length]; split; try (intros H; lia).
  - intros [= H]. exists e. split_and!; [left|done|]. rewrite IH0 by done. by rewrite app_nil_r.
  - intros H. rewrite IH0 by done. by destruct e.
  - intros H. destruct (IH1 H) as (e' & Hin & Ho & ->). exists e'. split_and!; [by right|done|]. by destruct e.
Qed.

(** A deployment prints that its transaction was sent, and then once how it ended: the
    error, or the contract; at the latest when fifty-one blocks have come. *)
Theorem script_reports mined abi hash evs :
  exists rest, script_prints mined abi (inr hash) evs = script_callback mined None hash VUndefined ++ rest /\
    (rest = [] \/ (exists text, rest = script_callback mined (Some text) hash VUndefined) \/
     (exists address, rest = script_callback mined None hash address)) /\
    (50 < blocks evs -> rest <> []).
Proof.
  unfold script_prints. pose proof (deploy_outcome abi evs) as Ho.
  assert (forall text, ThrowError text ∉ (deploy_run (new_deploy abi true) evs).2) as Hn by (intros; by apply run_no_throw).
  destruct (deploy_run (new_deploy abi true) evs) as [d fx]. cbn [snd] in Hn. destruct Ho as [Ho Hb].
  destruct (outcome_prints mined hash (d_address d) fx) as [H0 H1]. eexists. split; [reflexivity|].
  destruct (d_fired d); [|rewrite (H0 Ho); split; [by left|intros H; by specialize (Hb H)]].
  destruct (H1 Ho) as (e & Hin & He & ->). destruct e as [| | | |text|text]; try done; cbn [effect_prints].
  - split; [right; right; by eexists|]. intros _. unfold script_callback. by destruct (negb _).
  - split; [right; left; by eexists|done].
  - by destruct (Hn text).
Qed.

(** * What the scan finds *)

(** The transactions the scan reports: private, with a payload this node has, and
    found vulnerable. *)
Definition reported (getPrivatePayload runPorosity : value -> value) (tx : value) : bool :=
  let code := getPrivatePayload (field (str "input") tx) in
  is_private tx && negb (is_str (str "0x") code) &&
  truthy (runPorosity (VObj [(str "code", code); (str "decompile", VBool true); (str "silent", VBool true)])).

Section ScanProofs.
Context (getBlock : Z -> value) (getTransaction getPrivatePayload runPorosity : value -> value).
Context (head_ : Z) (hashes : Z -> list value).
(** The node has the blocks below [head_], and their transactions. *)
Hypothesis Hblocks : forall i, 0 <= i < head_ -> get (str "transactions") (getBlock i) = Some (VArr (hashes i)).
Hypothesis Htxs : forall i h, 0 <= i < head_ -> h ∈ hashes i -> exists fs, getTransaction h = VObj fs.

Lemma scan_transaction_reports h fs : getTransaction h = VObj fs ->
  scan_transaction getTransaction getPrivatePayload runPorosity h =
  Some (report_text <$> filter (fun tx => reported getPrivatePayload runPorosity tx = true) [getTransaction h]).
Proof.
  intros Hh. unfold scan_transaction. rewrite Hh at 1. cbn [get mbind option_bind]. rewrite filter_cons, filter_nil. unfold reported.
  destruct (is_private (getTransaction h)); cbn [andb]; [|done]. destruct (is_str _ _); cbn [negb andb]; [done|].
  by destruct (truthy (runPorosity _)).
Qed.
Lemma scanBlock_reports i : 0 <= i < head_ ->
  scanBlock getBlock getTransaction getPrivatePayload runPorosity i =
  Some (report_text <$> filter (fun tx => reported getPrivatePayload runPorosity tx = true) (getTransaction <$> hashes i)).
Proof.
  intros Hi. unfold scanBlock. rewrite (Hblocks i Hi). cbn [mbind option_bind]. pose proof (Htxs i) as Ht.
  assert (forall h, h ∈ hashes i -> exists fs, getTransaction h = VObj fs) as Ht' by eauto. clear Ht. revert Ht'.
  induction (hashes i) as [|h l IH]; intros Ht; [done|]. destruct (Ht h ltac:(left)) as [fs Hh].
  cbn [mapM mbind option_bind]. rewrite (scan_transaction_reports h fs Hh). cbn [mbind option_bind].
  specialize (IH ltac:(intros; apply Ht; by right)). destruct (mapM _ l) as [ls|]; [|done]. cbn [fmap option_fmap option_map mbind option_bind mret option_ret List.concat] in *.
  injection IH as IH. rewrite IH. f_equal. rewrite <-fmap_app, <-filter_app. done.
Qed.

(** C40. With a node that makes no more blocks, the scan ends, and it prints a report for
    exactly the vulnerable private transactions of the blocks before the newest one, in
    their order: the newest block is never looked at. *)
Theorem scan_reports fuel : (Z.to_nat head_ < fuel)%nat ->
  scan_from getBlock getTransaction getPrivatePayload runPorosity fuel 0 (fun _ => head_) =
  Some (report_text <$> filter (fun tx => reported getPrivatePayload runPorosity tx = true)
          (getTransaction <$> flat_map (fun i => hashes (Z.of_nat i)) (seq 0 (Z.to_nat head_)))).
Proof.
  assert (forall n i fuel, (n < fuel)%nat -> 0 <= i -> head_ - i <= Z.of_nat n -> Z.of_nat n <= Z.max 0 (head_ - i) ->
    scan_from getBlock getTransaction getPrivatePayload runPorosity fuel i (fun _ => head_) =
    Some (report_text <$> filter (fun tx => reported getPrivatePayload runPorosity tx = true)
          (getTransaction <$> flat_map (fun i => hashes (Z.of_nat i)) (seq (Z.to_nat i) n)))) as H.
  { induction n as [|n IH]; intros i [|f] Hf Hi Hn Hm; try lia; cbn [scan_from].
    - by rewrite (proj2 (Z.ltb_ge i head_)) by lia.
    - rewrite (proj2 (Z.ltb_lt i head_)) by lia. rewrite scanBlock_reports by lia. cbn [mbind option_bind].
      rewrite (IH (i + 1)) by lia. cbn [mbind option_bind]. f_equal. rewrite <-fmap_app, <-filter_app, <-fmap_app.
      replace (Z.to_nat (i + 1)) with (S (Z.to_nat i)) by lia. cbn [seq flat_map]. by rewrite Z2Nat.id by lia. }
  intros Hf. apply (H (Z.to_nat head_) 0 fuel); lia.
Qed.
End ScanProofs.

(** * Examples *)

Definition ex_account : jsstr := str "0xed9d02e382b34818e88b88a309c7fe71e65f419d".
Definition ex_node (k : Z) (m : jsstr) (params : list value) : value :=
  if bool_decide (m = str "eth_accounts") then answer_of (VArr [VStr ex_account]) else answer_of (VStr (str "0x0")).
Definition ex_console : console := Console initial_config (newManager true) [].

(** Two blocks; the transaction of the second is not looked at. *)
Definition ex_tx (n : Z) : value :=
  VObj [(str "v", VStr (str "0x25")); (str "input", VStr (str "0x1234")); (str "blockNumber", VNum n); (str "hash", VStr (str "0xab"));
        (str "from", VStr ex_account); (str "to", VNull)].
Definition ex_getBlock (i : Z) : value := VObj [(str "transactions", VArr [VNum i])].
Definition ex_getTransaction (h : value) : value := match h with VNum i => ex_tx i | _ => VNull end.
Lemma scan_reports_witness :
  scan_from ex_getBlock ex_getTransaction (fun _ => VStr (str "0x60")) (fun _ => VBool true) 10 0 (fun _ => 1) = Some [report_text (ex_tx 0)].
Proof.
  refine (eq_trans (scan_reports ex_getBlock ex_getTransaction (fun _ => VStr (str "0x60")) (fun _ => VBool true) 1 (fun i => [VNum i]) _ _ 10%nat _) _).
  - intros i _. reflexivity.
  - intros i h _ Hh. apply list_elem_of_singleton in Hh as ->. by eexists.
  - vm_compute. lia.
  - vm_compute. reflexivity.
Defined.
