(* ===== verification/NodeScripts.v ===== *)
(** The example scripts for Node.js, src/monereum-examples/examples/7nodes/samples:
    send-private-txn-quorum.js/send.js and send-externalSigningTemplate.js, and
    send-signed-txn-web3/send-signed-tx.js.  What they get from packages that are not
    part of the repository (a later web3, quorum-js, ethereumjs-tx, keythereum) are
    parameters: the answers of promises, [None] for a rejected one, and the encodings. *)
From Stdlib Require Import ZArith Lia.
From S2P Require Import Prelude BigNumber Utils Rpc Contracts ConsoleScripts.
Open Scope Z_scope.

Definition accAddress : jsstr := str "ed9d02e382b34818e88b88a309c7fe71e65f419d".
Definition TM1_PUBLIC_KEY : jsstr := str "BULeR8JyUWhiuuCMU/HLA0Q5pzkYT+cHII3ZKBey3Bo=".
(** [TM7_PUBLIC_KEY] of one script, the element of [TM2_PUBLIC_KEY] of the other. *)
Definition TM7_PUBLIC_KEY : jsstr := node_key.

(** The encrypted key of the account. *)
Definition keystore : value :=
  VObj [(str "address", VStr accAddress);
        (str "crypto", VObj [(str "cipher", VStr (str "aes-128-ctr"));
           (str "ciphertext", VStr (str "4e77046ba3f699e744acb4a89c36a3ea1158a1bd90a076d36675f4c883864377"));
           (str "cipherparams", VObj [(str "iv", VStr (str "a8932af2a3c0225ee8e872bc0e462c11"))]);
           (str "kdf", VStr (str "scrypt"));
           (str "kdfparams", VObj [(str "dklen", VNum 32); (str "n", VNum 262144); (str "p", VNum 1); (str "r", VNum 8);
              (str "salt", VStr (str "8ca49552b3e92f79c51f2cd3d38dfc723412c212e702bd337a3724e8937aff0f"))]);
           (str "mac", VStr (str "6d1354fef5aa0418389b1a5d1f5ee0050d7273292a1171c51fd02f9ecff55264"))]);
        (str "id", VStr (str "a65d1ac3-db7e-445d-a1cc-b6c5eeaa05e0")); (str "version", VNum 3)].

(** What a script does, in order. *)
Inductive action :=
| GetTransactionCount (address : jsstr)
| SendViaSendAPI (ipcPath : jsstr) (txn : value)
| SendRawTransaction (privateUrl : jsstr) (txn : value)
| StoreRawRequest (data privateFrom : jsstr)
| SendRawRequest (transaction : jsstr) (privateFor : list jsstr)
| GetAccounts
| SendSignedTransaction (raw : jsstr)
| Delay (ms : Z).

Section NodeScripts.
(** [contract.deploy({data, arguments}).encodeABI()], [accounts.decrypt(keystore, password)],
    and the serialized transaction after [sign] with a private key in hexadecimal. *)
Context (encodeABI : list abi_item -> jsstr -> list value -> jsstr) (decrypt : value -> jsstr -> option value)
        (signed : value -> jsstr -> jsstr) (setPrivate : jsstr -> jsstr).

(** * send.js *)

(** [txnParams], which both transactions share: the field [nonce] is set before each. *)
Definition txnParams (account : value) : list (jsstr * value) :=
  [(str "gasPrice", VNum 0); (str "gasLimit", VNum 4300000); (str "to", VStr []); (str "value", VNum 0);
   (str "data", VStr (encodeABI storage_abi bytecode [VNum 42])); (str "from", account);
   (str "privateFrom", VStr TM1_PUBLIC_KEY); (str "privateFor", VArr [VStr TM7_PUBLIC_KEY]); (str "isPrivate", VBool true)].
Definition ipcPath : jsstr := str "/home/vagrant/quorum-examples/7nodes/qdata/c1/tm.ipc".
Definition privateUrl : jsstr := str "http://localhost:9081".

(** [count1] and [count2] are the answers to the two requests for the number of
    transactions. *)
Definition send (count1 count2 : option Z) : list action :=
  match decrypt keystore [] with
  | None => []
  | Some account =>
      let ask := GetTransactionCount (str "0x" ++ accAddress) in
      let t := txnParams account in
      ask ::
      match count1 with
      | None => []
      | Some n =>
          let t := set_key (str "nonce") (VNum n) t in
          [SendViaSendAPI ipcPath (VObj t); Delay 1000; ask] ++
          match count2 with
          | None => []
          | Some n => let t := set_key (str "nonce") (VNum n) t in [SendRawTransaction privateUrl (VObj t)]
          end
      end
  end.

(** * send-externalSigningTemplate.js *)

(** [`0x${z.toString(16)}`] *)
Definition hex_number (z : Z) : jsstr := str "0x" ++ to_base 16 z.
Record params := Params { gasPrice : Z; gasLimit : Z; nonce : Z; to_ : jsstr; value_ : Z; data : jsstr }.
Definition rawTransaction (t : params) : value :=
  VObj [(str "nonce", VStr (hex_number (nonce t))); (str "from", VStr accAddress); (str "to", VStr (to_ t));
        (str "value", VStr (hex_number (value_ t))); (str "gasLimit", VStr (hex_number (gasLimit t)));
        (str "gasPrice", VStr (hex_number (gasPrice t))); (str "data", VStr (str "0x" ++ data t))].
(** [decryptedAccount.privateKey.substring(2)] *)
Definition signTransaction (t : params) : option jsstr :=
  account ← decrypt keystore [];
  match field (str "privateKey") account with
  | VStr k => Some (str "0x" ++ signed (rawTransaction t) (js_slice_from k 2))
  | _ => None
  end.
(** [hash] and [count] are the answers of the transaction manager and of the node. *)
Definition send_external (hash : option jsstr) (count : option Z) : list action :=
  StoreRawRequest (encodeABI storage_abi bytecode [VNum 42]) TM1_PUBLIC_KEY ::
  match hash with
  | None => []
  | Some rawTxHash =>
      GetTransactionCount (str "0x" ++ accAddress) ::
      match count with
      | None => []
      | Some acctNonce =>
          match signTransaction (Params 0 4300000 acctNonce [] 0 rawTxHash) with
          | None => []
          | Some signedTx => [SendRawRequest (str "0x" ++ setPrivate signedTx) [TM7_PUBLIC_KEY]]
          end
      end
  end.

(** * send-signed-tx.js *)

(** [argv.node], one when it is missing or zero. *)
Definition node_of (argv : option Z) : Z := match argv with Some 0 | None => 1 | Some n => n end.
Definition providerPort (node : Z) : jsstr := str "2200" ++ to_base 10 (node - 1).
Definition provider_url (node : Z) : jsstr := str "http://127.0.0.1" ++ str ":" ++ providerPort node.
Definition key_file (node : Z) : jsstr := str "keys/key" ++ to_base 10 node.
Definition txParams (nonce : Z) : value :=
  VObj [(str "nonce", VStr (hex_number nonce)); (str "gasPrice", VStr (str "0x00")); (str "gasLimit", VStr (str "0x47b760"));
        (str "to", VStr (str "0xca843569e3427144cead5e4d5999a3d0ccf92b8e")); (str "value", VStr (str "0x01")); (str "chainId", VNum 10)].
(** [account] and [count] are the answers of the node. *)
Definition send_signed (privateKey : jsstr) (account : option jsstr) (count : option Z) : list action :=
  GetAccounts ::
  match account with
  | None => []
  | Some a =>
      GetTransactionCount a ::
      match count with
      | None => []
      | Some n => [SendSignedTransaction (str "0x" ++ signed (txParams n) privateKey)]
      end
  end.

(** * Properties *)

(** The transactions of a trace with the answer that came last before them. *)
Definition txn_nonce (a : action) : option value :=
  match a with SendViaSendAPI _ t | SendRawTransaction _ t => Some (field (str "nonce") t) | _ => None end.
(** Each transaction of send.js carries the count the node gave just before it, and they
    are otherwise the same; a request that fails ends the script. *)
Theorem send_nonces count1 count2 account :
  decrypt keystore [] = Some account ->
  omap txn_nonce (send count1 count2) =
    match count1, count2 with
    | Some n, Some m => [VNum n; VNum m]
    | Some n, None => [VNum n]
    | None, _ => []
    end.
Proof. intros H. unfold send. rewrite H. by destruct count1 as [n|], count2 as [m|]. Qed.

(** The numbers of the raw transaction are read back from their text. *)
Definition hex_value_of (v : value) : option Z := match v with VStr s => of_base 16 (js_slice_from s 2) | _ => None end.
Theorem raw_transaction_numbers t :
  0 <= nonce t -> 0 <= value_ t -> 0 <= gasLimit t -> 0 <= gasPrice t ->
  (fun k => hex_value_of (field (str k) (rawTransaction t))) <$> ["nonce"; "value"; "gasLimit"; "gasPrice"]%string =
  Some <$> [nonce t; value_ t; gasLimit t; gasPrice t].
Proof.
  assert (forall z, 0 <= z -> of_base 16 (js_slice_from (hex_number z) 2) = Some z) as H.
  { intros z Hz. unfold hex_number, js_slice_from, js_rel, js_len. rewrite length_app. change (length (str "0x")) with 2%nat.
    cbn [Z.ltb Z.compare]. replace (Z.to_nat _) with 2%nat by lia. by apply of_base_to_base. }
  intros H1 H2 H3 H4. cbn [fmap list_fmap hex_value_of]. change (field (str "nonce") (rawTransaction t)) with (VStr (hex_number (nonce t))).
  change (field (str "value") (rawTransaction t)) with (VStr (hex_number (value_ t))).
  change (field (str "gasLimit") (rawTransaction t)) with (VStr (hex_number (gasLimit t))).
  change (field (str "gasPrice") (rawTransaction t)) with (VStr (hex_number (gasPrice t))). cbn [hex_value_of]. by rewrite !H.
Qed.
(** The ports of ten nodes are 22000 to 22009; the digit is appended, so an eleventh
    node would get a port that does not exist. *)
Theorem node_ports : (forall n, 1 <= n <= 10 -> of_base 10 (providerPort n) = Some (22000 + (n - 1))) /\ of_base 10 (providerPort 11) = Some 220010.
Proof.
  split; [|done]. intros n Hn. assert (n ∈ [1; 2; 3; 4; 5; 6; 7; 8; 9; 10]) as Hin by (rewrite !elem_of_cons; lia).
  rewrite !elem_of_cons, elem_of_nil in Hin. destruct_or! Hin; (done || by subst n).
Qed.
End NodeScripts.
