(* ===== verification/Filters.v ===== *)
(** Filters (web3.js 3446-3652) and the synchronisation state (6590-6654).

    A filter is created by the node, polled through the request manager, and asked
    for its logs; the answers are events of a state machine, whose effects are the
    requests and the callbacks, in order.  [StartPolling] and [StopPolling] are the
    [startPolling] and [stopPolling] of the request manager. *)
From S2P Require Import Prelude WordArray Utf8 Digests BigNumber Utils Rpc Formatters Methods.

(** * Options *)

Definition toTopic (v : value) : option value :=
  match v with
  | VUndefined | VNull => Some VNull
  | _ => let s := js_to_string v in
         if js_starts_with (str "0x") s then Some (VStr s) else VStr <$> fromUtf8 s
  end.
(** A position of the topics: a topic or a choice of topics *)
Definition toTopics (v : value) : option value :=
  match v with VArr l => VArr <$> mapM toTopic l | _ => toTopic v end.

Section Options.
Context (rm : rounding).
Definition getOptions_eth (options : value) : option value :=
  match options with
  | VStr _ => Some options
  | _ =>
      ts ← match field (str "topics") options with
           | VArr l => Some l
           | v => if truthy v then None else Some []
           end;
      ts ← mapM toTopics ts;
      fromBlock ← inputBlockNumberFormatter rm (field (str "fromBlock") options);
      toBlock ← inputBlockNumberFormatter rm (field (str "toBlock") options);
      Some (VObj [(str "topics", VArr ts); (str "from", field (str "from") options); (str "to", field (str "to") options);
                  (str "address", field (str "address") options); (str "fromBlock", fromBlock); (str "toBlock", toBlock)])
  end.
End Options.
Definition getOptions_shh (options : value) : value := if falsy options then VObj [] else options.

(** * The filter *)

(** Who an answer with logs is for: a callback of [get], or one that starts to watch *)
Inductive logs_for := ForGet (cb : callback) | ForWatch (cb : callback).
Inductive filter_effect :=
  | AskNewFilter (options : value)
  | AskLogs (id : value) (k : logs_for)
  | AskUninstall (id : value)
  | StartPolling (id : value)
  | StopPolling (id : value)
  | Notify (cb : callback) (error : option jsstr) (result : value)
  | FilterThrow.

Record filter_state := FilterState {
  fl_options : value;
  fl_id : value;
  fl_callbacks : list callback;
  fl_getLogs : list callback;
  fl_formatter : option formatter;
  fl_onCreate : option callback;       (* the callback given to the constructor *)
  fl_onError : option callback         (* the callback for an error of the creation *)
}.
Definition with_id (id : value) (f : filter_state) : filter_state :=
  FilterState (fl_options f) id (fl_callbacks f) (fl_getLogs f) (fl_formatter f) (fl_onCreate f) (fl_onError f).
Definition with_callbacks (l : list callback) (f : filter_state) : filter_state :=
  FilterState (fl_options f) (fl_id f) l (fl_getLogs f) (fl_formatter f) (fl_onCreate f) (fl_onError f).
Definition with_getLogs (l : list callback) (f : filter_state) : filter_state :=
  FilterState (fl_options f) (fl_id f) (fl_callbacks f) l (fl_formatter f) (fl_onCreate f) (fl_onError f).

Definition new_filter (options : value) (format : option formatter) (cb onError : option callback) : filter_state * list filter_effect :=
  (FilterState options VNull [] [] format cb onError, [AskNewFilter options]).

Definition format_log (f : filter_state) (log : value) : option value :=
  match fl_formatter f with Some g => g log | None => Some log end.

(** [get] with a callback: before the filter has an identifier it waits. *)
Definition get_logs (cb : callback) (f : filter_state) : filter_state * list filter_effect :=
  match fl_id f with
  | VNull => (with_getLogs (fl_getLogs f ++ [cb]) f, [])
  | id => (f, [AskLogs id (ForGet cb)])
  end.
(** [get] without a callback: before the filter has an identifier it throws. *)
Definition get_logs_sync (f : filter_state) (answer : value) (s : manager) : manager * list effect * option value :=
  match fl_id f with
  | VNull => (s, [], None)
  | id =>
      let '(s, fx, r) := call_sync Watches.getLogs [id] answer s in
      (s, fx, logs ← r; match logs with VArr l => VArr <$> mapM (format_log f) l | _ => None end)
  end.
(** The callback of a new watcher first gets the logs there are already, unless the
    filter is one of the two named ones. *)
Definition getLogsAtStart (cb : callback) (f : filter_state) : list filter_effect :=
  match fl_options f with VStr _ => [] | _ => [AskLogs (fl_id f) (ForWatch cb)] end.

Definition watch (cb : callback) (f : filter_state) : filter_state * list filter_effect :=
  let f := with_callbacks (fl_callbacks f ++ [cb]) f in
  (f, if truthy (fl_id f) then getLogsAtStart cb f ++ [StartPolling (fl_id f)] else []).

Definition stopWatching (f : filter_state) : filter_state * list filter_effect :=
  (with_callbacks [] f, [StopPolling (fl_id f); AskUninstall (fl_id f)]).

(** The answer to the creation; an identifier that is given is not null. *)
Definition on_created (error : option jsstr) (id : value) (f : filter_state) : filter_state * list filter_effect :=
  match error with
  | Some e =>
      (f, ((fun cb => Notify cb (Some e) VUndefined) <$> fl_callbacks f) ++
          match fl_onError f with Some cb => [Notify cb (Some e) VUndefined] | None => [] end)
  | None =>
      let waiting := fl_getLogs f in
      let f := with_getLogs [] (with_id id f) in
      let fx := ((fun cb => AskLogs id (ForGet cb)) <$> waiting) ++ (fl_callbacks f ≫= (fun cb => getLogsAtStart cb f)) ++
                match fl_callbacks f with [] => [] | _ => [StartPolling id] end in
      match fl_onCreate f with
      | Some cb => let '(f, fx') := watch cb f in (f, fx ++ fx')
      | None => (f, fx)
      end
  end.

(** The answer to [getLogs]; logs that cannot be formatted throw. *)
Definition on_logs (k : logs_for) (error : option jsstr) (res : value) (f : filter_state) : list filter_effect :=
  match error, k with
  | Some e, (ForGet cb | ForWatch cb) => [Notify cb (Some e) VUndefined]
  | None, _ =>
      match res with
      | VArr logs =>
          match mapM (format_log f) logs with
          | None => [FilterThrow]
          | Some logs =>
              match k with
              | ForGet cb => [Notify cb None (VArr logs)]
              | ForWatch cb => (fun m => Notify cb None m) <$> logs
              end
          end
      | _ => [FilterThrow]
      end
  end.

(** The messages of a poll: each is formatted and handed to every watcher before the
    next one. *)
Fixpoint on_messages (f : filter_state) (messages : list value) : list filter_effect :=
  match messages with
  | [] => []
  | m :: messages =>
      match format_log f m with
      | None => [FilterThrow]
      | Some m => ((fun cb => Notify cb None m) <$> fl_callbacks f) ++ on_messages f messages
      end
  end.
Definition on_poll (error : option jsstr) (messages : value) (f : filter_state) : list filter_effect :=
  match error with
  | Some e => (fun cb => Notify cb (Some e) VUndefined) <$> fl_callbacks f
  | None => match messages with VArr l => on_messages f l | _ => [] end
  end.

(** * The synchronisation state *)

Record syncing := Syncing { sy_callbacks : list callback; sy_last : value }.
Inductive sync_effect :=
  | SyncNow (cb : callback) (error : option jsstr) (result : value)
  | SyncLater (cb : callback) (result : value)      (* in a timer of no delay *)
  | SyncThrow.

Definition new_syncing (cb : option callback) : syncing :=
  Syncing (match cb with Some cb => [cb] | None => [] end) (VBool false).
Definition addCallback (cb : callback) (s : syncing) : syncing := Syncing (sy_callbacks s ++ [cb]) (sy_last s).
Definition sync_stop (s : syncing) : syncing := Syncing [] (sy_last s).

(** [lastSyncState !== sync] for the result of a new message: an object is never the
    one of an earlier message. *)
Definition differs (last sync : value) : bool :=
  match last, sync with
  | VUndefined, VUndefined | VNull, VNull => false
  | VBool a, VBool b => negb (eqb a b)
  | VNum a, VNum b => negb (a =? b)
  | VStr a, VStr b => bool_decide (a <> b)
  | _, _ => true
  end.
(** The loop over the callbacks: the first that sees a change records it. *)
Fixpoint sync_callbacks (cbs : list callback) (changed : bool) (last sync : value) : list sync_effect * value :=
  match cbs with
  | [] => ([], last)
  | cb :: cbs =>
      if changed then
        let '(fx, last') := sync_callbacks cbs false sync sync in
        ((if falsy last && isObject sync then [SyncNow cb None (VBool true)] else []) ++ [SyncLater cb sync] ++ fx, last')
      else sync_callbacks cbs false last sync
  end.
Definition on_sync (rm : rounding) (error : option jsstr) (sync : value) (s : syncing) : syncing * list sync_effect :=
  match error with
  | Some e => (s, (fun cb => SyncNow cb (Some e) VUndefined) <$> sy_callbacks s)
  | None =>
      match (if isObject sync && truthy (field (str "startingBlock") sync) then outputSyncingFormatter rm sync else Some sync) with
      | None => (s, [SyncThrow])
      | Some sync =>
          let '(fx, last) := sync_callbacks (sy_callbacks s) (differs (sy_last s) sync) (sy_last s) sync in
          (Syncing (sy_callbacks s) last, fx)
      end
  end.

(** * Messages *)

(** Every message of a poll reaches every watcher once, in the order of the messages
    and, for each, in the order the watchers came. *)
Theorem poll_delivery f l ms :
  mapM (format_log f) l = Some ms ->
  on_poll None (VArr l) f = (ms ≫= (fun m => (fun cb => Notify cb None m) <$> fl_callbacks f)).
Proof.
  cbn [on_poll]. revert ms. induction l as [|x l IH]; intros ms H; cbn [mapM] in H; [by injection H as <-|].
  apply bind_Some in H as (m & Hm & (ms' & Hms & [= <-])%bind_Some). cbn [on_messages]. rewrite Hm, (IH _ Hms). done.
Qed.

Lemma poll_delivery_witness :
  on_poll None (VArr [VNum 1; VNum 2]) (FilterState VNull (VStr (str "0x1")) [3%nat; 4%nat] [] None None None) =
  [Notify 3 None (VNum 1); Notify 4 None (VNum 1); Notify 3 None (VNum 2); Notify 4 None (VNum 2)].
Proof.
  exact (poll_delivery (FilterState VNull (VStr (str "0x1")) [3%nat; 4%nat] [] None None None)
           [VNum 1; VNum 2] [VNum 1; VNum 2] eq_refl).
Defined.

(** When the node has created the filter, nothing that was asked for before is lost:
    each pending [get] is asked for its logs, each watcher, the one given to the
    constructor included, for the logs there are, and polling starts if there is a
    watcher at all. *)
Theorem filter_started f id :
  truthy id = true -> isString (fl_options f) = false ->
  let '(f', fx) := on_created None id f in
  fl_id f' = id /\ fl_getLogs f' = [] /\
  fl_callbacks f' = fl_callbacks f ++ (match fl_onCreate f with Some cb => [cb] | None => [] end) /\
  (forall cb, cb ∈ fl_getLogs f -> AskLogs id (ForGet cb) ∈ fx) /\
  (forall cb, cb ∈ fl_callbacks f' -> AskLogs id (ForWatch cb) ∈ fx /\ StartPolling id ∈ fx).
Proof.
  intros Hid Ho. unfold on_created. set (f1 := with_getLogs [] (with_id id f)).
  assert (forall cb, getLogsAtStart cb f1 = [AskLogs id (ForWatch cb)]) as Hs.
  { intros cb. unfold getLogsAtStart. cbn. by destruct (fl_options f). }
  set (fx := _ ++ _ ++ _).
  assert (forall cb, cb ∈ fl_getLogs f -> AskLogs id (ForGet cb) ∈ fx) as Hg.
  { intros cb Hcb. apply elem_of_app. left. apply list_elem_of_fmap. by exists cb. }
  assert (forall cb, cb ∈ fl_callbacks f -> AskLogs id (ForWatch cb) ∈ fx /\ StartPolling id ∈ fx) as Hw.
  { intros cb Hcb. split; apply elem_of_app; right; apply elem_of_app; [left|right].
    - apply list_elem_of_bind. exists cb. rewrite Hs. split; [by apply list_elem_of_singleton|done].
    - cbn. destruct (fl_callbacks f); [by apply elem_of_nil in Hcb|by apply list_elem_of_singleton]. }
  change (fl_onCreate f1) with (fl_onCreate f). destruct (fl_onCreate f) as [c|]; cbn [watch].
  - change (fl_id (with_callbacks (fl_callbacks f1 ++ [c]) f1)) with id. rewrite Hid.
    change (getLogsAtStart c (with_callbacks (fl_callbacks f1 ++ [c]) f1)) with (getLogsAtStart c f1). rewrite Hs.
    split_and!; [done|done|done| |].
    + intros cb Hcb. apply elem_of_app. left. by apply Hg.
    + intros cb [Hcb| ->%list_elem_of_singleton]%elem_of_app.
      * destruct (Hw cb Hcb). split; apply elem_of_app; by left.
      * split; apply elem_of_app; right; [left|right; left].
  - rewrite app_nil_r. split_and!; [done|done|done|done|exact Hw].
Qed.

Lemma filter_started_witness :
  let '(f', fx) := on_created None (VStr (str "0x1")) (FilterState (VObj []) VNull [3%nat] [4%nat] None (Some 5%nat) None) in
  fl_id f' = VStr (str "0x1") /\ fl_getLogs f' = [] /\ fl_callbacks f' = [3%nat; 5%nat] /\
  (forall cb, cb ∈ [4%nat] -> AskLogs (VStr (str "0x1")) (ForGet cb) ∈ fx) /\
  (forall cb, cb ∈ fl_callbacks f' -> AskLogs (VStr (str "0x1")) (ForWatch cb) ∈ fx /\ StartPolling (VStr (str "0x1")) ∈ fx).
Proof.
  exact (filter_started (FilterState (VObj []) VNull [3%nat] [4%nat] None (Some 5%nat) None) (VStr (str "0x1")) eq_refl eq_refl).
Defined.

(** A filter that is stopped before the node has created it is watched all the same
    once it has. *)
Theorem stopped_too_early options format cb onError id :
  truthy id = true ->
  let f := (stopWatching (new_filter options format (Some cb) onError).1).1 in
  fl_callbacks (on_created None id f).1 = [cb] /\ StartPolling id ∈ (on_created None id f).2.
Proof.
  intros Hid. cbn [new_filter fst stopWatching on_created with_callbacks with_id with_getLogs fl_getLogs fl_callbacks fl_onCreate fl_id watch].
  split; [done|]. cbn. rewrite Hid. apply elem_of_app. right. by apply list_elem_of_singleton.
Qed.

(** When the creation fails, the callbacks of a pending [get] are not called. *)
Theorem pending_get_dropped f e id cb error r :
  cb ∈ fl_getLogs f -> cb ∉ fl_callbacks f -> fl_onError f <> Some cb ->
  (on_created (Some e) id f).1 = f /\ Notify cb error r ∉ (on_created (Some e) id f).2.
Proof.
  intros _ Hc He. split; [done|]. cbn [on_created snd]. rewrite elem_of_app, list_elem_of_fmap.
  intros [(x & [= -> _ _] & Hx)|Hx]; [done|]. destruct (fl_onError f) as [c|]; [|by apply elem_of_nil in Hx].
  apply list_elem_of_singleton in Hx. injection Hx as -> _ _. done.
Qed.

(** * Synchronisation *)

Definition sync_target (e : sync_effect) : option callback :=
  match e with SyncNow cb _ _ | SyncLater cb _ => Some cb | SyncThrow => None end.

Lemma unchanged_silent cbs last sync : sync_callbacks cbs false last sync = ([], last).
Proof. induction cbs as [|cb cbs IH]; [done|]. exact IH. Qed.

(** A change is told to the first callback only: it records the new state, and to the
    others nothing has changed. *)
Theorem sync_first_only rm cb cbs last sync :
  Forall (fun e => sync_target e = Some cb \/ e = SyncThrow) (on_sync rm None sync (Syncing (cb :: cbs) last)).2.
Proof.
  unfold on_sync. destruct (if isObject sync && truthy _ then _ else _) as [v|]; [|by constructor; [right|constructor]].
  cbn [sy_callbacks sy_last sync_callbacks]. destruct (differs last v); rewrite unchanged_silent; cbn [snd]; [|constructor].
  apply Forall_app. split; [|constructor; [by left|constructor]]. destruct (falsy last && isObject v); [|constructor].
  constructor; [by left|constructor].
Qed.
