(* ===== verification/EventWatch.v ===== *)
(** Filters made by contracts and by [web3.eth] (web3.js 2704-2715, 3325-3340,
    5508-5522, 5736-5738) and the start of a deployment (2972-3028): from the values
    asked for to the filter at the node, and from the node's logs to the callbacks. *)
From S2P Require Import Prelude WordArray Utf8 Digests BigNumber Utils Solidity Coder CoderRoundtrip Iban Rpc Formatters Methods Contracts ContractCalls Filters.

Section Execute.
Context (rm : rounding).

Definition nth_arg (n : nat) (args : list value) : value := default VUndefined (args !! n).
Definition eth_filter (options : value) (cb onError : option callback) : option (filter_state * list filter_effect) :=
  o ← getOptions_eth rm options; Some (new_filter o (Some (outputLogFormatter rm)) cb onError).
Definition newMessageFilter (options : value) (cb onError : option callback) : filter_state * list filter_effect :=
  new_filter (getOptions_shh options) None cb onError.

(** The arguments before the callback: with a callback alone, or one value before it,
    the others are filled in. *)
Definition event_arguments (args : list value) (cb : option callback) : value * value :=
  match cb, args with
  | Some _, [] => (VObj [], VNull)
  | Some _, [indexed] => (indexed, VNull)
  | _, _ => (nth_arg 0 args, nth_arg 1 args)
  end.
Definition event_execute (e : SolidityEvent) (args : list value) (cb : option callback) : option (filter_state * list filter_effect) :=
  let '(indexed, options) := event_arguments args cb in
  o ← event_encode rm e indexed options;
  o ← getOptions_eth rm o;
  Some (new_filter o (Some (event_decode rm e)) cb None).
(** The member under the event's types: the contract is bound as the first argument. *)
Definition typed_event_execute (e : SolidityEvent) (contract : value) (args : list value) (cb : option callback) :=
  event_execute e (contract :: args) cb.
Definition all_execute (json : list abi_item) (address : value) (args : list value) (cb : option callback) :
    option (filter_state * list filter_effect) :=
  let options := match cb, args with Some _, [] => VNull | _, _ => nth_arg 0 args end in
  o ← all_encode rm address options;
  o ← getOptions_eth rm o;
  Some (new_filter o (Some (all_decode rm json address)) cb None).

(** * Deployment *)

Inductive start_effect :=
  | StartSend (transaction : value)
  | StartCall (error : option jsstr)             (* the callback, with the contract when there is no error *)
  | StartThrow.
(** [new]: the transaction is sent; the watching starts with its hash. *)
Definition factory_new (abi : list abi_item) (args : list value) : list start_effect :=
  match new_transaction rm abi args with
  | Some t => [StartSend t]
  | None => [StartThrow]
  end.
(** The answer to the transaction: an error is reported, or thrown without a callback;
    a hash is reported and the watching starts. *)
Definition on_hash (abi : list abi_item) (callback : bool) (error : option jsstr) : option deploy * list start_effect :=
  match error with
  | Some e => (None, if callback then [StartCall (Some e)] else [StartThrow])
  | None => (Some (new_deploy abi callback), if callback then [StartCall None] else [])
  end.
End Execute.

(** * Watching an event *)

Lemma toTopics_text s : toTopics (VStr (str "0x" ++ s)) = Some (VStr (str "0x" ++ s)).
Proof. done. Qed.
Lemma mapM_toTopics ts :
  Forall (fun t => exists s, t = VStr (str "0x" ++ s)) ts -> mapM toTopics ts = Some ts.
Proof. induction 1 as [|t ts [s ->] _ IH]; [done|]. cbn [mapM]. rewrite toTopics_text, IH. done. Qed.

(** The filter options with topics that are texts already. *)
Lemma getOptions_topics rm ts a :
  Forall (fun t => exists s, t = VStr (str "0x" ++ s)) ts ->
  getOptions_eth rm (VObj [(str "topics", VArr ts); (str "address", a)]) =
  Some (VObj [(str "topics", VArr ts); (str "from", VUndefined); (str "to", VUndefined); (str "address", a);
              (str "fromBlock", VUndefined); (str "toBlock", VUndefined)]).
Proof.
  intros H. unfold getOptions_eth.
  change (field (str "topics") (VObj [(str "topics", VArr ts); (str "address", a)])) with (VArr ts). cbv beta iota.
  cbn [mbind option_bind]. rewrite (mapM_toTopics ts H). reflexivity.
Qed.


Definition deposit_event : SolidityEvent :=
  Event [Input (str "from") (str "address") (Some true); Input (str "value") (str "uint256") (Some false)]
    (str "Deposit(address,uint256)") VNull false.
Definition deposit_values : list (abi_input * value) :=
  [(Input (str "from") (str "address") (Some true), VStr (str "0xc6d9d2cd449a754c494264e1809c50e34d64562b"));
   (Input (str "value") (str "uint256") (Some false), VBig (Big 5 0))].
Definition deposit_signature : jsstr := str "e1fffcc4923d04b559f4d29a8bfc6cda04eb5b0d3c460751c2402c5c5cc9109c".


(** Called by its types, the event is not filtered by the values asked for: the
    contract is taken for them, and they for the range of blocks. *)
Theorem typed_event_unfiltered :
  snd <$> typed_event_execute ROUND_DOWN deposit_event (VObj [(str "address", VNull); (str "abi", VArr [])])
    [VObj [(str "from", VStr (str "0xc6d9d2cd449a754c494264e1809c50e34d64562b"))]] (Some 7%nat) =
  Some [AskNewFilter (VObj [(str "topics", VArr [VStr (str "0x" ++ deposit_signature); VNull]); (str "from", VUndefined);
    (str "to", VUndefined); (str "address", VNull); (str "fromBlock", VUndefined); (str "toBlock", VUndefined)])].
Proof. vm_compute. reflexivity. Qed.
