(* ===== verification/IntWords.v ===== *)
(** The width of encoded integers: what the input formatter makes of a number that
    fits the 256-bit word and of one that does not (web3.js 928-933 with 1925-1927
    and 2222-2228). *)
From S2P Require Import Prelude BigNumber Utils Solidity CoderRoundtrip.

Lemma twos_integer z :
  toTwosComplement ROUND_DOWN (VBig (Big z 0)) = Some (Big (if z <? 0 then 2 ^ 256 + z else z) 0).
Proof.
  unfold toTwosComplement, toBigNumber. cbn [falsy mbind option_bind]. rewrite round_dp_integer. unfold lessThan0. cbn [is_neg].
  destruct (Z.ltb_spec z 0); [|done]. do 2 f_equal. unfold plus, all_ones. cbn [Nat.add norm Z.of_nat]. rewrite !Z.pow_0_r. f_equal. lia.
Qed.

Lemma digits_length_lower b z n : 2 <= b -> b ^ Z.of_nat n <= z -> (n < length (to_base b z))%nat.
Proof.
  intros Hb Hz. assert (0 < b ^ Z.of_nat n) by (apply Z.pow_pos_nonneg; lia).
  rewrite to_base_nonneg by lia. rewrite length_fmap.
  pose proof (of_digits_bound b ltac:(lia) (digits b z) (digits_valid b ltac:(lia) z ltac:(lia))) as Hd.
  rewrite of_digits_digits in Hd by lia. apply Nat2Z.inj_lt. apply (Z.pow_lt_mono_r_iff b); lia.
Qed.

(** A text of one character too many is left as it is, a longer one throws. *)
Lemma padLeft_long s n :
  (n < length s)%nat -> padLeft s (Z.of_nat n) = if (length s =? S n)%nat then Some s else None.
Proof.
  intros H. unfold padLeft, repeat_sign, js_len. destruct (Nat.eqb_spec (length s) (S n)).
  - replace (_ <? -1) with false by lia. replace (Z.to_nat (Z.of_nat n - Z.of_nat (length s))) with O by lia. done.
  - by replace (_ <? -1) with true by lia.
Qed.

Lemma word_minus m : m < 0 -> match word (Big m 0) with Some w => 45 ∈ w | None => True end.
Proof.
  intros Hm. unfold word. cbn [toString_base].
  assert (45 ∈ to_base 16 m) as H45 by (unfold to_base; replace (m <? 0) with true by lia; left).
  change 64 with (Z.of_nat 64). destruct (le_lt_dec (length (to_base 16 m)) 64) as [Hl|Hl].
  - rewrite padLeft_spec by lia. apply elem_of_app. by right.
  - rewrite padLeft_long by lia. by destruct (_ =? _)%nat.
Qed.

(** C38. An integer from -2^256 up to 2^256 is encoded in 64 digits, modulo 2^256.  Above,
    a number of 65 digits comes out as it is, one digit longer than a word, and a
    larger one throws; below, a text with a minus sign comes out if anything does. *)
Theorem int_word_bounds z :
  (- 2 ^ 256 <= z < 2 ^ 256 ->
     exists w, formatInputInt (VBig (Big z 0)) = Some (Param w None) /\ length w = 64%nat /\ of_base 16 w = Some (z mod 2 ^ 256)) /\
  (2 ^ 256 <= z < 2 ^ 260 -> formatInputInt (VBig (Big z 0)) = Some (Param (to_base 16 z) None) /\ length (to_base 16 z) = 65%nat) /\
  (2 ^ 260 <= z -> formatInputInt (VBig (Big z 0)) = None) /\
  (z < - 2 ^ 256 -> match formatInputInt (VBig (Big z 0)) with Some p => 45 ∈ p_value p | None => True end).
Proof.
  unfold formatInputInt. rewrite twos_integer. cbn [mbind option_bind]. split_and!; intros Hz.
  - assert ((if z <? 0 then 2 ^ 256 + z else z) = z mod 2 ^ 256) as ->.
    { destruct (Z.ltb_spec z 0); [|by rewrite Z.mod_small by lia]. apply Z.mod_unique with (-1); lia. }
    pose proof (Z.mod_pos_bound z (2 ^ 256) ltac:(lia)) as Hm. rewrite word_integer by done. eexists. split; [done|].
    split; [by apply w64_length|]. unfold w64. apply of_base_padded; lia.
  - replace (z <? 0) with false by lia. unfold word. cbn [toString_base]. change 64 with (Z.of_nat 64).
    pose proof (digits_length_lower 16 z 64 ltac:(lia) ltac:(change (16 ^ Z.of_nat 64) with (2 ^ 256); lia)).
    pose proof (to_base_length 16 z 65 ltac:(lia) ltac:(change (16 ^ Z.of_nat 65) with (2 ^ 260); lia) ltac:(lia)).
    rewrite padLeft_long by lia. assert (length (to_base 16 z) = 65%nat) as E by lia. by rewrite E.
  - replace (z <? 0) with false by lia. unfold word. cbn [toString_base]. change 64 with (Z.of_nat 64).
    pose proof (digits_length_lower 16 z 65 ltac:(lia) ltac:(change (16 ^ Z.of_nat 65) with (2 ^ 260); lia)).
    rewrite padLeft_long by lia. by destruct (Nat.eqb_spec (length (to_base 16 z)) 65); [lia|].
  - replace (z <? 0) with true by lia. pose proof (word_minus (2 ^ 256 + z) ltac:(lia)) as H.
    by destruct (word (Big (2 ^ 256 + z) 0)).
Qed.
